(** * Annotation engine and sandbox migrator of ymir: a shallow embedding

    The development follows the two Python modules it verifies,
    [mir/tools/annotations.py] and [common_utils/sandbox.py].  Python values
    are embedded as Rocq data, exceptions as the [Raise] branch of [result],
    in-place mutation as explicit state passing. *)

From Stdlib Require Import ZArith Lia Ascii String SpecFloat.
From stdpp Require Import gmap strings list fin_maps.

#[local] Open Scope string_scope.
#[local] Open Scope list_scope.
#[local] Open Scope Z_scope.

(* ===================================================================== *)
(** * Python values, exceptions and builtins *)
(* ===================================================================== *)

Module Py.

(** Error codes of [mir.tools.code.MirCode] that [annotations.py] raises. *)
Inductive MirCode :=
| RC_CMD_INVALID_ARGS
| RC_CMD_UNKNOWN_TYPES
| RC_CMD_INVALID_META_YAML_FILE
| RC_CMD_INVALID_ANNO_TYPE
| RC_CMD_MERGE_ERROR.

(** Error codes of [id_definition.error_codes.UpdaterErrorCode] that
    [sandbox.py] raises. *)
Inductive UpdaterErrorCode :=
| INVALID_USER_LABEL_FILE
| INVALID_USER_SPACE_VERSIONS
| BACKUP_DIR_NOT_EMPTY.

(** An error message is a text, or what its f-string renders: a text
    followed by the path of an entry under the sandbox root (the names
    from the root down), the list [list(anno_import_result.keys())], the
    dictionary [ver_to_users]. *)
Inductive message :=
| Msg (text : string)
| MsgPath (text : string) (path : list string)
| MsgNames (names : list string)
| MsgVersions (ver_to_users : list (string * list string)).

(** Exceptions.  [UserException] stands for whatever a caller-supplied
    callable raises that is an instance of [Exception], [UserBaseException]
    for what it raises that is not, such as [KeyboardInterrupt] and
    [SystemExit]. *)
Inductive exn :=
| MirRuntimeError (error_code : MirCode) (error_message : message)
| SandboxError (error_code : UpdaterErrorCode) (error_message : message)
| NotImplementedError
| KeyError
| ValueError
| TypeError
| AttributeError
| OverflowError
| NotADirectoryError
| FileNotFoundError
| FileExistsError
| IsADirectoryError
| ExpatError
| ParseError
| UserException (tag : string)
| UserBaseException (tag : string).

(** [isinstance(e, Exception)]: what [except Exception] catches. *)
Definition is_exception (e : exn) : bool :=
  match e with UserBaseException _ => false | _ => true end.

(** The outcome of a call: a value, or an exception on its way up. *)
Inductive result (A : Type) :=
| Ok (a : A)
| Raise (e : exn).
Arguments Ok {A} a.
Arguments Raise {A} e.

#[export] Instance result_ret : MRet result := fun _ a => Ok a.
#[export] Instance result_bind : MBind result := fun _ _ f r =>
  match r with Ok a => f a | Raise e => Raise e end.

Definition is_Ok {A} (r : result A) : bool :=
  match r with Ok _ => true | Raise _ => false end.

(** Code that mutates a state [S] and may raise: the state reached when
    the exception is raised stays visible to the caller. *)
Definition M (S A : Type) : Type := S → S * result A.

#[export] Instance M_ret S : MRet (M S) := λ _ a s, (s, Ok a).
#[export] Instance M_bind S : MBind (M S) := λ _ _ f m s,
  match m s with
  | (s', Ok a) => f a s'
  | (s', Raise e) => (s', Raise e)
  end.

Definition lift {S A} (r : result A) : M S A := λ s, (s, r).
Definition get {S} : M S S := λ s, (s, Ok s).
Definition modify {S} (f : S → S) : M S unit := λ s, (f s, Ok tt).
Definition raise {S A} (e : exn) : M S A := λ s, (s, Raise e).

(** [for x in xs: body]: the loop stops at the first exception. *)
Fixpoint for_each {S A : Type} (xs : list A) (body : A → M S unit) : M S unit :=
  match xs with
  | [] => mret tt
  | x :: xs' => _ ← body x; for_each xs' body
  end.

(** ** Insertion-ordered [dict] *)

Definition pydict (K V : Type) := list (K * V).

Fixpoint dict_get `{EqDecision K} {V} (d : pydict K V) (k : K) : option V :=
  match d with
  | [] => None
  | (k', v) :: d' => if decide (k' = k) then Some v else dict_get d' k
  end.

Definition dict_contains `{EqDecision K} {V} (d : pydict K V) (k : K) : bool :=
  match dict_get d k with Some _ => true | None => false end.

(** [d[k] = v]: an existing key keeps its place, a new key goes last. *)
Fixpoint dict_set `{EqDecision K} {V} (d : pydict K V) (k : K) (v : V) :
    pydict K V :=
  match d with
  | [] => [(k, v)]
  | (k', v') :: d' =>
      if decide (k' = k) then (k, v) :: d' else (k', v') :: dict_set d' k v
  end.

Definition dict_keys {K V} (d : pydict K V) : list K := d.*1.

(** ** [str] methods

    A text is embedded as the string of the bytes of its UTF-8 encoding.
    A byte that starts no well-formed sequence counts as a character of its
    own, the lone surrogate U+DC80..U+DCFF that Python reads it as under
    [surrogateescape]: no digit, no white space, no letter. *)

Definition ascii_code (c : ascii) : Z := Z.of_nat (nat_of_ascii c).

Definition is_continuation (c : ascii) : bool :=
  (128 <=? ascii_code c) && (ascii_code c <=? 191).

(** The six bits of a continuation byte, after the bits [high]. *)
Definition continue (high : Z) (c : ascii) : Z := high * 64 + (ascii_code c - 128).

(** The code point of the first character of a text and the rest of the
    text; [None] for the empty text and for a sequence that is not
    well-formed (too long a form, a surrogate, beyond U+10FFFF). *)
Definition decode_char (s : string) : option (Z * string) :=
  match s with
  | EmptyString => None
  | String b0 s1 =>
      let n0 := ascii_code b0 in
      if n0 <? 128 then Some (n0, s1)
      else if n0 <? 194 then None
      else if n0 <? 224 then
        match s1 with
        | String b1 s2 =>
            if is_continuation b1 then Some (continue (n0 - 192) b1, s2) else None
        | _ => None
        end
      else if n0 <? 240 then
        match s1 with
        | String b1 (String b2 s3) =>
            let cp := continue (continue (n0 - 224) b1) b2 in
            if is_continuation b1 && is_continuation b2 && (2048 <=? cp)
               && negb ((55296 <=? cp) && (cp <=? 57343))
            then Some (cp, s3) else None
        | _ => None
        end
      else if n0 <? 245 then
        match s1 with
        | String b1 (String b2 (String b3 s4)) =>
            let cp := continue (continue (continue (n0 - 240) b1) b2) b3 in
            if is_continuation b1 && is_continuation b2 && is_continuation b3
               && (65536 <=? cp) && (cp <=? 1114111)
            then Some (cp, s4) else None
        | _ => None
        end
      else None
  end.

(** The characters of a text: the code point of each and its bytes.  The
    length of the text is fuel enough. *)
Fixpoint chars_of (fuel : nat) (s : string) : list (Z * string) :=
  match fuel, s with
  | S fuel', String b0 s1 =>
      match decode_char s with
      | Some (cp, rest) =>
          (cp, substring 0 (String.length s - String.length rest) s)
            :: chars_of fuel' rest
      | None => (56320 + ascii_code b0, String b0 EmptyString) :: chars_of fuel' s1
      end
  | _, _ => []
  end.

Definition chars (s : string) : list (Z * string) := chars_of (String.length s) s.

Definition code_points (s : string) : list Z := (chars s).*1.

Definition unchars (cs : list (Z * string)) : string := String.concat "" cs.*2.

(** [str.isspace] of a character: TAB, LF, VT, FF, CR, FS, GS, RS, US, the
    space, NEL, the no-break space and the spaces and separators beyond
    U+1680. *)
Definition is_space (n : Z) : bool :=
  ((9 <=? n) && (n <=? 13)) || ((28 <=? n) && (n <=? 32)) || (n =? 133) || (n =? 160)
  || (n =? 5760) || ((8192 <=? n) && (n <=? 8202)) || (n =? 8232) || (n =? 8233)
  || (n =? 8239) || (n =? 8287) || (n =? 12288).

Fixpoint drop_while {A} (p : A → bool) (l : list A) : list A :=
  match l with
  | x :: l' => if p x then drop_while p l' else l
  | [] => []
  end.

Definition trim {A} (p : A → bool) (l : list A) : list A :=
  reverse (drop_while p (reverse (drop_while p l))).

(** [s.strip()]. *)
Definition strip (s : string) : string :=
  unchars (trim (λ c, is_space c.1) (chars s)).

Fixpoint contains_char (c : ascii) (s : string) : bool :=
  match s with
  | String c' s' => bool_decide (c' = c) || contains_char c s'
  | EmptyString => false
  end.

(** [s.split(sep)] for a separator of one ASCII character. *)
Fixpoint split (sep : ascii) (s : string) : list string :=
  match s with
  | EmptyString => [EmptyString]
  | String c s' =>
      if decide (c = sep) then EmptyString :: split sep s'
      else match split sep s' with
           | w :: ws => String c w :: ws
           | [] => [String c EmptyString]
           end
  end.

Definition lower_char (c : ascii) : ascii :=
  let n := ascii_code c in
  if (65 <=? n) && (n <=? 90) then ascii_of_nat (Z.to_nat (n + 32)) else c.

(** [s.lower()], as far as ASCII texts go: the letters A to Z and the
    Kelvin sign U+212A (the bytes 226, 132, 170) become the ASCII letters
    that [str.lower] makes of them, and every other character is left as it
    is.  No other character has ASCII characters only in its lower case, so
    for an ASCII text [t], [lower s = t] exactly when [s.lower() == t]; the
    code compares the lower case of a text with ASCII texts only. *)
Fixpoint lower (s : string) : string :=
  match s with
  | String "226" (String "132" (String "170" s')) => String "k" (lower s')
  | String c s' => String (lower_char c) (lower s')
  | EmptyString => EmptyString
  end.

(** ** Decimal digits

    The characters of the category Nd come in runs of ten, from the digit
    zero to the digit nine; these are the zeros of version 14.0 of the
    character database.  [re]'s [\d] on a text and [int] take all of them
    as digits. *)
Definition decimal_zeros : list Z :=
  [48; 1632; 1776; 1984; 2406; 2534; 2662; 2790; 2918; 3046; 3174; 3302; 3430; 3558;
   3664; 3792; 3872; 4160; 4240; 6112; 6160; 6470; 6608; 6784; 6800; 6992; 7088; 7232;
   7248; 42528; 43216; 43264; 43472; 43504; 43600; 44016; 65296; 66720; 68912; 69734;
   69872; 69942; 70096; 70384; 70736; 70864; 71248; 71360; 71472; 71904; 72016; 72784;
   73040; 73120; 92768; 92864; 93008; 120782; 120792; 120802; 120812; 120822; 123200;
   123632; 125264; 130032].

Definition decimal_value (n : Z) : option Z :=
  (λ zero, n - zero)
    <$> List.find (λ zero, (zero <=? n) && (n <=? zero + 9)) decimal_zeros.

(** [re.match(f"\\d{{{n}}}", s)]: [s] starts with [n] decimal digits. *)
Fixpoint match_digits (n : nat) (s : string) : bool :=
  match n with
  | O => true
  | S n' =>
      match decode_char s with
      | Some (cp, rest) =>
          match decimal_value cp with
          | Some _ => match_digits n' rest
          | None => false
          end
      | None => false
      end
  end.

(** ** [int(str)] *)

Inductive digits_state := NeedDigit | AfterDigit.

(** Decimal digits, single underscores allowed between two digits. *)
Fixpoint digits_of (st : digits_state) (acc : Z) (s : list Z) : option Z :=
  match s with
  | [] => match st with AfterDigit => Some acc | NeedDigit => None end
  | c :: s' =>
      match decimal_value c with
      | Some d => digits_of AfterDigit (10 * acc + d) s'
      | None =>
          match st with
          | AfterDigit =>
              if c =? 95 then
                match s' with
                | c' :: _ =>
                    match decimal_value c' with
                    | Some _ => digits_of NeedDigit acc s'
                    | None => None
                    end
                | [] => None
                end
              else None
          | NeedDigit => None
          end
      end
  end.

(** The white space [int] skips: that of [str.isspace] but for FS, GS, RS
    and US, which it refuses. *)
Definition int_space (n : Z) : bool := is_space n && negb ((28 <=? n) && (n <=? 31)).

(** [int(s)] for a [str]: surrounding white space, an optional sign, decimal
    digits; anything else is a [ValueError].  The interpreter's limit on
    the number of digits of a text (4300 by default, where there is one) is
    left out. *)
Definition int (s : string) : result Z :=
  let body := trim int_space (code_points s) in
  let signed :=
    match body with
    | 45 :: r => (-1, r)
    | 43 :: r => (1, r)
    | _ => (1, body)
    end in
  match digits_of NeedDigit 0 signed.2 with
  | Some n => Ok (signed.1 * n)
  | None => Raise ValueError
  end.

(** ** Sets

    A [set] is embedded as a [gset].  Where the code lists a set
    ([list(s)], an assignment of a set to a repeated field, [for x in s]),
    the model lists it with [elements]: each member once.  The order in
    which the interpreter lists a set depends on the hashes of the members
    and on the history of the set; the order of [elements] stands for it. *)

(** ** Sequences compared with [==]

    A [list] and a [tuple] are never equal in Python, whatever they hold. *)
Inductive pyseq :=
| PyList (items : list Z)
| PyTuple (items : list Z).

Definition py_eq (a b : pyseq) : bool :=
  match a, b with
  | PyList xs, PyList ys => bool_decide (xs = ys)
  | PyTuple xs, PyTuple ys => bool_decide (xs = ys)
  | _, _ => false
  end.

End Py.
Export Py.

(* ===================================================================== *)
(** * The class-identifier registry *)
(* ===================================================================== *)

Module ClassIds.

(** Modelled from the spec: the registry of [mir.tools.class_ids]
    ([UserLabels]), whose source is not among the files of the repository
    at hand.  It is the ordered list of [(id, main_name, aliases)] of the
    spec; ids are dense, so the id of an entry is its position.
    [id_and_main_name_for_name] is the spec's [resolve]: it returns the
    owning id and the canonical name, and [-1] with the name as given when
    the name is unknown.  [add_main_name] is the spec's [add]: it appends an
    entry with the next unused id (a name that already resolves keeps its
    entry, main names being unique). *)
Record Label := { main_name : string; aliases : list string }.

Definition UserLabels := list Label.

Fixpoint find_name (labels : list Label) (id : Z) (name : string) :
    option (Z * string) :=
  match labels with
  | [] => None
  | l :: rest =>
      if bool_decide (main_name l = name) || bool_decide (name ∈ aliases l)
      then Some (id, main_name l)
      else find_name rest (id + 1) name
  end.

Definition id_and_main_name_for_name (reg : UserLabels) (name : string) :
    Z * string :=
  default (-1, name) (find_name reg 0 name).

Definition add_main_name (reg : UserLabels) (main_name : string) :
    UserLabels * (Z * string) :=
  match find_name reg 0 main_name with
  | Some found => (reg, found)
  | None =>
      (reg ++ [{| main_name := main_name; aliases := [] |}],
       (Z.of_nat (length reg), main_name))
  end.

Definition add_main_names (reg : UserLabels) (main_names : list string) :
    UserLabels :=
  foldl (λ r n, (add_main_name r n).1) reg main_names.

Definition all_main_names (reg : UserLabels) : list string :=
  main_name <$> reg.

Definition all_ids (reg : UserLabels) : list Z :=
  Z.of_nat <$> seq 0 (length reg).

(** Fails (the spec's NotFound) when the id is unassigned. *)
Definition main_name_for_id (reg : UserLabels) (id : Z) : result string :=
  if id <? 0 then Raise KeyError
  else match reg !! Z.to_nat id with
       | Some l => Ok (main_name l)
       | None => Raise KeyError
       end.

(** [id_for_names(names, drop_unknown_names=True)[0]]: the ids of the names
    that resolve, in the order of [names]. *)
Definition id_for_names_drop_unknown (reg : UserLabels) (names : list string) :
    list Z :=
  filter (λ i, 0 ≤ i) ((λ n, (id_and_main_name_for_name reg n).1) <$> names).

End ClassIds.
Export ClassIds.

(* ===================================================================== *)
(** * The annotation records *)
(* ===================================================================== *)

Module Mirpb.

(** Modelled from the spec: the messages of [mir.protos.mir_command_pb2]
    (the protobuf declaration is not among the files of the repository at
    hand), with the fields that [annotations.py] reads and writes.  The
    spec's data model names them AnnotationSet ([MirAnnotations]),
    TaskAnnotations ([SingleTaskAnnotations]), ImageAnnotations
    ([SingleImageAnnotations]), ObjectAnnotation, MaskAnnotation and
    ImageCustomKeys ([SingleImageCks]).  A message map is a finite map, a
    repeated field a list, a floating-point field an IEEE 754 number; a
    fresh message holds the default of every field.  The annotation type
    unknown is the enumeration's zero, the one falsy value of [type]. *)
Inductive AnnoType := AT_UNKNOWN | AT_DET_BOX | AT_SEG_POLYGON | AT_SEG_MASK.

#[export] Instance AnnoType_eq_dec : EqDecision AnnoType.
Proof. solve_decision. Defined.

Definition float := spec_float.
Definition float_zero : float := S754_zero false.

Definition rgb : Type := Z * Z * Z.

Module Rect.
Record t := mk { x : Z; y : Z; w : Z; h : Z; rotate_angle : float }.
Definition empty : t := mk 0 0 0 0 float_zero.
End Rect.

Module IntPoint.
Record t := mk { x : Z; y : Z; z : Z }.
End IntPoint.

Record ObjectAnnotation := {
  index : Z;
  box : Rect.t;
  class_id : Z;
  score : float;
  anno_quality : float;
  tags : gmap string string;
}.

(** The PNG bytes of a mask are kept as the pixels they decode to (PNG is
    lossless): rows of RGB triples. *)
Record MaskAnnotation := { semantic_mask : list (list rgb) }.

Record SingleImageAnnotations := {
  boxes : list ObjectAnnotation;
  masks : list MaskAnnotation;
  img_class_ids : list Z;
}.

Record ModelMeta := {
  class_names : list string;
  model_rest : string;
}.

Record SingleTaskAnnotations := {
  type : AnnoType;
  image_annotations : gmap string SingleImageAnnotations;
  task_class_ids : list Z;
  map_id_color : gmap Z IntPoint.t;
  eval_class_ids : list Z;
  executor_config : string;
  model : ModelMeta;
}.

Record SingleImageCks := {
  cks : gmap string string;
  image_quality : float;
}.

Record MirAnnotations := {
  prediction : SingleTaskAnnotations;
  ground_truth : SingleTaskAnnotations;
  image_cks : gmap string SingleImageCks;
}.

Record AnnoStats := { class_ids_cnt : gmap Z Z }.

Record MirContext := {
  pred_stats : AnnoStats;
  gt_stats : AnnoStats;
}.

(** Fresh messages. *)
#[export] Instance ObjectAnnotation_inhabited : Inhabited ObjectAnnotation :=
  populate {| index := 0; box := Rect.empty; class_id := 0;
              score := float_zero; anno_quality := float_zero; tags := ∅ |}.
#[export] Instance SingleImageAnnotations_inhabited :
  Inhabited SingleImageAnnotations :=
  populate {| boxes := []; masks := []; img_class_ids := [] |}.
#[export] Instance ModelMeta_inhabited : Inhabited ModelMeta :=
  populate {| class_names := []; model_rest := "" |}.
#[export] Instance SingleTaskAnnotations_inhabited :
  Inhabited SingleTaskAnnotations :=
  populate {| type := AT_UNKNOWN; image_annotations := ∅; task_class_ids := [];
              map_id_color := ∅; eval_class_ids := []; executor_config := "";
              model := inhabitant |}.
#[export] Instance SingleImageCks_inhabited : Inhabited SingleImageCks :=
  populate {| cks := ∅; image_quality := float_zero |}.
#[export] Instance MirAnnotations_inhabited : Inhabited MirAnnotations :=
  populate {| prediction := inhabitant; ground_truth := inhabitant;
              image_cks := ∅ |}.

(** Field assignments. *)
Definition with_boxes (bs : list ObjectAnnotation) (a : SingleImageAnnotations) :=
  {| boxes := bs; masks := masks a; img_class_ids := img_class_ids a |}.
Definition with_masks (ms : list MaskAnnotation) (a : SingleImageAnnotations) :=
  {| boxes := boxes a; masks := ms; img_class_ids := img_class_ids a |}.
Definition with_img_class_ids (ids : list Z) (a : SingleImageAnnotations) :=
  {| boxes := boxes a; masks := masks a; img_class_ids := ids |}.

Definition with_type (ty : AnnoType) (t : SingleTaskAnnotations) :=
  {| type := ty; image_annotations := image_annotations t;
     task_class_ids := task_class_ids t; map_id_color := map_id_color t;
     eval_class_ids := eval_class_ids t; executor_config := executor_config t;
     model := model t |}.
Definition with_image_annotations (m : gmap string SingleImageAnnotations)
    (t : SingleTaskAnnotations) :=
  {| type := type t; image_annotations := m;
     task_class_ids := task_class_ids t; map_id_color := map_id_color t;
     eval_class_ids := eval_class_ids t; executor_config := executor_config t;
     model := model t |}.
Definition with_task_class_ids (ids : list Z) (t : SingleTaskAnnotations) :=
  {| type := type t; image_annotations := image_annotations t;
     task_class_ids := ids; map_id_color := map_id_color t;
     eval_class_ids := eval_class_ids t; executor_config := executor_config t;
     model := model t |}.
Definition with_map_id_color (m : gmap Z IntPoint.t) (t : SingleTaskAnnotations) :=
  {| type := type t; image_annotations := image_annotations t;
     task_class_ids := task_class_ids t; map_id_color := m;
     eval_class_ids := eval_class_ids t; executor_config := executor_config t;
     model := model t |}.
Definition with_eval_class_ids (ids : list Z) (t : SingleTaskAnnotations) :=
  {| type := type t; image_annotations := image_annotations t;
     task_class_ids := task_class_ids t; map_id_color := map_id_color t;
     eval_class_ids := ids; executor_config := executor_config t;
     model := model t |}.
Definition with_executor_config (c : string) (t : SingleTaskAnnotations) :=
  {| type := type t; image_annotations := image_annotations t;
     task_class_ids := task_class_ids t; map_id_color := map_id_color t;
     eval_class_ids := eval_class_ids t; executor_config := c;
     model := model t |}.
Definition with_model (m : ModelMeta) (t : SingleTaskAnnotations) :=
  {| type := type t; image_annotations := image_annotations t;
     task_class_ids := task_class_ids t; map_id_color := map_id_color t;
     eval_class_ids := eval_class_ids t; executor_config := executor_config t;
     model := m |}.

Definition with_prediction (t : SingleTaskAnnotations) (m : MirAnnotations) :=
  {| prediction := t; ground_truth := ground_truth m; image_cks := image_cks m |}.
Definition with_ground_truth (t : SingleTaskAnnotations) (m : MirAnnotations) :=
  {| prediction := prediction m; ground_truth := t; image_cks := image_cks m |}.
Definition with_image_cks (c : gmap string SingleImageCks) (m : MirAnnotations) :=
  {| prediction := prediction m; ground_truth := ground_truth m; image_cks := c |}.

(** The two task-annotation slots of an annotation set. *)
Inductive task_slot := Prediction | GroundTruth.

#[export] Instance task_slot_eq_dec : EqDecision task_slot.
Proof. solve_decision. Defined.

Definition get_task (s : task_slot) (m : MirAnnotations) : SingleTaskAnnotations :=
  match s with Prediction => prediction m | GroundTruth => ground_truth m end.

Definition set_task (s : task_slot) (t : SingleTaskAnnotations)
    (m : MirAnnotations) : MirAnnotations :=
  match s with
  | Prediction => with_prediction t m
  | GroundTruth => with_ground_truth t m
  end.

End Mirpb.
Export Mirpb.

(* ===================================================================== *)
(** * [mir/tools/annotations.py] *)
(* ===================================================================== *)

Module Annotations.

Inductive UnknownTypesStrategy := STOP | IGNORE | ADD.

#[export] Instance UnknownTypesStrategy_eq_dec : EqDecision UnknownTypesStrategy.
Proof. solve_decision. Defined.

(** ** What the importers read

    The importers read files through [xmltodict], [PIL] and [yaml]; those
    parsers are outside the repository, so a directory of annotation files
    is given by what they return. *)

(** A value of the dictionary [xmltodict.parse] returns: [None] (an empty
    element), a text, a dictionary (child elements) or a list (a repeated
    element). *)
#[warnings="-register-all"]
Inductive xmlval :=
| XNone
| XStr (s : string)
| XDict (items : pydict string xmlval)
| XList (items : list xmlval).

(** Python truth value. *)
Definition truthy (v : xmlval) : bool :=
  match v with
  | XNone => false
  | XStr s => negb (bool_decide (s = ""))
  | XDict [] => false
  | XDict _ => true
  | XList [] => false
  | XList _ => true
  end.

(** [d.get(key, dflt)]. *)
Definition xget (d : xmlval) (key : string) (dflt : xmlval) : result xmlval :=
  match d with
  | XDict items => Ok (default dflt (dict_get items key))
  | _ => Raise AttributeError
  end.

(** [d[key]]. *)
Definition xgetitem (d : xmlval) (key : string) : result xmlval :=
  match d with
  | XDict items =>
      match dict_get items key with Some v => Ok v | None => Raise KeyError end
  | _ => Raise TypeError
  end.

(** [<name>.xml]: empty; not XML ([xmltodict.parse] raises); XML without an
    [annotation] root (the subscript raises); or the value of
    [xmltodict.parse(text)['annotation']]. *)
Inductive XmlFile :=
| XmlEmpty
| XmlMalformed
| XmlNoAnnotation
| XmlParsed (annotation : xmlval).

(** [SegmentationClass/<name>.png]: [Image.open] fails, or gives an image of
    some format whose RGB conversion is a matrix of pixels. *)
Inductive MaskFile :=
| MaskUnreadable
| MaskImage (format : string) (pixels : list (list rgb)).

(** The [eval_class_names] of [meta.yaml]: missing or falsy; truthy but
    not iterable (a number, [True]), which [list] refuses; or a value whose
    [list] is a list of texts: a list of texts, a dictionary with its keys,
    a text with its characters.  A list that holds other values than texts
    is left out: what becomes of them is up to the registry. *)
Inductive YamlNames :=
| NamesFalsy
| NamesNotIterable
| Names (names : list string).

(** [meta.yaml] loaded as a dictionary.  Its [model] entry is given by what
    [ParseDict] does with it to the message it is given, merging the entry
    into the message or raising on the way; its [executor_config] by what
    [json.dumps] makes of it, a text or an exception; both only when the
    key is there. *)
Record MetaDict := {
  meta_model : option (M ModelMeta unit);
  meta_eval_class_names : YamlNames;
  meta_executor_config : option (result string);
}.

Inductive MetaYaml :=
| MetaNotDict
| MetaLoaded (d : MetaDict).

(** An annotation directory. *)
Record AnnoDir := {
  SegmentationClass : option (gmap string MaskFile);
  labelmap_txt : option (list string);
  xml_files : gmap string XmlFile;
  meta_yaml : option MetaYaml;
}.

(** ** The state the importers mutate *)

Record ImportState := {
  mir_annotation : MirAnnotations;
  class_type_manager : UserLabels;
  accu_new_class_names : pydict string Z;
}.

Definition on_mir_annotation (f : MirAnnotations → MirAnnotations)
    (st : ImportState) : ImportState :=
  {| mir_annotation := f (mir_annotation st);
     class_type_manager := class_type_manager st;
     accu_new_class_names := accu_new_class_names st |}.

Definition on_class_type_manager (f : UserLabels → UserLabels)
    (st : ImportState) : ImportState :=
  {| mir_annotation := mir_annotation st;
     class_type_manager := f (class_type_manager st);
     accu_new_class_names := accu_new_class_names st |}.

Definition on_accu (f : pydict string Z → pydict string Z)
    (st : ImportState) : ImportState :=
  {| mir_annotation := mir_annotation st;
     class_type_manager := class_type_manager st;
     accu_new_class_names := f (accu_new_class_names st) |}.

(** [image_annotations] is one of the two task slots of [mir_annotation]. *)
Definition on_task (slot : task_slot)
    (f : SingleTaskAnnotations → SingleTaskAnnotations) : ImportState → ImportState :=
  on_mir_annotation (λ m, set_task slot (f (get_task slot m)) m).

(** [m[k]] on a message map creates the entry when it is missing; [f] is
    what is then done to the entry. *)
Definition on_entry `{Countable K} `{Inhabited V} (k : K) (f : V → V)
    (m : gmap K V) : gmap K V :=
  <[k := f (default inhabitant (m !! k))]> m.

Definition on_image (slot : task_slot) (asset_hash : string)
    (f : SingleImageAnnotations → SingleImageAnnotations) : ImportState → ImportState :=
  on_task slot (λ t, with_image_annotations
                       (on_entry asset_hash f (image_annotations t)) t).

Definition on_image_cks (asset_hash : string)
    (f : SingleImageCks → SingleImageCks) : ImportState → ImportState :=
  on_mir_annotation (λ m, with_image_cks (on_entry asset_hash f (image_cks m)) m).

(** [int(f)] for a float: truncation towards zero. *)
Definition int_of_float (f : float) : result Z :=
  match f with
  | S754_zero _ => Ok 0
  | S754_infinity _ => Raise OverflowError
  | S754_nan => Raise ValueError
  | S754_finite s m e =>
      let a := if 0 <=? e then Z.pos m * 2 ^ e else Z.pos m / 2 ^ (- e) in
      Ok (if s then - a else a)
  end.

(** ** [_parse_labelmap]

    [label_map_file] is [None] when [labelmap.txt] is not a file, else the
    lines [readlines] returns. *)
Fixpoint labelmap_records (records : list string) (class_type_manager : UserLabels)
    (map_cname_color : pydict string rgb) : result (pydict string rgb) :=
  match records with
  | [] => Ok map_cname_color
  | record :: records' =>
      let continue := labelmap_records records' class_type_manager in
      let record := strip record in
      if negb (contains_char ":" record) || bool_decide (record = "") then
        (* place-holder line, skipping. *)
        continue map_cname_color
      else
        match split ":" record with
        | [name; colors; _; _] =>
            pos_ints ← mapM int (split "," colors);
            let pos_ints :=
              match pos_ints with
              | [g] => [g; g; g]  (* single channel to 3 channels. *)
              | _ => pos_ints
              end in
            match pos_ints with
            | [r; g; b] =>
                if py_eq (PyList pos_ints) (PyTuple [0; 0; 0]) then
                  (* ignore background color. *)
                  continue map_cname_color
                else
                  let '(_, cname) :=
                    id_and_main_name_for_name class_type_manager name in
                  continue (dict_set map_cname_color cname (r, g, b))
            | _ => continue map_cname_color  (* invalid labelmap color idx *)
            end
        | _ => continue map_cname_color  (* invalid labelmap line *)
        end
  end.

Definition _parse_labelmap (label_map_file : option (list string))
    (class_type_manager : UserLabels) : result (pydict string rgb) :=
  match label_map_file with
  | None =>
      Raise (MirRuntimeError RC_CMD_INVALID_ARGS (Msg "labelmap.txt is required."))
  | Some records => labelmap_records records class_type_manager []
  end.

(** ** Pixel masks ([numpy] arrays of shape height x width x 3) *)

(** [r & g & b] at one pixel. *)
Definition pixel_is (c p : rgb) : bool := bool_decide (p = c).

(** [np.any(mask)]. *)
Definition any_pixel (c : rgb) (img : list (list rgb)) : bool :=
  existsb (existsb (pixel_is c)) img.

(** [np_mask[mask] = color]. *)
Definition paint (c : rgb) (img np_mask : list (list rgb)) : list (list rgb) :=
  zip_with (zip_with (λ p q, if pixel_is c p then c else q)) img np_mask.

(** [np.zeros(shape=(height, width, 3))]. *)
Definition zeros_like (img : list (list rgb)) : list (list rgb) :=
  map (map (λ _, (0, 0, 0))) img.

Section Importers.

(** [float(s)] for a text [s] ([None]: [ValueError]), and the range an
    integer field of a message accepts (outside it the assignment raises
    [ValueError]); the first is Python's, the second the protobuf
    declaration's. *)
Variable float_of_str : string → option float.
Variable int_field_ok : Z → bool.

Definition py_float (v : xmlval) : result float :=
  match v with
  | XStr s =>
      match float_of_str s with Some f => Ok f | None => Raise ValueError end
  | _ => Raise TypeError
  end.

(** [int(float(v))]. *)
Definition py_int_float (v : xmlval) : result Z :=
  py_float v ≫= int_of_float.

Definition int_field (v : Z) : result Z :=
  if int_field_ok v then Ok v else Raise ValueError.

(** [m[key] = value] on a message map of texts: both are to be texts. *)
Definition str_map_set (key value : xmlval) : M (gmap string string) unit :=
  match key, value with
  | XStr k, XStr v => modify (insert k v)
  | _, _ => raise TypeError
  end.

(** [key, value = item]: a text of two characters gives its characters, a
    dictionary of two keys its keys, a list of two items its items; any
    other length is a [ValueError], and [None] cannot be unpacked. *)
Definition unpack_pair (item : xmlval) : result (xmlval * xmlval) :=
  match item with
  | XStr t =>
      match chars t with
      | [(_, k); (_, v)] => Ok (XStr k, XStr v)
      | _ => Raise ValueError
      end
  | XDict items =>
      match dict_keys items with
      | [k; v] => Ok (XStr k, XStr v)
      | _ => Raise ValueError
      end
  | XList [k; v] => Ok (k, v)
  | XList _ => Raise ValueError
  | XNone => Raise TypeError
  end.

(** [m.update(v)] on a message map of texts ([MutableMapping.update]): the
    entries of a dictionary are entered one by one; the items of a list
    are unpacked into a key and a value and entered one by one; a text
    fails at its first character.  What was entered before a failure
    stays. *)
Fixpoint str_map_update (items : pydict string xmlval) : M (gmap string string) unit :=
  match items with
  | [] => mret tt
  | (k, v) :: rest => _ ← str_map_set (XStr k) v; str_map_update rest
  end.

Fixpoint str_map_update_pairs (items : list xmlval) : M (gmap string string) unit :=
  match items with
  | [] => mret tt
  | item :: rest =>
      pair ← lift (unpack_pair item);
      _ ← str_map_set pair.1 pair.2;
      str_map_update_pairs rest
  end.

Definition update_str_map (v : xmlval) : M (gmap string string) unit :=
  match v with
  | XDict items => str_map_update items
  | XList items => str_map_update_pairs items
  | XStr _ => raise ValueError
  | XNone => raise TypeError
  end.

(** The state a computation ends in, when it does not raise. *)
Definition final {S} (run : S * result unit) : result S :=
  match run with
  | (s, Ok _) => Ok s
  | (_, Raise e) => Raise e
  end.

Definition _object_dict_to_annotation (object_dict : xmlval) (cid : Z) :
    result ObjectAnnotation :=
  (* Fill shared fields. *)
  class_id ← int_field cid;
  score ← (xget object_dict "confidence" (XStr "-1.0") ≫= py_float);
  anno_quality ← (xget object_dict "box_quality" (XStr "-1.0") ≫= py_float);
  tags_v ← xget object_dict "tags" (XDict []);
  tags ← (if truthy tags_v then final (update_str_map tags_v ∅) else Ok ∅);
  bndbox ← xget object_dict "bndbox" XNone;
  if truthy bndbox then
    xmin ← (xgetitem bndbox "xmin" ≫= py_int_float);
    ymin ← (xgetitem bndbox "ymin" ≫= py_int_float);
    xmax ← (xgetitem bndbox "xmax" ≫= py_int_float);
    ymax ← (xgetitem bndbox "ymax" ≫= py_int_float);
    let width := xmax - xmin + 1 in
    let height := ymax - ymin + 1 in
    x ← int_field xmin;
    y ← int_field ymin;
    w ← int_field width;
    h ← int_field height;
    rotate_angle ← (xget bndbox "rotate_angle" (XStr "0.0") ≫= py_float);
    Ok {| index := 0; box := Rect.mk x y w h rotate_angle; class_id := class_id;
          score := score; anno_quality := anno_quality; tags := tags |}
  else
    polygon ← xget object_dict "polygon" XNone;
    if truthy polygon then Raise NotImplementedError
    else Raise (MirRuntimeError RC_CMD_INVALID_ARGS
                  (Msg "no value for bndbox or polygon")).

(** ** [_import_annotations_seg_mask] *)

(** The body of [for name, color in map_cname_color.items()], with the
    local [map_color_cid] beside the state. *)
Definition seg_mask_color (slot : task_slot) (item : string * rgb) :
    M (ImportState * pydict rgb Z) unit := λ '(st, map_color_cid),
  let '(name, color) := item in
  let '(cid, cname) := id_and_main_name_for_name (class_type_manager st) name in
  let st :=
    if dict_contains (accu_new_class_names st) cname then st
    else on_accu (λ a, dict_set a cname 0) st in
  if 0 <=? cid then
    match (x ← int_field color.1.1; y ← int_field color.1.2;
           z ← int_field color.2; Ok (IntPoint.mk x y z)) with
    | Ok point =>
        ((on_task slot
            (λ t, with_map_id_color (<[cid := point]> (map_id_color t)) t) st,
          dict_set map_color_cid color cid), Ok tt)
    | Raise e => ((st, map_color_cid), Raise e)
    end
  else ((st, map_color_cid), Ok tt).

(** The body of [for color in map_color_cid], over [np_mask] and
    [img_class_ids]. *)
Definition seg_mask_paint (map_color_cid : pydict rgb Z) (img : list (list rgb))
    (acc : list (list rgb) * gset Z) (color : rgb) : list (list rgb) * gset Z :=
  let '(np_mask, img_class_ids) := acc in
  if any_pixel color img then
    (paint color img np_mask,
     {[ default 0 (dict_get map_color_cid color) ]} ∪ img_class_ids)
  else acc.

(** The body of [for asset_hash, main_file_name in map_hashed_filename.items()]. *)
Definition seg_mask_asset (slot : task_slot) (dir : AnnoDir)
    (map_color_cid : pydict rgb Z) (item : string * string) : M ImportState unit :=
  let '(asset_hash, main_file_name) := item in
  match SegmentationClass dir ≫= (λ files, files !! main_file_name) with
  | None => mret tt                      (* not os.path.isfile *)
  | Some MaskUnreadable => mret tt       (* UnidentifiedImageError, OSError *)
  | Some (MaskImage format img) =>
      if negb (bool_decide (lower format = "png")) then mret tt
      else
        let '(np_mask, img_class_ids) :=
          foldl (seg_mask_paint map_color_cid img) (zeros_like img, ∅)
            (dict_keys map_color_cid) in
        modify (on_image slot asset_hash (λ a,
          with_img_class_ids (elements img_class_ids)
            (with_masks (masks a ++ [{| semantic_mask := np_mask |}]) a)))
  end.

Definition _import_annotations_seg_mask (map_hashed_filename : pydict string string)
    (dir : AnnoDir) (unknown_types_strategy : UnknownTypesStrategy)
    (slot : task_slot) : M ImportState unit :=
  st ← get;
  map_cname_color ← lift (_parse_labelmap (labelmap_txt dir) (class_type_manager st));
  (* batch add all names, including unknown/known names. *)
  _ ← (if decide (unknown_types_strategy = ADD)
       then modify (on_class_type_manager
                      (λ reg, add_main_names reg (dict_keys map_cname_color)))
       else mret tt);
  (* build color map, map all unknown classes to background (0, 0, 0). *)
  map_color_cid ← (λ st,
    match for_each map_cname_color (seg_mask_color slot) (st, []) with
    | ((st', map_color_cid), Ok _) => (st', Ok map_color_cid)
    | ((st', _), Raise e) => (st', Raise e)
    end);
  for_each map_hashed_filename (seg_mask_asset slot dir map_color_cid).

(** ** [_import_annotations_voc_xml] *)

(** What [for object_dict in objects] iterates over. *)
Definition objects_of (objects : xmlval) : result (list xmlval) :=
  match objects with
  | XDict _ => Ok [objects]
  | XList items => Ok items
  | XStr s => Ok ((λ c, XStr (String c "")) <$> list_ascii_of_string s)
  | XNone => Raise TypeError
  end.

(** [object_dict['name']], which the registry takes as a text. *)
Definition object_name (object_dict : xmlval) : result string :=
  v ← xgetitem object_dict "name";
  match v with XStr name => Ok name | _ => Raise TypeError end.

(** The body of [for object_dict in objects], with the locals [anno_idx]
    and [img_class_ids] beside the state. *)
Definition voc_xml_object (slot : task_slot) (asset_hash : string)
    (add_if_not_found : bool) (object_dict : xmlval) :
    M (ImportState * (Z * gset Z)) unit := λ '(st, (anno_idx, img_class_ids)),
  match object_name object_dict with
  | Raise e => ((st, (anno_idx, img_class_ids)), Raise e)
  | Ok name =>
      let '(cid, new_type_name) :=
        id_and_main_name_for_name (class_type_manager st) name in
      (* check if seen this class_name. *)
      let '(st, cid) :=
        match dict_get (accu_new_class_names st) new_type_name with
        | Some n => (on_accu (λ a, dict_set a new_type_name (n + 1)) st, cid)
        | None =>
            (* for unseen class_name, only care about negative cid. *)
            if cid <? 0 then
              let '(st, cid) :=
                if add_if_not_found then
                  let '(reg, (cid', _)) :=
                    add_main_name (class_type_manager st) new_type_name in
                  (on_class_type_manager (λ _, reg) st, cid')
                else (st, cid) in
              (on_accu (λ a, dict_set a new_type_name 0) st, cid)
            else (st, cid)
        end in
      if 0 <=? cid then
        match (annotation ← _object_dict_to_annotation object_dict cid;
               index ← int_field anno_idx;
               Ok {| index := index; box := box annotation;
                     class_id := class_id annotation; score := score annotation;
                     anno_quality := anno_quality annotation;
                     tags := tags annotation |}) with
        | Raise e => ((st, (anno_idx, img_class_ids)), Raise e)
        | Ok annotation =>
            ((on_image slot asset_hash
                (λ a, with_boxes (boxes a ++ [annotation]) a) st,
              (anno_idx + 1, {[cid]} ∪ img_class_ids)), Ok tt)
        end
      else ((st, (anno_idx, img_class_ids)), Ok tt)
  end.

(** The body of [for asset_hash, main_file_name in map_hashed_filename.items()],
    with the local [task_class_ids] beside the state. *)
Definition voc_xml_asset (slot : task_slot) (dir : AnnoDir) (add_if_not_found : bool)
    (item : string * string) : M (ImportState * gset Z) unit :=
  λ '(st, task_class_ids),
  let '(asset_hash, main_file_name) := item in
  let fail st e := ((st, task_class_ids), @Raise unit e) in
  match xml_files dir !! main_file_name with
  | None => ((st, task_class_ids), Ok tt)          (* not os.path.isfile *)
  | Some XmlEmpty => ((st, task_class_ids), Ok tt) (* cannot open annotation_file *)
  | Some XmlMalformed => fail st ExpatError
  | Some XmlNoAnnotation => fail st KeyError
  | Some (XmlParsed annos_dict) =>
      (* cks *)
      match xget annos_dict "cks" (XDict []) with
      | Raise e => fail st e
      | Ok cks_v =>
          let st_cks :=
            if truthy cks_v then
              let '(m, r) :=
                update_str_map cks_v
                  (cks (default inhabitant
                          (image_cks (mir_annotation st) !! asset_hash))) in
              (on_image_cks asset_hash
                 (λ c, {| cks := m; image_quality := image_quality c |}) st, r)
            else (st, Ok tt) in
          match st_cks with
          | (st, Raise e) => fail st e
          | (st, Ok _) =>
              match xget annos_dict "image_quality" (XStr "-1.0") ≫= py_float with
              | Raise e => fail st e
              | Ok quality =>
                  let st := on_image_cks asset_hash
                    (λ c, {| cks := cks c; image_quality := quality |}) st in
                  (* annotations and tags *)
                  match xget annos_dict "object" (XList []) ≫= objects_of with
                  | Raise e => fail st e
                  | Ok objects =>
                      match for_each objects
                              (voc_xml_object slot asset_hash add_if_not_found)
                              (st, (0, ∅)) with
                      | ((st, _), Raise e) => fail st e
                      | ((st, (_, img_class_ids)), Ok _) =>
                          ((on_image slot asset_hash
                              (with_img_class_ids (elements img_class_ids)) st,
                            img_class_ids ∪ task_class_ids), Ok tt)
                      end
                  end
              end
          end
      end
  end.

Definition _import_annotations_voc_xml (map_hashed_filename : pydict string string)
    (dir : AnnoDir) (unknown_types_strategy : UnknownTypesStrategy)
    (slot : task_slot) : M ImportState unit := λ st,
  let add_if_not_found := bool_decide (unknown_types_strategy = ADD) in
  match for_each map_hashed_filename (voc_xml_asset slot dir add_if_not_found)
          (st, ∅) with
  | ((st, _), Raise e) => (st, Raise e)
  | ((st, task_class_ids), Ok _) =>
      (on_task slot (with_task_class_ids (elements task_class_ids)) st, Ok tt)
  end.

(** ** [_import_annotation_meta] *)

Definition _import_annotation_meta (dir : AnnoDir) (slot : task_slot) :
    M ImportState unit :=
  match meta_yaml dir with
  | None => mret tt
  | Some MetaNotDict =>
      raise (MirRuntimeError RC_CMD_INVALID_META_YAML_FILE (Msg "Invalid meta.yaml"))
  | Some (MetaLoaded d) =>
      (* model *)
      _ ← match meta_model d with
          | None => mret tt
          | Some parse_dict => λ st,
              let parsed := parse_dict (model (get_task slot (mir_annotation st))) in
              (on_task slot (with_model parsed.1) st, parsed.2)
          end;
      (* eval_class_ids *)
      st ← get;
      eval_class_names ←
        match meta_eval_class_names d with
        | Names (n :: ns) => mret (n :: ns)
        | NamesNotIterable => raise TypeError
        | _ => mret (class_names (model (get_task slot (mir_annotation st))))
        end;
      let ids : gset Z :=
        list_to_set (id_for_names_drop_unknown (class_type_manager st)
                       eval_class_names) in
      _ ← modify (on_task slot (with_eval_class_ids (elements ids)));
      (* executor_config *)
      match meta_executor_config d with
      | Some (Ok c) => modify (on_task slot (with_executor_config c))
      | Some (Raise e) => raise e
      | None => mret tt
      end
  end.

(** ** [_annotation_parse_func], [_import_annotations_from_dir] *)

Definition _annotation_parse_func (anno_type : AnnoType) :
    result (pydict string string → AnnoDir → UnknownTypesStrategy →
            task_slot → M ImportState unit) :=
  match anno_type with
  | AT_DET_BOX => Ok _import_annotations_voc_xml
  | AT_SEG_POLYGON => Ok _import_annotations_voc_xml
  | AT_SEG_MASK => Ok _import_annotations_seg_mask
  | AT_UNKNOWN => Raise NotImplementedError
  end.

Definition _import_annotations_from_dir (map_hashed_filename : pydict string string)
    (dir : AnnoDir) (unknown_types_strategy : UnknownTypesStrategy)
    (slot : task_slot) (anno_type : AnnoType) : M ImportState unit :=
  (* set to seg type if SegmentationClass and labelmap.txt exist. *)
  let anno_type :=
    match SegmentationClass dir, labelmap_txt dir with
    | Some _, Some _ => AT_SEG_MASK
    | _, _ => anno_type
    end in
  _ ← modify (on_task slot (with_type anno_type));
  parse ← lift (_annotation_parse_func anno_type);
  parse map_hashed_filename dir unknown_types_strategy slot.

(** ** [import_annotations]

    [label_storage] is the registry [load_or_create_userlabels] returns for
    [label_storage_file]; a directory argument is [None] when its path is
    the empty text.  The final state holds the annotation set and the
    registry as the call leaves them. *)
Definition import_annotations (mir_annotation : MirAnnotations)
    (label_storage : UserLabels) (prediction_dir groundtruth_dir : option AnnoDir)
    (map_hashed_filename : pydict string string)
    (unknown_types_strategy : UnknownTypesStrategy) (anno_type : AnnoType) :
    ImportState * result (pydict string Z) :=
  (_ ← match prediction_dir with
       | Some dir =>
           _ ← _import_annotations_from_dir map_hashed_filename dir
                 unknown_types_strategy Prediction anno_type;
           _import_annotation_meta dir Prediction
       | None => mret tt
       end;
   _ ← match groundtruth_dir with
       | Some dir =>
           _import_annotations_from_dir map_hashed_filename dir
             unknown_types_strategy GroundTruth anno_type
       | None => mret tt
       end;
   st ← get;
   let anno_import_result := accu_new_class_names st in
   if bool_decide (unknown_types_strategy = STOP)
      && negb (bool_decide (anno_import_result = []))
   then raise (MirRuntimeError RC_CMD_UNKNOWN_TYPES
                 (MsgNames (dict_keys anno_import_result)))
   else mret anno_import_result)
  {| mir_annotation := mir_annotation; class_type_manager := label_storage;
     accu_new_class_names := [] |}.

End Importers.

(** ** [copy_annotations] *)

Definition with_class_id (cid : Z) (a : ObjectAnnotation) : ObjectAnnotation :=
  {| index := index a; box := box a; class_id := cid; score := score a;
     anno_quality := anno_quality a; tags := tags a |}.

(** [for annotation in single_image_annotations.boxes]: the boxes as the
    loop leaves them (a class id is rewritten in place), and the list
    [dst_image_annotations] unless a class id is not a key of
    [src_to_dst_ids]. *)
Fixpoint change_boxes (src_to_dst_ids : gmap Z Z) (boxes : list ObjectAnnotation) :
    list ObjectAnnotation * result (list ObjectAnnotation) :=
  match boxes with
  | [] => ([], Ok [])
  | annotation :: rest =>
      match src_to_dst_ids !! class_id annotation with
      | None => (boxes, Raise KeyError)
      | Some dst_class_id =>
          if 0 <=? dst_class_id then
            let annotation := with_class_id dst_class_id annotation in
            let '(rest', dst) := change_boxes src_to_dst_ids rest in
            (annotation :: rest', dst ≫= λ l, Ok (annotation :: l))
          else
            let '(rest', dst) := change_boxes src_to_dst_ids rest in
            (annotation :: rest', dst)
      end
  end.

(** The body of [for single_image_annotations in ...values()]. *)
Definition change_image (src_to_dst_ids : gmap Z Z)
    (item : string * SingleImageAnnotations) : M SingleTaskAnnotations unit := λ t,
  let '(asset_id, single_image_annotations) := item in
  let '(mutated, dst) := change_boxes src_to_dst_ids (boxes single_image_annotations) in
  let store bs :=
    with_image_annotations
      (<[asset_id := with_boxes bs single_image_annotations]> (image_annotations t)) t in
  match dst with
  | Ok dst_image_annotations => (store dst_image_annotations, Ok tt)
  | Raise e => (store mutated, Raise e)
  end.

Fixpoint change_eval_class_ids (src_to_dst_ids : gmap Z Z) (ids : list Z) :
    result (list Z) :=
  match ids with
  | [] => Ok []
  | src_class_id :: rest =>
      match src_to_dst_ids !! src_class_id with
      | None => Raise KeyError
      | Some dst_class_id =>
          dst ← change_eval_class_ids src_to_dst_ids rest;
          Ok (if 0 <=? dst_class_id then dst_class_id :: dst else dst)
      end
  end.

Definition _change_annotations_type_ids (src_to_dst_ids : gmap Z Z) :
    M SingleTaskAnnotations unit :=
  t ← get;
  _ ← for_each (map_to_list (image_annotations t)) (change_image src_to_dst_ids);
  t ← get;
  dst_eval_class_ids ← lift (change_eval_class_ids src_to_dst_ids (eval_class_ids t));
  modify (with_eval_class_ids dst_eval_class_ids).

(** [m[k]] on a map of numbers: a missing key reads as 0 and is entered. *)
Definition count_of (k : Z) (stats : AnnoStats) : AnnoStats * Z :=
  match class_ids_cnt stats !! k with
  | Some n => (stats, n)
  | None => ({| class_ids_cnt := <[k := 0]> (class_ids_cnt stats) |}, 0)
  end.

(** The body of [for src_id in unknown_src_class_ids]. *)
Definition unknown_name_and_count (src_class_id_mgr : UserLabels) (src_id : Z) :
    M (MirContext * pydict string Z) unit := λ '(mir_context, unknown_names_and_count),
  match main_name_for_id src_class_id_mgr src_id with
  | Raise e => ((mir_context, unknown_names_and_count), Raise e)
  | Ok name =>
      let '(pred, cnt_gt) := count_of src_id (pred_stats mir_context) in
      let '(gt, cnt_pred) := count_of src_id (gt_stats mir_context) in
      (({| pred_stats := pred; gt_stats := gt |},
        dict_set unknown_names_and_count name (cnt_gt + cnt_pred)), Ok tt)
  end.

Definition _gen_unknown_names_and_count (src_class_id_mgr : UserLabels)
    (src_to_dst_ids : gmap Z Z) : M MirContext (pydict string Z) := λ mir_context,
  let all_src_class_ids : gset Z :=
    dom (class_ids_cnt (pred_stats mir_context))
    ∪ dom (class_ids_cnt (gt_stats mir_context)) in
  match mapM (M := result)
          (λ src_id, match src_to_dst_ids !! src_id with
                     | Some dst => Ok (src_id, dst)
                     | None => Raise KeyError
                     end) (elements all_src_class_ids) with
  | Raise e => (mir_context, Raise e)
  | Ok pairs =>
      let unknown_src_class_ids := (filter (λ p, p.2 = -1) pairs).*1 in
      match unknown_src_class_ids with
      | [] => (mir_context, Ok ([] : pydict string Z))
      | _ =>
          match for_each unknown_src_class_ids
                  (unknown_name_and_count src_class_id_mgr) (mir_context, []) with
          | ((mir_context, names), Ok _) => (mir_context, Ok names)
          | ((mir_context, _), Raise e) => (mir_context, Raise e)
          end
      end
  end.

Section Copy.

(** [class_ids.load_or_create_userlabels]: the registry kept in a label
    file. *)
Variable load_or_create_userlabels : string → UserLabels.

Definition copy_annotations (data_label_storage_file label_storage_file : string) :
    M (MirAnnotations * MirContext) (pydict string Z) := λ '(mir_annotations, mir_context),
  if bool_decide (data_label_storage_file = label_storage_file)
     || (bool_decide (size (image_annotations (prediction mir_annotations)) = 0%nat)
         && bool_decide (size (image_annotations (ground_truth mir_annotations)) = 0%nat))
  then
    (* no need to make any changes to annotations *)
    ((mir_annotations, mir_context), Ok [])
  else
    (* need to change class ids *)
    let src_class_id_mgr := load_or_create_userlabels data_label_storage_file in
    let dst_class_id_mgr := load_or_create_userlabels label_storage_file in
    let src_to_dst_ids : gmap Z Z :=
      list_to_map (reverse
        ((λ n, ((id_and_main_name_for_name src_class_id_mgr n).1,
                (id_and_main_name_for_name dst_class_id_mgr n).1))
           <$> all_main_names src_class_id_mgr)) in
    let '(pred, r) :=
      _change_annotations_type_ids src_to_dst_ids (prediction mir_annotations) in
    let mir_annotations := with_prediction pred mir_annotations in
    match r with
    | Raise e => ((mir_annotations, mir_context), Raise e)
    | Ok _ =>
        let '(gt, r) :=
          _change_annotations_type_ids src_to_dst_ids (ground_truth mir_annotations) in
        let mir_annotations := with_ground_truth gt mir_annotations in
        match r with
        | Raise e => ((mir_annotations, mir_context), Raise e)
        | Ok _ =>
            let '(mir_context, names) :=
              _gen_unknown_names_and_count src_class_id_mgr src_to_dst_ids mir_context in
            ((mir_annotations, mir_context), names)
        end
    end.

End Copy.

(** ** [filter_annotations], [sampling_annotations]

    Both build a fresh annotation set; the entries they read are entries
    of the source, which stays as it is. *)

Definition copy_annotations_pred_meta (src_task_annotations dst_task_annotations :
    SingleTaskAnnotations) : SingleTaskAnnotations :=
  with_model (model src_task_annotations)
    (with_executor_config (executor_config src_task_annotations)
       (with_eval_class_ids (eval_class_ids src_task_annotations)
          dst_task_annotations)).

(** [dst[k].CopyFrom(src[k])] into a map of the fresh set. *)
Definition copy_entry `{Inhabited V} (src : gmap string V) (dst : gmap string V)
    (k : string) : gmap string V :=
  <[k := default inhabitant (src !! k)]> dst.

Definition _gen_filter_task_annotations (src_task_annotations dst_task_annotations :
    SingleTaskAnnotations) (asset_ids : gset string) : SingleTaskAnnotations :=
  let dst := with_type (type src_task_annotations) dst_task_annotations in
  let joint_ids := asset_ids ∩ dom (image_annotations src_task_annotations) in
  with_image_annotations
    (foldl (copy_entry (image_annotations src_task_annotations))
       (image_annotations dst) (elements joint_ids)) dst.

Definition filter_annotations (mir_annotations : MirAnnotations)
    (asset_ids_set : gset string) : MirAnnotations :=
  let matched_mir_annotations : MirAnnotations := inhabitant in
  let gt := _gen_filter_task_annotations (ground_truth mir_annotations)
              (ground_truth matched_mir_annotations) asset_ids_set in
  let pred := _gen_filter_task_annotations (prediction mir_annotations)
                (prediction matched_mir_annotations) asset_ids_set in
  let image_ck_asset_ids := asset_ids_set ∩ dom (image_cks mir_annotations) in
  let image_cks :=
    foldl (copy_entry (image_cks mir_annotations))
      (image_cks matched_mir_annotations) (elements image_ck_asset_ids) in
  {| prediction := copy_annotations_pred_meta (prediction mir_annotations) pred;
     ground_truth := gt;
     image_cks := image_cks |}.

(** The body of [for asset_id in sampled_asset_ids]. *)
Definition sampling_asset (mir_annotations : MirAnnotations)
    (sampled : MirAnnotations) (asset_id : string) : MirAnnotations :=
  let from_pred := image_annotations (prediction mir_annotations) in
  let from_gt := image_annotations (ground_truth mir_annotations) in
  let sampled :=
    if bool_decide (is_Some (from_pred !! asset_id)) then
      with_prediction
        (with_image_annotations
           (copy_entry from_pred (image_annotations (prediction sampled)) asset_id)
           (prediction sampled)) sampled
    else sampled in
  if bool_decide (is_Some (from_gt !! asset_id)) then
    with_ground_truth
      (with_image_annotations
         (copy_entry from_gt (image_annotations (ground_truth sampled)) asset_id)
         (ground_truth sampled)) sampled
  else sampled.

Definition sampling_annotations (mir_annotations : MirAnnotations)
    (sampled_asset_ids : list string) : MirAnnotations :=
  let sampled_mir_annotations : MirAnnotations :=
    foldl (sampling_asset mir_annotations) inhabitant sampled_asset_ids in
  let pred := with_type (type (prediction mir_annotations))
                (prediction sampled_mir_annotations) in
  let gt := with_type (type (ground_truth mir_annotations))
              (ground_truth sampled_mir_annotations) in
  {| prediction := copy_annotations_pred_meta (prediction mir_annotations) pred;
     ground_truth := gt;
     image_cks := image_cks sampled_mir_annotations |}.

(** ** [merge_annotations]

    The merge mutates the host in place and is handed the host again as
    its target, so the annotation sets live in a store and are passed by
    reference; a task-annotation reference names a set and one of its two
    slots. *)

Definition ref := nat.
Definition store := ref → MirAnnotations.
Definition task_ref : Type := ref * task_slot.

Definition store_set (r : ref) (m : MirAnnotations) (h : store) : store :=
  λ r', if decide (r' = r) then m else h r'.

Definition deref (h : store) (p : task_ref) : SingleTaskAnnotations :=
  get_task p.2 (h p.1).

Definition assign (h : store) (p : task_ref) (t : SingleTaskAnnotations) : store :=
  store_set p.1 (set_task p.2 t (h p.1)) h.

(** The two kinds of message map the merge works on. *)
Definition task_images (h : store) (p : task_ref) :
    gmap string SingleImageAnnotations :=
  image_annotations (deref h p).

Definition set_task_images (h : store) (p : task_ref)
    (m : gmap string SingleImageAnnotations) : store :=
  assign h p (with_image_annotations m (deref h p)).

Definition set_type (h : store) (p : task_ref) (ty : AnnoType) : store :=
  assign h p (with_type ty (deref h p)).

Definition cks_of (h : store) (r : ref) : gmap string SingleImageCks :=
  image_cks (h r).

Definition set_cks (h : store) (r : ref) (m : gmap string SingleImageCks) : store :=
  store_set r (with_image_cks m (h r)) h.

Section MessageMap.

Context {L V : Type} `{Inhabited V}.
Variable getm : store → L → gmap string V.
Variable setm : store → L → gmap string V → store.

(** [p.m[k]] creates the entry when it is missing. *)
Definition touch (p : L) (k : string) (h : store) : store :=
  match getm h p !! k with
  | Some _ => h
  | None => setm h p (<[k := inhabitant]> (getm h p))
  end.

(** [target.m[k].CopyFrom(source.m[k])]. *)
Definition copy_from (target source : L) (k : string) (h : store) : store :=
  let h := touch target k h in
  let h := touch source k h in
  setm h target (<[k := default inhabitant (getm h source !! k)]> (getm h target)).

(** [k in p.m]. *)
Definition contains (p : L) (k : string) (h : store) : bool :=
  bool_decide (is_Some (getm h p !! k)).

End MessageMap.

Definition match_asset_ids (host_ids guest_ids : gset string) :
    gset string * gset string * gset string :=
  let insets := host_ids ∩ guest_ids in
  (host_ids ∖ insets, guest_ids ∖ insets, insets).

(** [a or b] on annotation types: [AT_UNKNOWN] is the falsy one. *)
Definition type_or (a b : AnnoType) : AnnoType :=
  if decide (a = AT_UNKNOWN) then b else a.

Definition _merge_pair_annotations (host_annotation guest_annotation
    target_annotation : task_ref) (strategy : string) : M store unit := λ h,
  if negb (bool_decide (type (deref h host_annotation) = AT_UNKNOWN))
     && negb (bool_decide (type (deref h guest_annotation) = AT_UNKNOWN))
     && negb (bool_decide (type (deref h host_annotation)
                           = type (deref h guest_annotation)))
  then (h, Raise (MirRuntimeError RC_CMD_INVALID_ANNO_TYPE
                    (Msg "host and guest anno type mismatch")))
  else
    let h := set_type h target_annotation
               (type_or (type (deref h host_annotation))
                        (type (deref h guest_annotation))) in
    let '(host_only_ids, guest_only_ids, joint_ids) :=
      match_asset_ids (dom (task_images h host_annotation))
                      (dom (task_images h guest_annotation)) in
    if bool_decide (strategy = "stop") && negb (bool_decide (joint_ids = ∅)) then
      (h, Raise (MirRuntimeError RC_CMD_MERGE_ERROR
                   (Msg "found conflict annotations in strategy stop")))
    else
      let copy := copy_from task_images set_task_images in
      let h := foldl (λ h asset_id, copy target_annotation host_annotation asset_id h)
                 h (elements host_only_ids) in
      let h := foldl (λ h asset_id, copy target_annotation guest_annotation asset_id h)
                 h (elements guest_only_ids) in
      let h := foldl (λ h asset_id,
                 if bool_decide (lower strategy = "host") then
                   if contains task_images target_annotation asset_id h then h
                   else copy target_annotation host_annotation asset_id h
                 else if bool_decide (lower strategy = "guest") then
                   copy target_annotation guest_annotation asset_id h
                 else h) h (elements joint_ids) in
      (h, Ok tt).

Definition _merge_annotation_image_cks (host_mir_annotations guest_mir_annotations
    target_mir_annotations : ref) (strategy : string) : M store unit := λ h,
  let '(host_only_ids, guest_only_ids, joint_ids) :=
    match_asset_ids (dom (cks_of h host_mir_annotations))
                    (dom (cks_of h guest_mir_annotations)) in
  if bool_decide (strategy = "stop") && negb (bool_decide (joint_ids = ∅)) then
    (h, Raise (MirRuntimeError RC_CMD_MERGE_ERROR
                 (Msg "found conflict image cks in strategy stop")))
  else
    let copy := copy_from cks_of set_cks in
    let h := foldl (λ h asset_id,
               copy target_mir_annotations host_mir_annotations asset_id h)
               h (elements host_only_ids) in
    let h := foldl (λ h asset_id,
               copy target_mir_annotations guest_mir_annotations asset_id h)
               h (elements guest_only_ids) in
    let h := foldl (λ h asset_id,
               if bool_decide (lower strategy = "host") then
                 if contains cks_of target_mir_annotations asset_id h then h
                 else copy target_mir_annotations host_mir_annotations asset_id h
               else if bool_decide (lower strategy = "guest") then
                 copy target_mir_annotations guest_mir_annotations asset_id h
               else h) h (elements joint_ids) in
    (h, Ok tt).

(** [host.prediction.eval_class_ids.extend(guest.prediction.eval_class_ids)]. *)
Definition extend_eval_class_ids (host guest : task_ref) (h : store) : store :=
  assign h host
    (with_eval_class_ids
       (eval_class_ids (deref h host) ++ eval_class_ids (deref h guest))
       (deref h host)).

Definition merge_annotations (host_mir_annotations guest_mir_annotations : ref)
    (strategy : string) : M store unit :=
  _ ← _merge_pair_annotations (host_mir_annotations, Prediction)
        (guest_mir_annotations, Prediction) (host_mir_annotations, Prediction)
        strategy;
  _ ← modify (extend_eval_class_ids (host_mir_annotations, Prediction)
                (guest_mir_annotations, Prediction));
  _ ← _merge_pair_annotations (host_mir_annotations, GroundTruth)
        (guest_mir_annotations, GroundTruth) (host_mir_annotations, GroundTruth)
        strategy;
  _merge_annotation_image_cks host_mir_annotations guest_mir_annotations
    host_mir_annotations strategy.

(** ** [parse_anno_format], [parse_anno_type] *)

(** The members of [mirpb.AnnoFormat] that [parse_anno_format] names. *)
Inductive AnnoFormat :=
| AF_NO_ANNOTATION
| AF_DET_PASCAL_VOC
| AF_DET_ARK_JSON
| AF_DET_LS_JSON
| AF_SEG_POLYGON
| AF_SEG_MASK.

Definition parse_anno_format (anno_format_str : string) : AnnoFormat :=
  let _anno_dict : pydict string AnnoFormat :=
    [ (* compatible with legacy format. *)
      ("voc", AF_DET_PASCAL_VOC);
      ("ark", AF_DET_ARK_JSON);
      ("ls_json", AF_DET_LS_JSON);
      ("det-voc", AF_DET_PASCAL_VOC);
      ("det-ark", AF_DET_ARK_JSON);
      ("det-ls-json", AF_DET_LS_JSON);
      ("seg-poly", AF_SEG_POLYGON);
      ("seg-mask", AF_SEG_MASK) ] in
  default AF_NO_ANNOTATION (dict_get _anno_dict (lower anno_format_str)).

Definition parse_anno_type (anno_type_str : string) : AnnoType :=
  let _anno_dict : pydict string AnnoType :=
    [ ("det-box", AT_DET_BOX);
      ("seg-poly", AT_SEG_POLYGON);
      ("seg-mask", AT_SEG_MASK) ] in
  default AT_UNKNOWN (dict_get _anno_dict (lower anno_type_str)).

(** ** [mining_annotations]

    The mining reads [infer-result.json] through [json]; the attributes of
    the model come from [ModelStorage] ([mir.tools.models]), outside the
    files at hand. *)

(** A value [json.loads] returns. *)
#[warnings="-register-all"]
Inductive json :=
| JNull
| JBool (b : bool)
| JInt (n : Z)
| JFloat (f : float)
| JStr (s : string)
| JList (items : list json)
| JDict (items : pydict string json).

(** [d.get(key, dflt)]. *)
Definition jget (d : json) (key : string) (dflt : json) : result json :=
  match d with
  | JDict items => Ok (default dflt (dict_get items key))
  | _ => Raise AttributeError
  end.

(** [d[key]] for a text [key]. *)
Definition jgetitem (d : json) (key : string) : result json :=
  match d with
  | JDict items =>
      match dict_get items key with Some v => Ok v | None => Raise KeyError end
  | _ => Raise TypeError
  end.

(** [annotation_dict['class_name']], which the registry takes as a text. *)
Definition json_name (annotation_dict : json) : result string :=
  v ← jgetitem annotation_dict "class_name";
  match v with JStr name => Ok name | _ => Raise TypeError end.

(** [float(n)] for an [int]: the nearest binary64 number, and an
    [OverflowError] beyond the range. *)
Definition float_of_int (n : Z) : result float :=
  match binary_normalize 53 1024 n 0 false with
  | S754_infinity _ => Raise OverflowError
  | f => Ok f
  end.

(** [infer-result.json]: missing, not JSON ([json.JSONDecodeError], a
    [ValueError]), or the value [json.loads] makes of it. *)
Inductive InferFile :=
| InferMissing
| InferNotJson
| InferJson (results : json).

(** [work_out_dir]: the inference result, and the directory as the mask
    importer sees it. *)
Record WorkOutDir := {
  infer_result_json : InferFile;
  out_dir : AnnoDir;
}.

Module ModelStorage.
(** [executor_config] is kept as its [json.dumps], [get_model_meta] as the
    message it returns. *)
Record t := mk {
  model_type : AnnoType;
  class_names : list string;
  executor_config : string;
  get_model_meta : ModelMeta;
}.
End ModelStorage.

(** [os.path.basename]: what follows the last slash. *)
Definition basename (p : string) : string := List.last (split "/" p) "".

(** The text up to the last dot, if there is a dot. *)
Fixpoint before_last_dot (s : string) : option string :=
  match s with
  | EmptyString => None
  | String c s' =>
      match before_last_dot s' with
      | Some t => Some (String c t)
      | None => if decide (c = "."%char) then Some EmptyString else None
      end
  end.

Fixpoint only_dots (s : string) : bool :=
  match s with
  | EmptyString => true
  | String c s' => bool_decide (c = "."%char) && only_dots s'
  end.

(** [os.path.splitext(name)[0]] for a [name] without slash: the extension
    starts at the last dot, unless only dots come before it. *)
Definition splitext_root (name : string) : string :=
  match before_last_dot name with
  | Some root => if only_dots root then name else root
  | None => name
  end.

Section Mining.

(** [float(s)] for a text, the range of an integer field, and what
    [ParseDict] makes of a value for a [Rect] ([None]: it raises). *)
Variable float_of_str : string → option float.
Variable int_field_ok : Z → bool.
Variable ParseDict_Rect : json → option Rect.t.

(** [float(v)]. *)
Definition py_float_json (v : json) : result float :=
  match v with
  | JFloat f => Ok f
  | JInt n => float_of_int n
  | JBool b => float_of_int (if b then 1 else 0)
  | JStr s => py_float float_of_str (XStr s)
  | _ => Raise TypeError
  end.

(** The body of [for annotation_dict in annotations], over the boxes of
    [single_image_annotations] and [idx]. *)
Definition infer_box (cls_id_mgr : UserLabels) (annotation_dict : json) :
    M (list ObjectAnnotation * Z) unit := λ '(boxes, idx),
  match json_name annotation_dict with
  | Raise e => ((boxes, idx), Raise e)
  | Ok name =>
      let class_id := (id_and_main_name_for_name cls_id_mgr name).1 in
      (* ignore unknown class ids *)
      if class_id <? 0 then ((boxes, idx), Ok tt)
      else
        match (index ← int_field int_field_ok idx;
               box_v ← jgetitem annotation_dict "box";
               box ← match ParseDict_Rect box_v with
                     | Some r => Ok r
                     | None => Raise ParseError
                     end;
               class_id ← int_field int_field_ok class_id;
               score ← (jget annotation_dict "score" (JInt 0) ≫= py_float_json);
               Ok {| index := index; box := box; class_id := class_id;
                     score := score; anno_quality := float_zero; tags := ∅ |}) with
        | Raise e => ((boxes, idx), Raise e)
        | Ok annotation => ((boxes ++ [annotation], idx + 1), Ok tt)
        end
  end.

(** The body of [for asset_name, annotations_dict in detections.items()]. *)
Definition infer_asset (asset_ids_set : gset string) (cls_id_mgr : UserLabels)
    (item : string * json) : M SingleTaskAnnotations unit := λ task_annotations,
  let '(asset_name, annotations_dict) := item in
  match jget annotations_dict "boxes" JNull with
  | Raise e => (task_annotations, Raise e)
  | Ok (JList annotations) =>
      let asset_id := splitext_root (basename asset_name) in
      if bool_decide (asset_id ∈ asset_ids_set) then
        match for_each annotations (infer_box cls_id_mgr) ([], 0) with
        | (_, Raise e) => (task_annotations, Raise e)
        | ((boxes, _), Ok _) =>
            (with_image_annotations
               (<[asset_id := {| boxes := boxes; masks := []; img_class_ids := [] |}]>
                  (image_annotations task_annotations)) task_annotations, Ok tt)
        end
      else (task_annotations, Ok tt)
  | Ok _ => (task_annotations, Ok tt)     (* invalid annotations *)
  end.

Definition _get_detbox_infer_annotations (file : InferFile)
    (asset_ids_set : gset string) (cls_id_mgr : UserLabels) :
    M SingleTaskAnnotations unit :=
  match file with
  | InferMissing => raise FileNotFoundError
  | InferNotJson => raise ValueError
  | InferJson results =>
      detections ← lift (jget results "detection" JNull);
      match detections with
      | JDict items => for_each items (infer_asset asset_ids_set cls_id_mgr)
      | _ => raise AttributeError   (* invalid infer-result.json *)
      end
  end.

Definition mining_annotations (work_out_dir : WorkOutDir) (asset_ids_set : gset string)
    (cls_id_mgr : UserLabels) (model_storage : ModelStorage.t) (add_prediction : bool)
    (mir_annotations : MirAnnotations) : result MirAnnotations :=
  let matched_mir_annotations : MirAnnotations := inhabitant in
  (* predictions *)
  let model_type := ModelStorage.model_type model_storage in
  let matched_mir_annotations :=
    with_prediction (with_type model_type (prediction matched_mir_annotations))
      matched_mir_annotations in
  matched_mir_annotations ←
    (if add_prediction then
       st ← (if decide (model_type = AT_DET_BOX) then
               prediction ←
                 final (_get_detbox_infer_annotations (infer_result_json work_out_dir)
                          asset_ids_set cls_id_mgr (prediction matched_mir_annotations));
               Ok {| mir_annotation := with_prediction prediction matched_mir_annotations;
                     class_type_manager := cls_id_mgr; accu_new_class_names := [] |}
             else if decide (model_type = AT_SEG_MASK) then
               final (_import_annotations_seg_mask int_field_ok
                        ((λ asset_id, (asset_id, asset_id)) <$> elements asset_ids_set)
                        (out_dir work_out_dir) IGNORE Prediction
                        {| mir_annotation := matched_mir_annotations;
                           class_type_manager := cls_id_mgr;
                           accu_new_class_names := [] |})
             else
               Ok {| mir_annotation := matched_mir_annotations;
                     class_type_manager := cls_id_mgr; accu_new_class_names := [] |});
       (* pred meta *)
       let ids : gset Z :=
         list_to_set (id_for_names_drop_unknown (class_type_manager st)
                        (ModelStorage.class_names model_storage)) in
       let matched_mir_annotations := mir_annotation st in
       Ok (with_prediction
             (with_model (ModelStorage.get_model_meta model_storage)
                (with_executor_config (ModelStorage.executor_config model_storage)
                   (with_eval_class_ids (elements ids)
                      (prediction matched_mir_annotations))))
             matched_mir_annotations)
     else
       (* use old *)
       let pred_asset_ids :=
         dom (image_annotations (prediction mir_annotations)) ∩ asset_ids_set in
       let prediction' :=
         with_image_annotations
           (foldl (copy_entry (image_annotations (prediction mir_annotations)))
              (image_annotations (prediction matched_mir_annotations))
              (elements pred_asset_ids))
           (prediction matched_mir_annotations) in
       Ok (with_prediction
             (copy_annotations_pred_meta (prediction mir_annotations) prediction')
             matched_mir_annotations));
  (* ground truth *)
  let gt_asset_ids :=
    dom (image_annotations (ground_truth mir_annotations)) ∩ asset_ids_set in
  let ground_truth' :=
    with_image_annotations
      (foldl (copy_entry (image_annotations (ground_truth mir_annotations)))
         (image_annotations (ground_truth matched_mir_annotations))
         (elements gt_asset_ids))
      (with_type (type (ground_truth mir_annotations))
         (ground_truth matched_mir_annotations)) in
  (* image cks *)
  let image_ck_asset_ids := dom (image_cks mir_annotations) ∩ asset_ids_set in
  Ok (with_image_cks
        (foldl (copy_entry (image_cks mir_annotations))
           (image_cks matched_mir_annotations) (elements image_ck_asset_ids))
        (with_ground_truth ground_truth' matched_mir_annotations)).

End Mining.

(** ** Concrete instances of the two parameters

    [float_of_integral] converts the decimal literals of integers, such as
    [10], [-1.0] and [0.0], which binary64 holds exactly below 2^53 and
    rounds to nearest above; [float] accepts more.  [int32_ok] is the range
    of a 32-bit signed field. *)
Definition float_of_integral (s : string) : option float :=
  let body := strip s in
  let '(neg, rest) :=
    match body with
    | String "-" r => (true, r)
    | String "+" r => (false, r)
    | _ => (false, body)
    end in
  let finish (n : Z) := binary_normalize 53 1024 (if neg then - n else n) 0 neg in
  match split "." rest with
  | [ip] => finish <$> digits_of NeedDigit 0 (code_points ip)
  | [ip; fp] =>
      n ← digits_of NeedDigit 0 (code_points ip);
      z ← digits_of NeedDigit 0 (code_points fp);
      if z =? 0 then Some (finish n) else None
  | _ => None
  end.

Definition int32_ok (v : Z) : bool := (- 2 ^ 31 <=? v) && (v <? 2 ^ 31).

End Annotations.

(* ===================================================================== *)
(** * [common_utils/sandbox.py] *)
(* ===================================================================== *)

Module Sandbox.

(** A file-system tree.  The state of the migrator is the content of the
    sandbox root, a directory: its entries by name. *)
#[warnings="-register-all"]
Inductive node :=
| File (data : string)
| Dir (entries : gmap string node).

Abbreviation fs := (gmap string node).

(** [os.path.isdir]. *)
Definition isdir (n : option node) : bool :=
  match n with Some (Dir _) => true | _ => false end.

(** The entry [name] of a directory. *)
Definition child (n : option node) (name : string) : option node :=
  match n with Some (Dir entries) => entries !! name | _ => None end.

(** [os.listdir]: the names come in the order the map lists them. *)
Definition listdir (n : option node) : result (list string) :=
  match n with
  | Some (Dir entries) => Ok (map_to_list entries).*1
  | Some (File _) => Raise NotADirectoryError
  | None => Raise FileNotFoundError
  end.

(** [shutil.rmtree(root/name)]. *)
Definition rmtree (name : string) : M fs unit := λ root,
  match root !! name with
  | Some (Dir _) => (delete name root, Ok tt)
  | Some (File _) => (root, Raise NotADirectoryError)
  | None => (root, Raise FileNotFoundError)
  end.

(** [shutil.copytree(src, dst)] where [dst] is the entry [name] of the
    directory [into]: the source must be a directory, the destination must
    not exist. *)
Definition copytree (src : option node) (name : string) (into : gmap string node) :
    result (gmap string node) :=
  match src with
  | Some (Dir entries) =>
      match into !! name with
      | None => Ok (<[name := Dir entries]> into)
      | Some _ => Raise FileExistsError
      end
  | Some (File _) => Raise NotADirectoryError
  | None => Raise FileNotFoundError
  end.

(** What [yaml.safe_load] makes of a label file: a [YAMLError], a
    dictionary (with its [ymir_version], if any), or another value. *)
Inductive yaml_value :=
| YamlError
| YamlDict (ymir_version : option string)
| YamlOther.

(** An upgrade function, called with [mir_root = sandbox_root/user_id/repo_id]:
    it works on the file system and may raise. *)
Definition update_func := string → string → M fs unit.

(** A [for] loop over a set goes through it in an order that Python leaves
    open, and which may differ from one set object to the next:
    [order user_id repo_ids] is the order in which the repositories
    [repo_ids] of the user [user_id] come. *)
Definition repo_order := string → gset string → list string.

Section Migrator.

(** [IDProto.ID_LEN_USER_ID], [IDProto.ID_LEN_REPO_ID] and
    [version.DEFAULT_YMIR_SRC_VERSION], constants of modules outside the
    files at hand; [yaml.safe_load] on the text of a file. *)
Variable ID_LEN_USER_ID ID_LEN_REPO_ID : nat.
Variable DEFAULT_YMIR_SRC_VERSION : string.
Variable yaml_safe_load : string → yaml_value.

Definition _detect_users_and_repos (root : fs) :
    result (list (string * gset string)) :=
  names ← listdir (Some (Dir root));
  mapM (M := result) (λ user_id,
      let user_dir := root !! user_id in
      repo_ids ← listdir user_dir;
      Ok (user_id,
          list_to_set (filter (λ repo_id,
              match_digits ID_LEN_REPO_ID repo_id
              && isdir (child (child user_dir repo_id) ".git")) repo_ids)))
    (filter (λ user_id, match_digits ID_LEN_USER_ID user_id) names).

(** [ver_to_users[ver].append(user_id)] on a [defaultdict(list)]. *)
Definition append_user (ver user_id : string)
    (ver_to_users : pydict string (list string)) : pydict string (list string) :=
  dict_set ver_to_users ver (default [] (dict_get ver_to_users ver) ++ [user_id]).

(** The body of [for user_id in user_to_repos]. *)
Definition detect_user_ver (root : fs) (user_id : string) :
    M (pydict string (list string)) unit := λ ver_to_users,
  let invalid :=
    (ver_to_users,
     @Raise unit (SandboxError INVALID_USER_LABEL_FILE
                    (MsgPath "invalid label file: " [user_id; "labels.yaml"]))) in
  match child (root !! user_id) "labels.yaml" with
  | None => invalid                                   (* FileNotFoundError *)
  | Some (Dir _) => (ver_to_users, Raise IsADirectoryError)
  | Some (File text) =>
      match yaml_safe_load text with
      | YamlError => invalid
      | YamlOther => (ver_to_users, Raise AttributeError)
      | YamlDict ymir_version =>
          (append_user (default DEFAULT_YMIR_SRC_VERSION ymir_version) user_id
             ver_to_users, Ok tt)
      end
  end.

Definition detect_sandbox_src_ver (root : fs) : result string :=
  user_to_repos ← _detect_users_and_repos root;
  match for_each user_to_repos.*1 (detect_user_ver root) [] with
  | (_, Raise e) => Raise e
  | (ver_to_users, Ok _) =>
      match ver_to_users with
      | [(ver, _)] => Ok ver
      | _ => Raise (SandboxError INVALID_USER_SPACE_VERSIONS
                      (MsgVersions ver_to_users))
      end
  end.

Definition _remove_backup : M fs unit := rmtree "backup".

(** The body of the loop of [_backup]. *)
Definition backup_user (user_id : string) : M fs unit := λ root,
  match root !! "backup" with
  | Some (Dir backup) =>
      match copytree (root !! user_id) user_id backup with
      | Ok backup' => (<["backup" := Dir backup']> root, Ok tt)
      | Raise e => (root, Raise e)
      end
  | _ => (root, Raise FileNotFoundError)
  end.

Definition _backup : M fs unit := λ root,
  (* os.makedirs(backup_dir, exist_ok=True) *)
  match root !! "backup" with
  | Some (File _) => (root, Raise FileExistsError)
  | other =>
      let root := match other with
                  | None => <["backup" := Dir ∅]> root
                  | Some _ => root
                  end in
      match listdir (root !! "backup") with
      | Raise e => (root, Raise e)
      | Ok (_ :: _) =>
          (root, Raise (SandboxError BACKUP_DIR_NOT_EMPTY
                          (MsgPath "Backup directory not empty: " ["backup"])))
      | Ok [] =>
          match _detect_users_and_repos root with
          | Raise e => (root, Raise e)
          | Ok user_to_repos => for_each user_to_repos.*1 backup_user root
          end
      end
  end.

(** The body of the loop of [_roll_back]. *)
Definition restore_user (user_id : string) : M fs unit := λ root,
  match rmtree user_id root with
  | (root, Raise e) => (root, Raise e)
  | (root, Ok _) =>
      match copytree (child (root !! "backup") user_id) user_id root with
      | Ok root' => (root', Ok tt)
      | Raise e => (root, Raise e)
      end
  end.

Definition _roll_back : M fs unit := λ root,
  match _detect_users_and_repos root with
  | Raise e => (root, Raise e)
  | Ok user_to_repos =>
      (_ ← for_each user_to_repos.*1 restore_user; _remove_backup) root
  end.

(** The three nested loops inside [try].  The repositories of a user are
    a set, which the loop goes through in the order [order]. *)
Definition run_update_funcs (order : repo_order)
    (user_to_repos : list (string * gset string))
    (update_funcs : list update_func) : M fs unit :=
  for_each user_to_repos (λ '(user_id, repo_ids),
    for_each (order user_id repo_ids) (λ repo_id,
      for_each update_funcs (λ update_func, update_func user_id repo_id))).

Definition update (order : repo_order) (update_funcs : list update_func) :
    M fs unit := λ root,
  match _backup root with
  | (root, Raise e) => (root, Raise e)
  | (root, Ok _) =>
      match _detect_users_and_repos root with
      | Raise e => (root, Raise e)
      | Ok user_to_repos =>
          match run_update_funcs order user_to_repos update_funcs root with
          | (root, Raise e) =>
              if is_exception e then
                (* except Exception as e: _roll_back(sandbox_root); raise e *)
                match _roll_back root with
                | (root, Ok _) => (root, Raise e)
                | (root, Raise e') => (root, Raise e')
                end
              else (root, Raise e)
          | (root, Ok _) =>
              (* cleanup *)
              _remove_backup root
          end
      end
  end.

End Migrator.

End Sandbox.

(* ===================================================================== *)
(** * Loops *)
(* ===================================================================== *)

Module LoopTheory.

(** A relation between the state before and after that every iteration
    establishes, whether it returns or raises, holds of the whole loop. *)
Lemma for_each_invariant {S A} (R : S → S → Prop) (xs : list A) (body : A → M S unit) :
  (∀ s, R s s) → (∀ a b c, R a b → R b c → R a c) →
  (∀ x s, x ∈ xs → R s (body x s).1) → ∀ s, R s (for_each xs body s).1.
Proof.
  intros Hrefl Htrans. induction xs as [|x xs IH]; intros Hbody s; simpl.
  - apply Hrefl.
  - unfold mbind, M_bind. pose proof (Hbody x s (list_elem_of_here _ _)) as Hx.
    destruct (body x s) as [s' [[]|e]]; simpl in *; [|done].
    eapply Htrans; [exact Hx | apply IH]. intros y t Hy. apply Hbody. by right.
Qed.

(** A property of the state that every iteration keeps is kept by the
    loop. *)
Lemma for_each_preserves {S A} (P : S → Prop) (xs : list A) (body : A → M S unit) :
  (∀ x s, x ∈ xs → P s → P (body x s).1) → ∀ s, P s → P (for_each xs body s).1.
Proof.
  intros Hbody s. apply (for_each_invariant (λ s s', P s → P s')); auto.
Qed.

(** A loop over two lists, one after the other. *)
Lemma for_each_app {S A} (xs ys : list A) (body : A → M S unit) (s : S) :
  for_each (xs ++ ys) body s = (_ ← for_each xs body; for_each ys body) s.
Proof.
  revert s. induction xs as [|x xs IH]; intros s; simpl; [done|].
  unfold mbind, M_bind. destruct (body x s) as [s' [[]|e]]; [|done].
  rewrite IH. reflexivity.
Qed.

Lemma for_each_ext {S A} (xs : list A) (f g : A → M S unit) (s : S) :
  (∀ x s, f x s = g x s) → for_each xs f s = for_each xs g s.
Proof.
  intros Hfg. revert s. induction xs as [|x xs IH]; intros s; simpl; [done|].
  unfold mbind, M_bind. rewrite Hfg. by destruct (g x s) as [s' [[]|e]].
Qed.

(** Nested loops are one loop over the items of the inner loops. *)
Lemma for_each_bind {S A B} (xs : list A) (f : A → list B) (body : B → M S unit)
    (s : S) :
  for_each (xs ≫= f) body s = for_each xs (λ x, for_each (f x) body) s.
Proof.
  revert s. induction xs as [|x xs IH]; intros s; [done|].
  change ((x :: xs) ≫= f) with (f x ++ (xs ≫= f)). rewrite for_each_app.
  simpl. unfold mbind at 1 3, M_bind.
  destruct (for_each (f x) body s) as [s' [[]|e]]; [apply IH | done].
Qed.

Lemma for_each_singleton {S A} (x : A) (body : A → M S unit) (s : S) :
  for_each [x] body s = body x s.
Proof. simpl. unfold mbind, M_bind. by destruct (body x s) as [s' [[]|e]]. Qed.

End LoopTheory.
Export LoopTheory.

(* ===================================================================== *)
(** * Properties of the importers *)
(* ===================================================================== *)

Module ImportTheory.
Import Annotations.

Example int_examples :
  int "10" = Ok 10 ∧ int " -07 " = Ok (-7) ∧ int "1_0" = Ok 10 ∧
  int "" = Raise ValueError ∧ int "1__0" = Raise ValueError ∧
  int "a" = Raise ValueError.
Proof. repeat split; reflexivity. Qed.

Example split_examples :
  split ":" "road:07::" = ["road"; "07"; ""; ""] ∧ split "," "" = [""] ∧
  strip "  a b " = "a b".
Proof. repeat split; reflexivity. Qed.

Example float_of_integral_examples :
  (float_of_integral "10" ≫= λ f, Some (int_of_float f)) = Some (Ok 10) ∧
  (float_of_integral "-1.0" ≫= λ f, Some (int_of_float f)) = Some (Ok (-1)) ∧
  float_of_integral "0.0" = Some float_zero ∧
  float_of_integral "1.5" = None.
Proof. repeat split; reflexivity. Qed.

(** Texts beyond ASCII: the Arabic-Indic digits U+0661 and U+0662 are
    decimal digits for [int] and for the digit pattern; the no-break space
    U+00A0 is white space, the separator FS (28) is white space for [strip]
    and not for [int]; the Kelvin sign U+212A has the lower case [k]. *)
Definition arabic_12 : string :=
  String "217" (String "161" (String "217" (String "162" EmptyString))).

Definition no_break_space : string := String "194" (String "160" EmptyString).

Definition kelvin_sign : string :=
  String "226" (String "132" (String "170" EmptyString)).

Example unicode_examples :
  code_points arabic_12 = [1633; 1634] ∧
  int (no_break_space +:+ "-" +:+ arabic_12) = Ok (-12) ∧
  match_digits 2 (arabic_12 +:+ "ab") = true ∧
  match_digits 3 (arabic_12 +:+ "ab") = false ∧
  strip (String "028" "12" +:+ no_break_space) = "12" ∧
  int (String "028" "12") = Raise ValueError ∧
  lower ("SEG-MAS" +:+ kelvin_sign) = "seg-mask".
Proof. repeat split; vm_compute; reflexivity. Qed.

(** ** The box of an object record *)

Lemma result_bind_Ok {A B} (r : result A) (f : A → result B) (b : B) :
  r ≫= f = Ok b → ∃ a, r = Ok a ∧ f a = Ok b.
Proof. destruct r as [a|e]; [eauto | discriminate]. Qed.

Lemma int_field_Ok' ok v v' : int_field ok v = Ok v' → v' = v ∧ ok v = true.
Proof. unfold int_field. destruct (ok v); [split|]; congruence. Qed.

(** The shared fields of an annotation, as the record gives them. *)
Definition tags_of (object_dict : xmlval) : result (gmap string string) :=
  tags_v ← xget object_dict "tags" (XDict []);
  if truthy tags_v then final (update_str_map tags_v ∅) else Ok ∅.

(** C8.  [_object_dict_to_annotation] returns an annotation exactly for a
    record with a [bndbox] whose fields convert, and the box of that
    annotation has [x = xmin], [y = ymin], [w = xmax - xmin + 1] and
    [h = ymax - ymin + 1], where [xmin], [ymin], [xmax] and [ymax] are
    [int(float(...))] of the four entries of the [bndbox]: the bounds are
    inclusive. *)
Theorem object_dict_box_inclusive_bounds float_of_str int_field_ok
    (object_dict : xmlval) (cid : Z) (annotation : ObjectAnnotation) :
  _object_dict_to_annotation float_of_str int_field_ok object_dict cid
    = Ok annotation ↔
  ∃ bndbox xmin ymin xmax ymax score anno_quality tags rotate_angle,
    int_field_ok cid = true ∧
    xget object_dict "confidence" (XStr "-1.0") ≫= py_float float_of_str
      = Ok score ∧
    xget object_dict "box_quality" (XStr "-1.0") ≫= py_float float_of_str
      = Ok anno_quality ∧
    tags_of object_dict = Ok tags ∧
    xget object_dict "bndbox" XNone = Ok bndbox ∧ truthy bndbox = true ∧
    xgetitem bndbox "xmin" ≫= py_int_float float_of_str = Ok xmin ∧
    xgetitem bndbox "ymin" ≫= py_int_float float_of_str = Ok ymin ∧
    xgetitem bndbox "xmax" ≫= py_int_float float_of_str = Ok xmax ∧
    xgetitem bndbox "ymax" ≫= py_int_float float_of_str = Ok ymax ∧
    int_field_ok xmin = true ∧ int_field_ok ymin = true ∧
    int_field_ok (xmax - xmin + 1) = true ∧
    int_field_ok (ymax - ymin + 1) = true ∧
    xget bndbox "rotate_angle" (XStr "0.0") ≫= py_float float_of_str
      = Ok rotate_angle ∧
    annotation =
      {| index := 0;
         box := Rect.mk xmin ymin (xmax - xmin + 1) (ymax - ymin + 1) rotate_angle;
         class_id := cid; score := score; anno_quality := anno_quality;
         tags := tags |}.
Proof.
  unfold _object_dict_to_annotation, tags_of. split.
  - intros Hrun.
    apply result_bind_Ok in Hrun as (class_id & Hcid & Hrun).
    apply result_bind_Ok in Hrun as (score & Hscore & Hrun).
    apply result_bind_Ok in Hrun as (quality & Hquality & Hrun).
    apply result_bind_Ok in Hrun as (tags_v & Htags_v & Hrun).
    apply result_bind_Ok in Hrun as (tags & Htags & Hrun).
    apply result_bind_Ok in Hrun as (bndbox & Hbndbox & Hrun).
    destruct (truthy bndbox) eqn:Htruthy.
    + apply result_bind_Ok in Hrun as (xmin & Hxmin & Hrun).
      apply result_bind_Ok in Hrun as (ymin & Hymin & Hrun).
      apply result_bind_Ok in Hrun as (xmax & Hxmax & Hrun).
      apply result_bind_Ok in Hrun as (ymax & Hymax & Hrun).
      apply result_bind_Ok in Hrun as (x & Hx & Hrun).
      apply result_bind_Ok in Hrun as (y & Hy & Hrun).
      apply result_bind_Ok in Hrun as (w & Hw & Hrun).
      apply result_bind_Ok in Hrun as (h & Hh & Hrun).
      apply result_bind_Ok in Hrun as (angle & Hangle & Hrun).
      apply int_field_Ok' in Hcid as [-> ?], Hx as [-> ?], Hy as [-> ?],
        Hw as [-> ?], Hh as [-> ?].
      injection Hrun as <-.
      exists bndbox, xmin, ymin, xmax, ymax, score, quality, tags, angle.
      rewrite Htags_v. simpl. repeat split; assumption.
    + apply result_bind_Ok in Hrun as (polygon & _ & Hrun).
      destruct (truthy polygon); discriminate.
  - intros (bndbox & xmin & ymin & xmax & ymax & score & quality & tags & angle
            & Hcid & Hscore & Hquality & Htags & Hbndbox & Htruthy & Hxmin & Hymin
            & Hxmax & Hymax & Hx & Hy & Hw & Hh & Hangle & ->).
    unfold int_field. rewrite Hcid. simpl.
    rewrite Hscore. simpl. rewrite Hquality. simpl.
    destruct (xget object_dict "tags" (XDict [])) as [tags_v|]; [|discriminate].
    simpl in Htags |- *. rewrite Htags. simpl.
    rewrite Hbndbox. simpl. rewrite Htruthy.
    rewrite Hxmin. simpl. rewrite Hymin. simpl. rewrite Hxmax. simpl.
    rewrite Hymax. simpl. rewrite Hx, Hy, Hw, Hh. simpl.
    rewrite Hangle. reflexivity.
Qed.

(** The record of the spec's example. *)
Definition example_object : xmlval :=
  XDict [("name", XStr "person");
         ("bndbox", XDict [("xmin", XStr "10"); ("ymin", XStr "10");
                           ("xmax", XStr "19"); ("ymax", XStr "14")])].

Definition minus_one : float := S754_finite true 4503599627370496 (-52).

(** The spec's example: [bndbox {xmin:10, ymin:10, xmax:19, ymax:14}] yields
    the box [{x:10, y:10, w:10, h:5}]. *)
Lemma object_dict_box_example :
  _object_dict_to_annotation float_of_integral int32_ok example_object 3
  = Ok {| index := 0; box := Rect.mk 10 10 10 5 float_zero; class_id := 3;
          score := minus_one; anno_quality := minus_one; tags := ∅ |}.
Proof.
  apply (proj2 (object_dict_box_inclusive_bounds float_of_integral int32_ok
                  example_object 3 _)).
  exists (XDict [("xmin", XStr "10"); ("ymin", XStr "10");
                 ("xmax", XStr "19"); ("ymax", XStr "14")]),
    10, 10, 19, 14, minus_one, minus_one, ∅, float_zero.
  repeat split; reflexivity.
Defined.

(** Tags given as a list of texts of two characters each are entered as
    pairs of a key and a value; a text of another length makes the record
    fail, whatever its box. *)
Example object_dict_tags_examples :
  let record tags :=
    XDict [("name", XStr "person"); ("tags", tags);
           ("bndbox", XDict [("xmin", XStr "1"); ("ymin", XStr "1");
                             ("xmax", XStr "2"); ("ymax", XStr "2")])] in
  _object_dict_to_annotation float_of_integral int32_ok
    (record (XList [XStr "ab"; XStr "cd"])) 3
  = Ok {| index := 0; box := Rect.mk 1 1 2 2 float_zero; class_id := 3;
          score := minus_one; anno_quality := minus_one;
          tags := {[ "a" := "b"; "c" := "d" ]} |} ∧
  _object_dict_to_annotation float_of_integral int32_ok
    (record (XList [XStr "ab"; XStr "cde"])) 3 = Raise ValueError ∧
  _object_dict_to_annotation float_of_integral int32_ok (record (XStr "ab")) 3
  = Raise ValueError.
Proof. repeat split; vm_compute; reflexivity. Qed.

(** ** The background line of a labelmap *)

(** The comparison [pos_ints == (0, 0, 0)] has a list on its left and a
    tuple on its right. *)
Lemma list_never_equals_tuple (xs ys : list Z) : py_eq (PyList xs) (PyTuple ys) = false.
Proof. reflexivity. Qed.

Definition background_labelmap : list string :=
  ["background:0,0,0::"; "name:10,20,30::"].

Definition background_registry : UserLabels :=
  [{| main_name := "background"; aliases := [] |};
   {| main_name := "name"; aliases := [] |}].

Definition background_dir : AnnoDir :=
  {| SegmentationClass := Some ∅; labelmap_txt := Some background_labelmap;
     xml_files := ∅; meta_yaml := None |}.

Definition fresh_import (reg : UserLabels) : ImportState :=
  {| mir_annotation := inhabitant; class_type_manager := reg;
     accu_new_class_names := [] |}.

(** C2, on the code.  A labelmap of a background line with colour
    [(0, 0, 0)] and the line [name:10,20,30::] is parsed into a table of two
    entries, the background line among them; and the mask importer then
    gives the class id of [background] the colour [(0, 0, 0)]. *)
Theorem parse_labelmap_keeps_background_line :
  _parse_labelmap (Some background_labelmap) background_registry
    = Ok [("background", (0, 0, 0)); ("name", (10, 20, 30))] ∧
  map_id_color
    (prediction (mir_annotation
       (_import_annotations_seg_mask int32_ok [] background_dir IGNORE
          Prediction (fresh_import background_registry)).1)) !! 0
    = Some (IntPoint.mk 0 0 0).
Proof. split; vm_compute; reflexivity. Qed.

(** ** The names the box importer accumulates

    Without the strategy [ADD], the box importer leaves the registry as it
    is and enters a name into [accu_new_class_names] only when the name
    does not resolve. *)

Definition unresolved (reg : UserLabels) (name : string) : Prop :=
  (id_and_main_name_for_name reg name).1 < 0.

Definition only_unresolved (reg : UserLabels) (st : ImportState) : Prop :=
  class_type_manager st = reg ∧
  ∀ name, name ∈ dict_keys (accu_new_class_names st) → unresolved reg name.

Lemma find_name_id labels id name found :
  find_name labels id name = Some found → id ≤ found.1.
Proof.
  revert id. induction labels as [|l labels IH]; intros id; simpl; [done|].
  destruct (_ || _).
  - intros [= <-]. simpl. lia.
  - intros Hf%IH. lia.
Qed.

Lemma unresolved_name reg name :
  unresolved reg name → id_and_main_name_for_name reg name = (-1, name).
Proof.
  unfold unresolved, id_and_main_name_for_name.
  destruct (find_name reg 0 name) as [found|] eqn:E; [|done].
  apply find_name_id in E. simpl. lia.
Qed.

Lemma dict_keys_set {V} (d : pydict string V) k v k' :
  k' ∈ dict_keys (dict_set d k v) → k' = k ∨ k' ∈ dict_keys d.
Proof.
  unfold dict_keys. induction d as [|[k0 v0] d IH]; simpl.
  - intros ->%list_elem_of_singleton. by left.
  - case_decide as Hk; simpl.
    + intros [->|?]%elem_of_cons; [by left|]. right. by right.
    + intros [->|[->|?]%IH]%elem_of_cons; [right; left| by left |right; by right].
Qed.

Lemma dict_get_keys {V} (d : pydict string V) k v :
  dict_get d k = Some v → k ∈ dict_keys d.
Proof.
  unfold dict_keys. induction d as [|[k0 v0] d IH]; simpl; [done|].
  case_decide as Hk; [intros _; subst; left | intros ?%IH; by right].
Qed.

Lemma only_unresolved_on_mir_annotation reg f st :
  only_unresolved reg st → only_unresolved reg (on_mir_annotation f st).
Proof. done. Qed.

Lemma voc_xml_object_only_unresolved float_of_str int_field_ok reg slot asset_hash
    object_dict s :
  only_unresolved reg s.1 →
  only_unresolved reg
    (voc_xml_object float_of_str int_field_ok slot asset_hash false object_dict s).1.1.
Proof.
  destruct s as [st [anno_idx img_class_ids]]. intros [Hreg Hnames].
  simpl in Hreg, Hnames. unfold voc_xml_object. simpl.
  destruct (object_name object_dict) as [name|]; [|done].
  destruct (id_and_main_name_for_name (class_type_manager st) name)
    as [cid new_type_name] eqn:Hresolve.
  assert (Hstep : ∀ (st' : ImportState) (cid' : Z),
            only_unresolved reg st' →
            only_unresolved reg
              (if 0 <=? cid' then
                 match
                   _object_dict_to_annotation float_of_str int_field_ok object_dict cid'
                   ≫= (λ annotation, int_field int_field_ok anno_idx
                   ≫= (λ index, Ok {| index := index; box := box annotation;
                          class_id := class_id annotation; score := score annotation;
                          anno_quality := anno_quality annotation;
                          tags := tags annotation |}))
                 with
                 | Ok annotation =>
                     ((on_image slot asset_hash
                         (λ a, with_boxes (boxes a ++ [annotation]) a) st',
                       (anno_idx + 1, {[cid']} ∪ img_class_ids)), Ok tt)
                 | Raise e => ((st', (anno_idx, img_class_ids)), Raise e)
                 end
               else ((st', (anno_idx, img_class_ids)), Ok tt)).1.1).
  { intros st' cid' Hst'. destruct (0 <=? cid'); [|done]. by destruct (_ ≫= _). }
  destruct (dict_get (accu_new_class_names st) new_type_name) as [n|] eqn:Hget.
  - apply Hstep. split; [done|]. intros k [->|Hk]%dict_keys_set.
    + apply Hnames. by eapply dict_get_keys.
    + by apply Hnames.
  - destruct (cid <? 0) eqn:Hcid.
    + apply Hstep. split; [done|]. intros k [->|Hk]%dict_keys_set; [|by apply Hnames].
      apply Z.ltb_lt in Hcid. rewrite Hreg in Hresolve.
      assert (unresolved reg name) as Hname by (unfold unresolved; by rewrite Hresolve).
      rewrite (unresolved_name reg name Hname) in Hresolve.
      by injection Hresolve as _ <-.
    + by apply Hstep.
Qed.

Lemma voc_xml_asset_only_unresolved float_of_str int_field_ok reg slot dir item s :
  only_unresolved reg s.1 →
  only_unresolved reg
    (voc_xml_asset float_of_str int_field_ok slot dir false item s).1.1.
Proof.
  destruct s as [st task_class_ids], item as [asset_hash main_file_name].
  intros Hst. unfold voc_xml_asset. simpl.
  destruct (xml_files dir !! main_file_name) as [[| | |annos_dict]|]; try done.
  destruct (xget annos_dict "cks" (XDict [])) as [cks_v|]; [|done].
  set (st_cks := if truthy cks_v then _ else _).
  assert (only_unresolved reg st_cks.1) as Hcks.
  { unfold st_cks. destruct (truthy cks_v); [|done]. by destruct (update_str_map _ _). }
  destruct st_cks as [st1 [[]|e]]; [|done]. simpl in Hcks.
  destruct (_ ≫= py_float _) as [quality|]; [|done].
  destruct (_ ≫= objects_of) as [objects|]; [|done].
  set (st2 := on_image_cks _ _ st1).
  pose proof (for_each_preserves (λ s, only_unresolved reg s.1) objects
                (voc_xml_object float_of_str int_field_ok slot asset_hash false)
                (λ x s _, voc_xml_object_only_unresolved _ _ reg slot asset_hash x s)
                (st2, (0, ∅)) Hcks) as Hloop.
  destruct (for_each objects _ _) as [[st3 [anno_idx img_class_ids]] [[]|e]]; done.
Qed.

(** The names accumulated by a box import without [ADD] are names that do
    not resolve. *)
Lemma voc_xml_only_unresolved float_of_str int_field_ok reg map_hashed_filename dir
    unknown_types_strategy slot st :
  unknown_types_strategy ≠ ADD →
  only_unresolved reg st →
  only_unresolved reg
    (_import_annotations_voc_xml float_of_str int_field_ok map_hashed_filename dir
       unknown_types_strategy slot st).1.
Proof.
  intros Hstrategy Hst. unfold _import_annotations_voc_xml.
  rewrite bool_decide_eq_false_2 by done.
  pose proof (for_each_preserves (λ s, only_unresolved reg s.1) map_hashed_filename
                (voc_xml_asset float_of_str int_field_ok slot dir false)
                (λ x s _, voc_xml_asset_only_unresolved _ _ reg slot dir x s)
                (st, ∅) Hst) as Hloop.
  destruct (for_each map_hashed_filename _ _) as [[st' task_class_ids] [[]|e]]; done.
Qed.

(** A directory that [_import_annotations_from_dir] does not take for a
    mask directory. *)
Definition box_dir (dir : AnnoDir) : Prop :=
  SegmentationClass dir = None ∨ labelmap_txt dir = None.

Lemma import_meta_only_unresolved reg dir slot st :
  only_unresolved reg st →
  only_unresolved reg (_import_annotation_meta dir slot st).1.
Proof.
  intros Hst. unfold _import_annotation_meta.
  destruct (meta_yaml dir) as [[|d]|]; try done.
  unfold mbind, M_bind, get, modify, raise, mret, M_ret.
  destruct (meta_model d) as [parse_dict|];
    [destruct (parse_dict _) as [m [[]|e]]; [|done]|];
    (destruct (meta_eval_class_names d) as [| |[|n ns]]; try done);
    destruct (meta_executor_config d) as [[c|e]|]; done.
Qed.

Lemma import_from_dir_only_unresolved float_of_str int_field_ok reg
    map_hashed_filename dir unknown_types_strategy slot anno_type st :
  unknown_types_strategy ≠ ADD → box_dir dir → anno_type ≠ AT_SEG_MASK →
  only_unresolved reg st →
  only_unresolved reg
    (_import_annotations_from_dir float_of_str int_field_ok map_hashed_filename dir
       unknown_types_strategy slot anno_type st).1.
Proof.
  intros Hstrategy Hdir Hty Hst. unfold _import_annotations_from_dir.
  assert (match SegmentationClass dir, labelmap_txt dir with
          | Some _, Some _ => AT_SEG_MASK
          | _, _ => anno_type
          end = anno_type) as ->.
  { destruct Hdir as [-> | ->]; [done|]. by destruct (SegmentationClass dir). }
  unfold mbind, M_bind, modify, lift. simpl.
  destruct anno_type; try done; simpl;
    by apply (voc_xml_only_unresolved float_of_str int_field_ok reg).
Qed.

(** The second half of [import_annotations]: the ground-truth directory
    and the check of the accumulated names. *)
Definition import_groundtruth_and_check float_of_str int_field_ok
    (groundtruth_dir : option AnnoDir) (map_hashed_filename : pydict string string)
    (unknown_types_strategy : UnknownTypesStrategy) (anno_type : AnnoType) :
    M ImportState (pydict string Z) :=
  _ ← match groundtruth_dir with
      | Some dir =>
          _import_annotations_from_dir float_of_str int_field_ok map_hashed_filename
            dir unknown_types_strategy GroundTruth anno_type
      | None => mret tt
      end;
  st ← get;
  let anno_import_result := accu_new_class_names st in
  if bool_decide (unknown_types_strategy = STOP)
     && negb (bool_decide (anno_import_result = []))
  then raise (MirRuntimeError RC_CMD_UNKNOWN_TYPES
                (MsgNames (dict_keys anno_import_result)))
  else mret anno_import_result.

Lemma import_annotations_unfold float_of_str int_field_ok mir_annotation reg
    prediction_dir groundtruth_dir map_hashed_filename unknown_types_strategy anno_type :
  import_annotations float_of_str int_field_ok mir_annotation reg prediction_dir
    groundtruth_dir map_hashed_filename unknown_types_strategy anno_type
  = (_ ← match prediction_dir with
         | Some dir =>
             _ ← _import_annotations_from_dir float_of_str int_field_ok
                   map_hashed_filename dir unknown_types_strategy Prediction anno_type;
             _import_annotation_meta dir Prediction
         | None => mret tt
         end;
     import_groundtruth_and_check float_of_str int_field_ok groundtruth_dir
       map_hashed_filename unknown_types_strategy anno_type)
    {| mir_annotation := mir_annotation; class_type_manager := reg;
       accu_new_class_names := [] |}.
Proof. reflexivity. Qed.

Lemma import_groundtruth_only_unresolved float_of_str int_field_ok reg groundtruth_dir
    map_hashed_filename unknown_types_strategy anno_type st :
  unknown_types_strategy ≠ ADD → anno_type ≠ AT_SEG_MASK →
  (∀ dir, groundtruth_dir = Some dir → box_dir dir) →
  only_unresolved reg st →
  only_unresolved reg
    (import_groundtruth_and_check float_of_str int_field_ok groundtruth_dir
       map_hashed_filename unknown_types_strategy anno_type st).1.
Proof.
  intros Hstrategy Hty Hgt Hst. unfold import_groundtruth_and_check.
  destruct groundtruth_dir as [dir|]; unfold mbind, M_bind, get, raise.
  - pose proof (import_from_dir_only_unresolved float_of_str int_field_ok reg
                  map_hashed_filename dir unknown_types_strategy GroundTruth anno_type
                  st Hstrategy (Hgt dir eq_refl) Hty Hst) as Hdir.
    destruct (_import_annotations_from_dir _ _ _ _ _ _ _ st) as [st1 [[]|e]];
      [|done]. simpl. by destruct (_ && _).
  - simpl. by destruct (_ && _).
Qed.

(** Whatever a box import under [STOP] or [IGNORE] accumulates, and so
    whatever a failing [STOP] import lists, is a name that does not
    resolve in the registry. *)
Lemma import_box_only_unresolved float_of_str int_field_ok mir_annotation reg
    prediction_dir groundtruth_dir map_hashed_filename unknown_types_strategy anno_type :
  unknown_types_strategy ≠ ADD → anno_type ≠ AT_SEG_MASK →
  (∀ dir, prediction_dir = Some dir → box_dir dir) →
  (∀ dir, groundtruth_dir = Some dir → box_dir dir) →
  only_unresolved reg
    (import_annotations float_of_str int_field_ok mir_annotation reg prediction_dir
       groundtruth_dir map_hashed_filename unknown_types_strategy anno_type).1.
Proof.
  intros Hstrategy Hty Hpred Hgt. rewrite import_annotations_unfold.
  set (st0 := {| mir_annotation := mir_annotation; class_type_manager := reg;
                 accu_new_class_names := [] |}).
  assert (Hst0 : only_unresolved reg st0).
  { split; [done|]. intros name Hname. by apply elem_of_nil in Hname. }
  destruct prediction_dir as [dir|]; unfold mbind at 1, M_bind at 1.
  - unfold mbind at 1, M_bind at 1.
    pose proof (import_from_dir_only_unresolved float_of_str int_field_ok reg
                  map_hashed_filename dir unknown_types_strategy Prediction anno_type
                  st0 Hstrategy (Hpred dir eq_refl) Hty Hst0) as Hdir.
    destruct (_import_annotations_from_dir _ _ _ _ _ _ _ st0) as [st1 [[]|e]];
      [|done].
    pose proof (import_meta_only_unresolved reg dir Prediction st1 Hdir) as Hmeta.
    destruct (_import_annotation_meta dir Prediction st1) as [st2 [[]|e]]; [|done].
    by apply import_groundtruth_only_unresolved.
  - by apply import_groundtruth_only_unresolved.
Qed.

(** ** Unknown class names under [STOP] *)

Definition cat_registry : UserLabels := [{| main_name := "cat"; aliases := [] |}].

(** A mask directory whose labelmap names the one class [cat]. *)
Definition cat_mask_dir : AnnoDir :=
  {| SegmentationClass := Some ∅; labelmap_txt := Some ["cat:10,20,30::"];
     xml_files := ∅; meta_yaml := None |}.

(** A box directory with one object of class [cat]. *)
Definition cat_box_dir : AnnoDir :=
  {| SegmentationClass := None; labelmap_txt := None;
     xml_files := {[ "img" := XmlParsed (XDict [("object",
        XDict [("name", XStr "cat");
               ("bndbox", XDict [("xmin", XStr "10"); ("ymin", XStr "10");
                                 ("xmax", XStr "19"); ("ymax", XStr "14")])])]) ]};
     meta_yaml := None |}.

(** C1, on the code.  With the registry knowing [cat], a [STOP] import of a
    mask directory whose labelmap names only [cat] fails with UnknownTypes,
    listing [cat], though [cat] resolves to the id 0; the same import of a
    box directory with one [cat] object succeeds. *)
Theorem import_stop_fails_on_known_mask_names :
  id_and_main_name_for_name cat_registry "cat" = (0, "cat") ∧
  (import_annotations float_of_integral int32_ok inhabitant cat_registry
     (Some cat_mask_dir) None [("hash", "img")] STOP AT_SEG_MASK).2
    = Raise (MirRuntimeError RC_CMD_UNKNOWN_TYPES (MsgNames ["cat"])) ∧
  (import_annotations float_of_integral int32_ok inhabitant cat_registry
     (Some cat_box_dir) None [("hash", "img")] STOP AT_DET_BOX).2
    = Ok [].
Proof. repeat split; vm_compute; reflexivity. Qed.

End ImportTheory.

(* ===================================================================== *)
(** * Properties of the merge *)
(* ===================================================================== *)

Module MergeTheory.
Import Annotations.

(** ** Copies between message maps of the store *)

Section MessageMapFacts.

Context {L V : Type} `{EqDecision L} `{Inhabited V}.
Variable getm : store → L → gmap string V.
Variable setm : store → L → gmap string V → store.
Hypothesis get_set_eq : ∀ h p m, getm (setm h p m) p = m.
Hypothesis get_set_ne : ∀ h p q m, p ≠ q → getm (setm h p m) q = getm h q.

(** The map that holds [k] after [p.m[k]] was read. *)
Definition touched (k : string) (m : gmap string V) : gmap string V :=
  match m !! k with Some _ => m | None => <[k := inhabitant]> m end.

Lemma touched_lookup k m : touched k m !! k = Some (default inhabitant (m !! k)).
Proof.
  unfold touched. destruct (m !! k) eqn:E; [by rewrite E|].
  by rewrite lookup_insert_eq.
Qed.

Lemma insert_touched k v m : <[k := v]> (touched k m) = <[k := v]> m.
Proof.
  unfold touched. destruct (m !! k); [done|]. by rewrite insert_insert_eq.
Qed.

Lemma touched_present k m : is_Some (m !! k) → touched k m = m.
Proof. unfold touched. by intros [v ->]. Qed.

Lemma getm_touch_self p k h : getm (touch getm setm p k h) p = touched k (getm h p).
Proof.
  unfold touch, touched. destruct (getm h p !! k); [done|]. by rewrite get_set_eq.
Qed.

Lemma getm_touch_other p q k h : p ≠ q → getm (touch getm setm p k h) q = getm h q.
Proof.
  intros Hne. unfold touch. destruct (getm h p !! k); [done|].
  by rewrite get_set_ne.
Qed.

Lemma getm_copy_target t s k h :
  getm (copy_from getm setm t s k h) t
  = <[k := default inhabitant (getm h s !! k)]> (getm h t).
Proof.
  unfold copy_from. rewrite get_set_eq.
  destruct (decide (s = t)) as [->|Hne].
  - rewrite !getm_touch_self, !touched_lookup. simpl.
    rewrite (touched_present k (touched k _)) by (rewrite touched_lookup; eauto).
    apply insert_touched.
  - rewrite getm_touch_self, touched_lookup.
    rewrite !(getm_touch_other t s) by done.
    rewrite (getm_touch_other s t) by done.
    rewrite getm_touch_self. simpl. apply insert_touched.
Qed.

Lemma getm_copy_source t s k h :
  s ≠ t → getm (copy_from getm setm t s k h) s = touched k (getm h s).
Proof.
  intros Hne. unfold copy_from. rewrite get_set_ne by done.
  rewrite getm_touch_self. by rewrite getm_touch_other.
Qed.

Lemma getm_copy_other t s q k h :
  q ≠ t → q ≠ s → getm (copy_from getm setm t s k h) q = getm h q.
Proof.
  intros Ht Hs. unfold copy_from. rewrite get_set_ne by done.
  rewrite getm_touch_other by done. by rewrite getm_touch_other.
Qed.

(** Whatever the map assignments at [t] and [s] leave alone, a copy leaves
    alone. *)
Lemma copy_from_frame {A} (obs : store → A) t s k h :
  (∀ h m, obs (setm h t m) = obs h) → (∀ h m, obs (setm h s m) = obs h) →
  obs (copy_from getm setm t s k h) = obs h.
Proof.
  intros Ht Hs. unfold copy_from. rewrite Ht.
  unfold touch. destruct (getm (match getm h t !! k with _ => _ end) s !! k).
  - destruct (getm h t !! k); [done | by rewrite Ht].
  - rewrite Hs. destruct (getm h t !! k); [done | by rewrite Ht].
Qed.

(** The three loops of a pair merge. *)
Definition merge_loops (host guest target : L) (strategy : string) (h : store) :
    store :=
  let '(host_only_ids, guest_only_ids, joint_ids) :=
    match_asset_ids (dom (getm h host)) (dom (getm h guest)) in
  let copy := copy_from getm setm in
  let h := foldl (λ h asset_id, copy target host asset_id h) h (elements host_only_ids) in
  let h := foldl (λ h asset_id, copy target guest asset_id h) h (elements guest_only_ids) in
  foldl (λ h asset_id,
     if bool_decide (lower strategy = "host") then
       if contains getm target asset_id h then h
       else copy target host asset_id h
     else if bool_decide (lower strategy = "guest") then
       copy target guest asset_id h
     else h) h (elements joint_ids).

(** Copies of entries the target holds, from itself. *)
Lemma foldl_copy_self t ks h :
  (∀ k, k ∈ ks → is_Some (getm h t !! k)) →
  ∀ q, getm (foldl (λ h k, copy_from getm setm t t k h) h ks) q = getm h q.
Proof.
  revert h. induction ks as [|k ks IH]; intros h Hks q; [done|].
  simpl.
  assert (Hstep : ∀ q, getm (copy_from getm setm t t k h) q = getm h q).
  { intros q'. destruct (decide (q' = t)) as [->|Hq].
    - rewrite getm_copy_target.
      destruct (Hks k) as [v Hv]; [left|]. rewrite Hv. simpl.
      by apply insert_id.
    - by apply getm_copy_other. }
  rewrite IH.
  - apply Hstep.
  - intros k' Hk'. rewrite Hstep. apply Hks. by right.
Qed.

(** Copies of entries the source holds, from another location. *)
Lemma foldl_copy_other t s ks h :
  s ≠ t → (∀ k, k ∈ ks → is_Some (getm h s !! k)) →
  let h' := foldl (λ h k, copy_from getm setm t s k h) h ks in
  getm h' s = getm h s ∧
  ∀ k, getm h' t !! k = if decide (k ∈ ks) then getm h s !! k else getm h t !! k.
Proof.
  intros Hne. revert h. induction ks as [|k ks IH]; intros h Hks; simpl.
  - done.
  - assert (Hs : getm (copy_from getm setm t s k h) s = getm h s).
    { rewrite getm_copy_source by done. apply touched_present, Hks. left. }
    destruct (IH (copy_from getm setm t s k h)) as [IHs IHt].
    { intros k' Hk'. rewrite Hs. apply Hks. by right. }
    split; [by rewrite IHs|].
    intros k'. rewrite IHt, Hs, getm_copy_target.
    destruct (decide (k' ∈ ks)) as [Hin|Hnin].
    + rewrite decide_True; [done | by right].
    + destruct (decide (k' = k)) as [->|Hk].
      * rewrite decide_True by left. rewrite lookup_insert_eq.
        destruct (Hks k) as [v ->]; [left | done].
      * rewrite decide_False by (intros [?|?]%elem_of_cons; done).
        by rewrite lookup_insert_ne.
Qed.

Lemma foldl_frame {A K} (obs : store → A) (step : store → K → store) ks h :
  (∀ h k, obs (step h k) = obs h) → obs (foldl step h ks) = obs h.
Proof.
  intros Hstep. revert h. induction ks as [|k ks IH]; intros h; [done|].
  simpl. by rewrite IH.
Qed.

Lemma foldl_id {K} (step : store → K → store) ks h :
  (∀ h k, step h k = h) → foldl step h ks = h.
Proof. apply (foldl_frame (λ h, h)). Qed.

(** Whatever the map assignments at target, host and guest leave alone,
    the loops leave alone. *)
Lemma merge_loops_frame {A} (obs : store → A) host guest target strategy h :
  (∀ h m, obs (setm h target m) = obs h) →
  (∀ h m, obs (setm h host m) = obs h) → (∀ h m, obs (setm h guest m) = obs h) →
  obs (merge_loops host guest target strategy h) = obs h.
Proof.
  intros Ht Hh Hg. unfold merge_loops, match_asset_ids.
  rewrite !foldl_frame; [done|..]; intros h' k.
  - by apply copy_from_frame.
  - by apply copy_from_frame.
  - repeat case_bool_decide; try done; [|by apply copy_from_frame].
    destruct (contains _ _ _ _); [done | by apply copy_from_frame].
Qed.

(** The loop over the joint ids under the strategy host, the target
    holding them already. *)
Lemma foldl_keep_present t s ks h :
  (∀ k, k ∈ ks → is_Some (getm h t !! k)) →
  foldl (λ h k, if contains getm t k h then h else copy_from getm setm t s k h) h ks
  = h.
Proof.
  induction ks as [|k ks IH]; intros Hks; [done|]. simpl.
  unfold contains at 2. rewrite bool_decide_eq_true_2 by (apply Hks; left).
  apply IH. intros k' Hk'. apply Hks. by right.
Qed.

(** The host's map after the loops, the host being the target: the union of
    the two maps, the guest's entries first under the strategy guest, the
    host's first otherwise. *)
Lemma merge_loops_host_map host guest strategy h :
  getm (merge_loops host guest host strategy h) host
  = if bool_decide (lower strategy = "guest")
    then getm h guest ∪ getm h host
    else getm h host ∪ getm h guest.
Proof.
  unfold merge_loops, match_asset_ids.
  set (H0 := getm h host). set (G0 := getm h guest).
  set (h1 := foldl _ h (elements (dom H0 ∖ _))).
  assert (H1 : ∀ q, getm h1 q = getm h q).
  { apply foldl_copy_self. intros k [Hk _]%elem_of_elements%elem_of_difference.
    by apply elem_of_dom. }
  set (h2 := foldl _ h1 (elements (dom G0 ∖ _))).
  destruct (decide (guest = host)) as [Heq|Hne].
  - (* host and guest are one annotation set *)
    assert (G0 = H0) as HG by (unfold G0, H0; by rewrite Heq).
    assert (H2 : ∀ q, getm h2 q = getm h q).
    { intros q. unfold h2. rewrite Heq, foldl_copy_self; [apply H1|].
      intros k [Hk _]%elem_of_elements%elem_of_difference.
      rewrite H1. rewrite HG in Hk. by apply elem_of_dom in Hk. }
    assert (Hjoint : ∀ k, k ∈ elements (dom H0 ∩ dom G0) → is_Some (getm h2 host !! k)).
    { intros k [Hk _]%elem_of_elements%elem_of_intersection.
      rewrite H2. by apply elem_of_dom. }
    rewrite HG, Heq in *.
    assert (H0 ∪ H0 = H0) as ->.
    { apply map_eq. intros k. rewrite lookup_union.
      destruct (H0 !! k); reflexivity. }
    destruct (bool_decide (lower strategy = "host")) eqn:Ehost.
    + rewrite foldl_keep_present by done. rewrite H2.
      destruct (bool_decide (lower strategy = "guest")); reflexivity.
    + destruct (bool_decide (lower strategy = "guest")).
      * rewrite foldl_copy_self by done. apply H2.
      * rewrite foldl_id by done. apply H2.
  - (* two annotation sets *)
    destruct (foldl_copy_other host guest (elements (dom G0 ∖ (dom H0 ∩ dom G0))) h1
                Hne) as [HG2 HH2].
    { intros k [Hk _]%elem_of_elements%elem_of_difference.
      rewrite H1. by apply elem_of_dom. }
    fold h2 in HG2, HH2. rewrite H1 in HG2. fold G0 in HG2.
    assert (HH2' : ∀ k, getm h2 host !! k
                        = if decide (k ∈ dom G0 ∖ (dom H0 ∩ dom G0))
                          then G0 !! k else H0 !! k).
    { intros k. rewrite HH2, !H1. fold G0 H0.
      destruct (decide (k ∈ elements (dom G0 ∖ (dom H0 ∩ dom G0)))) as [Hk|Hk];
        rewrite elem_of_elements in Hk.
      - by rewrite decide_True.
      - by rewrite decide_False. }
    clear HH2.
    assert (Hjoint : ∀ k, k ∈ elements (dom H0 ∩ dom G0) → is_Some (getm h2 host !! k)).
    { intros k [Hk Hk']%elem_of_elements%elem_of_intersection.
      rewrite HH2'. rewrite decide_False; [by apply elem_of_dom|].
      intros [_ Hn]%elem_of_difference. apply Hn. by apply elem_of_intersection. }
    assert (Hunion2 : getm h2 host = H0 ∪ G0).
    { apply map_eq. intros k. rewrite HH2', lookup_union.
      destruct (decide (k ∈ dom G0 ∖ (dom H0 ∩ dom G0))) as [Hk|Hk];
        rewrite elem_of_difference, elem_of_intersection, !elem_of_dom in Hk.
      - destruct (H0 !! k) eqn:EH, (G0 !! k) eqn:EG; simpl; try done;
          destruct Hk as [[? ?] Hk]; try done. exfalso. apply Hk. eauto.
      - destruct (H0 !! k) eqn:EH, (G0 !! k) eqn:EG; simpl; try done.
        exfalso. apply Hk. split; [eauto|]. intros [[? ?] _]. done. }
    destruct (bool_decide (lower strategy = "host")) eqn:Ehost.
    + rewrite foldl_keep_present by done.
      apply bool_decide_eq_true_1 in Ehost.
      rewrite bool_decide_eq_false_2 by (rewrite Ehost; done). done.
    + destruct (bool_decide (lower strategy = "guest")).
      * destruct (foldl_copy_other host guest (elements (dom H0 ∩ dom G0)) h2 Hne)
          as [_ HH3].
        { intros k [_ Hk]%elem_of_elements%elem_of_intersection.
          rewrite HG2. by apply elem_of_dom. }
        apply map_eq. intros k. rewrite HH3, HG2, Hunion2, !lookup_union.
        destruct (decide (k ∈ elements (dom H0 ∩ dom G0))) as [Hk|Hk];
          rewrite elem_of_elements, elem_of_intersection, !elem_of_dom in Hk.
        -- destruct Hk as [[? ->] [? ->]]. done.
        -- destruct (H0 !! k) eqn:EH, (G0 !! k) eqn:EG; simpl; try done.
           exfalso. apply Hk. eauto.
      * rewrite foldl_id by done. done.
Qed.

End MessageMapFacts.

(** ** The two instances: task annotations and image custom keys *)

Lemma deref_assign_eq h p t : deref (assign h p t) p = t.
Proof.
  unfold deref, assign, store_set. rewrite decide_True by done.
  by destruct p as [r []].
Qed.

Lemma deref_assign_ne h p q t : p ≠ q → deref (assign h p t) q = deref h q.
Proof.
  intros Hne. unfold deref, assign, store_set.
  destruct (decide (q.1 = p.1)) as [Heq|]; [|done].
  rewrite Heq. destruct p as [r []], q as [r' []]; simpl in *; subst; done.
Qed.

Lemma cks_of_assign h p t r : cks_of (assign h p t) r = cks_of h r.
Proof.
  unfold cks_of, assign, store_set. destruct (decide (r = p.1)) as [->|]; [|done].
  by destruct p as [r' []].
Qed.

Lemma task_images_set_eq h p m : task_images (set_task_images h p m) p = m.
Proof. unfold task_images, set_task_images. by rewrite deref_assign_eq. Qed.

Lemma task_images_set_ne h p q m :
  p ≠ q → task_images (set_task_images h p m) q = task_images h q.
Proof.
  intros Hne. unfold task_images, set_task_images. by rewrite deref_assign_ne.
Qed.

Lemma task_images_set_type h p q ty : task_images (set_type h p ty) q = task_images h q.
Proof.
  unfold task_images, set_type. destruct (decide (p = q)) as [->|Hne].
  - by rewrite deref_assign_eq.
  - by rewrite deref_assign_ne.
Qed.

Lemma type_set_task_images h p q m :
  type (deref (set_task_images h p m) q) = type (deref h q).
Proof.
  unfold set_task_images. destruct (decide (p = q)) as [->|Hne].
  - by rewrite deref_assign_eq.
  - by rewrite deref_assign_ne.
Qed.

Lemma cks_of_set_eq h r m : cks_of (set_cks h r m) r = m.
Proof. unfold cks_of, set_cks, store_set. by rewrite decide_True. Qed.

Lemma cks_of_set_ne h r r' m : r ≠ r' → cks_of (set_cks h r m) r' = cks_of h r'.
Proof. intros Hne. unfold cks_of, set_cks, store_set. by rewrite decide_False. Qed.

Lemma deref_set_cks h r m q : deref (set_cks h r m) q = deref h q.
Proof.
  unfold deref, set_cks, store_set. destruct (decide (q.1 = r)) as [<-|]; [|done].
  by destruct q as [r' []].
Qed.

(** Both sides declare a type, and not the same. *)
Definition types_conflict (a b : AnnoType) : bool :=
  negb (bool_decide (a = AT_UNKNOWN)) && negb (bool_decide (b = AT_UNKNOWN))
  && negb (bool_decide (a = b)).

Definition type_mismatch : exn :=
  MirRuntimeError RC_CMD_INVALID_ANNO_TYPE (Msg "host and guest anno type mismatch").

Definition conflict_annotations : exn :=
  MirRuntimeError RC_CMD_MERGE_ERROR
    (Msg "found conflict annotations in strategy stop").

Definition conflict_image_cks : exn :=
  MirRuntimeError RC_CMD_MERGE_ERROR (Msg "found conflict image cks in strategy stop").

(** The ids both sides hold. *)
Definition joint_ids {V} (host guest : gmap string V) : gset string :=
  dom host ∩ dom guest.

Lemma _merge_pair_annotations_unfold host guest target strategy h :
  _merge_pair_annotations host guest target strategy h
  = if types_conflict (type (deref h host)) (type (deref h guest))
    then (h, Raise type_mismatch)
    else
      let h1 := set_type h target
                  (type_or (type (deref h host)) (type (deref h guest))) in
      if bool_decide (strategy = "stop")
         && negb (bool_decide (joint_ids (task_images h1 host) (task_images h1 guest) = ∅))
      then (h1, Raise conflict_annotations)
      else (merge_loops task_images set_task_images host guest target strategy h1,
            Ok tt).
Proof. reflexivity. Qed.

Lemma _merge_annotation_image_cks_unfold host guest target strategy h :
  _merge_annotation_image_cks host guest target strategy h
  = if bool_decide (strategy = "stop")
       && negb (bool_decide (joint_ids (cks_of h host) (cks_of h guest) = ∅))
    then (h, Raise conflict_image_cks)
    else (merge_loops cks_of set_cks host guest target strategy h, Ok tt).
Proof. reflexivity. Qed.

(** What a pair merge into the host does, case by case. *)
Inductive pair_outcome {V} (H0 G0 H' : gmap string V) (strategy : string) :
    result unit → Prop :=
| pair_failed e :
    H' = H0 → pair_outcome H0 G0 H' strategy (Raise e)
| pair_merged :
    ¬ (strategy = "stop" ∧ joint_ids H0 G0 ≠ ∅) →
    H' = (if bool_decide (lower strategy = "guest") then G0 ∪ H0 else H0 ∪ G0) →
    pair_outcome H0 G0 H' strategy (Ok tt).

Lemma stop_test strategy (ids : gset string) :
  bool_decide (strategy = "stop") && negb (bool_decide (ids = ∅)) = true
  ↔ strategy = "stop" ∧ ids ≠ ∅.
Proof.
  rewrite andb_true_iff, negb_true_iff, bool_decide_eq_true, bool_decide_eq_false.
  done.
Qed.

Lemma merge_pair_into_host host guest strategy h :
  let run := _merge_pair_annotations host guest host strategy h in
  let conflict := types_conflict (type (deref h host)) (type (deref h guest)) in
  let joint := joint_ids (task_images h host) (task_images h guest) in
  pair_outcome (task_images h host) (task_images h guest)
    (task_images run.1 host) strategy run.2 ∧
  (conflict = true → run = (h, Raise type_mismatch)) ∧
  (conflict = false → strategy = "stop" → joint ≠ ∅ →
     run.2 = Raise conflict_annotations) ∧
  (conflict = false → ¬ (strategy = "stop" ∧ joint ≠ ∅) → run.2 = Ok tt).
Proof.
  intros run conflict joint. unfold run.
  rewrite _merge_pair_annotations_unfold. fold conflict.
  destruct conflict.
  { repeat split; try done. by apply pair_failed. }
  cbv zeta. rewrite !task_images_set_type. fold joint.
  destruct (bool_decide (strategy = "stop") && negb (bool_decide (joint = ∅)))
    eqn:Estop; simpl.
  - apply stop_test in Estop as [-> Hjoint].
    repeat split; try done.
    + apply pair_failed. by rewrite task_images_set_type.
    + intros _ Hn. destruct Hn. done.
  - assert (¬ (strategy = "stop" ∧ joint ≠ ∅)) as Hn.
    { intros Hs%stop_test. congruence. }
    repeat split; try done.
    + apply pair_merged; [done|].
      rewrite (merge_loops_host_map task_images set_task_images
                 task_images_set_eq task_images_set_ne).
      by rewrite !task_images_set_type.
    + intros _ -> Hj. destruct Hn. done.
Qed.

Lemma merge_cks_into_host host guest strategy h :
  let run := _merge_annotation_image_cks host guest host strategy h in
  let joint := joint_ids (cks_of h host) (cks_of h guest) in
  pair_outcome (cks_of h host) (cks_of h guest) (cks_of run.1 host) strategy run.2 ∧
  (strategy = "stop" → joint ≠ ∅ → run = (h, Raise conflict_image_cks)) ∧
  (¬ (strategy = "stop" ∧ joint ≠ ∅) → run.2 = Ok tt).
Proof.
  intros run joint. unfold run. rewrite _merge_annotation_image_cks_unfold.
  fold joint.
  destruct (bool_decide (strategy = "stop") && negb (bool_decide (joint = ∅)))
    eqn:Estop; simpl.
  - apply stop_test in Estop as [-> Hjoint].
    repeat split; try done.
    + by apply pair_failed.
    + intros Hn. destruct Hn. done.
  - assert (¬ (strategy = "stop" ∧ joint ≠ ∅)) as Hn.
    { intros Hs%stop_test. congruence. }
    repeat split; try done.
    + apply pair_merged; [done|].
      by rewrite (merge_loops_host_map cks_of set_cks cks_of_set_eq cks_of_set_ne).
    + intros -> Hj. destruct Hn. done.
Qed.

(** A pair merge of one slot leaves the other slot and the custom keys of
    every annotation set alone. *)
Lemma merge_pair_frame {A} (obs : store → A) host guest strategy h :
  (∀ h t, obs (assign h host t) = obs h) →
  (∀ h t, obs (assign h guest t) = obs h) →
  obs (_merge_pair_annotations host guest host strategy h).1 = obs h.
Proof.
  intros Hh Hg. rewrite _merge_pair_annotations_unfold.
  destruct (types_conflict _ _); [done|]. cbv zeta.
  destruct (_ && _); simpl.
  - unfold set_type. by rewrite Hh.
  - rewrite (merge_loops_frame task_images set_task_images).
    + unfold set_type. by rewrite Hh.
    + intros h' m. unfold set_task_images. by rewrite Hh.
    + intros h' m. unfold set_task_images. by rewrite Hh.
    + intros h' m. unfold set_task_images. by rewrite Hg.
Qed.

Lemma merge_cks_frame {A} (obs : store → A) host guest strategy h :
  (∀ h m, obs (set_cks h host m) = obs h) →
  (∀ h m, obs (set_cks h guest m) = obs h) →
  obs (_merge_annotation_image_cks host guest host strategy h).1 = obs h.
Proof.
  intros Hh Hg. rewrite _merge_annotation_image_cks_unfold.
  destruct (_ && _); simpl; [done|].
  by rewrite (merge_loops_frame cks_of set_cks).
Qed.

(** ** The type of a merged pair *)

(** C5.  In a merge of two task-annotation sets, if host and guest both
    declare a type other than unknown and the two differ, the merge fails
    with InvalidAnnoType (and changes nothing); otherwise the target's type
    becomes the host's type when that is not unknown, and the guest's type
    when it is. *)
Theorem merge_pair_type (host guest target : task_ref) (strategy : string) (h : store) :
  let host_type := type (deref h host) in
  let guest_type := type (deref h guest) in
  let run := _merge_pair_annotations host guest target strategy h in
  (host_type ≠ AT_UNKNOWN ∧ guest_type ≠ AT_UNKNOWN ∧ host_type ≠ guest_type →
     run = (h, Raise (MirRuntimeError RC_CMD_INVALID_ANNO_TYPE
                        (Msg "host and guest anno type mismatch")))) ∧
  (¬ (host_type ≠ AT_UNKNOWN ∧ guest_type ≠ AT_UNKNOWN ∧ host_type ≠ guest_type) →
     type (deref run.1 target)
     = if decide (host_type = AT_UNKNOWN) then guest_type else host_type).
Proof.
  intros host_type guest_type run. unfold run.
  rewrite _merge_pair_annotations_unfold. fold host_type guest_type.
  assert (Hconflict : types_conflict host_type guest_type = true
            ↔ host_type ≠ AT_UNKNOWN ∧ guest_type ≠ AT_UNKNOWN
              ∧ host_type ≠ guest_type).
  { unfold types_conflict.
    rewrite !andb_true_iff, !negb_true_iff, !bool_decide_eq_false. tauto. }
  destruct (types_conflict host_type guest_type).
  - split; [done|]. intros Hn. destruct Hn. by apply Hconflict.
  - split; [intros Hc%Hconflict; done|]. intros _. cbv zeta.
    assert (Hty : type (deref (set_type h target (type_or host_type guest_type)) target)
                  = type_or host_type guest_type).
    { unfold set_type. by rewrite deref_assign_eq. }
    destruct (_ && _); simpl; [exact Hty|].
    rewrite (merge_loops_frame task_images set_task_images
               (λ h, type (deref h target))); [exact Hty|..];
      intros; apply type_set_task_images.
Qed.

(** ** The whole merge *)

(** The merged map of a pair: the union of the two sides, the guest's
    entries first under the strategy guest, the host's first otherwise. *)
Definition merged_map {V} (H0 G0 : gmap string V) (strategy : string) : gmap string V :=
  if bool_decide (lower strategy = "guest") then G0 ∪ H0 else H0 ∪ G0.

Definition stop_conflict {V} (H0 G0 : gmap string V) (strategy : string) : Prop :=
  strategy = "stop" ∧ joint_ids H0 G0 ≠ ∅.

Lemma merge_pair_cases host guest strategy h :
  let run := _merge_pair_annotations host guest host strategy h in
  let conflict := types_conflict (type (deref h host)) (type (deref h guest)) in
  let H0 := task_images h host in
  let G0 := task_images h guest in
  (conflict = true ∧ run = (h, Raise type_mismatch)) ∨
  (conflict = false ∧ stop_conflict H0 G0 strategy ∧
     run.2 = Raise conflict_annotations ∧ task_images run.1 host = H0) ∨
  (conflict = false ∧ ¬ stop_conflict H0 G0 strategy ∧
     run.2 = Ok tt ∧ task_images run.1 host = merged_map H0 G0 strategy).
Proof.
  intros run conflict H0 G0.
  destruct (merge_pair_into_host host guest strategy h) as (Hout & Hc & Hs & Hk).
  fold run conflict H0 G0 in Hout, Hc, Hs, Hk.
  destruct conflict; [left; auto|]. right.
  destruct (decide (stop_conflict H0 G0 strategy)) as [[Hstop Hj]|Hn].
  - left. specialize (Hs eq_refl Hstop Hj). repeat split; try done.
    rewrite Hs in Hout. by inversion Hout.
  - right. specialize (Hk eq_refl Hn). repeat split; try done.
    rewrite Hk in Hout. by inversion Hout.
Qed.

Lemma merge_cks_cases host guest strategy h :
  let run := _merge_annotation_image_cks host guest host strategy h in
  let H0 := cks_of h host in
  let G0 := cks_of h guest in
  (stop_conflict H0 G0 strategy ∧ run = (h, Raise conflict_image_cks)) ∨
  (¬ stop_conflict H0 G0 strategy ∧
     run.2 = Ok tt ∧ cks_of run.1 host = merged_map H0 G0 strategy).
Proof.
  intros run H0 G0.
  destruct (merge_cks_into_host host guest strategy h) as (Hout & Hs & Hk).
  fold run H0 G0 in Hout, Hs, Hk.
  destruct (decide (stop_conflict H0 G0 strategy)) as [[Hstop Hj]|Hn].
  - left. split; [done|]. by apply Hs.
  - right. specialize (Hk Hn). repeat split; try done.
    rewrite Hk in Hout. by inversion Hout.
Qed.

(** A pair merge of the slot [s] leaves the other slot and the custom keys
    alone. *)
Lemma merge_pair_other_slot (rh rg : ref) (s : task_slot) strategy h q :
  q.2 ≠ s →
  deref (_merge_pair_annotations (rh, s) (rg, s) (rh, s) strategy h).1 q = deref h q.
Proof.
  intros Hq. apply (merge_pair_frame (λ h, deref h q)); intros h' t;
    apply deref_assign_ne; intros <-; done.
Qed.

Lemma merge_pair_cks (host guest : task_ref) strategy h r :
  cks_of (_merge_pair_annotations host guest host strategy h).1 r = cks_of h r.
Proof.
  apply (merge_pair_frame (λ h, cks_of h r)); intros; apply cks_of_assign.
Qed.

Lemma merge_cks_deref host guest strategy h q :
  deref (_merge_annotation_image_cks host guest host strategy h).1 q = deref h q.
Proof.
  apply (merge_cks_frame (λ h, deref h q)); intros; apply deref_set_cks.
Qed.

Lemma extend_eval_class_ids_images host guest h q :
  task_images (extend_eval_class_ids host guest h) q = task_images h q.
Proof.
  unfold task_images, extend_eval_class_ids.
  destruct (decide (host = q)) as [->|Hne].
  - by rewrite deref_assign_eq.
  - by rewrite deref_assign_ne.
Qed.

Lemma extend_eval_class_ids_type host guest h q :
  type (deref (extend_eval_class_ids host guest h) q) = type (deref h q).
Proof.
  unfold extend_eval_class_ids.
  destruct (decide (host = q)) as [->|Hne].
  - by rewrite deref_assign_eq.
  - by rewrite deref_assign_ne.
Qed.

Lemma extend_eval_class_ids_cks host guest h r :
  cks_of (extend_eval_class_ids host guest h) r = cks_of h r.
Proof. apply cks_of_assign. Qed.

Definition prediction_of (r : ref) : task_ref := (r, Prediction).
Definition ground_truth_of (r : ref) : task_ref := (r, GroundTruth).

(** The host's map of a pair after the merge: as it was, or merged. *)
Definition kept_or_merged {V} (H0 G0 H' : gmap string V) (strategy : string) : Prop :=
  H' = H0 ∨ (¬ stop_conflict H0 G0 strategy ∧ H' = merged_map H0 G0 strategy).

Definition all_merged (host guest : ref) (strategy : string) (h h' : store) : Prop :=
  (¬ stop_conflict (task_images h (prediction_of host))
       (task_images h (prediction_of guest)) strategy ∧
   task_images h' (prediction_of host)
   = merged_map (task_images h (prediction_of host))
       (task_images h (prediction_of guest)) strategy) ∧
  (¬ stop_conflict (task_images h (ground_truth_of host))
       (task_images h (ground_truth_of guest)) strategy ∧
   task_images h' (ground_truth_of host)
   = merged_map (task_images h (ground_truth_of host))
       (task_images h (ground_truth_of guest)) strategy) ∧
  (¬ stop_conflict (cks_of h host) (cks_of h guest) strategy ∧
   cks_of h' host = merged_map (cks_of h host) (cks_of h guest) strategy).

Definition type_conflicts (host guest : ref) (h : store) : bool :=
  types_conflict (type (deref h (prediction_of host))) (type (deref h (prediction_of guest)))
  || types_conflict (type (deref h (ground_truth_of host)))
       (type (deref h (ground_truth_of guest))).

Ltac finish_outcome :=
  split_and!; auto; try done; try (intros ? [= <-]; auto).

Lemma merge_annotations_outcome host guest strategy h :
  let run := merge_annotations host guest strategy h in
  kept_or_merged (task_images h (prediction_of host)) (task_images h (prediction_of guest))
    (task_images run.1 (prediction_of host)) strategy ∧
  kept_or_merged (task_images h (ground_truth_of host)) (task_images h (ground_truth_of guest))
    (task_images run.1 (ground_truth_of host)) strategy ∧
  kept_or_merged (cks_of h host) (cks_of h guest) (cks_of run.1 host) strategy ∧
  (run.2 = Ok tt → all_merged host guest strategy h run.1) ∧
  (∀ e, run.2 = Raise e →
     (e = type_mismatch ∧ type_conflicts host guest h = true) ∨
     ((e = conflict_annotations ∨ e = conflict_image_cks) ∧ strategy = "stop")) ∧
  (type_conflicts host guest h = false → strategy ≠ "stop" → run.2 = Ok tt).
Proof.
  intros run. unfold run, merge_annotations, mbind, M_bind, modify, type_conflicts,
    all_merged, kept_or_merged, prediction_of, ground_truth_of.
  pose proof (merge_pair_cases (host, Prediction) (guest, Prediction) strategy h) as C1.
  pose proof (λ q, merge_pair_other_slot host guest Prediction strategy h q) as F1.
  pose proof (λ r, merge_pair_cks (host, Prediction) (guest, Prediction) strategy h r)
    as K1.
  cbv zeta in C1.
  destruct (_merge_pair_annotations (host, Prediction) (guest, Prediction)
              (host, Prediction) strategy h) as [h1 r1].
  simpl in C1, F1, K1.
  assert (G1 : ∀ r, deref h1 (r, GroundTruth) = deref h (r, GroundTruth)).
  { intros r. by apply F1. }
  assert (I1 : ∀ r, task_images h1 (r, GroundTruth) = task_images h (r, GroundTruth)).
  { intros r. unfold task_images. by rewrite G1. }
  destruct C1 as [[Hc1 [= -> ->]] | [(Hc1 & Hs1 & -> & Hm1) | (Hc1 & Hs1 & -> & Hm1)]].
  { rewrite Hc1. simpl. finish_outcome. }
  { destruct Hs1 as [-> Hj]. simpl. rewrite !I1, !K1, Hm1.
    finish_outcome. }
  rewrite Hc1. simpl.
  set (h2 := extend_eval_class_ids (host, Prediction) (guest, Prediction) h1).
  pose proof (merge_pair_cases (host, GroundTruth) (guest, GroundTruth) strategy h2)
    as C3.
  pose proof (λ q, merge_pair_other_slot host guest GroundTruth strategy h2 q) as F3.
  pose proof (λ r, merge_pair_cks (host, GroundTruth) (guest, GroundTruth) strategy h2 r)
    as K3.
  cbv zeta in C3.
  destruct (_merge_pair_annotations (host, GroundTruth) (guest, GroundTruth)
              (host, GroundTruth) strategy h2) as [h3 r3].
  simpl in C3, F3, K3.
  assert (P3 : task_images h3 (host, Prediction)
               = merged_map (task_images h (host, Prediction))
                   (task_images h (guest, Prediction)) strategy).
  { unfold task_images at 1. rewrite F3 by done. fold (task_images h2 (host, Prediction)).
    unfold h2. by rewrite extend_eval_class_ids_images. }
  assert (T2 : ∀ r, type (deref h2 (r, GroundTruth)) = type (deref h (r, GroundTruth))).
  { intros r. unfold h2. by rewrite extend_eval_class_ids_type, G1. }
  assert (I2 : ∀ r, task_images h2 (r, GroundTruth) = task_images h (r, GroundTruth)).
  { intros r. unfold h2. by rewrite extend_eval_class_ids_images. }
  assert (K2 : ∀ r, cks_of h3 r = cks_of h r).
  { intros r. rewrite K3. unfold h2. by rewrite extend_eval_class_ids_cks. }
  rewrite !T2, !I2 in C3.
  destruct C3 as [[Hc3 [= -> ->]] | [(Hc3 & Hs3 & -> & Hm3) | (Hc3 & Hs3 & -> & Hm3)]].
  { rewrite Hc3. simpl. rewrite !I2.
    assert (cks_of h2 host = cks_of h host) as ->.
    { unfold h2. by rewrite extend_eval_class_ids_cks. }
    assert (task_images h2 (host, Prediction)
            = merged_map (task_images h (host, Prediction))
                (task_images h (guest, Prediction)) strategy) as ->.
    { unfold h2. by rewrite extend_eval_class_ids_images. }
    finish_outcome. }
  { destruct Hs3 as [-> Hj]. rewrite Hc3. simpl. rewrite !K2, P3, Hm3.
    finish_outcome. }
  rewrite Hc3. simpl.
  pose proof (merge_cks_cases host guest strategy h3) as C4.
  pose proof (λ q, merge_cks_deref host guest strategy h3 q) as F4.
  cbv zeta in C4.
  destruct (_merge_annotation_image_cks host guest host strategy h3) as [h4 r4].
  simpl in C4, F4. rewrite !K2 in C4.
  assert (P4 : task_images h4 (host, Prediction) = task_images h3 (host, Prediction)).
  { unfold task_images. by rewrite F4. }
  assert (G4 : task_images h4 (host, GroundTruth) = task_images h3 (host, GroundTruth)).
  { unfold task_images. by rewrite F4. }
  simpl. rewrite P4, G4, P3, Hm3.
  destruct C4 as [[Hs4 [= -> ->]] | (Hs4 & -> & Hm4)].
  { destruct Hs4 as [-> Hj]. rewrite K2.
    finish_outcome. }
  rewrite Hm4. finish_outcome.
Qed.

(** ** The three comparable pairs *)

Inductive pair := PredictionPair | GroundTruthPair | ImageCksPair.

Inductive entry :=
| ImageEntry (a : SingleImageAnnotations)
| CksEntry (c : SingleImageCks).

(** The asset ids of a pair in an annotation set, and the entry of one. *)
Definition pair_ids (p : pair) (h : store) (r : ref) : gset string :=
  match p with
  | PredictionPair => dom (task_images h (prediction_of r))
  | GroundTruthPair => dom (task_images h (ground_truth_of r))
  | ImageCksPair => dom (cks_of h r)
  end.

Definition pair_entry (p : pair) (h : store) (r : ref) (k : string) : option entry :=
  match p with
  | PredictionPair => ImageEntry <$> task_images h (prediction_of r) !! k
  | GroundTruthPair => ImageEntry <$> task_images h (ground_truth_of r) !! k
  | ImageCksPair => CksEntry <$> cks_of h r !! k
  end.

(** The merge raised a runtime error of the given code. *)
Definition raises (code : MirCode) (r : result unit) : Prop :=
  ∃ msg, r = Raise (MirRuntimeError code msg).

Lemma merged_map_lookup_host {V} (H0 G0 : gmap string V) strategy k :
  lower strategy = "host" → is_Some (H0 !! k) →
  merged_map H0 G0 strategy !! k = H0 !! k.
Proof.
  intros Hs [v Hv]. unfold merged_map.
  rewrite bool_decide_eq_false_2 by (rewrite Hs; done).
  rewrite lookup_union, Hv. by destruct (G0 !! k).
Qed.

Lemma merged_map_lookup_guest {V} (H0 G0 : gmap string V) strategy k :
  lower strategy = "guest" → is_Some (G0 !! k) →
  merged_map H0 G0 strategy !! k = G0 !! k.
Proof.
  intros Hs [v Hv]. unfold merged_map.
  rewrite bool_decide_eq_true_2 by done.
  rewrite lookup_union, Hv. by destruct (H0 !! k).
Qed.

Lemma stop_not_guest strategy : lower strategy = "guest" → strategy ≠ "stop".
Proof. intros Hs ->. discriminate. Qed.

(** C4, as the spec states it: for every merge call and every asset id of
    the joint set of a pair, under the strategy guest the entry of the host
    after the call is the entry of the guest, and under the strategy host
    it is the entry the host had. *)
Definition joint_claim : Prop :=
  ∀ (p : pair) (h : store) (host guest : ref) (strategy : string) (k : string),
    k ∈ pair_ids p h host ∩ pair_ids p h guest →
    let run := merge_annotations host guest strategy h in
    (strategy = "host" → pair_entry p run.1 host k = pair_entry p h host k) ∧
    (strategy = "guest" → pair_entry p run.1 host k = pair_entry p h guest k).

(** C4, amended.  For every asset id of the joint set of a pair
    (predictions, ground truths or image custom keys): under the strategy
    host the entry of the host is the one it had before the merge, whether
    the merge returns or raises; under the strategy guest the entry of the
    host is the entry of the guest once the merge returns, and it is the
    guest's or still the host's own when the merge raises; and under the
    strategy guest the merge returns unless host and guest declare two
    different types. *)
Theorem merge_joint_entries (p : pair) (h : store) (host guest : ref)
    (strategy : string) (k : string) :
  k ∈ pair_ids p h host ∩ pair_ids p h guest →
  let run := merge_annotations host guest strategy h in
  (lower strategy = "host" → pair_entry p run.1 host k = pair_entry p h host k) ∧
  (lower strategy = "guest" → run.2 = Ok tt →
     pair_entry p run.1 host k = pair_entry p h guest k) ∧
  (lower strategy = "guest" →
     pair_entry p run.1 host k = pair_entry p h guest k
     ∨ pair_entry p run.1 host k = pair_entry p h host k) ∧
  (lower strategy = "guest" → type_conflicts host guest h = false → run.2 = Ok tt).
Proof.
  intros [Hkh Hkg]%elem_of_intersection run.
  destruct (merge_annotations_outcome host guest strategy h)
    as (Op & Og & Oc & Hok & _ & Htotal).
  fold run in Op, Og, Oc, Hok, Htotal.
  split_and!; [| |intros Hs; destruct p; simpl in *; apply elem_of_dom in Hkg;
                  [destruct Op as [->|[_ ->]] | destruct Og as [->|[_ ->]]
                  | destruct Oc as [->|[_ ->]]];
                  (by right) || (left; by rewrite merged_map_lookup_guest)|].
  - intros Hs. destruct p; simpl in *; apply elem_of_dom in Hkh.
    + destruct Op as [->|[_ ->]]; [done|]. by rewrite merged_map_lookup_host.
    + destruct Og as [->|[_ ->]]; [done|]. by rewrite merged_map_lookup_host.
    + destruct Oc as [->|[_ ->]]; [done|]. by rewrite merged_map_lookup_host.
  - intros Hs Hrun. destruct (Hok Hrun) as ((_ & Hp) & (_ & Hg) & (_ & Hc)).
    destruct p; simpl in *; apply elem_of_dom in Hkg.
    + by rewrite Hp, merged_map_lookup_guest.
    + by rewrite Hg, merged_map_lookup_guest.
    + by rewrite Hc, merged_map_lookup_guest.
  - intros Hs Hty. apply Htotal; [done|]. by apply stop_not_guest.
Qed.


(** ** Concrete merges *)

Definition image_of (cid : Z) : SingleImageAnnotations :=
  {| boxes := []; masks := []; img_class_ids := [cid] |}.

Definition task_of (ty : AnnoType) (images : gmap string SingleImageAnnotations) :
    SingleTaskAnnotations :=
  with_type ty (with_image_annotations images inhabitant).

(** Two annotation sets, at the addresses 0 (host) and 1 (guest). *)
Definition store_of (host guest : MirAnnotations) : store :=
  λ r, match r with O => host | 1%nat => guest | _ => inhabitant end.

(** Host and guest hold predictions for the asset [a], of two different
    types. *)
Definition mismatch_store : store :=
  store_of
    {| prediction := task_of AT_DET_BOX {[ "a" := image_of 1 ]};
       ground_truth := inhabitant; image_cks := ∅ |}
    {| prediction := task_of AT_SEG_MASK {[ "a" := image_of 2 ]};
       ground_truth := inhabitant; image_cks := ∅ |}.

(** Host and guest hold ground truths for the asset [a], of one type, the
    guest also for the asset [b]; the host's predictions have no type
    yet. *)
Definition joint_store : store :=
  store_of
    {| prediction := task_of AT_UNKNOWN ∅;
       ground_truth := task_of AT_DET_BOX {[ "a" := image_of 1 ]};
       image_cks := ∅ |}
    {| prediction := task_of AT_DET_BOX {[ "c" := image_of 3 ]};
       ground_truth := task_of AT_DET_BOX {[ "a" := image_of 2; "b" := image_of 2 ]};
       image_cks := ∅ |}.


Lemma elem_of_by_compute (k : string) (X : gset string) :
  bool_decide (k ∈ X) = true → k ∈ X.
Proof. apply bool_decide_eq_true. Qed.

(** C4 fails as stated: with two different types for the predictions, the
    merge under guest raises before any entry is copied, and the entry of
    the host for the joint id stays the host's. *)
Lemma joint_claim_fails : ¬ joint_claim.
Proof.
  intros Hclaim.
  destruct (Hclaim PredictionPair mismatch_store 0%nat 1%nat "guest" "a") as [_ Hguest].
  - apply elem_of_by_compute. vm_compute. reflexivity.
  - specialize (Hguest eq_refl). vm_compute in Hguest. discriminate.
Qed.

(** Before the merge of a pair fails with MergeConflict, the type of the
    host's pair is already set: here the host's predictions take the
    guest's type, and the merge then stops at the ground truths. *)
Example merge_stop_sets_type_first :
  let run := merge_annotations 0%nat 1%nat "stop" joint_store in
  run.2 = Raise conflict_annotations ∧
  type (deref joint_store (prediction_of 0%nat)) = AT_UNKNOWN ∧
  type (deref run.1 (prediction_of 0%nat)) = AT_DET_BOX.
Proof. repeat split; vm_compute; reflexivity. Qed.

(** The conclusion of C4 for the joint id of the ground truths of
    [joint_store], under a strategy. *)
Definition joint_entries_at (strategy : string) : Prop :=
  let run := merge_annotations 0%nat 1%nat strategy joint_store in
  (lower strategy = "host" →
     pair_entry GroundTruthPair run.1 0%nat "a"
     = pair_entry GroundTruthPair joint_store 0%nat "a") ∧
  (lower strategy = "guest" → run.2 = Ok tt →
     pair_entry GroundTruthPair run.1 0%nat "a"
     = pair_entry GroundTruthPair joint_store 1%nat "a") ∧
  (lower strategy = "guest" →
     pair_entry GroundTruthPair run.1 0%nat "a"
     = pair_entry GroundTruthPair joint_store 1%nat "a"
     ∨ pair_entry GroundTruthPair run.1 0%nat "a"
       = pair_entry GroundTruthPair joint_store 0%nat "a") ∧
  (lower strategy = "guest" → type_conflicts 0%nat 1%nat joint_store = false →
     run.2 = Ok tt).

Lemma merge_joint_entries_witness : joint_entries_at "guest" ∧ joint_entries_at "host".
Proof.
  split.
  - apply (merge_joint_entries GroundTruthPair joint_store 0%nat 1%nat "guest" "a").
    apply elem_of_by_compute. vm_compute. reflexivity.
  - apply (merge_joint_entries GroundTruthPair joint_store 0%nat 1%nat "host" "a").
    apply elem_of_by_compute. vm_compute. reflexivity.
Defined.

Example merge_guest_example :
  let run := merge_annotations 0%nat 1%nat "guest" joint_store in
  run.2 = Ok tt ∧
  task_images run.1 (ground_truth_of 0%nat) = {[ "a" := image_of 2; "b" := image_of 2 ]} ∧
  task_images run.1 (prediction_of 0%nat) = {[ "c" := image_of 3 ]}.
Proof. repeat split; vm_compute; reflexivity. Qed.

Example merge_host_example :
  let run := merge_annotations 0%nat 1%nat "host" joint_store in
  run.2 = Ok tt ∧
  task_images run.1 (ground_truth_of 0%nat) = {[ "a" := image_of 1; "b" := image_of 2 ]}.
Proof. repeat split; vm_compute; reflexivity. Qed.

End MergeTheory.

(* ===================================================================== *)
(** * Properties of the remap, the filter and the sampling *)
(* ===================================================================== *)

Module SubsetTheory.
Import Annotations.

(** ** [copy_annotations] *)

(** C6.  When the source and destination label files are the same path, or
    when the prediction and the ground-truth image-annotation maps are both
    empty, [copy_annotations] returns an empty dictionary of unknown names
    and leaves the annotation set (and the context) as they were. *)
Theorem copy_annotations_identity (load_or_create_userlabels : string → UserLabels)
    (data_label_storage_file label_storage_file : string)
    (mir_annotations : MirAnnotations) (mir_context : MirContext) :
  data_label_storage_file = label_storage_file
  ∨ (image_annotations (prediction mir_annotations) = ∅
     ∧ image_annotations (ground_truth mir_annotations) = ∅) →
  copy_annotations load_or_create_userlabels data_label_storage_file
    label_storage_file (mir_annotations, mir_context)
  = ((mir_annotations, mir_context), Ok []).
Proof.
  intros Hsame. unfold copy_annotations.
  destruct Hsame as [-> | [Hp Hg]].
  - by rewrite bool_decide_eq_true_2.
  - rewrite Hp, Hg, map_size_empty. simpl.
    by rewrite orb_true_r.
Qed.

(** Two label files with different vocabularies. *)
Definition label_files (path : string) : UserLabels :=
  if decide (path = "src/labels.yaml")
  then [{| main_name := "cat"; aliases := [] |}; {| main_name := "dog"; aliases := [] |}]
  else [{| main_name := "dog"; aliases := [] |}].

Definition boxed (cid : Z) : SingleImageAnnotations :=
  {| boxes := [with_class_id cid inhabitant]; masks := []; img_class_ids := [cid] |}.

Definition pets : MirAnnotations :=
  {| prediction := with_image_annotations {[ "a" := boxed 0; "b" := boxed 1 ]} inhabitant;
     ground_truth := inhabitant; image_cks := ∅ |}.

Definition pets_context : MirContext :=
  {| pred_stats := {| class_ids_cnt := {[ 0 := 1; 1 := 1 ]} |};
     gt_stats := {| class_ids_cnt := ∅ |} |}.

Lemma copy_annotations_identity_witness :
  copy_annotations label_files "src/labels.yaml" "src/labels.yaml" (pets, pets_context)
  = ((pets, pets_context), Ok []).
Proof.
  apply (copy_annotations_identity label_files "src/labels.yaml" "src/labels.yaml"
           pets pets_context).
  left. reflexivity.
Defined.

(** Between two different label files the class ids are rewritten: [cat]
    has no counterpart and its box is dropped, [dog] goes from 1 to 0. *)
Example copy_annotations_remaps :
  let run := copy_annotations label_files "src/labels.yaml" "dst/labels.yaml"
               (pets, pets_context) in
  run.2 = Ok [("cat", 1)] ∧
  image_annotations (prediction run.1.1)
  = {[ "a" := {| boxes := []; masks := []; img_class_ids := [0] |};
       "b" := {| boxes := [with_class_id 0 inhabitant]; masks := [];
                 img_class_ids := [1] |} ]}.
Proof. split; vm_compute; reflexivity. Qed.

(** ** [sampling_annotations] and [filter_annotations] *)

Lemma sampling_asset_image_cks mir_annotations sampled asset_id :
  image_cks (sampling_asset mir_annotations sampled asset_id) = image_cks sampled.
Proof. unfold sampling_asset. repeat case_bool_decide; reflexivity. Qed.

Lemma foldl_sampling_image_cks mir_annotations sampled ks :
  image_cks (foldl (sampling_asset mir_annotations) sampled ks) = image_cks sampled.
Proof.
  revert sampled. induction ks as [|k ks IH]; intros sampled; [done|].
  simpl. by rewrite IH, sampling_asset_image_cks.
Qed.

Lemma foldl_copy_entry_lookup `{Inhabited V} (src dst : gmap string V) ks k :
  foldl (copy_entry src) dst ks !! k
  = if decide (k ∈ ks) then Some (default inhabitant (src !! k)) else dst !! k.
Proof.
  revert dst. induction ks as [|k' ks IH]; intros dst; simpl.
  - done.
  - rewrite IH. unfold copy_entry.
    destruct (decide (k ∈ ks)) as [Hin|Hnin].
    + rewrite decide_True; [done | by right].
    + destruct (decide (k = k')) as [->|Hne].
      * rewrite decide_True by left. by rewrite lookup_insert_eq.
      * rewrite decide_False by (intros [?|?]%elem_of_cons; done).
        by rewrite lookup_insert_ne.
Qed.

(** C9.  The annotation set that [sampling_annotations] returns has no
    image custom keys, whatever the input and the sampled ids; the one that
    [filter_annotations] returns has the custom keys of the source for
    every asset id of the selection, and no other. *)
Theorem sampling_drops_image_cks (mir_annotations : MirAnnotations)
    (sampled_asset_ids : list string) (asset_ids_set : gset string) :
  image_cks (sampling_annotations mir_annotations sampled_asset_ids) = ∅ ∧
  ∀ asset_id,
    image_cks (filter_annotations mir_annotations asset_ids_set) !! asset_id
    = if decide (asset_id ∈ asset_ids_set)
      then image_cks mir_annotations !! asset_id
      else None.
Proof.
  split.
  - unfold sampling_annotations. simpl. by rewrite foldl_sampling_image_cks.
  - intros k. unfold filter_annotations. simpl.
    rewrite foldl_copy_entry_lookup.
    destruct (decide (k ∈ elements _)) as [Hin|Hnin];
      rewrite elem_of_elements, elem_of_intersection, elem_of_dom in *.
    + destruct Hin as [HS [v Hv]]. rewrite decide_True by done. by rewrite Hv.
    + rewrite lookup_empty. case_decide as HS; [|done].
      destruct (image_cks mir_annotations !! k) eqn:E; [|done].
      destruct Hnin. eauto.
Qed.

Definition keyed : MirAnnotations :=
  {| prediction := inhabitant; ground_truth := inhabitant;
     image_cks := {[ "a" := {| cks := {[ "weather" := "rain" ]};
                               image_quality := float_zero |} ]} |}.

Example sampling_and_filter_example :
  image_cks (sampling_annotations keyed ["a"]) = ∅ ∧
  image_cks (filter_annotations keyed {[ "a" ]}) = image_cks keyed.
Proof. split; vm_compute; reflexivity. Qed.

End SubsetTheory.

(* ===================================================================== *)
(** * Properties of the sandbox migrator *)
(* ===================================================================== *)

Module SandboxTheory.
Import Sandbox.

Section Discovery.

Variable ID_LEN_USER_ID ID_LEN_REPO_ID : nat.

(** The user ids of a sandbox: the names of the root that start with the
    digits of a user id. *)
Definition user_ids (root : fs) : list string :=
  filter (λ user_id, match_digits ID_LEN_USER_ID user_id) (map_to_list root).*1.

Lemma elem_of_user_ids root u :
  u ∈ user_ids root ↔ match_digits ID_LEN_USER_ID u = true ∧ is_Some (root !! u).
Proof.
  unfold user_ids. rewrite list_elem_of_filter, Is_true_true.
  assert (u ∈ (map_to_list root).*1 ↔ is_Some (root !! u)) as ->; [|done].
  rewrite list_elem_of_fmap. split.
  - intros ([k v] & -> & Hin). apply elem_of_map_to_list in Hin. eauto.
  - intros [v Hv]. exists (u, v). split; [done|]. by apply elem_of_map_to_list.
Qed.

Lemma mapM_result_inv {A B} (f : A → result B) l l' :
  mapM f l = Ok l' → Forall2 (λ x y, f x = Ok y) l l'.
Proof.
  revert l'. induction l as [|x l IH]; intros l' Hl; simpl in Hl.
  - injection Hl as <-. constructor.
  - destruct (f x) as [y|] eqn:Hy; [|discriminate]. simpl in Hl.
    destruct (mapM f l) as [ys|]; [|discriminate]. simpl in Hl.
    injection Hl as <-. constructor; auto.
Qed.

Lemma mapM_result_Ok {A B} (f : A → result B) l :
  (∀ x, x ∈ l → ∃ y, f x = Ok y) → ∃ l', mapM f l = Ok l'.
Proof.
  induction l as [|x l IH]; intros Hl; simpl; [by eexists|].
  destruct (Hl x) as [y ->]; [left|]. simpl.
  destruct IH as [ys ->]; [intros; apply Hl; by right|]. by eexists.
Qed.

(** The repositories of one user. *)
Definition detect_user (root : fs) (user_id : string) : result (string * gset string) :=
  let user_dir := root !! user_id in
  repo_ids ← listdir user_dir;
  Ok (user_id,
      list_to_set (filter (λ repo_id,
          match_digits ID_LEN_REPO_ID repo_id
          && isdir (child (child user_dir repo_id) ".git")) repo_ids)).

Lemma detect_unfold root :
  _detect_users_and_repos ID_LEN_USER_ID ID_LEN_REPO_ID root
  = mapM (detect_user root) (user_ids root).
Proof. reflexivity. Qed.

(** The discovery succeeds exactly when every user id names a directory,
    and then lists the user ids. *)
Lemma detect_inv root users :
  _detect_users_and_repos ID_LEN_USER_ID ID_LEN_REPO_ID root = Ok users →
  users.*1 = user_ids root ∧ ∀ u, u ∈ user_ids root → isdir (root !! u) = true.
Proof.
  rewrite detect_unfold. intros Hm%mapM_result_inv.
  revert Hm. generalize (user_ids root). intros ids Hm.
  induction Hm as [|u [u' repos] us users Hu Hrest IH].
  - split; [reflexivity|]. intros u Hu. by apply elem_of_nil in Hu.
  - destruct IH as [IH1 IH2]. unfold detect_user in Hu.
    destruct (root !! u) as [[|entries]|] eqn:Eu; simpl in Hu; try discriminate.
    injection Hu as <- _. split; [rewrite fmap_cons; by rewrite IH1|].
    intros v [->|Hv]%elem_of_cons; [by rewrite Eu | by apply IH2].
Qed.

Lemma detect_Ok root :
  (∀ u, u ∈ user_ids root → isdir (root !! u) = true) →
  ∃ users, _detect_users_and_repos ID_LEN_USER_ID ID_LEN_REPO_ID root = Ok users.
Proof.
  intros Hdirs. rewrite detect_unfold.
  apply mapM_result_Ok. intros u Hu%Hdirs. unfold detect_user.
  destruct (root !! u) as [[|entries]|]; try discriminate. simpl. by eexists.
Qed.

End Discovery.

Section NoUsers.

Variable ID_LEN_USER_ID ID_LEN_REPO_ID : nat.
Variable DEFAULT_YMIR_SRC_VERSION : string.
Variable yaml_safe_load : string → yaml_value.

(** C10.  In a sandbox root none of whose entries matches the pattern of a
    user id, no user directory is discovered and [detect_sandbox_src_ver]
    fails with InvalidUserSpaceVersions, the error of a sandbox with more
    than one version. *)
Theorem detect_sandbox_src_ver_no_users (root : fs) :
  (∀ name, is_Some (root !! name) → match_digits ID_LEN_USER_ID name = false) →
  _detect_users_and_repos ID_LEN_USER_ID ID_LEN_REPO_ID root = Ok [] ∧
  detect_sandbox_src_ver ID_LEN_USER_ID ID_LEN_REPO_ID DEFAULT_YMIR_SRC_VERSION
    yaml_safe_load root
  = Raise (SandboxError INVALID_USER_SPACE_VERSIONS (MsgVersions [])).
Proof.
  intros Hnone.
  assert (Hids : user_ids ID_LEN_USER_ID root = []).
  { destruct (user_ids ID_LEN_USER_ID root) as [|u us] eqn:E; [done|].
    assert (u ∈ user_ids ID_LEN_USER_ID root) as [Hm Hu]%elem_of_user_ids
      by (rewrite E; left).
    rewrite (Hnone u Hu) in Hm. discriminate. }
  assert (Hdetect : _detect_users_and_repos ID_LEN_USER_ID ID_LEN_REPO_ID root = Ok []).
  { by rewrite detect_unfold, Hids. }
  split; [done|]. unfold detect_sandbox_src_ver. by rewrite Hdetect.
Qed.

End NoUsers.

(** ** Backup, upgrade, rollback *)

Section Rollback.

Variable ID_LEN_USER_ID ID_LEN_REPO_ID : nat.
Hypothesis user_id_not_empty : (0 < ID_LEN_USER_ID)%nat.

Abbreviation is_user_id name := (match_digits ID_LEN_USER_ID name = true).

(** What an entry is: nothing, a file, a directory. *)
Inductive kind := Absent | IsFile | IsDir.

Definition kind_of (n : option node) : kind :=
  match n with None => Absent | Some (File _) => IsFile | Some (Dir _) => IsDir end.

(** Between two states of the sandbox: the backup directory is the same,
    and every name with the pattern of a user id is the same kind of
    entry. *)
Definition same_layout (root root' : fs) : Prop :=
  root' !! "backup" = root !! "backup" ∧
  ∀ name, is_user_id name → kind_of (root' !! name) = kind_of (root !! name).

(** An upgrade function that works inside the user directories: it leaves
    the backup directory alone and neither creates nor removes a user
    directory, when called on a repository of a user. *)
Definition keeps_layout (f : update_func) : Prop :=
  ∀ user_id repo_id root,
    is_user_id user_id → same_layout root (f user_id repo_id root).1.

Lemma backup_not_user_id : match_digits ID_LEN_USER_ID "backup" = false.
Proof. destruct ID_LEN_USER_ID; [lia | reflexivity]. Qed.

Lemma user_id_not_backup u : is_user_id u → u ≠ "backup".
Proof. intros Hu ->. rewrite backup_not_user_id in Hu. discriminate. Qed.

Lemma same_layout_refl root : same_layout root root.
Proof. by split. Qed.

Lemma same_layout_trans a b c : same_layout a b → same_layout b c → same_layout a c.
Proof.
  intros [Hb1 Hk1] [Hb2 Hk2]. split; [congruence|].
  intros name Hn. by rewrite Hk2, Hk1.
Qed.

Lemma run_update_funcs_layout (order : repo_order)
    (users : list (string * gset string)) update_funcs root :
  Forall keeps_layout update_funcs →
  (∀ u, u ∈ users.*1 → is_user_id u) →
  same_layout root (run_update_funcs order users update_funcs root).1.
Proof.
  intros Hfuncs Husers. unfold run_update_funcs.
  apply for_each_invariant; [apply same_layout_refl | apply same_layout_trans|].
  intros [user_id repo_ids] s Hin.
  assert (is_user_id user_id) as Huser.
  { apply Husers, list_elem_of_fmap. by exists (user_id, repo_ids). }
  apply for_each_invariant; [apply same_layout_refl | apply same_layout_trans|].
  intros repo_id s' _. clear s.
  induction Hfuncs as [|f fs Hf Hfs IH] in s' |- *; simpl; [apply same_layout_refl|].
  unfold mbind, M_bind. specialize (Hf user_id repo_id s' Huser).
  destruct (f user_id repo_id s') as [s'' [[]|e]]; simpl in *; [|done].
  eapply same_layout_trans; [exact Hf | apply IH].
Qed.

(** The loop of [_backup], when it succeeds. *)
Lemma backup_users_spec us : ∀ root1 B0 root_b,
  root1 !! "backup" = Some (Dir B0) →
  (∀ u, u ∈ us → u ≠ "backup") →
  for_each us backup_user root1 = (root_b, Ok tt) →
  ∃ B, root_b = <["backup" := Dir B]> root1 ∧
       (∀ u, u ∈ us → B !! u = root1 !! u ∧ isdir (root1 !! u) = true) ∧
       (∀ u, u ∉ us → B !! u = B0 !! u).
Proof.
  induction us as [|u us IH]; intros root1 B0 root_b Hb Hus Hrun; simpl in Hrun.
  - injection Hrun as <-. exists B0. split_and!.
    + symmetry. by apply insert_id.
    + intros u Hu. by apply elem_of_nil in Hu.
    + done.
  - unfold mbind, M_bind, backup_user in Hrun. rewrite Hb in Hrun.
    destruct (root1 !! u) as [[|es]|] eqn:Eu; simpl in Hrun; try discriminate.
    destruct (B0 !! u) eqn:EB; simpl in Hrun; [discriminate|].
    assert (u ≠ "backup") as Hu by (apply Hus; left).
    apply IH with (B0 := <[u := Dir es]> B0) in Hrun as (B & -> & Hin & Hout).
    + exists B. split_and!.
      * by rewrite insert_insert_eq.
      * intros v Hv. destruct (decide (v ∈ us)) as [Hvs|Hvs].
        -- destruct (Hin v Hvs) as [HB Hd].
           assert (v ≠ "backup") by (apply Hus; by right).
           rewrite lookup_insert_ne in HB, Hd by done. done.
        -- apply elem_of_cons in Hv as [->|?]; [|done].
           rewrite (Hout u Hvs), lookup_insert_eq, Eu. done.
      * intros v Hv. apply not_elem_of_cons in Hv as [Hne Hvs].
        rewrite (Hout v Hvs). by rewrite lookup_insert_ne.
    + by rewrite lookup_insert_eq.
    + intros v Hv. apply Hus. by right.
Qed.

(** What a successful [_backup] leaves: the root with a backup directory
    that holds every user directory, all of them directories. *)
Lemma backup_spec root root_b :
  _backup ID_LEN_USER_ID ID_LEN_REPO_ID root = (root_b, Ok tt) →
  ∃ B, root_b = <["backup" := Dir B]> root ∧
       (∀ u, is_user_id u → B !! u = root !! u) ∧
       (∀ u, is_user_id u → is_Some (root !! u) → isdir (root !! u) = true).
Proof.
  unfold _backup. intros Hrun.
  assert (∃ root1, root1 !! "backup" = Some (Dir ∅) ∧
            (∀ u, u ≠ "backup" → root1 !! u = root !! u) ∧
            (∀ B, <["backup" := Dir B]> root1 = <["backup" := Dir B]> root) ∧
            match _detect_users_and_repos ID_LEN_USER_ID ID_LEN_REPO_ID root1 with
            | Raise e => (root1, Raise e)
            | Ok user_to_repos => for_each user_to_repos.*1 backup_user root1
            end = (root_b, Ok tt)) as (root1 & Hb1 & Hsame & Hins & Hrun1).
  { destruct (root !! "backup") as [[|es]|] eqn:Eb; [discriminate| |].
    - simpl in Hrun.
      destruct (map_to_list es) as [|[k v] l] eqn:El; simpl in Hrun; [|discriminate].
      apply map_to_list_empty_iff in El as ->. exists root. by split_and!.
    - rewrite lookup_insert_eq in Hrun. simpl in Hrun.
      rewrite map_to_list_empty in Hrun. simpl in Hrun.
      exists (<["backup" := Dir ∅]> root). split_and!; [|..|done].
      + by rewrite lookup_insert_eq.
      + intros u Hu. by rewrite lookup_insert_ne.
      + intros B. by rewrite insert_insert_eq. }
  clear Hrun.
  destruct (_detect_users_and_repos _ _ root1) as [users|] eqn:Hdetect; [|discriminate].
  apply detect_inv in Hdetect as [Hids Hdirs].
  apply backup_users_spec with (B0 := ∅) in Hrun1 as (B & -> & Hin & Hout); [|done|].
  - exists B. split_and!; [apply Hins|..].
    + intros u Hu. destruct (decide (u ∈ users.*1)) as [Hus|Hus].
      * destruct (Hin u Hus) as [-> _]. apply Hsame. by apply user_id_not_backup.
      * rewrite (Hout u Hus), lookup_empty. symmetry.
        rewrite Hids, elem_of_user_ids in Hus.
        rewrite Hsame in Hus by (by apply user_id_not_backup).
        destruct (root !! u); [|done]. destruct Hus. eauto.
    + intros u Hu Hsome. rewrite <- Hsame by (by apply user_id_not_backup).
      apply Hdirs, elem_of_user_ids. split; [done|].
      by rewrite Hsame by (by apply user_id_not_backup).
  - intros u Hu. rewrite Hids in Hu. apply elem_of_user_ids in Hu as [Hu _].
    by apply user_id_not_backup.
Qed.

(** One user directory restored from its backup. *)
Lemma restore_user_step B u bs (root_i : fs) :
  root_i !! "backup" = Some (Dir B) → u ≠ "backup" →
  isdir (root_i !! u) = true → B !! u = Some (Dir bs) →
  restore_user u root_i = (<[u := Dir bs]> (delete u root_i), Ok tt).
Proof.
  intros Hb Hne Hdir HB. unfold restore_user, rmtree.
  destruct (root_i !! u) as [[|es]|]; try discriminate.
  rewrite lookup_delete_ne by done. rewrite Hb. simpl. rewrite HB. simpl.
  by rewrite lookup_delete_eq.
Qed.

(** The loop of [_roll_back], over user directories that have a backup. *)
Lemma restore_users_spec B us : ∀ root_i,
  root_i !! "backup" = Some (Dir B) →
  (∀ u, u ∈ us →
     u ≠ "backup" ∧ isdir (root_i !! u) = true ∧ isdir (B !! u) = true) →
  ∃ root_j, for_each us restore_user root_i = (root_j, Ok tt) ∧
            root_j !! "backup" = Some (Dir B) ∧
            (∀ u, u ∈ us → root_j !! u = B !! u) ∧
            (∀ u, u ∉ us → root_j !! u = root_i !! u).
Proof.
  induction us as [|u us IH]; intros root_i Hb Hus; simpl.
  - exists root_i. split_and!; try done. intros u Hu. by apply elem_of_nil in Hu.
  - destruct (Hus u) as (Hne & Hdir & HBdir); [left|].
    destruct (B !! u) as [[|bs]|] eqn:EB; try discriminate.
    unfold mbind, M_bind. rewrite (restore_user_step B u bs root_i Hb Hne Hdir EB).
    destruct (IH (<[u := Dir bs]> (delete u root_i))) as (root_j & -> & Hbj & Hin & Hout).
    + rewrite lookup_insert_ne by done. by rewrite lookup_delete_ne.
    + intros v Hv. destruct (Hus v) as (Hvne & Hvdir & HvB); [by right|].
      split_and!; try done. destruct (decide (v = u)) as [->|Hvu].
      * by rewrite lookup_insert_eq.
      * rewrite lookup_insert_ne by done. by rewrite lookup_delete_ne.
    + exists root_j. split_and!; try done.
      * intros v Hv. destruct (decide (v ∈ us)) as [Hvs|Hvs]; [by apply Hin|].
        apply elem_of_cons in Hv as [->|?]; [|done].
        by rewrite (Hout u Hvs), lookup_insert_eq.
      * intros v Hv. apply not_elem_of_cons in Hv as [Hvu Hvs].
        rewrite (Hout v Hvs), lookup_insert_ne by done. by rewrite lookup_delete_ne.
Qed.

Lemma isdir_kind n : isdir n = true ↔ kind_of n = IsDir.
Proof. destruct n as [[]|]; simpl; split; congruence. Qed.

Lemma absent_kind n : n = None ↔ kind_of n = Absent.
Proof. destruct n as [[]|]; simpl; split; congruence. Qed.

(** The calls of the three nested loops of [update], in the order in
    which they are made: for every user, for every repository of that
    user, every upgrade function. *)
Definition upgrade_calls (order : repo_order)
    (user_to_repos : list (string * gset string))
    (update_funcs : list update_func) : list (M fs unit) :=
  user ← user_to_repos;
  repo_id ← order user.1 user.2;
  update_func ← update_funcs;
  [update_func user.1 repo_id].

(** An order goes through every element of a set once. *)
Definition is_order (order : repo_order) : Prop :=
  ∀ user_id repo_ids, order user_id repo_ids ≡ₚ elements repo_ids.

(** The calls made one after the other, up to the first that raises. *)
Definition run_calls (calls : list (M fs unit)) : M fs unit :=
  for_each calls (λ call, call).

Lemma run_update_funcs_calls order user_to_repos update_funcs root :
  run_update_funcs order user_to_repos update_funcs root
  = run_calls (upgrade_calls order user_to_repos update_funcs) root.
Proof.
  unfold run_calls, upgrade_calls, run_update_funcs. rewrite for_each_bind.
  apply for_each_ext. intros [user_id repo_ids] s. rewrite for_each_bind.
  apply for_each_ext. intros repo_id s'. rewrite for_each_bind.
  apply for_each_ext. intros update_func s''. by rewrite for_each_singleton.
Qed.

(** C7, as the spec states it, for the upgrade functions that are
    [admitted] and the exceptions that are [caught]: when a call of an
    upgrade function raises, [update] raises the same exception, there is
    no backup directory left, and every user directory found at the start
    is what it was before the migration.  The spec admits every upgrade
    function and takes every exception as caught. *)
Definition rollback_claim (admitted : update_func → Prop) (caught : exn → Prop) : Prop :=
  ∀ (order : repo_order) (update_funcs : list update_func) (root root_b root_u : fs)
    (user_to_repos : list (string * gset string)) (e : exn),
    is_order order →
    Forall admitted update_funcs →
    _backup ID_LEN_USER_ID ID_LEN_REPO_ID root = (root_b, Ok tt) →
    _detect_users_and_repos ID_LEN_USER_ID ID_LEN_REPO_ID root_b = Ok user_to_repos →
    run_calls (upgrade_calls order user_to_repos update_funcs) root_b
    = (root_u, Raise e) →
    caught e →
    ∃ root',
      update ID_LEN_USER_ID ID_LEN_REPO_ID order update_funcs root = (root', Raise e) ∧
      root' !! "backup" = None ∧
      ∀ user_id, user_id ∈ user_to_repos.*1 → root' !! user_id = root !! user_id.

(** C7, amended.  Let the upgrade functions work inside the user
    directories (they leave the backup directory alone and neither create
    nor remove a user directory), and let the backup succeed.  The upgrade
    functions are called for every repository of every user found, the
    repositories of a user in whatever order the loop goes through their
    set, up to the first call that raises.  If that call raises an
    exception that [except Exception] catches, [update] raises that same
    exception, every user directory is what it was before the migration,
    and there is no backup directory; if it raises another exception,
    [update] lets it through and the sandbox stays as the call left it,
    backup directory included; if no call raises, [update] returns and the
    backup directory is removed. *)
Theorem update_rolls_back (order : repo_order) (update_funcs : list update_func)
    (root root_b : fs) :
  is_order order →
  Forall keeps_layout update_funcs →
  _backup ID_LEN_USER_ID ID_LEN_REPO_ID root = (root_b, Ok tt) →
  ∃ user_to_repos,
    _detect_users_and_repos ID_LEN_USER_ID ID_LEN_REPO_ID root_b = Ok user_to_repos ∧
    (∀ user_id, user_id ∈ user_to_repos.*1 ↔
                is_user_id user_id ∧ is_Some (root !! user_id)) ∧
    let ran := run_calls (upgrade_calls order user_to_repos update_funcs) root_b in
    match ran.2 with
    | Ok _ =>
        update ID_LEN_USER_ID ID_LEN_REPO_ID order update_funcs root
        = (delete "backup" ran.1, Ok tt)
    | Raise e =>
        if is_exception e then
          ∃ root',
            update ID_LEN_USER_ID ID_LEN_REPO_ID order update_funcs root
            = (root', Raise e) ∧
            root' !! "backup" = None ∧
            ∀ user_id, is_user_id user_id → root' !! user_id = root !! user_id
        else
          update ID_LEN_USER_ID ID_LEN_REPO_ID order update_funcs root
          = (ran.1, Raise e) ∧
          ran.1 !! "backup" = root_b !! "backup"
    end.
Proof.
  intros _ Hfuncs Hbackup.
  destruct (backup_spec root root_b Hbackup) as (B & -> & HB & Hdirs).
  set (root_b := <["backup" := Dir B]> root) in *.
  assert (Hb : root_b !! "backup" = Some (Dir B)) by apply lookup_insert_eq.
  assert (Hsame : ∀ u, is_user_id u → root_b !! u = root !! u).
  { intros u Hu%user_id_not_backup. by apply lookup_insert_ne. }
  destruct (detect_Ok ID_LEN_USER_ID ID_LEN_REPO_ID root_b) as [users Hdetect].
  { intros u [Hu Hsome]%elem_of_user_ids. rewrite Hsame in * by done. by apply Hdirs. }
  assert (Hfound : ∀ u, u ∈ users.*1 ↔ is_user_id u ∧ is_Some (root !! u)).
  { intros u. pose proof Hdetect as [Hids _]%detect_inv.
    rewrite Hids, elem_of_user_ids. split; intros [Hu Hsome]; (split; [done|]).
    - by rewrite <- Hsame.
    - by rewrite Hsame. }
  assert (Husers : ∀ u, u ∈ users.*1 → is_user_id u).
  { intros u Hu. by apply Hfound in Hu as [Hu _]. }
  pose proof (run_update_funcs_layout order users update_funcs root_b Hfuncs Husers)
    as [Hbu Hku].
  pose proof (run_update_funcs_calls order users update_funcs root_b) as Hcalls.
  destruct (run_update_funcs order users update_funcs root_b)
    as [root_u outcome] eqn:Hrun.
  simpl in Hbu, Hku. rewrite Hb in Hbu.
  exists users. split_and!; try done. cbv zeta. rewrite <- Hcalls. simpl.
  unfold update. rewrite Hbackup, Hdetect, Hrun.
  destruct outcome as [[]|e].
  - unfold _remove_backup, rmtree. by rewrite Hbu.
  - destruct (is_exception e); [|by rewrite Hb].
    assert (Hudirs : ∀ u, is_user_id u → is_Some (root_u !! u) →
                          isdir (root_u !! u) = true ∧ isdir (B !! u) = true).
    { intros u Hu Hsome.
      assert (is_Some (root !! u)) as Hroot.
      { destruct (root !! u) eqn:E; [eauto|].
        specialize (Hku u Hu). rewrite Hsame, E in Hku by done.
        apply absent_kind in Hku. rewrite Hku in Hsome. by destruct Hsome. }
      specialize (Hdirs u Hu Hroot). split.
      - apply isdir_kind. rewrite Hku, Hsame by done. by apply isdir_kind.
      - by rewrite HB. }
    unfold _roll_back.
    destruct (detect_Ok ID_LEN_USER_ID ID_LEN_REPO_ID root_u) as [users_u Hdetect_u].
    { intros u [Hu Hsome]%elem_of_user_ids. by apply Hudirs. }
    rewrite Hdetect_u. apply detect_inv in Hdetect_u as [Hids _].
    destruct (restore_users_spec B users_u.*1 root_u Hbu) as (root_j & Hj & Hbj & Hin & Hout).
    { intros u Hu. rewrite Hids in Hu. apply elem_of_user_ids in Hu as [Hu Hsome].
      destruct (Hudirs u Hu Hsome). split_and!; try done. by apply user_id_not_backup. }
    unfold mbind, M_bind. rewrite Hj. unfold _remove_backup, rmtree. rewrite Hbj.
    eexists. split_and!; [done | apply lookup_delete_eq |].
    intros u Hu. rewrite lookup_delete_ne by (apply not_eq_sym; by apply user_id_not_backup).
    destruct (decide (u ∈ users_u.*1)) as [Hus|Hus].
    + rewrite (Hin u Hus). by apply HB.
    + rewrite (Hout u Hus). rewrite Hids, elem_of_user_ids in Hus.
      destruct (root_u !! u) eqn:E; [destruct Hus; eauto|].
      specialize (Hku u Hu). rewrite E, Hsame in Hku by done.
      symmetry. by apply absent_kind.
Qed.

End Rollback.

(** ** Concrete sandboxes *)

(** Label files are read as [ymir_version: <text>] or as anything else. *)
Definition yaml_of_version (text : string) : yaml_value :=
  match text with
  | "" => YamlOther
  | "{" => YamlError
  | _ => YamlDict (if decide (text = "labels: []") then None else Some text)
  end.

Definition user_dir (ver : string) (repos : gmap string node) : node :=
  Dir (<["labels.yaml" := File ver]> repos).

Definition repo (data : string) : node :=
  Dir {[ ".git" := Dir ∅; "data" := File data ]}.

(** A sandbox without users: a stray file and a directory. *)
Definition empty_sandbox : fs :=
  {[ "readme.txt" := File "hello"; "backup" := Dir ∅ ]}.

Lemma detect_sandbox_src_ver_no_users_witness :
  _detect_users_and_repos 4 6 empty_sandbox = Ok [] ∧
  detect_sandbox_src_ver 4 6 "1.1.0" yaml_of_version empty_sandbox
  = Raise (SandboxError INVALID_USER_SPACE_VERSIONS (MsgVersions [])).
Proof.
  apply (detect_sandbox_src_ver_no_users 4 6 "1.1.0" yaml_of_version empty_sandbox).
  intros name [n Hn]. unfold empty_sandbox in Hn.
  apply lookup_insert_Some in Hn as [[<- _]|[_ Hn]]; [reflexivity|].
  apply lookup_singleton_Some in Hn as [<- _]. reflexivity.
Defined.

(** Two users on two versions: the same error; one version: that version. *)
Example detect_sandbox_src_ver_examples :
  detect_sandbox_src_ver 4 6 "1.1.0" yaml_of_version
    {[ "0001" := user_dir "1.3.0" ∅; "0002" := user_dir "2.0.0" ∅ ]}
  = Raise (SandboxError INVALID_USER_SPACE_VERSIONS
             (MsgVersions [("1.3.0", ["0001"]); ("2.0.0", ["0002"])])) ∧
  detect_sandbox_src_ver 4 6 "1.1.0" yaml_of_version
    {[ "0001" := user_dir "1.3.0" ∅; "0002" := user_dir "1.3.0" ∅ ]}
  = Ok "1.3.0" ∧
  detect_sandbox_src_ver 4 6 "1.1.0" yaml_of_version
    {[ "0001" := user_dir "labels: []" ∅ ]}
  = Ok "1.1.0".
Proof. repeat split; vm_compute; reflexivity. Qed.

(** A sandbox of one user with three repositories, and a stray file. *)
Definition sandbox : fs :=
  {[ "0001" := user_dir "1.3.0"
       {[ "000001" := repo "v1"; "000002" := repo "v1"; "000003" := repo "v1" ]};
     "readme.txt" := File "hello" ]}.

(** An upgrade function that rewrites the data of the repository it is
    given and fails on the repository [000002]. *)
Definition upgrade_data (user_id repo_id : string) : M fs unit := λ root,
  match root !! user_id with
  | Some (Dir repos) =>
      match repos !! repo_id with
      | Some (Dir files) =>
          let root' :=
            <[user_id := Dir (<[repo_id := Dir (<["data" := File "v2"]> files)]> repos)]>
              root in
          if decide (repo_id = "000002")
          then (root', Raise (UserException "upgrade failed"))
          else (root', Ok tt)
      | _ => (root, Raise FileNotFoundError)
      end
  | _ => (root, Raise FileNotFoundError)
  end.

Lemma upgrade_data_keeps_layout : keeps_layout 4 upgrade_data.
Proof.
  intros user_id repo_id root Huser. unfold upgrade_data.
  destruct (root !! user_id) as [[|repos]|] eqn:Eu; try apply same_layout_refl.
  destruct (repos !! repo_id) as [[|files]|]; try apply same_layout_refl.
  assert (same_layout 4 root
            (<[user_id := Dir (<[repo_id := Dir (<["data" := File "v2"]> files)]> repos)]>
               root)).
  { split.
    - apply lookup_insert_ne. intros ->. discriminate.
    - intros name _. destruct (decide (name = user_id)) as [->|Hne].
      + by rewrite lookup_insert_eq, Eu.
      + by rewrite lookup_insert_ne. }
  by case_decide.
Qed.

(** Two orders for the repositories of a user: that of [elements], and the
    other way round. *)
Definition forwards : repo_order := λ _, elements.
Definition backwards : repo_order := λ _ repo_ids, reverse (elements repo_ids).

Lemma forwards_is_order : is_order forwards.
Proof. intros user_id repo_ids. reflexivity. Qed.

Lemma backwards_is_order : is_order backwards.
Proof. intros user_id repo_ids. apply reverse_Permutation. Qed.

Lemma update_rolls_back_witness :
  ∃ user_to_repos,
    _detect_users_and_repos 4 6 (_backup 4 6 sandbox).1 = Ok user_to_repos ∧
    (∀ user_id, user_id ∈ user_to_repos.*1 ↔
                match_digits 4 user_id = true ∧ is_Some (sandbox !! user_id)) ∧
    let ran := run_calls (upgrade_calls backwards user_to_repos [upgrade_data])
                 (_backup 4 6 sandbox).1 in
    match ran.2 with
    | Ok _ =>
        update 4 6 backwards [upgrade_data] sandbox = (delete "backup" ran.1, Ok tt)
    | Raise e =>
        if is_exception e then
          ∃ root',
            update 4 6 backwards [upgrade_data] sandbox = (root', Raise e) ∧
            root' !! "backup" = None ∧
            ∀ user_id, match_digits 4 user_id = true →
                       root' !! user_id = sandbox !! user_id
        else
          update 4 6 backwards [upgrade_data] sandbox = (ran.1, Raise e) ∧
          ran.1 !! "backup" = (_backup 4 6 sandbox).1 !! "backup"
    end.
Proof.
  apply (update_rolls_back 4 6 (Nat.lt_0_succ 3) backwards [upgrade_data] sandbox
           (_backup 4 6 sandbox).1).
  - apply backwards_is_order.
  - constructor; [apply upgrade_data_keeps_layout | constructor].
  - vm_compute. reflexivity.
Defined.

(** The run of the witness, in the one order and in the other: the upgrade
    of [000002] fails, after that of [000001] or before it, the caller gets
    that failure, and the sandbox is what it was, without a backup
    directory; an upgrade that does not fail leaves the new data and no
    backup directory. *)
Example update_examples :
  update 4 6 forwards [upgrade_data] sandbox
  = (sandbox, Raise (UserException "upgrade failed")) ∧
  update 4 6 backwards [upgrade_data] sandbox
  = (sandbox, Raise (UserException "upgrade failed")) ∧
  (let upgraded order :=
     (run_update_funcs order [("0001", {[ "000001"; "000002"; "000003" ]})]
        [upgrade_data] sandbox).1 !! "0001" in
   child (child (upgraded forwards) "000001") "data" = Some (File "v2") ∧
   child (child (upgraded backwards) "000001") "data" = Some (File "v1")) ∧
  update 4 6 forwards [upgrade_data]
    {[ "0001" := user_dir "1.3.0" {[ "000001" := repo "v1" ]} ]}
  = ({[ "0001" := user_dir "1.3.0" {[ "000001" := repo "v2" ]} ]}, Ok tt).
Proof. cbv zeta. split_and!; vm_compute; reflexivity. Qed.

(** An upgrade function that removes the directory of the user and fails,
    and one that is interrupted after it has rewritten the data. *)
Definition upgrade_wipes (user_id repo_id : string) : M fs unit := λ root,
  (delete user_id root, Raise (UserException "upgrade failed")).

Definition upgrade_interrupted (user_id repo_id : string) : M fs unit := λ root,
  ((upgrade_data user_id repo_id root).1, Raise (UserBaseException "KeyboardInterrupt")).

(** C7 fails as the spec states it, on both counts.  With every upgrade
    function admitted, the function that removes the user directory leaves
    the roll back without a user to restore: [update] raises the failure of
    the upgrade, and the user directory is gone with the backup.  With
    every exception taken as caught, the interrupted upgrade is not rolled
    back: the exception passes [except Exception], and the backup
    directory stays. *)
Lemma rollback_claim_fails :
  ¬ rollback_claim 4 6 (λ _, True) (λ e, is_exception e = true) ∧
  ¬ rollback_claim 4 6 (keeps_layout 4) (λ _, True).
Proof.
  split; intros Hclaim.
  - destruct (Hclaim forwards [upgrade_wipes] sandbox (_backup 4 6 sandbox).1
                (delete "0001" (_backup 4 6 sandbox).1)
                [("0001", {[ "000001"; "000002"; "000003" ]})]
                (UserException "upgrade failed"))
      as (root' & Hupdate & _ & Hrestored).
    + apply forwards_is_order.
    + by repeat constructor.
    + vm_compute. reflexivity.
    + vm_compute. reflexivity.
    + vm_compute. reflexivity.
    + reflexivity.
    + specialize (Hrestored "0001" ltac:(by left)).
      assert ((update 4 6 forwards [upgrade_wipes] sandbox).1 !! "0001" = None) as Hgone
        by (vm_compute; reflexivity).
      rewrite Hupdate in Hgone. simpl in Hgone. rewrite Hgone in Hrestored.
      vm_compute in Hrestored. discriminate.
  - destruct (Hclaim forwards [upgrade_interrupted] sandbox (_backup 4 6 sandbox).1
                (run_calls (upgrade_calls forwards
                              [("0001", {[ "000001"; "000002"; "000003" ]})]
                              [upgrade_interrupted]) (_backup 4 6 sandbox).1).1
                [("0001", {[ "000001"; "000002"; "000003" ]})]
                (UserBaseException "KeyboardInterrupt"))
      as (root' & Hupdate & Hbackup & _).
    + apply forwards_is_order.
    + constructor; [|constructor]. intros user_id repo_id root Huser.
      apply (upgrade_data_keeps_layout user_id repo_id root Huser).
    + vm_compute. reflexivity.
    + vm_compute. reflexivity.
    + vm_compute. reflexivity.
    + done.
    + assert (is_Some ((update 4 6 forwards [upgrade_interrupted] sandbox).1 !! "backup"))
        as Hkept
        by (vm_compute; eauto).
      rewrite Hupdate in Hkept. simpl in Hkept. rewrite Hbackup in Hkept.
      by destruct Hkept.
Qed.

End SandboxTheory.

(* ===================================================================== *)
(** * What an import writes *)
(* ===================================================================== *)

Module ImportFootprint.
Import Annotations ImportTheory.

(** ** The type and format names *)

(** The text after a Kelvin sign at the head of a text. *)
Definition after_kelvin (s : string) : option string :=
  match s with
  | String "226" (String "132" (String "170" s')) => Some s'
  | _ => None
  end.

Lemma lower_unfold c s :
  lower (String c s)
  = match after_kelvin (String c s) with
    | Some s' => String "k" (lower s')
    | None => String (lower_char c) (lower s)
    end.
Proof.
  destruct c as [[] [] [] [] [] [] [] []]; try reflexivity.
  destruct s as [|b s]; [reflexivity|].
  destruct b as [[] [] [] [] [] [] [] []]; try reflexivity.
  destruct s as [|d s]; [reflexivity|].
  destruct d as [[] [] [] [] [] [] [] []]; reflexivity.
Qed.

Lemma lower_char_idemp c : lower_char (lower_char c) = lower_char c.
Proof. destruct c as [[] [] [] [] [] [] [] []]; reflexivity. Qed.

Lemma lower_char_high c : 128 ≤ ascii_code (lower_char c) → lower_char c = c.
Proof.
  destruct c as [[] [] [] [] [] [] [] []]; vm_compute; try reflexivity;
    intros H; by destruct H.
Qed.

Lemma after_kelvin_inv s s' :
  after_kelvin s = Some s' → s = String "226" (String "132" (String "170" s')).
Proof.
  destruct s as [|a [|b [|c s]]]; try discriminate;
    try (destruct a as [[] [] [] [] [] [] [] []]; discriminate).
  - destruct a as [[] [] [] [] [] [] [] []]; try discriminate.
    destruct b as [[] [] [] [] [] [] [] []]; discriminate.
  - destruct a as [[] [] [] [] [] [] [] []]; try discriminate.
    destruct b as [[] [] [] [] [] [] [] []]; try discriminate.
    destruct c as [[] [] [] [] [] [] [] []]; try discriminate.
    by intros [= ->].
Qed.

(** The lower case of a text starts with no byte beyond the ASCII range
    that the text does not start with. *)
Lemma lower_head c s b t :
  lower (String c s) = String b t → 128 ≤ ascii_code b →
  b = c ∧ t = lower s ∧ after_kelvin (String c s) = None.
Proof.
  rewrite lower_unfold. destruct (after_kelvin (String c s)) as [s'|].
  - intros [= <- _] Hb. vm_compute in Hb. by destruct Hb.
  - intros [= <- <-] Hb. by rewrite (lower_char_high c Hb).
Qed.

Lemma lower_idemp s : lower (lower s) = lower s.
Proof.
  remember (String.length s) as n eqn:Hn. revert s Hn.
  induction n as [n IH] using lt_wf_ind. intros s Hn.
  destruct s as [|c s]; [done|]. rewrite lower_unfold.
  destruct (after_kelvin (String c s)) as [s'|] eqn:Hk.
  - apply after_kelvin_inv in Hk. injection Hk as -> ->.
    rewrite lower_unfold. simpl after_kelvin. cbv iota.
    f_equal. eapply IH; [|reflexivity]. simpl in Hn. lia.
  - rewrite lower_unfold.
    destruct (after_kelvin (String (lower_char c) (lower s))) as [t|] eqn:Hk'.
    + exfalso. apply after_kelvin_inv in Hk'. injection Hk' as Hc Hs.
      assert (lower_char c = c) as Hcc by (apply lower_char_high; rewrite Hc; done).
      rewrite Hcc in Hc. subst c.
      destruct s as [|b s]; [discriminate|].
      apply lower_head in Hs as (<- & Hs & _); [|done].
      destruct s as [|d s]; [discriminate|]. symmetry in Hs.
      apply lower_head in Hs as (<- & _ & _); [|done].
      discriminate.
    + rewrite lower_char_idemp. f_equal. eapply IH; [|reflexivity]. simpl in Hn. lia.
Qed.

(** The texts [parse_anno_type] knows. *)
Definition anno_type_names : list string := ["det-box"; "seg-poly"; "seg-mask"].

(** What the two tables make of a text. *)
Lemma anno_names_cases (s : string) :
  let parsed := (parse_anno_type s, parse_anno_format s) in
  (lower s = "det-box" ∧ parsed = (AT_DET_BOX, AF_NO_ANNOTATION)) ∨
  (lower s = "seg-poly" ∧ parsed = (AT_SEG_POLYGON, AF_SEG_POLYGON)) ∨
  (lower s = "seg-mask" ∧ parsed = (AT_SEG_MASK, AF_SEG_MASK)) ∨
  ((lower s ∉ anno_type_names) ∧ parsed.1 = AT_UNKNOWN ∧
   parsed.2 ≠ AF_SEG_POLYGON ∧ parsed.2 ≠ AF_SEG_MASK).
Proof.
  unfold parse_anno_type, parse_anno_format. generalize (lower s). clear s. intros s.
  destruct (decide (s = "det-box")) as [->|H1]; [left; by split_and!|].
  destruct (decide (s = "seg-poly")) as [->|H2]; [right; left; by split_and!|].
  destruct (decide (s = "seg-mask")) as [->|H3]; [right; right; left; by split_and!|].
  right; right; right. simpl. split_and!.
  - unfold anno_type_names. rewrite !elem_of_cons, elem_of_nil. tauto.
  - by rewrite !decide_False by done.
  - repeat case_decide; subst; done.
  - repeat case_decide; subst; done.
Qed.

(** X1.  parse_anno_type and parse_anno_format read a text whatever its
    case. A text has a type other than AT_UNKNOWN exactly when its
    lower-case form is det-box, seg-poly or seg-mask, and
    _annotation_parse_func raises NotImplementedError exactly for the
    texts of type AT_UNKNOWN; the two tables agree on seg-mask and on
    seg-poly, and a det-box text names no annotation format. *)
Theorem parse_anno_type_parser float_of_str int_field_ok (anno_type_str : string) :
  parse_anno_type (lower anno_type_str) = parse_anno_type anno_type_str ∧
  parse_anno_format (lower anno_type_str) = parse_anno_format anno_type_str ∧
  (lower anno_type_str ∈ anno_type_names ↔ parse_anno_type anno_type_str ≠ AT_UNKNOWN) ∧
  (parse_anno_type anno_type_str = AT_UNKNOWN ↔
   _annotation_parse_func float_of_str int_field_ok (parse_anno_type anno_type_str)
   = Raise NotImplementedError) ∧
  (parse_anno_type anno_type_str = AT_SEG_MASK ↔
   parse_anno_format anno_type_str = AF_SEG_MASK) ∧
  (parse_anno_type anno_type_str = AT_SEG_POLYGON ↔
   parse_anno_format anno_type_str = AF_SEG_POLYGON) ∧
  (parse_anno_type anno_type_str = AT_DET_BOX →
   parse_anno_format anno_type_str = AF_NO_ANNOTATION).
Proof.
  split; [unfold parse_anno_type; by rewrite lower_idemp|].
  split; [unfold parse_anno_format; by rewrite lower_idemp|].
  destruct (anno_names_cases anno_type_str)
    as [(Hs & [= -> ->]) | [(Hs & [= -> ->]) | [(Hs & [= -> ->]) | (Hs & Hu & Hp & Hm)]]].
  - rewrite Hs. split_and!; try done. split; [done|]. intros _. by left.
  - rewrite Hs. split_and!; try done. split; [done|]. intros _. right. by left.
  - rewrite Hs. split_and!; try done. split; [done|]. intros _. right. right. by left.
  - simpl in Hu, Hp, Hm. rewrite Hu. split_and!; try done.
Qed.

(** ** What an import writes

    The steps by which the importers change their state, for the task slot
    [slot] they are given: [add] tells whether the registry may grow, [cks]
    whether image custom keys are written, [K] which asset hashes are at
    hand. *)

Section Footprint.

Variable slot : task_slot.
Variable add cks : bool.
Variable K : string → Prop.

Inductive import_step : ImportState → ImportState → Prop :=
| step_accu st f : import_step st (on_accu f st)
| step_registry st f : add = true → import_step st (on_class_type_manager f st)
| step_box st asset_hash annotation :
    K asset_hash → 0 ≤ class_id annotation →
    import_step st
      (on_image slot asset_hash (λ a, with_boxes (boxes a ++ [annotation]) a) st)
| step_image st asset_hash f :
    K asset_hash → (∀ a, boxes (f a) = boxes a) →
    import_step st (on_image slot asset_hash f st)
| step_cks st asset_hash f :
    cks = true → K asset_hash → import_step st (on_image_cks asset_hash f st)
| step_task st f :
    (∀ t, image_annotations (f t) = image_annotations t) →
    (∀ t, type (f t) = type t) →
    import_step st (on_task slot f st).

Definition import_steps : ImportState → ImportState → Prop := rtc import_step.

Lemma import_steps_refl st : import_steps st st.
Proof. apply rtc_refl. Qed.

Lemma import_steps_trans a b c : import_steps a b → import_steps b c → import_steps a c.
Proof. apply rtc_trans. Qed.

Lemma import_steps_step a b c : import_steps a b → import_step b c → import_steps a c.
Proof. intros Hab Hbc. eapply rtc_r; eauto. Qed.

Lemma object_dict_class_id float_of_str int_field_ok object_dict cid annotation :
  _object_dict_to_annotation float_of_str int_field_ok object_dict cid = Ok annotation →
  class_id annotation = cid.
Proof.
  unfold _object_dict_to_annotation. intros Hrun.
  apply result_bind_Ok in Hrun as (class_id & Hcid & Hrun).
  apply int_field_Ok' in Hcid as [-> _].
  apply result_bind_Ok in Hrun as (score & _ & Hrun).
  apply result_bind_Ok in Hrun as (quality & _ & Hrun).
  apply result_bind_Ok in Hrun as (tags_v & _ & Hrun).
  apply result_bind_Ok in Hrun as (tags & _ & Hrun).
  apply result_bind_Ok in Hrun as (bndbox & _ & Hrun).
  destruct (truthy bndbox).
  - apply result_bind_Ok in Hrun as (xmin & _ & Hrun).
    apply result_bind_Ok in Hrun as (ymin & _ & Hrun).
    apply result_bind_Ok in Hrun as (xmax & _ & Hrun).
    apply result_bind_Ok in Hrun as (ymax & _ & Hrun).
    apply result_bind_Ok in Hrun as (x & _ & Hrun).
    apply result_bind_Ok in Hrun as (y & _ & Hrun).
    apply result_bind_Ok in Hrun as (w & _ & Hrun).
    apply result_bind_Ok in Hrun as (h & _ & Hrun).
    apply result_bind_Ok in Hrun as (angle & _ & Hrun).
    by injection Hrun as <-.
  - apply result_bind_Ok in Hrun as (polygon & _ & Hrun).
    destruct (truthy polygon); discriminate.
Qed.

Lemma voc_xml_object_steps float_of_str int_field_ok asset_hash add_if_not_found
    object_dict s :
  K asset_hash → (add_if_not_found = true → add = true) →
  import_steps s.1
    (voc_xml_object float_of_str int_field_ok slot asset_hash add_if_not_found
       object_dict s).1.1.
Proof.
  destruct s as [st [anno_idx img_class_ids]]. intros HK Hadd.
  unfold voc_xml_object. simpl.
  destruct (object_name object_dict) as [name|]; [|apply import_steps_refl].
  destruct (id_and_main_name_for_name (class_type_manager st) name)
    as [cid new_type_name].
  assert (Hstep : ∀ (st' : ImportState) (cid' : Z),
            import_steps st st' →
            import_steps st
              (if 0 <=? cid' then
                 match
                   _object_dict_to_annotation float_of_str int_field_ok object_dict cid'
                   ≫= (λ annotation, int_field int_field_ok anno_idx
                   ≫= (λ index, Ok {| index := index; box := box annotation;
                          class_id := class_id annotation; score := score annotation;
                          anno_quality := anno_quality annotation;
                          tags := tags annotation |}))
                 with
                 | Ok annotation =>
                     ((on_image slot asset_hash
                         (λ a, with_boxes (boxes a ++ [annotation]) a) st',
                       (anno_idx + 1, {[cid']} ∪ img_class_ids)), Ok tt)
                 | Raise e => ((st', (anno_idx, img_class_ids)), Raise e)
                 end
               else ((st', (anno_idx, img_class_ids)), Ok tt)).1.1).
  { intros st' cid' Hst'. destruct (0 <=? cid') eqn:Hcid; [|done].
    destruct (_ ≫= _) as [annotation|] eqn:Hrun; [|done]. simpl.
    eapply import_steps_step; [exact Hst'|].
    apply result_bind_Ok in Hrun as (a0 & Ha0 & Hrun).
    apply result_bind_Ok in Hrun as (index & _ & [= <-]).
    apply step_box; [done|]. simpl.
    rewrite (object_dict_class_id _ _ _ _ _ Ha0). by apply Z.leb_le. }
  destruct (dict_get (accu_new_class_names st) new_type_name) as [n|].
  - apply Hstep. apply rtc_once, step_accu.
  - destruct (cid <? 0).
    + destruct add_if_not_found.
      * destruct (add_main_name (class_type_manager st) new_type_name)
          as [reg [cid' m]].
        apply Hstep. eapply import_steps_step; [|apply step_accu].
        apply rtc_once, step_registry. by apply Hadd.
      * apply Hstep. apply rtc_once, step_accu.
    + apply Hstep, import_steps_refl.
Qed.

Lemma voc_xml_asset_steps float_of_str int_field_ok dir add_if_not_found item s :
  cks = true → K item.1 → (add_if_not_found = true → add = true) →
  import_steps s.1
    (voc_xml_asset float_of_str int_field_ok slot dir add_if_not_found item s).1.1.
Proof.
  destruct s as [st task_class_ids], item as [asset_hash main_file_name].
  intros Hcks HK Hadd. simpl in HK. unfold voc_xml_asset. simpl.
  destruct (xml_files dir !! main_file_name) as [[| | |annos_dict]|];
    try apply import_steps_refl.
  destruct (xget annos_dict "cks" (XDict [])) as [cks_v|]; [|apply import_steps_refl].
  set (st_cks := if truthy cks_v then _ else _).
  assert (import_steps st st_cks.1) as Hst_cks.
  { unfold st_cks. destruct (truthy cks_v); [|apply import_steps_refl].
    destruct (update_str_map _ _) as [m r]. simpl. by apply rtc_once, step_cks. }
  destruct st_cks as [st1 [[]|e]]; [|done]. simpl in Hst_cks.
  destruct (_ ≫= py_float _) as [quality|]; [|done].
  set (st2 := on_image_cks _ _ st1).
  assert (import_steps st st2) as Hst2.
  { eapply import_steps_step; [exact Hst_cks|]. by apply step_cks. }
  destruct (_ ≫= objects_of) as [objects|]; [|done].
  pose proof (for_each_invariant (λ s s', import_steps s.1 s'.1) objects
                (voc_xml_object float_of_str int_field_ok slot asset_hash
                   add_if_not_found)
                (λ s, import_steps_refl s.1)
                (λ a b c, import_steps_trans a.1 b.1 c.1)
                (λ x s _, voc_xml_object_steps _ _ asset_hash add_if_not_found x s
                            HK Hadd)
                (st2, (0, ∅))) as Hloop.
  destruct (for_each objects _ _) as [[st3 [anno_idx img_class_ids]] [[]|e]];
    simpl in Hloop |- *.
  - eapply import_steps_step; [by eapply import_steps_trans|]. by apply step_image.
  - by eapply import_steps_trans.
Qed.

Lemma voc_xml_assets_steps float_of_str int_field_ok map_hashed_filename dir
    add_if_not_found s :
  cks = true → (∀ h, h ∈ dict_keys map_hashed_filename → K h) →
  (add_if_not_found = true → add = true) →
  import_steps s.1
    (for_each map_hashed_filename
       (voc_xml_asset float_of_str int_field_ok slot dir add_if_not_found) s).1.1.
Proof.
  intros Hcks HK Hadd.
  apply (for_each_invariant (λ s s', import_steps s.1 s'.1)).
  - intros a. apply import_steps_refl.
  - intros a b c. apply import_steps_trans.
  - intros x s' Hx. apply voc_xml_asset_steps; [done | | done].
    apply HK. by apply (list_elem_of_fmap_2 fst).
Qed.

Lemma voc_xml_steps float_of_str int_field_ok map_hashed_filename dir
    unknown_types_strategy st :
  cks = true → (∀ h, h ∈ dict_keys map_hashed_filename → K h) →
  (unknown_types_strategy = ADD → add = true) →
  import_steps st
    (_import_annotations_voc_xml float_of_str int_field_ok map_hashed_filename dir
       unknown_types_strategy slot st).1.
Proof.
  intros Hcks HK Hadd. unfold _import_annotations_voc_xml.
  pose proof (voc_xml_assets_steps float_of_str int_field_ok map_hashed_filename dir
                (bool_decide (unknown_types_strategy = ADD)) (st, ∅) Hcks HK
                (λ Hb, Hadd (bool_decide_eq_true_1 _ Hb))) as Hloop.
  destruct (for_each map_hashed_filename _ _) as [[st' task_class_ids] [[]|e]];
    simpl in Hloop |- *; [|done].
  eapply import_steps_step; [exact Hloop|]. by apply step_task.
Qed.

Lemma seg_mask_color_steps int_field_ok item s :
  import_steps s.1 (seg_mask_color int_field_ok slot item s).1.1.
Proof.
  destruct s as [st map_color_cid], item as [name color].
  unfold seg_mask_color. simpl.
  destruct (id_and_main_name_for_name (class_type_manager st) name) as [cid cname].
  set (st1 := if dict_contains _ _ then st else _).
  assert (import_steps st st1) as Hst1.
  { unfold st1. destruct (dict_contains _ _); [apply import_steps_refl|].
    apply rtc_once, step_accu. }
  destruct (0 <=? cid); [|done].
  destruct (_ ≫= _) as [point|]; [|done]. simpl.
  eapply import_steps_step; [exact Hst1|]. by apply step_task.
Qed.

Lemma seg_mask_asset_steps dir map_color_cid item st :
  K item.1 → import_steps st (seg_mask_asset slot dir map_color_cid item st).1.
Proof.
  destruct item as [asset_hash main_file_name]. intros HK. simpl in HK.
  unfold seg_mask_asset.
  destruct (SegmentationClass dir ≫= _) as [[|format img]|];
    try apply import_steps_refl.
  destruct (negb _); [apply import_steps_refl|].
  destruct (foldl _ _ _) as [np_mask img_class_ids].
  by apply rtc_once, step_image.
Qed.

Lemma seg_mask_steps int_field_ok map_hashed_filename dir unknown_types_strategy st :
  (∀ h, h ∈ dict_keys map_hashed_filename → K h) →
  (unknown_types_strategy = ADD → add = true) →
  import_steps st
    (_import_annotations_seg_mask int_field_ok map_hashed_filename dir
       unknown_types_strategy slot st).1.
Proof.
  intros HK Hadd. unfold _import_annotations_seg_mask, mbind, M_bind, get, lift, modify.
  destruct (_parse_labelmap _ _) as [map_cname_color|]; [|apply import_steps_refl].
  assert (Hrest : ∀ st1, import_steps st st1 →
            import_steps st
              (let (s'0, r0) :=
                 let (p, r0) :=
                   for_each map_cname_color (seg_mask_color int_field_ok slot)
                     (st1, []) in
                 let (st', map_color_cid) := p in
                 match r0 with
                 | Ok _ => (st', Ok map_color_cid)
                 | Raise e => (st', Raise e)
                 end in
               match r0 with
               | Ok a0 => for_each map_hashed_filename (seg_mask_asset slot dir a0) s'0
               | Raise e => (s'0, Raise e)
               end).1).
  { intros st1 Hst1.
    pose proof (for_each_invariant (λ s s', import_steps s.1 s'.1) map_cname_color
                  (seg_mask_color int_field_ok slot)
                  (λ s, import_steps_refl s.1)
                  (λ a b c, import_steps_trans a.1 b.1 c.1)
                  (λ x s _, seg_mask_color_steps int_field_ok x s) (st1, [])) as Hloop.
    destruct (for_each map_cname_color _ _) as [[st2 map_color_cid] [[]|e]];
      simpl in Hloop |- *; [|by eapply import_steps_trans].
    eapply import_steps_trans; [by eapply import_steps_trans|].
    apply (for_each_invariant import_steps); [apply import_steps_refl|
      apply import_steps_trans|].
    intros x s Hx. apply seg_mask_asset_steps, HK. by apply (list_elem_of_fmap_2 fst). }
  destruct (decide (unknown_types_strategy = ADD)) as [Hs|Hs]; simpl.
  - apply Hrest. apply rtc_once, step_registry. by apply Hadd.
  - apply Hrest, import_steps_refl.
Qed.

Lemma import_meta_steps dir st :
  import_steps st (_import_annotation_meta dir slot st).1.
Proof.
  unfold _import_annotation_meta.
  destruct (meta_yaml dir) as [[|d]|]; try apply import_steps_refl.
  unfold mbind, M_bind, get, modify, raise, mret, M_ret.
  assert (∀ st' m, import_step st' (on_task slot (with_model m) st')) as Hm
    by (intros; by apply step_task).
  assert (∀ st' l, import_step st' (on_task slot (with_eval_class_ids l) st')) as He
    by (intros; by apply step_task).
  assert (∀ st' c, import_step st' (on_task slot (with_executor_config c) st')) as Hc
    by (intros; by apply step_task).
  destruct (meta_model d) as [parse_dict|];
    [destruct (parse_dict _) as [m [[]|e]]|];
    try (destruct (meta_eval_class_names d) as [| |[|n ns]]);
    try (destruct (meta_executor_config d) as [[c|e']|]); simpl;
    repeat (eapply import_steps_step; [|first [apply Hc | apply He | apply Hm]]);
    apply import_steps_refl.
Qed.

(** What the steps leave alone. *)

Lemma get_set_task_eq t m : get_task slot (set_task slot t m) = t.
Proof. by destruct slot. Qed.

Lemma get_set_task_ne other t m :
  other ≠ slot → get_task other (set_task slot t m) = get_task other m.
Proof. by destruct other, slot. Qed.

Lemma image_cks_set_task t m : image_cks (set_task slot t m) = image_cks m.
Proof. by destruct slot. Qed.

Lemma steps_registry st st' :
  add = false → import_steps st st' → class_type_manager st' = class_type_manager st.
Proof.
  intros Hadd Hs. induction Hs as [|a b c Hab Hbc IH]; [done|]. rewrite IH.
  destruct Hab; try done. congruence.
Qed.

Lemma steps_other_slot other st st' :
  other ≠ slot → import_steps st st' →
  get_task other (mir_annotation st') = get_task other (mir_annotation st).
Proof.
  intros Hne Hs. induction Hs as [|a b c Hab Hbc IH]; [done|]. rewrite IH.
  destruct Hab; simpl; try done; by rewrite get_set_task_ne.
Qed.

Lemma steps_type st st' :
  import_steps st st' →
  type (get_task slot (mir_annotation st')) = type (get_task slot (mir_annotation st)).
Proof.
  intros Hs. induction Hs as [|a b c Hab Hbc IH]; [done|]. rewrite IH.
  destruct Hab; simpl; try done; by rewrite get_set_task_eq.
Qed.

Lemma steps_image_cks st st' :
  cks = false → import_steps st st' →
  image_cks (mir_annotation st') = image_cks (mir_annotation st).
Proof.
  intros Hcks Hs. induction Hs as [|a b c Hab Hbc IH]; [done|]. rewrite IH.
  destruct Hab; simpl; try done; try by rewrite image_cks_set_task.
  congruence.
Qed.

(** The images of the slot: every box has a class id that is not
    negative. *)
Definition boxes_resolved (m : gmap string SingleImageAnnotations) : Prop :=
  ∀ k a, m !! k = Some a → Forall (λ b, 0 ≤ class_id b) (boxes a).

Lemma on_entry_lookup `{Countable K'} `{Inhabited V} (k k' : K') (f : V → V)
    (m : gmap K' V) :
  on_entry k f m !! k'
  = if decide (k = k') then Some (f (default inhabitant (m !! k))) else m !! k'.
Proof.
  unfold on_entry. case_decide as Hk.
  - subst. by rewrite lookup_insert_eq.
  - by rewrite lookup_insert_ne.
Qed.

Lemma boxes_resolved_entry m k :
  boxes_resolved m → Forall (λ b, 0 ≤ class_id b) (boxes (default inhabitant (m !! k))).
Proof.
  intros Hm. destruct (m !! k) as [a|] eqn:E; simpl; [by eapply Hm | constructor].
Qed.

Lemma steps_boxes_resolved st st' :
  import_steps st st' →
  boxes_resolved (image_annotations (get_task slot (mir_annotation st))) →
  boxes_resolved (image_annotations (get_task slot (mir_annotation st'))).
Proof.
  intros Hs. induction Hs as [|a b c Hab Hbc IH]; [done|]. intros Ha. apply IH.
  clear IH Hbc c. destruct Hab as [| |st h annotation HK Hcid|st h f HK Hf| |st f Hf _];
    simpl; try done.
  - rewrite get_set_task_eq. simpl. intros k a. rewrite on_entry_lookup.
    case_decide; [|by apply Ha]. intros [= <-]. simpl.
    apply Forall_app. split; [by apply boxes_resolved_entry|]. by repeat constructor.
  - rewrite get_set_task_eq. simpl. intros k a. rewrite on_entry_lookup.
    case_decide; [|by apply Ha]. intros [= <-]. rewrite Hf.
    by apply boxes_resolved_entry.
  - rewrite get_set_task_eq, Hf. done.
Qed.

(** The images of the slot are those it had and images of assets at
    hand. *)
Lemma steps_images_dom st st' k :
  import_steps st st' →
  is_Some (image_annotations (get_task slot (mir_annotation st')) !! k) →
  is_Some (image_annotations (get_task slot (mir_annotation st)) !! k) ∨ K k.
Proof.
  intros Hs. induction Hs as [|a b c Hab Hbc IH]; [by left|]. intros Hc.
  destruct (IH Hc) as [Hb|HK]; [|by right]. clear IH Hbc Hc c.
  destruct Hab as [| |st h annotation HK Hcid|st h f HK Hf| |st f Hf _];
    simpl in *; try (by left).
  - rewrite get_set_task_eq in Hb. simpl in Hb. rewrite on_entry_lookup in Hb.
    case_decide; [subst; by right | by left].
  - rewrite get_set_task_eq in Hb. simpl in Hb. rewrite on_entry_lookup in Hb.
    case_decide; [subst; by right | by left].
  - rewrite get_set_task_eq, Hf in Hb. by left.
Qed.

Lemma steps_images_other st st' k :
  ¬ K k → import_steps st st' →
  image_annotations (get_task slot (mir_annotation st')) !! k
  = image_annotations (get_task slot (mir_annotation st)) !! k.
Proof.
  intros HK Hs. induction Hs as [|a b c Hab Hbc IH]; [done|]. rewrite IH.
  clear IH Hbc c.
  destruct Hab as [| |st h annotation Hh Hcid|st h f Hh Hf| |st f Hf _];
    simpl; try done.
  - rewrite get_set_task_eq. simpl. rewrite on_entry_lookup.
    case_decide; [by subst | done].
  - rewrite get_set_task_eq. simpl. rewrite on_entry_lookup.
    case_decide; [by subst | done].
  - by rewrite get_set_task_eq, Hf.
Qed.

End Footprint.

(** ** The directories of an import *)

(** The type [_import_annotations_from_dir] works with: a directory with
    [SegmentationClass] and [labelmap.txt] is a mask directory, whatever
    type was asked for. *)
Definition effective_type (dir : AnnoDir) (anno_type : AnnoType) : AnnoType :=
  match SegmentationClass dir, labelmap_txt dir with
  | Some _, Some _ => AT_SEG_MASK
  | _, _ => anno_type
  end.

(** The asset hashes of [map_hashed_filename]. *)
Definition hashed (map_hashed_filename : pydict string string) (h : string) : Prop :=
  h ∈ dict_keys map_hashed_filename.

Lemma import_from_dir_steps float_of_str int_field_ok map_hashed_filename dir
    unknown_types_strategy slot anno_type st :
  let run := _import_annotations_from_dir float_of_str int_field_ok map_hashed_filename
               dir unknown_types_strategy slot anno_type st in
  import_steps slot (bool_decide (unknown_types_strategy = ADD)) true
    (hashed map_hashed_filename)
    (on_task slot (with_type (effective_type dir anno_type)) st) run.1 ∧
  (effective_type dir anno_type = AT_UNKNOWN →
   run = (on_task slot (with_type AT_UNKNOWN) st, Raise NotImplementedError)).
Proof.
  unfold _import_annotations_from_dir. fold (effective_type dir anno_type).
  unfold mbind, M_bind, modify, lift. simpl.
  destruct (effective_type dir anno_type); simpl.
  - split; [apply import_steps_refl | done].
  - split; [|done]. apply voc_xml_steps; [done | done |].
    intros ->. by apply bool_decide_eq_true_2.
  - split; [|done]. apply voc_xml_steps; [done | done |].
    intros ->. by apply bool_decide_eq_true_2.
  - split; [|done]. apply seg_mask_steps; [done |].
    intros ->. by apply bool_decide_eq_true_2.
Qed.

(** X2.  Whether it succeeds or fails, _import_annotations_from_dir leaves
    the task annotations it is given with the type AT_SEG_MASK when the
    directory holds SegmentationClass and labelmap.txt, and with the type
    it was called with otherwise; it leaves the other task annotations as
    they were; and when that type is AT_UNKNOWN it raises
    NotImplementedError with nothing but the type changed. *)
Theorem import_from_dir_type float_of_str int_field_ok
    (map_hashed_filename : pydict string string) (dir : AnnoDir)
    (unknown_types_strategy : UnknownTypesStrategy) (slot : task_slot)
    (anno_type : AnnoType) (st : ImportState) :
  let run := _import_annotations_from_dir float_of_str int_field_ok map_hashed_filename
               dir unknown_types_strategy slot anno_type st in
  let given := match SegmentationClass dir, labelmap_txt dir with
               | Some _, Some _ => AT_SEG_MASK
               | _, _ => anno_type
               end in
  type (get_task slot (mir_annotation run.1)) = given ∧
  (∀ other, other ≠ slot →
     get_task other (mir_annotation run.1) = get_task other (mir_annotation st)) ∧
  (given = AT_UNKNOWN →
   run = (on_task slot (with_type AT_UNKNOWN) st, Raise NotImplementedError)).
Proof.
  intros run given. fold (effective_type dir anno_type) in given.
  destruct (import_from_dir_steps float_of_str int_field_ok map_hashed_filename dir
              unknown_types_strategy slot anno_type st) as [Hsteps Hunknown].
  fold run given in Hsteps, Hunknown. split_and!.
  - rewrite (steps_type _ _ _ _ _ _ Hsteps). simpl. by rewrite get_set_task_eq.
  - intros other Hne. rewrite (steps_other_slot _ _ _ _ other _ _ Hne Hsteps).
    simpl. by rewrite get_set_task_ne.
  - exact Hunknown.
Qed.

(** A property of the state that the steps of an import keep is kept by
    [import_annotations]. *)
Lemma import_annotations_preserves float_of_str int_field_ok (P : ImportState → Prop)
    mir_annotation reg prediction_dir groundtruth_dir map_hashed_filename
    unknown_types_strategy anno_type :
  (∀ slot ty st, P st → P (on_task slot (with_type ty) st)) →
  (∀ slot st st',
     import_steps slot (bool_decide (unknown_types_strategy = ADD)) true
       (hashed map_hashed_filename) st st' → P st → P st') →
  P {| mir_annotation := mir_annotation; class_type_manager := reg;
       accu_new_class_names := [] |} →
  P (import_annotations float_of_str int_field_ok mir_annotation reg prediction_dir
       groundtruth_dir map_hashed_filename unknown_types_strategy anno_type).1.
Proof.
  intros Htype Hsteps. rewrite import_annotations_unfold.
  generalize ({| mir_annotation := mir_annotation; class_type_manager := reg;
                 accu_new_class_names := [] |}).
  intros st0 Hst0.
  assert (Hdir : ∀ dir slot st, P st →
            P (_import_annotations_from_dir float_of_str int_field_ok
                 map_hashed_filename dir unknown_types_strategy slot anno_type st).1).
  { intros dir slot st Hst.
    destruct (import_from_dir_steps float_of_str int_field_ok map_hashed_filename dir
                unknown_types_strategy slot anno_type st) as [Hs _].
    eapply Hsteps; [exact Hs|]. by apply Htype. }
  assert (Hgt : ∀ st, P st →
            P (import_groundtruth_and_check float_of_str int_field_ok groundtruth_dir
                 map_hashed_filename unknown_types_strategy anno_type st).1).
  { intros st Hst. unfold import_groundtruth_and_check.
    destruct groundtruth_dir as [dir|]; unfold mbind, M_bind, get, raise.
    - specialize (Hdir dir GroundTruth st Hst).
      destruct (_import_annotations_from_dir _ _ _ _ _ _ _ st) as [st1 [[]|e]];
        [|done]. simpl. by destruct (_ && _).
    - simpl. by destruct (_ && _). }
  destruct prediction_dir as [dir|]; unfold mbind at 1, M_bind at 1.
  - unfold mbind at 1, M_bind at 1.
    specialize (Hdir dir Prediction st0 Hst0).
    destruct (_import_annotations_from_dir _ _ _ _ _ _ _ st0) as [st1 [[]|e]];
      [|done].
    assert (P (_import_annotation_meta dir Prediction st1).1) as Hmeta.
    { eapply Hsteps; [apply import_meta_steps | exact Hdir]. }
    destruct (_import_annotation_meta dir Prediction st1) as [st2 [[]|e]]; [|done].
    by apply Hgt.
  - by apply Hgt.
Qed.

(** X3.  Under a strategy other than ADD, import_annotations never changes
    the class registry, whatever the directories hold and whether the
    import succeeds or fails. *)
Theorem import_keeps_registry float_of_str int_field_ok
    (mir_annotation : MirAnnotations) (reg : UserLabels)
    (prediction_dir groundtruth_dir : option AnnoDir)
    (map_hashed_filename : pydict string string)
    (unknown_types_strategy : UnknownTypesStrategy) (anno_type : AnnoType) :
  unknown_types_strategy ≠ ADD →
  class_type_manager
    (import_annotations float_of_str int_field_ok mir_annotation reg prediction_dir
       groundtruth_dir map_hashed_filename unknown_types_strategy anno_type).1 = reg.
Proof.
  intros Hstrategy.
  apply (import_annotations_preserves _ _ (λ st, class_type_manager st = reg));
    [done | | done].
  intros slot st st' Hsteps <-. eapply steps_registry; [|exact Hsteps].
  by apply bool_decide_eq_false_2.
Qed.

(** X4.  If no box of the annotation set has a negative class id before
    import_annotations, none has one after it, under every strategy and
    whether the import succeeds or fails: an object whose class name does
    not resolve is never stored as a box. *)
Theorem import_boxes_resolved float_of_str int_field_ok
    (mir_annotation : MirAnnotations) (reg : UserLabels)
    (prediction_dir groundtruth_dir : option AnnoDir)
    (map_hashed_filename : pydict string string)
    (unknown_types_strategy : UnknownTypesStrategy) (anno_type : AnnoType) :
  (∀ slot, boxes_resolved (image_annotations (get_task slot mir_annotation))) →
  ∀ slot asset_hash image,
    image_annotations
      (get_task slot
         (Annotations.mir_annotation
            (import_annotations float_of_str int_field_ok mir_annotation reg
               prediction_dir groundtruth_dir map_hashed_filename
               unknown_types_strategy anno_type).1)) !! asset_hash = Some image →
    Forall (λ b, 0 ≤ class_id b) (boxes image).
Proof.
  intros Hstart.
  pose proof (import_annotations_preserves float_of_str int_field_ok
    (λ st, ∀ slot, boxes_resolved
                     (image_annotations (get_task slot (Annotations.mir_annotation st))))
    mir_annotation reg prediction_dir groundtruth_dir map_hashed_filename
    unknown_types_strategy anno_type) as Hkeep.
  intros slot asset_hash image. apply Hkeep; [| |exact Hstart].
  - intros s ty st Hst s'. specialize (Hst s'). by destruct s, s'.
  - intros s st st' Hsteps Hst s'. destruct (decide (s' = s)) as [->|Hne].
    + eapply steps_boxes_resolved; [exact Hsteps | apply Hst].
    + rewrite (steps_other_slot _ _ _ _ s' _ _ Hne Hsteps). apply Hst.
Qed.

(** ** A directory of two annotation files *)

Lemma by_compute (P : Prop) `{Decision P} : bool_decide P = true → P.
Proof. apply bool_decide_eq_true. Qed.

Ltac solve_by_compute :=
  match goal with |- ?P => apply (by_compute P); vm_compute; reflexivity end.

Definition box_object (name xmin ymin xmax ymax : string) : xmlval :=
  XDict [("name", XStr name);
         ("bndbox", XDict [("xmin", XStr xmin); ("ymin", XStr ymin);
                           ("xmax", XStr xmax); ("ymax", XStr ymax)])].

(** The file [img1] shows a cat and a dog, the file [img2] two dogs and a
    cat; the registry [cat_registry] knows the cat only. *)
Definition zoo_box_dir : AnnoDir :=
  {| SegmentationClass := None; labelmap_txt := None;
     xml_files :=
       {[ "img1" := XmlParsed (XDict [("object",
             XList [box_object "cat" "10" "10" "19" "14";
                    box_object "dog" "1" "1" "5" "5"])]);
          "img2" := XmlParsed (XDict [("object",
             XList [box_object "dog" "2" "2" "6" "6";
                    box_object "dog" "3" "3" "7" "7";
                    box_object "cat" "4" "4" "8" "8"])]) ]};
     meta_yaml := None |}.

Definition zoo_files : pydict string string := [("h1", "img1"); ("h2", "img2")].

Lemma import_keeps_registry_witness :
  class_type_manager
    (import_annotations float_of_integral int32_ok inhabitant cat_registry
       (Some zoo_box_dir) None zoo_files IGNORE AT_DET_BOX).1 = cat_registry.
Proof.
  apply (import_keeps_registry float_of_integral int32_ok inhabitant cat_registry
           (Some zoo_box_dir) None zoo_files IGNORE AT_DET_BOX).
  discriminate.
Defined.

Lemma import_boxes_resolved_witness :
  let imported :=
    import_annotations float_of_integral int32_ok inhabitant cat_registry
      (Some zoo_box_dir) None zoo_files ADD AT_DET_BOX in
  Forall (λ b, 0 ≤ class_id b)
    (boxes (default inhabitant
              (image_annotations (prediction (mir_annotation imported.1)) !! "h2"))).
Proof.
  apply (import_boxes_resolved float_of_integral int32_ok inhabitant cat_registry
           (Some zoo_box_dir) None zoo_files ADD AT_DET_BOX) with Prediction "h2".
  - intros slot k a Hk. exfalso.
    destruct slot; exact (lookup_empty_Some (M := gmap string) k a Hk).
  - vm_compute. reflexivity.
Defined.

End ImportFootprint.

(* ===================================================================== *)
(** * The masks of the mask importer *)
(* ===================================================================== *)

Module MaskTheory.
Import Annotations ImportTheory.

(** ** The mask of an image *)

(** The pixel a mask keeps: a colour of the table stays, any other becomes
    the background. *)
Definition keep_known (map_color_cid : pydict rgb Z) (p : rgb) : rgb :=
  if bool_decide (p ∈ dict_keys map_color_cid) then p else (0, 0, 0).

(** The class ids of the colours of the table that an image shows. *)
Definition shown_class_ids (map_color_cid : pydict rgb Z) (img : list (list rgb)) :
    gset Z :=
  list_to_set ((λ c, default 0 (dict_get map_color_cid c))
                 <$> filter (λ c, any_pixel c img = true) (dict_keys map_color_cid)).

Lemma zip_with_map_r {A B C} (f : A → B → C) (g : A → B) (l : list A) :
  zip_with f l (map g l) = map (λ x, f x (g x)) l.
Proof. induction l as [|x l IH]; simpl; [done|]. by rewrite IH. Qed.

Lemma paint_map c img (g : rgb → rgb) :
  paint c img (map (map g) img)
  = map (map (λ p, if pixel_is c p then c else g p)) img.
Proof.
  unfold paint. rewrite zip_with_map_r. apply map_ext. intros row.
  apply zip_with_map_r.
Qed.

Lemma any_pixel_false c img row p :
  any_pixel c img = false → In row img → In p row → p ≠ c.
Proof.
  unfold any_pixel. intros Hany Hrow Hp ->.
  assert (existsb (existsb (pixel_is c)) img = true) as Ht; [|congruence].
  apply existsb_exists. exists row. split; [done|].
  apply existsb_exists. exists c. split; [done|].
  unfold pixel_is. by apply bool_decide_eq_true_2.
Qed.

(** The loop over the colours of the table, from a mask that is a
    pixel-wise image of [img]. *)
Lemma foldl_seg_mask_paint map_color_cid img ks (g : rgb → rgb) (ids : gset Z) :
  foldl (seg_mask_paint map_color_cid img) (map (map g) img, ids) ks
  = (map (map (λ p, if bool_decide (p ∈ ks) then p else g p)) img,
     list_to_set ((λ c, default 0 (dict_get map_color_cid c))
                    <$> filter (λ c, any_pixel c img = true) ks) ∪ ids).
Proof.
  revert g ids. induction ks as [|c ks IH]; intros g ids; simpl.
  - f_equal. apply set_eq. intros x. rewrite elem_of_union, elem_of_empty. tauto.
  - destruct (any_pixel c img) eqn:Hany.
    + rewrite paint_map, IH. f_equal.
      * apply map_ext. intros row. apply map_ext. intros p.
        unfold pixel_is. destruct (decide (p ∈ ks)) as [Hin|Hnin].
        -- rewrite !bool_decide_eq_true_2; [done | by right | done].
        -- rewrite (bool_decide_eq_false_2 (p ∈ ks)) by done.
           destruct (decide (p = c)) as [->|Hne].
           ++ rewrite !bool_decide_eq_true_2; [done | by left | done].
           ++ rewrite !bool_decide_eq_false_2; [done | | done].
              intros [?|?]%elem_of_cons; done.
      * rewrite filter_cons_True by done. rewrite fmap_cons. simpl.
        apply set_eq. intros x. rewrite !elem_of_union, elem_of_singleton. tauto.
    + rewrite IH. f_equal.
      * apply map_ext_in. intros row Hrow. apply map_ext_in. intros p Hp.
        pose proof (any_pixel_false c img row p Hany Hrow Hp) as Hne.
        destruct (decide (p ∈ ks)) as [Hin|Hnin].
        -- rewrite !bool_decide_eq_true_2; [done | by right | done].
        -- rewrite !bool_decide_eq_false_2; [done | | done].
           intros [?|?]%elem_of_cons; done.
      * rewrite filter_cons_False by (rewrite Hany; done). done.
Qed.

Lemma zeros_like_map img : zeros_like img = map (map (λ _, (0, 0, 0))) img.
Proof. reflexivity. Qed.

(** X5.  For an asset whose mask file is a PNG image, the mask importer
    appends one mask to the asset's entry: the image with every pixel
    whose colour is not in the colour table set to (0,0,0) and every other
    pixel kept.  It sets the asset's class ids to those of the table's
    colours that occur in the image, each once, in whatever order the set
    of them is listed; it keeps the boxes and changes no other asset. *)
Theorem seg_mask_keeps_known_colours (slot : task_slot) (dir : AnnoDir)
    (map_color_cid : pydict rgb Z) (asset_hash main_file_name : string)
    (files : gmap string MaskFile) (format : string) (img : list (list rgb))
    (st : ImportState) :
  SegmentationClass dir = Some files →
  files !! main_file_name = Some (MaskImage format img) →
  lower format = "png" →
  let run := seg_mask_asset slot dir map_color_cid (asset_hash, main_file_name) st in
  let images st := image_annotations (get_task slot (mir_annotation st)) in
  let before := default inhabitant (images st !! asset_hash) in
  run.2 = Ok tt ∧
  (∃ class_ids,
     images run.1 !! asset_hash
     = Some {| boxes := boxes before;
               masks := masks before
                        ++ [{| semantic_mask :=
                                 map (map (keep_known map_color_cid)) img |}];
               img_class_ids := class_ids |} ∧
     NoDup class_ids ∧
     ∀ class_id, class_id ∈ class_ids ↔ class_id ∈ shown_class_ids map_color_cid img) ∧
  ∀ other, other ≠ asset_hash → images run.1 !! other = images st !! other.
Proof.
  intros Hdir Hfile Hpng run images before. unfold run, seg_mask_asset.
  rewrite Hdir. simpl. rewrite Hfile, Hpng. simpl.
  rewrite zeros_like_map, foldl_seg_mask_paint.
  assert (list_to_set ((λ c, default 0 (dict_get map_color_cid c))
                         <$> filter (λ c, any_pixel c img = true)
                               (dict_keys map_color_cid)) ∪ (∅ : gset Z)
          = shown_class_ids map_color_cid img) as ->.
  { apply set_eq. intros x. unfold shown_class_ids.
    rewrite elem_of_union, elem_of_empty. tauto. }
  unfold modify, images. simpl.
  assert (∀ t m, get_task slot (set_task slot t m) = t) as Hget by (by destruct slot).
  rewrite Hget. simpl. split_and!; [done | |].
  - eexists. split_and!.
    + unfold on_entry. rewrite lookup_insert_eq. reflexivity.
    + apply NoDup_elements.
    + intros class_id. apply elem_of_elements.
  - intros other Hne. unfold on_entry. by rewrite lookup_insert_ne.
Qed.

(** A mask file with pixels of the colours of [cat] and of [dog], one of a
    colour the table does not hold, one of the background. *)
Definition pet_pixels : list (list rgb) :=
  [[(10, 20, 30); (9, 9, 9); (40, 50, 60)]; [(0, 0, 0); (10, 20, 30); (40, 50, 60)]].

Definition pet_colours : pydict rgb Z := [((10, 20, 30), 0); ((40, 50, 60), 1)].

Definition pet_mask_files : gmap string MaskFile :=
  {[ "img" := MaskImage "PNG" pet_pixels ]}.

Definition pet_painted_dir : AnnoDir :=
  {| SegmentationClass := Some pet_mask_files;
     labelmap_txt := Some ["cat:10,20,30::"; "dog:40,50,60::"];
     xml_files := ∅; meta_yaml := None |}.

Lemma seg_mask_keeps_known_colours_witness :
  let st := fresh_import cat_registry in
  let run := seg_mask_asset Prediction pet_painted_dir pet_colours ("hash", "img") st in
  let images st := image_annotations (get_task Prediction (mir_annotation st)) in
  let before := default inhabitant (images st !! "hash") in
  run.2 = Ok tt ∧
  (∃ class_ids,
     images run.1 !! "hash"
     = Some {| boxes := boxes before;
               masks := masks before
                        ++ [{| semantic_mask :=
                                 map (map (keep_known pet_colours)) pet_pixels |}];
               img_class_ids := class_ids |} ∧
     NoDup class_ids ∧
     ∀ class_id,
       class_id ∈ class_ids ↔ class_id ∈ shown_class_ids pet_colours pet_pixels) ∧
  ∀ other, other ≠ "hash" → images run.1 !! other = images st !! other.
Proof.
  apply (seg_mask_keeps_known_colours Prediction pet_painted_dir pet_colours
           "hash" "img" pet_mask_files "PNG" pet_pixels (fresh_import cat_registry));
    reflexivity.
Defined.

(** The mask of the witness, and the two classes it shows. *)
Example seg_mask_example :
  map (map (keep_known pet_colours)) pet_pixels
  = [[(10, 20, 30); (0, 0, 0); (40, 50, 60)]; [(0, 0, 0); (10, 20, 30); (40, 50, 60)]] ∧
  shown_class_ids pet_colours pet_pixels = {[ 0; 1 ]}.
Proof. split; vm_compute; reflexivity. Qed.

End MaskTheory.

(* ===================================================================== *)
(** * The counts of unknown names *)
(* ===================================================================== *)

Module CountTheory.
Import Annotations ImportTheory ImportFootprint.

(** ** The numbers of the accumulated names *)

(** The names of the objects of an annotation file, in the order of the
    file, and of the files of a directory, in the order of
    [map_hashed_filename]. *)
Definition object_names (annos_dict : xmlval) : list string :=
  match xget annos_dict "object" (XList []) ≫= objects_of with
  | Ok objects =>
      match mapM (M := result) object_name objects with
      | Ok names => names
      | Raise _ => []
      end
  | Raise _ => []
  end.

Definition file_object_names (dir : AnnoDir) (main_file_name : string) : list string :=
  match xml_files dir !! main_file_name with
  | Some (XmlParsed annos_dict) => object_names annos_dict
  | _ => []
  end.

Definition dir_object_names (dir : AnnoDir) (map_hashed_filename : pydict string string) :
    list string :=
  concat (file_object_names dir <$> map_hashed_filename.*2).

Definition occurrences (name : string) (names : list string) : nat :=
  length (filter (λ n, n = name) names).

#[export] Instance unresolved_dec reg name : Decision (unresolved reg name).
Proof. unfold unresolved. apply _. Defined.

(** What one object of the given name does to the accumulated names,
    without [ADD]. *)
Definition tally (reg : UserLabels) (acc : pydict string Z) (name : string) :
    pydict string Z :=
  if (id_and_main_name_for_name reg name).1 <? 0 then
    dict_set acc name (match dict_get acc name with Some n => n + 1 | None => 0 end)
  else acc.

Lemma dict_get_set {V} (d : pydict string V) k v k' :
  dict_get (dict_set d k v) k' = if decide (k = k') then Some v else dict_get d k'.
Proof.
  induction d as [|[k0 v0] d IH]; simpl.
  - done.
  - destruct (decide (k0 = k)) as [->|Hk0]; simpl.
    + by destruct (decide (k = k')).
    + rewrite IH. destruct (decide (k0 = k')) as [->|?]; [|done].
      by rewrite decide_False.
Qed.

(** The main name of a name that resolves resolves. *)
Lemma find_name_main labels id name found :
  find_name labels id name = Some found → is_Some (find_name labels id found.2).
Proof.
  revert id. induction labels as [|l labels IH]; intros id; simpl; [done|].
  destruct (bool_decide (main_name l = name) || bool_decide (name ∈ aliases l)).
  - intros [= <-]. simpl. rewrite bool_decide_eq_true_2 by done. simpl. eauto.
  - intros Hf.
    destruct (bool_decide (main_name l = found.2) || bool_decide (found.2 ∈ aliases l));
      [eauto|]. by eapply IH.
Qed.

Lemma resolved_main_name reg name :
  ¬ unresolved reg name →
  ¬ unresolved reg (id_and_main_name_for_name reg name).2.
Proof.
  unfold unresolved, id_and_main_name_for_name.
  destruct (find_name reg 0 name) as [found|] eqn:E; simpl; [|lia].
  intros _. destruct (find_name_main _ _ _ _ E) as [found' E'].
  rewrite E'. simpl. apply find_name_id in E'. lia.
Qed.

Lemma voc_xml_object_tally float_of_str int_field_ok reg slot asset_hash object_dict
    name s s' :
  only_unresolved reg s.1 → object_name object_dict = Ok name →
  voc_xml_object float_of_str int_field_ok slot asset_hash false object_dict s
  = (s', Ok tt) →
  accu_new_class_names s'.1 = tally reg (accu_new_class_names s.1) name.
Proof.
  destruct s as [st [anno_idx img_class_ids]]. intros [Hreg Hnames] Hname.
  simpl in Hreg, Hnames |- *. unfold voc_xml_object, tally. rewrite Hname, Hreg.
  destruct (decide (unresolved reg name)) as [Hun|Hres].
  - rewrite (unresolved_name reg name Hun). simpl.
    destruct (dict_get (accu_new_class_names st) name) as [n|]; simpl;
      intros [= <-]; done.
  - pose proof (resolved_main_name reg name Hres) as Hmain.
    unfold unresolved in Hres.
    destruct (id_and_main_name_for_name reg name) as [cid new_type_name].
    simpl in Hres, Hmain |- *.
    destruct (dict_get (accu_new_class_names st) new_type_name) as [n|] eqn:Hget.
    { destruct Hmain. apply Hnames. by eapply dict_get_keys. }
    rewrite (proj2 (Z.ltb_ge cid 0)) by lia.
    rewrite (proj2 (Z.leb_le 0 cid)) by lia.
    destruct (_ ≫= _); intros [= <-]; done.
Qed.

Lemma voc_xml_objects_tally float_of_str int_field_ok reg slot asset_hash objects :
  ∀ s s',
    only_unresolved reg s.1 →
    for_each objects (voc_xml_object float_of_str int_field_ok slot asset_hash false) s
    = (s', Ok tt) →
    ∃ names, mapM object_name objects = Ok names ∧
             accu_new_class_names s'.1
             = foldl (tally reg) (accu_new_class_names s.1) names.
Proof.
  induction objects as [|o objects IH]; intros s s' Hs Hrun; simpl in Hrun.
  - injection Hrun as <-. by exists [].
  - unfold mbind, M_bind in Hrun.
    destruct (voc_xml_object _ _ _ _ _ o s) as [s1 [[]|e]] eqn:Ho; [|discriminate].
    assert (∃ name, object_name o = Ok name) as [name Hname].
    { destruct s as [st [anno_idx ids]]. unfold voc_xml_object in Ho.
      destruct (object_name o); [eauto | discriminate]. }
    pose proof (voc_xml_object_tally _ _ reg _ _ _ name s s1 Hs Hname Ho) as Hacc.
    pose proof (voc_xml_object_only_unresolved float_of_str int_field_ok reg slot
                  asset_hash o s Hs) as Hs1.
    rewrite Ho in Hs1. simpl in Hs1.
    destruct (IH s1 s' Hs1 Hrun) as (names & Hnames & Hacc').
    exists (name :: names). split.
    + simpl. rewrite Hname. simpl. rewrite Hnames. done.
    + simpl. by rewrite Hacc', Hacc.
Qed.

Lemma voc_xml_asset_tally float_of_str int_field_ok reg slot dir item s s' :
  only_unresolved reg s.1 →
  voc_xml_asset float_of_str int_field_ok slot dir false item s = (s', Ok tt) →
  accu_new_class_names s'.1
  = foldl (tally reg) (accu_new_class_names s.1) (file_object_names dir item.2).
Proof.
  destruct s as [st task_class_ids], item as [asset_hash main_file_name].
  intros Hst. unfold voc_xml_asset, file_object_names. simpl.
  destruct (xml_files dir !! main_file_name) as [[| | |annos_dict]|];
    try (intros [= <-]; done); try discriminate.
  unfold object_names.
  destruct (xget annos_dict "cks" (XDict [])) as [cks_v|]; [|discriminate].
  set (st_cks := if truthy cks_v then _ else _).
  assert (only_unresolved reg st_cks.1
          ∧ accu_new_class_names st_cks.1 = accu_new_class_names st) as [Hcks Hacc].
  { unfold st_cks. destruct (truthy cks_v); [|done]. by destruct (update_str_map _ _). }
  destruct st_cks as [st1 [[]|e]]; [|discriminate]. simpl in Hcks, Hacc.
  destruct (_ ≫= py_float _) as [quality|]; [|discriminate].
  destruct (_ ≫= objects_of) as [objects|]; [|discriminate]. simpl.
  set (st2 := on_image_cks _ _ st1).
  destruct (for_each objects _ _) as [[st3 [anno_idx img_class_ids]] [[]|e]] eqn:Hloop;
    [|discriminate].
  intros [= <-]. simpl.
  destruct (voc_xml_objects_tally _ _ reg _ _ _ (st2, (0, ∅)) _ Hcks Hloop)
    as (names & -> & Hacc3).
  simpl in Hacc3. by rewrite Hacc3, Hacc.
Qed.

Lemma voc_xml_assets_tally float_of_str int_field_ok reg slot dir map_hashed_filename :
  ∀ s s',
    only_unresolved reg s.1 →
    for_each map_hashed_filename
      (voc_xml_asset float_of_str int_field_ok slot dir false) s = (s', Ok tt) →
    accu_new_class_names s'.1
    = foldl (tally reg) (accu_new_class_names s.1)
        (dir_object_names dir map_hashed_filename).
Proof.
  induction map_hashed_filename as [|item items IH]; intros s s' Hs Hrun;
    simpl in Hrun.
  - by injection Hrun as <-.
  - unfold mbind, M_bind in Hrun.
    destruct (voc_xml_asset _ _ _ _ _ item s) as [s1 [[]|e]] eqn:Hitem; [|discriminate].
    pose proof (voc_xml_asset_tally _ _ reg _ _ _ _ _ Hs Hitem) as Hacc.
    pose proof (voc_xml_asset_only_unresolved float_of_str int_field_ok reg slot dir
                  item s Hs) as Hs1.
    rewrite Hitem in Hs1. simpl in Hs1.
    rewrite (IH s1 s' Hs1 Hrun), Hacc.
    unfold dir_object_names. rewrite !fmap_cons. simpl. by rewrite foldl_app.
Qed.

(** What the tally of a list of names holds for a name. *)
Lemma tally_get reg names : ∀ acc name,
  dict_get (foldl (tally reg) acc names) name
  = if decide (unresolved reg name ∧ (0 < occurrences name names)%nat)
    then Some (default (-1) (dict_get acc name) + Z.of_nat (occurrences name names))
    else dict_get acc name.
Proof.
  unfold occurrences.
  induction names as [|n names IH]; intros acc name; simpl.
  - rewrite decide_False; [done|]. simpl. lia.
  - rewrite IH. unfold tally, unresolved.
    destruct (decide (n = name)) as [->|Hne].
    + rewrite filter_cons_True by done. simpl.
      destruct (Z.ltb_spec (id_and_main_name_for_name reg name).1 0) as [Hun|Hres].
      * rewrite !dict_get_set. destruct (decide (name = name)); [|done]. simpl.
        set (k := length (filter (λ n, n = name) names)).
        rewrite (decide_True (P := _ ∧ (0 < S k)%nat)) by (split; [done | lia]).
        destruct (decide (_ ∧ (0 < k)%nat)) as [Hmore|Hmore].
        -- f_equal. destruct (dict_get acc name); simpl; lia.
        -- f_equal. assert (k = 0%nat) as ->
             by (destruct k; [done|]; destruct Hmore; split; [done | lia]).
           destruct (dict_get acc name); simpl; lia.
      * rewrite !decide_False; [done | |]; intros [? _]; lia.
    + rewrite filter_cons_False by done.
      destruct ((id_and_main_name_for_name reg n).1 <? 0); [|done].
      rewrite !dict_get_set. by destruct (decide (n = name)).
Qed.

(** X6.  After a successful _import_annotations_voc_xml under a strategy
    other than ADD, started with no accumulated names, the accumulated
    names are exactly the object names of the processed files that do not
    resolve, and the number kept for a name is one less than the number of
    its objects: the first occurrence is entered as 0. *)
Theorem voc_xml_counts_later_occurrences float_of_str int_field_ok (reg : UserLabels)
    (map_hashed_filename : pydict string string) (dir : AnnoDir)
    (unknown_types_strategy : UnknownTypesStrategy) (slot : task_slot)
    (st st' : ImportState) :
  unknown_types_strategy ≠ ADD →
  class_type_manager st = reg → accu_new_class_names st = [] →
  _import_annotations_voc_xml float_of_str int_field_ok map_hashed_filename dir
    unknown_types_strategy slot st = (st', Ok tt) →
  ∀ name,
    let seen := occurrences name (dir_object_names dir map_hashed_filename) in
    dict_get (accu_new_class_names st') name
    = if decide (unresolved reg name ∧ (0 < seen)%nat)
      then Some (Z.of_nat seen - 1)
      else None.
Proof.
  intros Hstrategy Hreg Hacc Hrun name seen.
  unfold _import_annotations_voc_xml in Hrun.
  rewrite bool_decide_eq_false_2 in Hrun by done.
  destruct (for_each map_hashed_filename _ _) as [[st1 task_class_ids] [[]|e]] eqn:Hloop;
    [|discriminate].
  injection Hrun as <-. simpl.
  assert (only_unresolved reg (st, (∅ : gset Z)).1) as Hst.
  { split; [done|]. simpl. rewrite Hacc. intros n Hn. by apply elem_of_nil in Hn. }
  pose proof (voc_xml_assets_tally _ _ reg _ _ _ _ _ Hst Hloop) as Htally.
  simpl in Htally. rewrite Htally, Hacc, tally_get. fold seen. simpl.
  case_decide; [f_equal; lia | done].
Qed.

Lemma voc_xml_counts_later_occurrences_witness :
  let st' := (_import_annotations_voc_xml float_of_integral int32_ok zoo_files zoo_box_dir
                IGNORE Prediction (fresh_import cat_registry)).1 in
  let seen := occurrences "dog" (dir_object_names zoo_box_dir zoo_files) in
  dict_get (accu_new_class_names st') "dog"
  = if decide (unresolved cat_registry "dog" ∧ (0 < seen)%nat)
    then Some (Z.of_nat seen - 1)
    else None.
Proof.
  apply (voc_xml_counts_later_occurrences float_of_integral int32_ok cat_registry
           zoo_files zoo_box_dir IGNORE Prediction (fresh_import cat_registry)).
  - discriminate.
  - reflexivity.
  - reflexivity.
  - vm_compute. reflexivity.
Defined.

(** The three dogs of [zoo_box_dir] are counted as two. *)
Example voc_xml_counts_example :
  accu_new_class_names
    (_import_annotations_voc_xml float_of_integral int32_ok zoo_files zoo_box_dir
       IGNORE Prediction (fresh_import cat_registry)).1 = [("dog", 2)].
Proof. vm_compute. reflexivity. Qed.

End CountTheory.

(* ===================================================================== *)
(** * The indices of imported boxes *)
(* ===================================================================== *)

Module IndexTheory.
Import Annotations ImportTheory ImportFootprint.

(** ** The indices of the boxes *)

(** The boxes of an image are numbered by their position. *)
Definition well_indexed (boxes : list ObjectAnnotation) : Prop :=
  index <$> boxes = Z.of_nat <$> seq 0 (length boxes).

Lemma well_indexed_snoc boxes annotation :
  well_indexed boxes → index annotation = Z.of_nat (length boxes) →
  well_indexed (boxes ++ [annotation]).
Proof.
  unfold well_indexed. intros Hb Hi.
  rewrite fmap_app, length_app, Hb. simpl.
  rewrite Nat.add_1_r, seq_S, fmap_app. simpl. by rewrite Hi.
Qed.

(** The images of a slot. *)
Definition images_of (slot : task_slot) (st : ImportState) :
    gmap string SingleImageAnnotations :=
  image_annotations (get_task slot (mir_annotation st)).

Lemma images_of_on_image slot asset_hash f st k :
  images_of slot (on_image slot asset_hash f st) !! k
  = if decide (asset_hash = k)
    then Some (f (default inhabitant (images_of slot st !! asset_hash)))
    else images_of slot st !! k.
Proof.
  unfold images_of, on_image, on_task, on_mir_annotation.
  cbn [mir_annotation]. rewrite get_set_task_eq.
  cbn [image_annotations with_image_annotations]. apply on_entry_lookup.
Qed.

Lemma images_of_on_image_cks slot asset_hash f st :
  images_of slot (on_image_cks asset_hash f st) = images_of slot st.
Proof. unfold images_of. by destruct slot. Qed.

Lemma images_of_on_accu slot f st : images_of slot (on_accu f st) = images_of slot st.
Proof. done. Qed.

Lemma images_of_on_class_type_manager slot f st :
  images_of slot (on_class_type_manager f st) = images_of slot st.
Proof. done. Qed.

(** In the loop over the objects of the asset [asset_hash]: the next index
    is the number of boxes the image holds, and these are numbered by their
    position; the other images are as they were. *)
Definition numbering (slot : task_slot) (asset_hash : string)
    (before : gmap string SingleImageAnnotations)
    (s : ImportState * (Z * gset Z)) : Prop :=
  let boxes := boxes (default inhabitant (images_of slot s.1 !! asset_hash)) in
  s.2.1 = Z.of_nat (length boxes) ∧ well_indexed boxes ∧
  ∀ k, k ≠ asset_hash → images_of slot s.1 !! k = before !! k.

Lemma voc_xml_object_numbering float_of_str int_field_ok slot asset_hash
    add_if_not_found before object_dict s :
  numbering slot asset_hash before s →
  numbering slot asset_hash before
    (voc_xml_object float_of_str int_field_ok slot asset_hash add_if_not_found
       object_dict s).1.
Proof.
  destruct s as [st [anno_idx img_class_ids]]. unfold numbering at 1. simpl.
  intros Hs. unfold voc_xml_object.
  destruct (object_name object_dict) as [name|]; [|done].
  destruct (id_and_main_name_for_name (class_type_manager st) name)
    as [cid new_type_name].
  assert (Hstep : ∀ (st' : ImportState) (cid' : Z),
            images_of slot st' = images_of slot st →
            numbering slot asset_hash before
              (if 0 <=? cid' then
                 match
                   _object_dict_to_annotation float_of_str int_field_ok object_dict cid'
                   ≫= (λ annotation, int_field int_field_ok anno_idx
                   ≫= (λ index, Ok {| index := index; box := box annotation;
                          class_id := class_id annotation; score := score annotation;
                          anno_quality := anno_quality annotation;
                          tags := tags annotation |}))
                 with
                 | Ok annotation =>
                     ((on_image slot asset_hash
                         (λ a, with_boxes (boxes a ++ [annotation]) a) st',
                       (anno_idx + 1, {[cid']} ∪ img_class_ids)), Ok tt)
                 | Raise e => ((st', (anno_idx, img_class_ids)), Raise e)
                 end
               else ((st', (anno_idx, img_class_ids)), Ok tt)).1).
  { intros st' cid' Himg. destruct Hs as (Hidx & Hwell & Hother).
    assert (numbering slot asset_hash before (st', (anno_idx, img_class_ids))) as Hs'.
    { unfold numbering. simpl. by rewrite Himg. }
    destruct (0 <=? cid'); [|done].
    destruct (_ ≫= _) as [annotation|] eqn:Hrun; [|done]. simpl.
    apply result_bind_Ok in Hrun as (a0 & _ & Hrun).
    apply result_bind_Ok in Hrun as (index & Hindex & [= <-]).
    apply int_field_Ok' in Hindex as [-> _].
    unfold numbering. simpl. rewrite images_of_on_image, decide_True by done.
    simpl. rewrite Himg. split_and!.
    - rewrite length_app. simpl. lia.
    - by apply well_indexed_snoc.
    - intros k Hk. rewrite images_of_on_image, decide_False by done.
      rewrite Himg. by apply Hother. }
  destruct (dict_get (accu_new_class_names st) new_type_name) as [n|].
  - by apply Hstep.
  - destruct (cid <? 0); [|by apply Hstep].
    destruct add_if_not_found; [|by apply Hstep].
    destruct (add_main_name (class_type_manager st) new_type_name) as [reg [cid' m]].
    by apply Hstep.
Qed.

Lemma voc_xml_asset_numbering float_of_str int_field_ok slot dir add_if_not_found
    asset_hash main_file_name s :
  images_of slot s.1 !! asset_hash = None →
  let s' := (voc_xml_asset float_of_str int_field_ok slot dir add_if_not_found
               (asset_hash, main_file_name) s).1 in
  (∀ image, images_of slot s'.1 !! asset_hash = Some image →
            well_indexed (boxes image)) ∧
  ∀ k, k ≠ asset_hash → images_of slot s'.1 !! k = images_of slot s.1 !! k.
Proof.
  destruct s as [st task_class_ids]. simpl. intros Hfresh.
  assert (Hsame : ∀ st', images_of slot st' = images_of slot st →
            (∀ image, images_of slot st' !! asset_hash = Some image →
                      well_indexed (boxes image)) ∧
            ∀ k, k ≠ asset_hash → images_of slot st' !! k = images_of slot st !! k).
  { intros st' ->. split; [|done]. intros image. by rewrite Hfresh. }
  unfold voc_xml_asset.
  destruct (xml_files dir !! main_file_name) as [[| | |annos_dict]|];
    try (by apply Hsame).
  destruct (xget annos_dict "cks" (XDict [])) as [cks_v|]; [|by apply Hsame].
  set (st_cks := if truthy cks_v then _ else _).
  assert (images_of slot st_cks.1 = images_of slot st) as Hcks.
  { unfold st_cks. destruct (truthy cks_v); [|done].
    destruct (update_str_map _ _) as [m r]. simpl. apply images_of_on_image_cks. }
  destruct st_cks as [st1 [[]|e]]; [|by apply Hsame]. simpl in Hcks.
  destruct (_ ≫= py_float _) as [quality|]; [|by apply Hsame].
  set (st2 := on_image_cks _ _ st1).
  assert (images_of slot st2 = images_of slot st) as Hst2.
  { unfold st2. by rewrite images_of_on_image_cks. }
  destruct (_ ≫= objects_of) as [objects|]; [|by apply Hsame].
  pose proof (for_each_preserves (numbering slot asset_hash (images_of slot st)) objects
                (voc_xml_object float_of_str int_field_ok slot asset_hash
                   add_if_not_found)
                (λ x s _, voc_xml_object_numbering _ _ slot asset_hash _ _ x s)
                (st2, (0, ∅))) as Hloop.
  destruct Hloop as (Hidx & Hwell & Hother).
  { unfold numbering. simpl. rewrite Hst2, Hfresh. simpl. by split_and!. }
  destruct (for_each objects _ _) as [[st3 [anno_idx img_class_ids]] [[]|e]];
    simpl in Hidx, Hwell, Hother |- *.
  - split.
    + intros image. rewrite images_of_on_image, decide_True by done.
      intros [= <-]. exact Hwell.
    + intros k Hk. rewrite images_of_on_image, decide_False by done. by apply Hother.
  - split; [|done]. intros image Himage. by rewrite Himage in Hwell.
Qed.

Lemma voc_xml_assets_numbering float_of_str int_field_ok slot dir add_if_not_found
    map_hashed_filename :
  ∀ s, NoDup (dict_keys map_hashed_filename) →
       (∀ h, h ∈ dict_keys map_hashed_filename → images_of slot s.1 !! h = None) →
       let s' := (for_each map_hashed_filename
                    (voc_xml_asset float_of_str int_field_ok slot dir add_if_not_found)
                    s).1 in
       ∀ h image, h ∈ dict_keys map_hashed_filename →
                  images_of slot s'.1 !! h = Some image → well_indexed (boxes image).
Proof.
  unfold dict_keys.
  induction map_hashed_filename as [|[asset_hash main_file_name] items IH];
    intros s Hnodup Hfresh; simpl.
  - intros h image Hh. by apply elem_of_nil in Hh.
  - apply NoDup_cons in Hnodup as [Hnotin Hnodup]. unfold mbind, M_bind.
    destruct (voc_xml_asset_numbering float_of_str int_field_ok slot dir
                add_if_not_found asset_hash main_file_name s) as [Hthis Hother].
    { apply Hfresh. left. }
    destruct (voc_xml_asset _ _ _ _ _ _ s) as [s1 [[]|e]]; simpl in Hthis, Hother |- *.
    + intros h image Hh Himage.
      destruct (decide (h ∈ items.*1)) as [Hin|Hnin].
      * eapply (IH s1); try done. intros k Hk. rewrite Hother.
        -- apply Hfresh. by right.
        -- intros ->. done.
      * apply elem_of_cons in Hh as [->|?]; [|done]. apply Hthis.
        rewrite <- Himage. symmetry.
        apply (steps_images_other slot (bool_decide (add_if_not_found = true)) true
                 (λ h, h ∈ items.*1)); [done|].
        apply voc_xml_assets_steps; [done | done |].
        intros ->. by apply bool_decide_eq_true_2.
    + intros h image Hh Himage. destruct (decide (h = asset_hash)) as [->|Hne].
      * by apply Hthis.
      * rewrite Hother in Himage by done. rewrite Hfresh in Himage; [done|].
        apply elem_of_cons in Hh as [?|?]; [done | by right].
Qed.

(** X7.  When the asset hashes are distinct and none of them has
    annotations yet, the boxes that _import_annotations_voc_xml stores for
    an asset carry the indices 0, 1, 2, ... in their order, also when
    objects of unknown classes were skipped in between and also when the
    import fails later. *)
Theorem voc_xml_box_indices float_of_str int_field_ok
    (map_hashed_filename : pydict string string) (dir : AnnoDir)
    (unknown_types_strategy : UnknownTypesStrategy) (slot : task_slot)
    (st : ImportState) :
  NoDup (dict_keys map_hashed_filename) →
  (∀ h, h ∈ dict_keys map_hashed_filename →
        image_annotations (get_task slot (mir_annotation st)) !! h = None) →
  ∀ asset_hash image,
    asset_hash ∈ dict_keys map_hashed_filename →
    image_annotations
      (get_task slot
         (mir_annotation
            (_import_annotations_voc_xml float_of_str int_field_ok map_hashed_filename
               dir unknown_types_strategy slot st).1)) !! asset_hash = Some image →
    index <$> boxes image = Z.of_nat <$> seq 0 (length (boxes image)).
Proof.
  intros Hnodup Hfresh asset_hash image Hin.
  unfold _import_annotations_voc_xml.
  pose proof (voc_xml_assets_numbering float_of_str int_field_ok slot dir
                (bool_decide (unknown_types_strategy = ADD)) map_hashed_filename
                (st, ∅) Hnodup Hfresh asset_hash image Hin) as Hloop.
  destruct (for_each map_hashed_filename _ _) as [[st' task_class_ids] [[]|e]];
    simpl in Hloop |- *; [|exact Hloop].
  intros Himage. apply Hloop. rewrite <- Himage. unfold images_of.
  simpl. by rewrite get_set_task_eq.
Qed.

Lemma voc_xml_box_indices_witness :
  let image :=
    default inhabitant
      (image_annotations
         (get_task Prediction
            (mir_annotation
               (_import_annotations_voc_xml float_of_integral int32_ok zoo_files
                  zoo_box_dir ADD Prediction (fresh_import cat_registry)).1)) !! "h2") in
  index <$> boxes image = Z.of_nat <$> seq 0 (length (boxes image)).
Proof.
  apply (voc_xml_box_indices float_of_integral int32_ok zoo_files zoo_box_dir ADD
           Prediction (fresh_import cat_registry)) with "h2".
  - solve_by_compute.
  - intros h _. apply lookup_empty.
  - solve_by_compute.
  - vm_compute. reflexivity.
Defined.

End IndexTheory.

(* ===================================================================== *)
(** * The meta file and the labelmap *)
(* ===================================================================== *)

Module ImportEdges.
Import Annotations ImportTheory ImportFootprint.

(** ** The evaluation class ids of [meta.yaml] *)

(** X8.  With a meta.yaml that is a dictionary, _import_annotation_meta
    succeeds when ParseDict accepts the model entry, if there is one,
    eval_class_names is not a truthy value that cannot be iterated, and
    json.dumps accepts the executor config, if there is one.  The model is
    then the old one with the entry of the file merged into it by
    ParseDict, or the old one when the file has none; and eval_class_ids
    holds, without duplicates, exactly the non-negative ids of the names
    in eval_class_names, or of the model's class names when
    eval_class_names is missing, empty or otherwise falsy. *)
Theorem import_meta_eval_class_ids (dir : AnnoDir) (slot : task_slot)
    (st : ImportState) (d : MetaDict) :
  meta_yaml dir = Some (MetaLoaded d) →
  (∀ parse_dict, meta_model d = Some parse_dict →
                 (parse_dict (model (get_task slot (mir_annotation st)))).2 = Ok tt) →
  meta_eval_class_names d ≠ NamesNotIterable →
  (∀ e, meta_executor_config d ≠ Some (Raise e)) →
  let run := _import_annotation_meta dir slot st in
  let task := get_task slot (mir_annotation run.1) in
  let eval_class_names :=
    match meta_eval_class_names d with
    | Names (n :: ns) => n :: ns
    | _ => class_names (model task)
    end in
  run.2 = Ok tt ∧
  model task = match meta_model d with
               | Some parse_dict =>
                   (parse_dict (model (get_task slot (mir_annotation st)))).1
               | None => model (get_task slot (mir_annotation st))
               end ∧
  NoDup (eval_class_ids task) ∧
  ∀ i, i ∈ eval_class_ids task ↔
       0 ≤ i ∧ ∃ n, n ∈ eval_class_names ∧
                    (id_and_main_name_for_name (class_type_manager st) n).1 = i.
Proof.
  intros Hmeta Hmodel Hnames Hconfig. unfold _import_annotation_meta. rewrite Hmeta.
  unfold mbind, M_bind, get, modify, raise, mret, M_ret.
  assert (Hids : ∀ names (i : Z),
            i ∈ elements (list_to_set (C := gset Z)
                            (id_for_names_drop_unknown (class_type_manager st) names))
            ↔ 0 ≤ i ∧ ∃ n, n ∈ names
                           ∧ (id_and_main_name_for_name (class_type_manager st) n).1 = i).
  { intros names i. rewrite elem_of_elements, elem_of_list_to_set.
    unfold id_for_names_drop_unknown. rewrite list_elem_of_filter, list_elem_of_fmap.
    split; intros [Hi (n & Hn & Hin)]; (split; [done|]); exists n; by split. }
  destruct (meta_model d) as [parse_dict|].
  - specialize (Hmodel parse_dict eq_refl).
    destruct (parse_dict _) as [m r]. simpl in Hmodel. subst r.
    destruct (meta_eval_class_names d) as [| |[|n ns]]; try done;
      (destruct (meta_executor_config d) as [[c|e]|]; [|by destruct (Hconfig e)|]);
      simpl; rewrite !get_set_task_eq; simpl;
      (split_and!; [done | done | apply NoDup_elements | apply Hids]).
  - destruct (meta_eval_class_names d) as [| |[|n ns]]; try done;
      (destruct (meta_executor_config d) as [[c|e]|]; [|by destruct (Hconfig e)|]);
      simpl; rewrite ?get_set_task_eq; simpl;
      (split_and!; [done | done | apply NoDup_elements | apply Hids]).
Qed.

(** ** The lines of a labelmap *)

(** The lines are read one after the other. *)
Lemma labelmap_records_app pre rest reg : ∀ table,
  labelmap_records (pre ++ rest) reg table
  = labelmap_records pre reg table ≫= labelmap_records rest reg.
Proof.
  induction pre as [|record pre IH]; intros table; simpl; [done|].
  destruct (_ || _); [apply IH|].
  destruct (split ":" (strip record)) as [|name [|colors [|a [|b [|]]]]];
    try apply IH.
  destruct (mapM int (split "," colors)) as [pos_ints|]; simpl; [|done].
  destruct pos_ints as [|r [|g [|b' [|]]]]; try apply IH.
  - destruct (id_and_main_name_for_name reg name). apply IH.
  - destruct (id_and_main_name_for_name reg name). apply IH.
Qed.

Lemma split_no_sep sep s : contains_char sep s = false → split sep s = [s].
Proof.
  induction s as [|c s IH]; simpl; [done|].
  intros [Hc Hs]%orb_false_iff. apply bool_decide_eq_false in Hc.
  rewrite decide_False by done. by rewrite IH.
Qed.

Lemma int_raises s e : int s = Raise e → e = ValueError.
Proof. unfold int. destruct (digits_of _ _ _); [done|]. by intros [= <-]. Qed.

Lemma mapM_int_raises fields c :
  c ∈ fields → int c = Raise ValueError → mapM int fields = Raise ValueError.
Proof.
  induction fields as [|f fields IH]; intros Hc Hint; [by apply elem_of_nil in Hc|].
  simpl. destruct (int f) as [n|e] eqn:Hf; simpl.
  - apply elem_of_cons in Hc as [->|Hc]; [congruence|]. by rewrite IH.
  - by rewrite (int_raises f e Hf).
Qed.

(** X9.  A labelmap line of four fields whose colour field holds a part
    that is not an integer makes _parse_labelmap raise ValueError,
    whatever lines follow, when the lines before it parse: such a line is
    not skipped like the other malformed lines. *)
Theorem parse_labelmap_bad_colour (class_type_manager : UserLabels)
    (before after : list string) (record name colors x y field : string)
    (table : pydict string rgb) :
  _parse_labelmap (Some before) class_type_manager = Ok table →
  split ":" (strip record) = [name; colors; x; y] →
  field ∈ split "," colors → int field = Raise ValueError →
  _parse_labelmap (Some (before ++ record :: after)) class_type_manager
  = Raise ValueError.
Proof.
  unfold _parse_labelmap. intros Hbefore Hsplit Hfield Hint.
  rewrite labelmap_records_app, Hbefore. simpl.
  destruct (contains_char ":" (strip record)) eqn:Hcolon.
  - simpl. destruct (bool_decide (strip record = "")) eqn:Hempty.
    { apply bool_decide_eq_true in Hempty. rewrite Hempty in Hsplit. discriminate. }
    rewrite Hsplit, (mapM_int_raises _ field Hfield Hint). done.
  - apply split_no_sep in Hcolon. rewrite Hcolon in Hsplit. discriminate.
Qed.

(** A [meta.yaml] with a model of the class [cat], which [ParseDict] merges
    into the message by setting the class names, without names to
    evaluate, and with an executor config. *)
Definition cat_meta : MetaDict :=
  {| meta_model :=
       Some (λ old, ({| class_names := ["cat"; "dog"; "cat"];
                        model_rest := model_rest old |}, Ok tt));
     meta_eval_class_names := NamesFalsy;
     meta_executor_config := Some (Ok "{}") |}.

Definition meta_dir (d : MetaDict) : AnnoDir :=
  {| SegmentationClass := None; labelmap_txt := None; xml_files := ∅;
     meta_yaml := Some (MetaLoaded d) |}.

Lemma import_meta_eval_class_ids_witness :
  let st := fresh_import cat_registry in
  let run := _import_annotation_meta (meta_dir cat_meta) Prediction st in
  let task := get_task Prediction (mir_annotation run.1) in
  run.2 = Ok tt ∧
  model task = {| class_names := ["cat"; "dog"; "cat"];
                  model_rest := model_rest (model (prediction (mir_annotation st))) |} ∧
  NoDup (eval_class_ids task) ∧
  ∀ i, i ∈ eval_class_ids task ↔
       0 ≤ i ∧ ∃ n, n ∈ class_names (model task) ∧
                    (id_and_main_name_for_name (class_type_manager st) n).1 = i.
Proof.
  apply (import_meta_eval_class_ids (meta_dir cat_meta) Prediction
           (fresh_import cat_registry) cat_meta).
  - reflexivity.
  - intros parse_dict [= <-]. reflexivity.
  - discriminate.
  - discriminate.
Defined.

(** The run of the witness, and the runs that fail: names that cannot be
    iterated, and an executor config that [json.dumps] refuses, which is
    found after the evaluation class ids are set. *)
Example import_meta_examples :
  let run d := _import_annotation_meta (meta_dir d) Prediction
                 (fresh_import cat_registry) in
  let ids (r : ImportState * result unit) := eval_class_ids (prediction (mir_annotation r.1)) in
  ids (run cat_meta) = [0] ∧
  (run {| meta_model := None; meta_eval_class_names := NamesNotIterable;
          meta_executor_config := None |}).2 = Raise TypeError ∧
  (let r := run {| meta_model := None; meta_eval_class_names := Names ["cat"];
                   meta_executor_config := Some (Raise TypeError) |} in
   r.2 = Raise TypeError ∧ ids r = [0]).
Proof. repeat split; vm_compute; reflexivity. Qed.

Lemma parse_labelmap_bad_colour_witness :
  _parse_labelmap (Some (["cat:10,20,30::"] ++ "dog:1,x,3::" :: ["bird:1,2,3::"]))
    cat_registry = Raise ValueError.
Proof.
  apply (parse_labelmap_bad_colour cat_registry ["cat:10,20,30::"] ["bird:1,2,3::"]
           "dog:1,x,3::" "dog" "1,x,3" "" "" "x" [("cat", (10, 20, 30))]).
  - vm_compute. reflexivity.
  - vm_compute. reflexivity.
  - solve_by_compute.
  - vm_compute. reflexivity.
Defined.

End ImportEdges.

(* ===================================================================== *)
(** * Filter and sampling as restrictions *)
(* ===================================================================== *)

Module SelectionTheory.
Import Annotations SubsetTheory.

(** ** The selection of a filter *)

(** The entries of a map for the asset ids of a selection. *)
Definition restrict {V} (asset_ids : gset string) (m : gmap string V) : gmap string V :=
  filter (λ kv, kv.1 ∈ asset_ids) m.

Lemma restrict_lookup {V} (asset_ids : gset string) (m : gmap string V) k :
  restrict asset_ids m !! k = if decide (k ∈ asset_ids) then m !! k else None.
Proof.
  unfold restrict. case_decide as Hk.
  - destruct (m !! k) as [v|] eqn:E.
    + by apply map_lookup_filter_Some.
    + apply map_lookup_filter_None. by left.
  - apply map_lookup_filter_None. right. by intros v _.
Qed.

Lemma restrict_restrict {V} (A B : gset string) (m : gmap string V) :
  restrict B (restrict A m) = restrict (A ∩ B) m.
Proof.
  apply map_eq. intros k. rewrite !restrict_lookup.
  destruct (decide (k ∈ A)) as [HA|HA], (decide (k ∈ B)) as [HB|HB].
  - by rewrite decide_True by (by apply elem_of_intersection).
  - by rewrite decide_False by (intros [? ?]%elem_of_intersection; done).
  - by rewrite decide_False by (intros [? ?]%elem_of_intersection; done).
  - by rewrite decide_False by (intros [? ?]%elem_of_intersection; done).
Qed.

(** The copies of the entries of a source for a list of ids that lists the
    selected ids the source holds. *)
Lemma foldl_copy_entry_restrict `{Inhabited V} (src : gmap string V) ks
    (asset_ids : gset string) :
  (∀ k, k ∈ ks ↔ k ∈ asset_ids ∧ is_Some (src !! k)) →
  foldl (copy_entry src) ∅ ks = restrict asset_ids src.
Proof.
  intros Hks. apply map_eq. intros k.
  rewrite foldl_copy_entry_lookup, restrict_lookup, lookup_empty.
  destruct (decide (k ∈ ks)) as [Hin|Hnin].
  - apply Hks in Hin as [Hk [v Hv]]. rewrite decide_True by done. by rewrite Hv.
  - case_decide as Hk; [|done]. destruct (src !! k) eqn:E; [|done].
    destruct Hnin. apply Hks. eauto.
Qed.

Lemma elements_selection {V} (asset_ids : gset string) (m : gmap string V) k :
  k ∈ elements (asset_ids ∩ dom m) ↔ k ∈ asset_ids ∧ is_Some (m !! k).
Proof. by rewrite elem_of_elements, elem_of_intersection, elem_of_dom. Qed.

Lemma elements_selection' {V} (asset_ids : gset string) (m : gmap string V) k :
  k ∈ elements (dom m ∩ asset_ids) ↔ k ∈ asset_ids ∧ is_Some (m !! k).
Proof. rewrite elem_of_elements, elem_of_intersection, elem_of_dom. tauto. Qed.

(** The fresh task annotations a filter fills. *)
Definition selected_task (asset_ids : gset string) (t : SingleTaskAnnotations) :
    SingleTaskAnnotations :=
  {| type := type t;
     image_annotations := restrict asset_ids (image_annotations t);
     task_class_ids := []; map_id_color := ∅; eval_class_ids := [];
     executor_config := ""; model := inhabitant |}.

Lemma gen_filter_task_annotations_spec src (asset_ids : gset string) :
  _gen_filter_task_annotations src inhabitant asset_ids = selected_task asset_ids src.
Proof.
  unfold _gen_filter_task_annotations, selected_task, with_image_annotations. simpl.
  f_equal. apply foldl_copy_entry_restrict. apply elements_selection.
Qed.

(** The annotation set a filter returns, field by field. *)
Definition selected (asset_ids_set : gset string) (mir_annotations : MirAnnotations) :
    MirAnnotations :=
  {| prediction :=
       {| type := type (prediction mir_annotations);
          image_annotations :=
            restrict asset_ids_set (image_annotations (prediction mir_annotations));
          task_class_ids := []; map_id_color := ∅;
          eval_class_ids := eval_class_ids (prediction mir_annotations);
          executor_config := executor_config (prediction mir_annotations);
          model := model (prediction mir_annotations) |};
     ground_truth :=
       {| type := type (ground_truth mir_annotations);
          image_annotations :=
            restrict asset_ids_set (image_annotations (ground_truth mir_annotations));
          task_class_ids := []; map_id_color := ∅; eval_class_ids := [];
          executor_config := ""; model := inhabitant |};
     image_cks := restrict asset_ids_set (image_cks mir_annotations) |}.

Lemma filter_annotations_selected mir_annotations (asset_ids_set : gset string) :
  filter_annotations mir_annotations asset_ids_set = selected asset_ids_set mir_annotations.
Proof.
  unfold filter_annotations. cbv zeta.
  change (ground_truth inhabitant) with (inhabitant : SingleTaskAnnotations).
  change (prediction inhabitant) with (inhabitant : SingleTaskAnnotations).
  rewrite !gen_filter_task_annotations_spec.
  change (image_cks inhabitant) with (∅ : gmap string SingleImageCks).
  rewrite (foldl_copy_entry_restrict _ _ asset_ids_set) by apply elements_selection.
  reflexivity.
Qed.

(** X10.  filter_annotations returns the images of the predictions, the
    images of the ground truths and the image custom keys restricted to
    the given asset ids; the types of both tasks and the evaluation ids,
    the executor config and the model of the predictions are kept; the
    task class ids, the colour maps and the other fields of the ground
    truths are empty. *)
Theorem filter_annotations_selection (mir_annotations : MirAnnotations)
    (asset_ids_set : gset string) :
  filter_annotations mir_annotations asset_ids_set
  = {| prediction :=
         {| type := type (prediction mir_annotations);
            image_annotations :=
              restrict asset_ids_set (image_annotations (prediction mir_annotations));
            task_class_ids := []; map_id_color := ∅;
            eval_class_ids := eval_class_ids (prediction mir_annotations);
            executor_config := executor_config (prediction mir_annotations);
            model := model (prediction mir_annotations) |};
       ground_truth :=
         {| type := type (ground_truth mir_annotations);
            image_annotations :=
              restrict asset_ids_set (image_annotations (ground_truth mir_annotations));
            task_class_ids := []; map_id_color := ∅; eval_class_ids := [];
            executor_config := ""; model := inhabitant |};
       image_cks := restrict asset_ids_set (image_cks mir_annotations) |} ∧
  ∀ {V} (m : gmap string V) asset_id,
    restrict asset_ids_set m !! asset_id
    = if decide (asset_id ∈ asset_ids_set) then m !! asset_id else None.
Proof.
  split; [apply filter_annotations_selected|]. intros V m k. apply restrict_lookup.
Qed.

(** X11.  Filtering twice is filtering once with the intersection of the
    two sets of asset ids. *)
Theorem filter_annotations_twice (mir_annotations : MirAnnotations)
    (first second : gset string) :
  filter_annotations (filter_annotations mir_annotations first) second
  = filter_annotations mir_annotations (first ∩ second).
Proof.
  rewrite !filter_annotations_selected. unfold selected. simpl.
  by rewrite !restrict_restrict.
Qed.

(** ** Sampling *)

(** The fresh annotation set during the loop of [sampling_annotations]:
    nothing but images. *)
Definition images_only (pred gt : gmap string SingleImageAnnotations) : MirAnnotations :=
  {| prediction := with_image_annotations pred inhabitant;
     ground_truth := with_image_annotations gt inhabitant;
     image_cks := ∅ |}.

Lemma sampling_asset_images mir_annotations pred gt asset_id :
  sampling_asset mir_annotations (images_only pred gt) asset_id
  = images_only
      (if bool_decide (is_Some (image_annotations (prediction mir_annotations) !! asset_id))
       then copy_entry (image_annotations (prediction mir_annotations)) pred asset_id
       else pred)
      (if bool_decide (is_Some (image_annotations (ground_truth mir_annotations)
                                !! asset_id))
       then copy_entry (image_annotations (ground_truth mir_annotations)) gt asset_id
       else gt).
Proof. unfold sampling_asset. by repeat destruct (bool_decide _). Qed.

Lemma copy_present_lookup `{Inhabited V} (src dst : gmap string V) k k' :
  (if bool_decide (is_Some (src !! k)) then copy_entry src dst k else dst) !! k'
  = if decide (k = k' ∧ is_Some (src !! k)) then src !! k' else dst !! k'.
Proof.
  destruct (src !! k) as [v|] eqn:E.
  - rewrite bool_decide_eq_true_2 by eauto. unfold copy_entry. rewrite E. simpl.
    destruct (decide (k = k')) as [->|Hne].
    + rewrite lookup_insert_eq, decide_True by eauto. by rewrite E.
    + rewrite lookup_insert_ne by done. rewrite decide_False; [done|]. by intros [? _].
  - rewrite bool_decide_eq_false_2 by (by intros [? ?]).
    rewrite decide_False; [done|]. by intros [_ [? ?]].
Qed.

Lemma foldl_sampling_images mir_annotations ks : ∀ pred gt,
  ∃ pred' gt',
    foldl (sampling_asset mir_annotations) (images_only pred gt) ks
    = images_only pred' gt' ∧
    (∀ k, pred' !! k = if decide (k ∈ ks ∧ is_Some (image_annotations
                                       (prediction mir_annotations) !! k))
                       then image_annotations (prediction mir_annotations) !! k
                       else pred !! k) ∧
    (∀ k, gt' !! k = if decide (k ∈ ks ∧ is_Some (image_annotations
                                     (ground_truth mir_annotations) !! k))
                     then image_annotations (ground_truth mir_annotations) !! k
                     else gt !! k).
Proof.
  induction ks as [|k0 ks IH]; intros pred gt; simpl.
  - exists pred, gt. by split_and!.
  - rewrite sampling_asset_images.
    match goal with
    | |- context [foldl _ (images_only ?p ?g) ks] =>
        destruct (IH p g) as (pred' & gt' & -> & Hpred & Hgt)
    end.
    exists pred', gt'. split_and!; [done | |]; intros k.
    + rewrite Hpred, copy_present_lookup.
      destruct (decide (k ∈ ks ∧ _)) as [[Hin Hsome]|Hn].
      * rewrite decide_True; [done|]. split; [by right | done].
      * destruct (decide (k0 = k ∧ _)) as [[-> Hsome]|Hn'].
        -- rewrite decide_True; [done|]. split; [by left | done].
        -- rewrite decide_False; [done|].
           intros [[->|Hin]%elem_of_cons Hsome]; [by destruct Hn' | by destruct Hn].
    + rewrite Hgt, copy_present_lookup.
      destruct (decide (k ∈ ks ∧ _)) as [[Hin Hsome]|Hn].
      * rewrite decide_True; [done|]. split; [by right | done].
      * destruct (decide (k0 = k ∧ _)) as [[-> Hsome]|Hn'].
        -- rewrite decide_True; [done|]. split; [by left | done].
        -- rewrite decide_False; [done|].
           intros [[->|Hin]%elem_of_cons Hsome]; [by destruct Hn' | by destruct Hn].
Qed.

(** X12.  sampling_annotations on a list of asset ids returns what
    filter_annotations returns on the set of those ids, except that the
    image custom keys are empty; order and repetitions in the list do not
    matter. *)
Theorem sampling_is_filter_without_cks (mir_annotations : MirAnnotations)
    (sampled_asset_ids : list string) :
  sampling_annotations mir_annotations sampled_asset_ids
  = with_image_cks ∅
      (filter_annotations mir_annotations (list_to_set sampled_asset_ids)).
Proof.
  rewrite filter_annotations_selected. unfold sampling_annotations, selected.
  destruct (foldl_sampling_images mir_annotations sampled_asset_ids ∅ ∅)
    as (pred' & gt' & Hfold & Hpred & Hgt).
  change (foldl (sampling_asset mir_annotations) inhabitant sampled_asset_ids)
    with (foldl (sampling_asset mir_annotations) (images_only ∅ ∅) sampled_asset_ids).
  rewrite Hfold.
  assert (pred' = restrict (list_to_set sampled_asset_ids)
                    (image_annotations (prediction mir_annotations))) as ->.
  { apply map_eq. intros k. rewrite Hpred, restrict_lookup, lookup_empty.
    destruct (decide (k ∈ sampled_asset_ids ∧ _)) as [[Hin Hsome]|Hn].
    - by rewrite decide_True by (by apply elem_of_list_to_set).
    - case_decide as Hk; [|done]. apply elem_of_list_to_set in Hk.
      destruct (image_annotations (prediction mir_annotations) !! k) eqn:E; [|done].
      destruct Hn. eauto. }
  assert (gt' = restrict (list_to_set sampled_asset_ids)
                  (image_annotations (ground_truth mir_annotations))) as ->.
  { apply map_eq. intros k. rewrite Hgt, restrict_lookup, lookup_empty.
    destruct (decide (k ∈ sampled_asset_ids ∧ _)) as [[Hin Hsome]|Hn].
    - by rewrite decide_True by (by apply elem_of_list_to_set).
    - case_decide as Hk; [|done]. apply elem_of_list_to_set in Hk.
      destruct (image_annotations (ground_truth mir_annotations) !! k) eqn:E; [|done].
      destruct Hn. eauto. }
  reflexivity.
Qed.

End SelectionTheory.

(* ===================================================================== *)
(** * Mining *)
(* ===================================================================== *)

Module MiningTheory.
Import Annotations ImportTheory ImportFootprint IndexTheory SubsetTheory SelectionTheory.

(** ** Mining *)

Section MiningFacts.

Variable float_of_str : string → option float.
Variable int_field_ok : Z → bool.
Variable ParseDict_Rect : json → option Rect.t.

(** An image as [_get_detbox_infer_annotations] makes it, for an asset of
    the candidate set: boxes of known classes numbered by their position,
    and nothing else. *)
Definition inferred (asset_ids_set : gset string) (asset_id : string)
    (image : SingleImageAnnotations) : Prop :=
  asset_id ∈ asset_ids_set ∧
  index <$> boxes image = Z.of_nat <$> seq 0 (length (boxes image)) ∧
  Forall (λ b, 0 ≤ class_id b) (boxes image) ∧
  masks image = [] ∧ img_class_ids image = [].

Lemma infer_box_numbering cls_id_mgr annotation_dict s :
  let good (s : list ObjectAnnotation * Z) :=
    s.2 = Z.of_nat (length s.1) ∧ well_indexed s.1 ∧ Forall (λ b, 0 ≤ class_id b) s.1 in
  good s →
  good (infer_box float_of_str int_field_ok ParseDict_Rect cls_id_mgr annotation_dict s).1.
Proof.
  destruct s as [boxes idx]. simpl. intros (Hidx & Hwell & Hcids).
  unfold infer_box.
  destruct (json_name annotation_dict) as [name|]; [|done].
  destruct (Z.ltb_spec (id_and_main_name_for_name cls_id_mgr name).1 0) as [|Hcid];
    [done|].
  destruct (_ ≫= _) as [annotation|] eqn:Hrun; [|done]. simpl.
  apply result_bind_Ok in Hrun as (index & Hindex & Hrun).
  apply int_field_Ok' in Hindex as [-> _].
  apply result_bind_Ok in Hrun as (box_v & _ & Hrun).
  apply result_bind_Ok in Hrun as (box & _ & Hrun).
  apply result_bind_Ok in Hrun as (class_id & Hclass & Hrun).
  apply int_field_Ok' in Hclass as [-> _].
  apply result_bind_Ok in Hrun as (score & _ & [= <-]).
  split_and!.
  - rewrite length_app. simpl. lia.
  - by apply well_indexed_snoc.
  - apply Forall_app. split; [done|]. by repeat constructor.
Qed.

(** Between two states of the task annotations of an inference: nothing
    but the images differs, and a new or changed image is an inferred
    one. *)
Definition infers (asset_ids_set : gset string) (t t' : SingleTaskAnnotations) : Prop :=
  (∃ images, t' = with_image_annotations images t) ∧
  ∀ k image, image_annotations t' !! k = Some image →
             image_annotations t !! k = Some image ∨ inferred asset_ids_set k image.

Lemma infers_refl asset_ids_set t : infers asset_ids_set t t.
Proof.
  split; [|by left]. exists (image_annotations t). by destruct t.
Qed.

Lemma infers_trans asset_ids_set a b c :
  infers asset_ids_set a b → infers asset_ids_set b c → infers asset_ids_set a c.
Proof.
  intros [[x ->] Hab] [[y ->] Hbc]. split; [by exists y|].
  intros k image Hk. destruct (Hbc k image Hk) as [Hb|?]; [|by right]. by apply Hab.
Qed.

Lemma infer_asset_infers asset_ids_set cls_id_mgr item t :
  infers asset_ids_set t
    (infer_asset float_of_str int_field_ok ParseDict_Rect asset_ids_set cls_id_mgr
       item t).1.
Proof.
  destruct item as [asset_name annotations_dict]. unfold infer_asset.
  destruct (jget annotations_dict "boxes" JNull) as [[| | | | |annotations|]|];
    try apply infers_refl.
  case_bool_decide as Hin; [|apply infers_refl].
  pose proof (for_each_preserves _ annotations
                (infer_box float_of_str int_field_ok ParseDict_Rect cls_id_mgr)
                (λ x s _, infer_box_numbering cls_id_mgr x s) ([], 0)) as Hloop.
  destruct (for_each annotations _ _) as [[boxes idx] [[]|e]]; [|apply infers_refl].
  destruct Hloop as (_ & Hwell & Hcids); [by split_and!|]. simpl in Hwell, Hcids |- *.
  split; [by eexists|]. intros k image. simpl.
  destruct (decide (k = splitext_root (basename asset_name))) as [->|Hne].
  - rewrite lookup_insert_eq. intros [= <-]. right. by split_and!.
  - rewrite lookup_insert_ne by done. by left.
Qed.

Lemma detbox_infer_infers file asset_ids_set cls_id_mgr t :
  infers asset_ids_set t
    (_get_detbox_infer_annotations float_of_str int_field_ok ParseDict_Rect file
       asset_ids_set cls_id_mgr t).1.
Proof.
  unfold _get_detbox_infer_annotations.
  destruct file as [| |results]; try apply infers_refl.
  unfold mbind, M_bind, lift, raise.
  destruct (jget results "detection" JNull) as [[| | | | | |items]|];
    try apply infers_refl.
  apply for_each_invariant; [apply infers_refl | apply infers_trans|].
  intros x s _. apply infer_asset_infers.
Qed.

(** X13.  Every image entry that _get_detbox_infer_annotations adds or
    replaces is for an asset id of the candidate set; its boxes are
    numbered 0, 1, 2, ... in their order and have non-negative class ids,
    and it has no masks and no image class ids; this holds also when the
    function fails on the way. When the detection entry of the inference
    result is not a dictionary, it raises AttributeError and changes
    nothing. *)
Theorem detbox_infer_boxes (file : InferFile) (asset_ids_set : gset string)
    (cls_id_mgr : UserLabels) (task_annotations : SingleTaskAnnotations) :
  let run := _get_detbox_infer_annotations float_of_str int_field_ok ParseDict_Rect
               file asset_ids_set cls_id_mgr task_annotations in
  (∀ asset_id image,
     image_annotations run.1 !! asset_id = Some image →
     image_annotations task_annotations !! asset_id = Some image ∨
     (asset_id ∈ asset_ids_set ∧
      index <$> boxes image = Z.of_nat <$> seq 0 (length (boxes image)) ∧
      Forall (λ b, 0 ≤ class_id b) (boxes image) ∧
      masks image = [] ∧ img_class_ids image = [])) ∧
  (∀ results detections,
     file = InferJson results → jget results "detection" JNull = Ok detections →
     (∀ items, detections ≠ JDict items) →
     run = (task_annotations, Raise AttributeError)).
Proof.
  intros run. split.
  - apply (detbox_infer_infers file asset_ids_set cls_id_mgr task_annotations).
  - intros results detections -> Hget Hdict. unfold run, _get_detbox_infer_annotations.
    unfold mbind, M_bind, lift, raise. rewrite Hget.
    destruct detections; try done. by destruct (Hdict items).
Qed.

(** The annotation set between the two halves of [mining_annotations]:
    the fresh set with its predictions. *)
Definition mined_prediction (asset_ids_set : gset string) (model_type : AnnoType)
    (matched : MirAnnotations) : Prop :=
  ground_truth matched = inhabitant ∧ image_cks matched = ∅ ∧
  type (prediction matched) = model_type ∧
  ∀ k, is_Some (image_annotations (prediction matched) !! k) → k ∈ asset_ids_set.

Lemma mining_second_half (asset_ids_set : gset string) model_type matched
    mir_annotations :
  mined_prediction asset_ids_set model_type matched →
  let r :=
    with_image_cks
      (foldl (copy_entry (image_cks mir_annotations)) (image_cks matched)
         (elements (dom (image_cks mir_annotations) ∩ asset_ids_set)))
      (with_ground_truth
         (with_image_annotations
            (foldl (copy_entry (image_annotations (ground_truth mir_annotations)))
               (image_annotations (ground_truth matched))
               (elements (dom (image_annotations (ground_truth mir_annotations))
                          ∩ asset_ids_set)))
            (with_type (type (ground_truth mir_annotations)) (ground_truth matched)))
         matched) in
  prediction r = prediction matched ∧
  ground_truth r = ground_truth (filter_annotations mir_annotations asset_ids_set) ∧
  image_cks r = image_cks (filter_annotations mir_annotations asset_ids_set).
Proof.
  intros (Hgt & Hcks & _ & _). rewrite filter_annotations_selected. simpl.
  rewrite Hgt, Hcks. simpl.
  rewrite !(foldl_copy_entry_restrict _ _ asset_ids_set) by apply elements_selection'.
  done.
Qed.

(** X14.  Without add_prediction, mining_annotations never fails and
    returns what filter_annotations returns on the candidate asset ids,
    with the type of the predictions replaced by the model's type; the
    working directory is not read. *)
Theorem mining_without_prediction (work_out_dir : WorkOutDir)
    (asset_ids_set : gset string) (cls_id_mgr : UserLabels)
    (model_storage : ModelStorage.t) (mir_annotations : MirAnnotations) :
  mining_annotations float_of_str int_field_ok ParseDict_Rect work_out_dir asset_ids_set
    cls_id_mgr model_storage false mir_annotations
  = Ok (with_prediction
          (with_type (ModelStorage.model_type model_storage)
             (prediction (filter_annotations mir_annotations asset_ids_set)))
          (filter_annotations mir_annotations asset_ids_set)).
Proof.
  unfold mining_annotations. rewrite filter_annotations_selected. simpl.
  rewrite !(foldl_copy_entry_restrict _ _ asset_ids_set) by apply elements_selection'.
  reflexivity.
Qed.

Lemma mining_first_half work_out_dir (asset_ids_set : gset string) cls_id_mgr
    model_type st :
  let matched : MirAnnotations :=
    with_prediction (with_type model_type inhabitant) inhabitant in
  (if decide (model_type = AT_DET_BOX) then
     prediction ←
       final (_get_detbox_infer_annotations float_of_str int_field_ok ParseDict_Rect
                (infer_result_json work_out_dir) asset_ids_set cls_id_mgr
                (prediction matched));
     Ok {| mir_annotation := with_prediction prediction matched;
           class_type_manager := cls_id_mgr; accu_new_class_names := [] |}
   else if decide (model_type = AT_SEG_MASK) then
     final (_import_annotations_seg_mask int_field_ok
              ((λ asset_id, (asset_id, asset_id)) <$> elements asset_ids_set)
              (out_dir work_out_dir) IGNORE Prediction
              {| mir_annotation := matched; class_type_manager := cls_id_mgr;
                 accu_new_class_names := [] |})
   else
     Ok {| mir_annotation := matched; class_type_manager := cls_id_mgr;
           accu_new_class_names := [] |}) = Ok st →
  mined_prediction asset_ids_set model_type (mir_annotation st).
Proof.
  intros matched. destruct (decide (model_type = AT_DET_BOX)) as [Hdet|Hdet].
  - pose proof (detbox_infer_infers (infer_result_json work_out_dir) asset_ids_set
                  cls_id_mgr (prediction matched)) as [[images Himages] Hkeys].
    destruct (_get_detbox_infer_annotations _ _ _ _ _ _ _) as [p [[]|e]];
      [|discriminate]. simpl in Himages, Hkeys |- *. intros [= <-]. simpl.
    split_and!; try done; [by rewrite Himages|].
    intros k [image Hk]. destruct (Hkeys k image Hk) as [Hold|[Hin _]]; [|done].
    by rewrite lookup_empty in Hold.
  - destruct (decide (model_type = AT_SEG_MASK)) as [Hseg|Hseg].
    + pose proof (seg_mask_steps Prediction false false (λ k, k ∈ asset_ids_set)
                    int_field_ok
                    ((λ asset_id, (asset_id, asset_id)) <$> elements asset_ids_set)
                    (out_dir work_out_dir) IGNORE
                    {| mir_annotation := matched; class_type_manager := cls_id_mgr;
                       accu_new_class_names := [] |}) as Hsteps.
      destruct (_import_annotations_seg_mask _ _ _ _ _ _) as [st' [[]|e]];
        [|discriminate]. simpl in Hsteps |- *. intros [= <-].
      assert (import_steps Prediction false false (λ k, k ∈ asset_ids_set)
                {| mir_annotation := matched; class_type_manager := cls_id_mgr;
                   accu_new_class_names := [] |} st') as Hs.
      { apply Hsteps; [|done]. intros h. unfold dict_keys.
        rewrite <- list_fmap_compose. simpl. rewrite list_fmap_id.
        apply elem_of_elements. }
      assert (GroundTruth ≠ Prediction) as Hne by done.
      split_and!.
      * apply (steps_other_slot _ _ _ _ GroundTruth _ _ Hne Hs).
      * by rewrite (steps_image_cks _ _ _ _ _ _ eq_refl Hs).
      * apply (steps_type _ _ _ _ _ _ Hs).
      * intros k Hk. by destruct (steps_images_dom _ _ _ _ _ _ k Hs Hk) as [[? ?]|?].
    + intros [= <-]. simpl. split_and!; try done. intros k [? Hk]. done.
Qed.

(** X15.  When mining_annotations succeeds, the ground truths and the
    image custom keys of its result are those of filter_annotations on the
    candidate asset ids, the type of the predictions is the model's type,
    every predicted image is for a candidate asset id, and with
    add_prediction the executor config and the model of the predictions
    are the model storage's. *)
Theorem mining_carries_ground_truth (work_out_dir : WorkOutDir)
    (asset_ids_set : gset string) (cls_id_mgr : UserLabels)
    (model_storage : ModelStorage.t) (add_prediction : bool)
    (mir_annotations mined : MirAnnotations) :
  mining_annotations float_of_str int_field_ok ParseDict_Rect work_out_dir asset_ids_set
    cls_id_mgr model_storage add_prediction mir_annotations = Ok mined →
  ground_truth mined
  = ground_truth (filter_annotations mir_annotations asset_ids_set) ∧
  image_cks mined = image_cks (filter_annotations mir_annotations asset_ids_set) ∧
  type (prediction mined) = ModelStorage.model_type model_storage ∧
  (∀ asset_id, is_Some (image_annotations (prediction mined) !! asset_id) →
               asset_id ∈ asset_ids_set) ∧
  (add_prediction = true →
   executor_config (prediction mined) = ModelStorage.executor_config model_storage ∧
   model (prediction mined) = ModelStorage.get_model_meta model_storage).
Proof.
  unfold mining_annotations. cbv zeta.
  change (prediction inhabitant) with (inhabitant : SingleTaskAnnotations).
  destruct add_prediction.
  - destruct (if decide (ModelStorage.model_type model_storage = AT_DET_BOX)
              then _ else _) as [st|e] eqn:Hfirst; [|discriminate].
    apply mining_first_half in Hfirst as (Hgt & Hcks & Hty & Hkeys). simpl.
    set (matched := with_prediction _ (mir_annotation st)).
    assert (mined_prediction asset_ids_set (ModelStorage.model_type model_storage)
              matched) as Hm by (by split_and!).
    pose proof (mining_second_half asset_ids_set _ matched mir_annotations Hm)
      as (Hp & Hg & Hc).
    intros [= <-]. cbv zeta in Hp, Hg, Hc.
    split_and!; [exact Hg | exact Hc | | |].
    + etransitivity; [exact (f_equal type Hp) | exact Hty].
    + intros k Hk. apply Hkeys. exact Hk.
    + intros _. split.
      * etransitivity; [exact (f_equal executor_config Hp) | done].
      * etransitivity; [exact (f_equal model Hp) | done].
  - intros [= <-]. rewrite filter_annotations_selected. simpl.
    rewrite !(foldl_copy_entry_restrict _ _ asset_ids_set) by apply elements_selection'.
    split_and!; try done.
    intros k [image Hk]. rewrite restrict_lookup in Hk. by case_decide.
Qed.

End MiningFacts.

(** ** A mining run *)

(** [ParseDict] on a dictionary of integers for the four sides; other
    values are refused. *)
Definition rect_of_json (v : json) : option Rect.t :=
  match v with
  | JDict [("x", JInt x); ("y", JInt y); ("w", JInt w); ("h", JInt h)] =>
      Some (Rect.mk x y w h float_zero)
  | _ => None
  end.

(** An inference result for two images, one of them among the candidates,
    with a known and an unknown class. *)
Definition pets_infer_result : json :=
  JDict [("detection",
    JDict [("/in/a.jpg", JDict [("boxes", JList [
              JDict [("class_name", JStr "dog"); ("score", JFloat float_zero);
                     ("box", JDict [("x", JInt 1); ("y", JInt 2);
                                    ("w", JInt 3); ("h", JInt 4)])];
              JDict [("class_name", JStr "bird"); ("score", JInt 1);
                     ("box", JDict [("x", JInt 5); ("y", JInt 6);
                                    ("w", JInt 7); ("h", JInt 8)])]])]);
           ("/in/z.jpg", JDict [("boxes", JList [])])])].

Definition pets_work_out_dir : WorkOutDir :=
  {| infer_result_json := InferJson pets_infer_result;
     out_dir := {| SegmentationClass := None; labelmap_txt := None; xml_files := ∅;
                   meta_yaml := None |} |}.

Definition pets_model : ModelStorage.t :=
  ModelStorage.mk AT_DET_BOX ["cat"; "dog"] "{}" inhabitant.

Definition pets_truth : MirAnnotations :=
  {| prediction := with_image_annotations {[ "a" := boxed 0; "b" := boxed 1 ]} inhabitant;
     ground_truth := with_image_annotations {[ "a" := boxed 1; "c" := boxed 0 ]} inhabitant;
     image_cks := image_cks keyed |}.

Definition pets_mined : result MirAnnotations :=
  mining_annotations float_of_integral int32_ok rect_of_json pets_work_out_dir
    {[ "a"; "b" ]} (label_files "src/labels.yaml") pets_model true pets_truth.

Lemma mining_carries_ground_truth_witness :
  let mined := match pets_mined with Ok mined => mined | Raise _ => inhabitant end in
  ground_truth mined = ground_truth (filter_annotations pets_truth {[ "a"; "b" ]}) ∧
  image_cks mined = image_cks (filter_annotations pets_truth {[ "a"; "b" ]}) ∧
  type (prediction mined) = ModelStorage.model_type pets_model ∧
  (∀ asset_id, is_Some (image_annotations (prediction mined) !! asset_id) →
               asset_id ∈ ({[ "a"; "b" ]} : gset string)) ∧
  (true = true →
   executor_config (prediction mined) = ModelStorage.executor_config pets_model ∧
   model (prediction mined) = ModelStorage.get_model_meta pets_model).
Proof.
  apply (mining_carries_ground_truth float_of_integral int32_ok rect_of_json
           pets_work_out_dir {[ "a"; "b" ]} (label_files "src/labels.yaml") pets_model
           true pets_truth).
  vm_compute. reflexivity.
Defined.

(** The mined predictions of the run: the box of the known class for the
    candidate image, nothing for the image that is no candidate. *)
Example mining_example :
  match pets_mined with
  | Ok mined =>
      class_id <$> boxes (default inhabitant
                            (image_annotations (prediction mined) !! "a")) = [1] ∧
      dom (image_annotations (prediction mined)) = {[ "a" ]} ∧
      dom (image_annotations (ground_truth mined)) = {[ "a" ]}
  | Raise _ => False
  end.
Proof. vm_compute. repeat split. Qed.

End MiningTheory.

(* ===================================================================== *)
(** * The remap of class ids *)
(* ===================================================================== *)

Module RemapTheory.
Import Annotations ImportTheory SubsetTheory SelectionTheory SandboxTheory.

(** ** The class ids of a copy *)

(** The boxes and the class ids that a table of class ids keeps: those
    whose class id goes to an id that is not negative, with that id. *)
Definition remapped (src_to_dst_ids : gmap Z Z) (boxes : list ObjectAnnotation) :
    list ObjectAnnotation :=
  omap (λ b, d ← src_to_dst_ids !! class_id b;
             if 0 <=? d then Some (with_class_id d b) else None) boxes.

Definition remapped_ids (src_to_dst_ids : gmap Z Z) (ids : list Z) : list Z :=
  omap (λ i, d ← src_to_dst_ids !! i; if 0 <=? d then Some d else None) ids.

(** Every class id of the task annotations is a key of the table. *)
Definition covers (src_to_dst_ids : gmap Z Z) (t : SingleTaskAnnotations) : Prop :=
  (∀ k a b, image_annotations t !! k = Some a → b ∈ boxes a →
            is_Some (src_to_dst_ids !! class_id b)) ∧
  (∀ i, i ∈ eval_class_ids t → is_Some (src_to_dst_ids !! i)).

Lemma change_boxes_covered m bs :
  (∀ b, b ∈ bs → is_Some (m !! class_id b)) →
  (change_boxes m bs).2 = Ok (remapped m bs).
Proof.
  induction bs as [|b bs IH]; intros Hbs; simpl; [done|].
  destruct (Hbs b) as [d Hd]; [left|]. rewrite Hd. simpl.
  specialize (IH (λ b' Hb', Hbs b' (list_elem_of_further _ _ _ Hb'))).
  destruct (change_boxes m bs) as [rest' dst]. simpl in IH. subst dst.
  by destruct (0 <=? d).
Qed.

Lemma change_boxes_outcome m bs :
  (∃ dst, (change_boxes m bs).2 = Ok dst) ∨ (change_boxes m bs).2 = Raise KeyError.
Proof.
  induction bs as [|b bs IH]; simpl; [left; by eexists|].
  destruct (m !! class_id b) as [d|]; [|by right].
  destruct (change_boxes m bs) as [rest' dst]. simpl in IH.
  destruct IH as [[l ->]| ->]; destruct (0 <=? d); simpl; eauto.
Qed.

Lemma change_boxes_missing m bs b :
  b ∈ bs → m !! class_id b = None → (change_boxes m bs).2 = Raise KeyError.
Proof.
  induction bs as [|b0 bs IH]; intros Hb Hnone; [by apply elem_of_nil in Hb|].
  simpl. destruct (m !! class_id b0) as [d|] eqn:Hd; [|done].
  apply elem_of_cons in Hb as [->|Hb]; [congruence|].
  specialize (IH Hb Hnone).
  destruct (change_boxes m bs) as [rest' dst]. simpl in IH. subst dst.
  by destruct (0 <=? d).
Qed.

(** The image a covered image becomes. *)
Definition remapped_image (m : gmap Z Z) (a : SingleImageAnnotations) :
    SingleImageAnnotations :=
  with_boxes (remapped m (boxes a)) a.

Lemma change_images_covered m l : ∀ t,
  (∀ k a b, (k, a) ∈ l → b ∈ boxes a → is_Some (m !! class_id b)) →
  for_each l (change_image m) t
  = (with_image_annotations
       (foldl (λ acc item, <[item.1 := remapped_image m item.2]> acc)
          (image_annotations t) l) t, Ok tt).
Proof.
  induction l as [|[k a] l IH]; intros t Hl; simpl.
  - by destruct t.
  - unfold mbind, M_bind. unfold change_image at 1.
    pose proof (change_boxes_covered m (boxes a) (λ b Hb, Hl k a b (list_elem_of_here _ _) Hb))
      as Hboxes.
    destruct (change_boxes m (boxes a)) as [mutated dst]. simpl in Hboxes. subst dst.
    rewrite IH by (intros k' a' b Hin Hb'; eapply Hl; [right; exact Hin | exact Hb']).
    done.
Qed.

Lemma change_images_outcome m l : ∀ t,
  (for_each l (change_image m) t).2 = Ok tt
  ∨ (for_each l (change_image m) t).2 = Raise KeyError.
Proof.
  induction l as [|[k a] l IH]; intros t; simpl; [by left|].
  unfold mbind, M_bind. unfold change_image at 1 3.
  destruct (change_boxes_outcome m (boxes a)) as [[dst Hdst]|Hraise];
    destruct (change_boxes m (boxes a)) as [mutated r]; simpl in *; subst r.
  - apply IH.
  - by right.
Qed.

Lemma change_images_missing m l k a b : ∀ t,
  (k, a) ∈ l → b ∈ boxes a → m !! class_id b = None →
  (for_each l (change_image m) t).2 = Raise KeyError.
Proof.
  induction l as [|[k0 a0] l IH]; intros t Hin Hb Hnone; [by apply elem_of_nil in Hin|].
  simpl. unfold mbind, M_bind. unfold change_image at 1.
  apply elem_of_cons in Hin as [[= <- <-]|Hin].
  - pose proof (change_boxes_missing m (boxes a) b Hb Hnone) as Hraise.
    destruct (change_boxes m (boxes a)) as [mutated r]. simpl in Hraise. by subst r.
  - destruct (change_boxes_outcome m (boxes a0)) as [[dst Hdst]|Hraise];
      destruct (change_boxes m (boxes a0)) as [mutated r]; simpl in *; subst r.
    + by apply IH.
    + done.
Qed.

Lemma change_eval_class_ids_covered m ids :
  (∀ i, i ∈ ids → is_Some (m !! i)) →
  change_eval_class_ids m ids = Ok (remapped_ids m ids).
Proof.
  induction ids as [|i ids IH]; intros Hids; simpl; [done|].
  destruct (Hids i) as [d Hd]; [left|]. rewrite Hd. simpl.
  rewrite IH by (intros; apply Hids; by right). simpl. by destruct (0 <=? d).
Qed.

Lemma change_eval_class_ids_missing m ids i :
  i ∈ ids → m !! i = None → change_eval_class_ids m ids = Raise KeyError.
Proof.
  induction ids as [|i0 ids IH]; intros Hi Hnone; [by apply elem_of_nil in Hi|].
  simpl. destruct (m !! i0) as [d|] eqn:Hd; [|done].
  apply elem_of_cons in Hi as [->|Hi]; [congruence|]. by rewrite IH.
Qed.

(** The entries of a map, entered again after a change. *)
Lemma foldl_insert_fmap {V} (f : V → V) (l : list (string * V)) : ∀ acc : gmap string V,
  NoDup l.*1 →
  foldl (λ acc item, <[item.1 := f item.2]> acc) acc l = (f <$> list_to_map l) ∪ acc.
Proof.
  induction l as [|[k a] l IH]; intros acc Hnodup.
  - simpl. by rewrite fmap_empty, (left_id_L ∅ (∪)).
  - rewrite fmap_cons in Hnodup. apply NoDup_cons in Hnodup as [Hk Hnodup].
    rewrite list_to_map_cons, fmap_insert, <- insert_union_l.
    cbn [foldl fst snd]. rewrite IH by done.
    symmetry. apply insert_union_r. rewrite lookup_fmap.
    by rewrite (not_elem_of_list_to_map_1 _ _ Hk).
Qed.

Lemma change_images_eval_class_ids m l t :
  eval_class_ids (for_each l (change_image m) t).1 = eval_class_ids t.
Proof.
  apply (for_each_invariant (λ s s', eval_class_ids s' = eval_class_ids s));
    [done | congruence |].
  intros [k a] s _. unfold change_image.
  destruct (change_boxes m (boxes a)) as [mutated [dst|e]]; done.
Qed.

Lemma change_type_ids_covered (src_to_dst_ids : gmap Z Z)
    (single_task_annotations : SingleTaskAnnotations) :
  covers src_to_dst_ids single_task_annotations →
  _change_annotations_type_ids src_to_dst_ids single_task_annotations
  = (with_eval_class_ids
       (remapped_ids src_to_dst_ids (eval_class_ids single_task_annotations))
       (with_image_annotations
          ((λ image, with_boxes (remapped src_to_dst_ids (boxes image)) image)
             <$> image_annotations single_task_annotations)
          single_task_annotations), Ok tt).
Proof.
  intros [Himages Hids]. unfold _change_annotations_type_ids, mbind, M_bind, get.
  rewrite change_images_covered.
  - rewrite (foldl_insert_fmap (remapped_image src_to_dst_ids))
      by apply NoDup_fst_map_to_list.
    rewrite list_to_map_to_list.
    assert ((remapped_image src_to_dst_ids <$> image_annotations single_task_annotations)
            ∪ image_annotations single_task_annotations
            = remapped_image src_to_dst_ids <$> image_annotations single_task_annotations)
      as ->.
    { apply map_eq. intros k. rewrite lookup_union, lookup_fmap.
      by destruct (image_annotations single_task_annotations !! k). }
    unfold lift, modify. simpl.
    by rewrite change_eval_class_ids_covered.
  - intros k a b Hin%elem_of_map_to_list Hb. by eapply Himages.
Qed.

(** X16.  When every class id of the boxes and of eval_class_ids is a key
    of the table, _change_annotations_type_ids succeeds: in every image
    the boxes whose class id goes to a non-negative id are kept, in order,
    with the new id, the others are dropped, and the image stays even when
    it loses all boxes; eval_class_ids is remapped in the same way;
    nothing else changes. *)
Theorem change_type_ids_remaps (src_to_dst_ids : gmap Z Z)
    (single_task_annotations : SingleTaskAnnotations) :
  covers src_to_dst_ids single_task_annotations →
  _change_annotations_type_ids src_to_dst_ids single_task_annotations
  = (with_eval_class_ids
       (remapped_ids src_to_dst_ids (eval_class_ids single_task_annotations))
       (with_image_annotations
          ((λ image, with_boxes (remapped src_to_dst_ids (boxes image)) image)
             <$> image_annotations single_task_annotations)
          single_task_annotations), Ok tt).
Proof. apply change_type_ids_covered. Qed.

(** X17.  When the class id of some box, or some id of eval_class_ids, is
    not a key of the table, _change_annotations_type_ids raises KeyError. *)
Theorem change_type_ids_missing (src_to_dst_ids : gmap Z Z)
    (single_task_annotations : SingleTaskAnnotations) :
  (∃ asset_id image annotation,
     image_annotations single_task_annotations !! asset_id = Some image ∧
     annotation ∈ boxes image ∧ src_to_dst_ids !! class_id annotation = None)
  ∨ (∃ src_class_id, src_class_id ∈ eval_class_ids single_task_annotations ∧
                     src_to_dst_ids !! src_class_id = None) →
  (_change_annotations_type_ids src_to_dst_ids single_task_annotations).2
  = Raise KeyError.
Proof.
  unfold _change_annotations_type_ids, mbind, M_bind, get.
  pose proof (change_images_eval_class_ids src_to_dst_ids
                (map_to_list (image_annotations single_task_annotations))
                single_task_annotations) as Heval.
  intros [(k & a & b & Hk & Hb & Hnone) | (i & Hi & Hnone)].
  - pose proof (change_images_missing src_to_dst_ids
                  (map_to_list (image_annotations single_task_annotations)) k a b
                  single_task_annotations (proj2 (elem_of_map_to_list _ _ _) Hk) Hb Hnone)
      as Hraise.
    destruct (for_each _ _ _) as [t' r]. simpl in Hraise. by subst r.
  - destruct (change_images_outcome src_to_dst_ids
                (map_to_list (image_annotations single_task_annotations))
                single_task_annotations) as [Hok|Hraise];
      destruct (for_each _ _ _) as [t' r]; simpl in *; subst r; [|done].
    unfold lift. rewrite (change_eval_class_ids_missing _ _ i); [done | | done].
    by rewrite Heval.
Qed.

(** ** Two label files with the same content *)

(** A table that sends each id of a list to itself. *)
Lemma same_ids_lookup (ids : list Z) (c : Z) :
  (list_to_map (reverse ((λ i, (i, i)) <$> ids)) : gmap Z Z) !! c
  = if decide (c ∈ ids) then Some c else None.
Proof.
  destruct (list_to_map _ !! c) as [d|] eqn:E.
  - apply elem_of_list_to_map_2, elem_of_reverse, list_elem_of_fmap in E
      as (i & [= -> ->] & Hi).
    by rewrite decide_True.
  - apply not_elem_of_list_to_map_2 in E. rewrite decide_False; [done|].
    intros Hc. apply E. rewrite fmap_reverse, elem_of_reverse, <- list_fmap_compose.
    apply list_elem_of_fmap. by exists c.
Qed.

Lemma remapped_same m bs :
  (∀ b, b ∈ bs → m !! class_id b = Some (class_id b) ∧ 0 ≤ class_id b) →
  remapped m bs = bs.
Proof.
  induction bs as [|b bs IH]; intros Hbs; [done|].
  change (remapped m (b :: bs))
    with (match m !! class_id b
                ≫= (λ d, if 0 <=? d then Some (with_class_id d b) else None) with
          | Some b' => b' :: remapped m bs
          | None => remapped m bs
          end).
  destruct (Hbs b) as [-> Hb]; [left|]. simpl.
  rewrite (proj2 (Z.leb_le 0 (class_id b))) by done.
  rewrite IH by (intros; apply Hbs; by right). by destruct b.
Qed.

Lemma remapped_ids_same m ids :
  (∀ i, i ∈ ids → m !! i = Some i ∧ 0 ≤ i) → remapped_ids m ids = ids.
Proof.
  induction ids as [|i ids IH]; intros Hids; [done|].
  change (remapped_ids m (i :: ids))
    with (match m !! i ≫= (λ d, if 0 <=? d then Some d else None) with
          | Some d => d :: remapped_ids m ids
          | None => remapped_ids m ids
          end).
  destruct (Hids i) as [-> Hi]; [left|]. simpl.
  rewrite (proj2 (Z.leb_le 0 i)) by done.
  by rewrite IH by (intros; apply Hids; by right).
Qed.

(** A table that sends every class id of the task annotations to itself
    changes nothing. *)
Lemma change_type_ids_same m t :
  (∀ k a b, image_annotations t !! k = Some a → b ∈ boxes a →
            m !! class_id b = Some (class_id b) ∧ 0 ≤ class_id b) →
  (∀ i, i ∈ eval_class_ids t → m !! i = Some i ∧ 0 ≤ i) →
  _change_annotations_type_ids m t = (t, Ok tt).
Proof.
  intros Himages Hids. rewrite change_type_ids_covered.
  - rewrite remapped_ids_same by done.
    assert ((λ image, with_boxes (remapped m (boxes image)) image)
              <$> image_annotations t = image_annotations t) as ->; [|by destruct t].
    apply map_eq. intros k. rewrite lookup_fmap.
    destruct (image_annotations t !! k) as [a|] eqn:E; [|done]. simpl.
    rewrite remapped_same by (intros b Hb; by eapply Himages). by destruct a.
  - split.
    + intros k a b Hk Hb. destruct (Himages k a b Hk Hb) as [-> _]. eauto.
    + intros i Hi. destruct (Hids i Hi) as [-> _]. eauto.
Qed.

(** The first error of a list of lookups. *)
Lemma mapM_lookup_missing (m : gmap Z Z) (l : list Z) (i : Z) :
  i ∈ l → m !! i = None →
  mapM (M := result)
    (λ src_id, match m !! src_id with
               | Some dst => Ok (src_id, dst)
               | None => Raise KeyError
               end) l = Raise KeyError.
Proof.
  induction l as [|i0 l IH]; intros Hi Hnone; [by apply elem_of_nil in Hi|].
  simpl. destruct (m !! i0) as [d|] eqn:Hd; simpl; [|done].
  apply elem_of_cons in Hi as [->|Hi]; [congruence|]. by rewrite IH.
Qed.

Lemma mapM_lookup_known (m : gmap Z Z) (l : list Z) :
  (∀ i, i ∈ l → ∃ d, m !! i = Some d ∧ d ≠ -1) →
  ∃ pairs,
    mapM (M := result)
      (λ src_id, match m !! src_id with
                 | Some dst => Ok (src_id, dst)
                 | None => Raise KeyError
                 end) l = Ok pairs ∧
    filter (λ p, p.2 = -1) pairs = [].
Proof.
  induction l as [|i l IH]; intros Hl; simpl; [by exists []|].
  destruct (Hl i) as (d & -> & Hd); [left|]. simpl.
  destruct IH as (pairs & -> & Hpairs); [intros; apply Hl; by right|]. simpl.
  exists ((i, d) :: pairs). split; [done|]. by rewrite filter_cons_False.
Qed.

(** X18.  _gen_unknown_names_and_count returns the empty dictionary when
    every class id of the prediction and ground-truth statistics is mapped
    to an id other than -1, and raises KeyError when one of them is not a
    key of the table; in both cases the context is unchanged. *)
Theorem gen_unknown_names_edges (src_class_id_mgr : UserLabels)
    (src_to_dst_ids : gmap Z Z) (mir_context : MirContext) :
  let all_src_class_ids : gset Z :=
    dom (class_ids_cnt (pred_stats mir_context))
    ∪ dom (class_ids_cnt (gt_stats mir_context)) in
  let run := _gen_unknown_names_and_count src_class_id_mgr src_to_dst_ids mir_context in
  ((∀ src_id, src_id ∈ all_src_class_ids →
      ∃ dst_id, src_to_dst_ids !! src_id = Some dst_id ∧ dst_id ≠ -1) →
   run = (mir_context, Ok [])) ∧
  ((∃ src_id, src_id ∈ all_src_class_ids ∧ src_to_dst_ids !! src_id = None) →
   run = (mir_context, Raise KeyError)).
Proof.
  intros all_src_class_ids run. unfold run, _gen_unknown_names_and_count.
  fold all_src_class_ids. split.
  - intros Hknown.
    destruct (mapM_lookup_known src_to_dst_ids (elements all_src_class_ids))
      as (pairs & -> & Hpairs).
    { intros i Hi%elem_of_elements. by apply Hknown. }
    by rewrite Hpairs.
  - intros (i & Hi & Hnone).
    by rewrite (mapM_lookup_missing _ _ i (proj2 (elem_of_elements _ _) Hi) Hnone).
Qed.

(** The registry finds every main name it holds. *)
Lemma find_name_main_name labels id name :
  name ∈ main_name <$> labels → is_Some (find_name labels id name).
Proof.
  revert id. induction labels as [|l labels IH]; intros id Hin;
    [by apply elem_of_nil in Hin|].
  simpl. rewrite fmap_cons in Hin. apply elem_of_cons in Hin as [->|Hin].
  - rewrite bool_decide_eq_true_2 by done. simpl. eauto.
  - destruct (_ || _); [eauto | by apply IH].
Qed.

Lemma main_name_id reg name :
  name ∈ all_main_names reg → 0 ≤ (id_and_main_name_for_name reg name).1.
Proof.
  intros Hin. unfold id_and_main_name_for_name.
  destruct (find_name_main_name reg 0 name Hin) as [found E]. rewrite E. simpl.
  by apply find_name_id in E.
Qed.

Section SameLabels.

Variable load_or_create_userlabels : string → UserLabels.

(** X19.  When the two label files, at the same or at different paths,
    hold the same registry and every class id in the boxes, in
    eval_class_ids and in the statistics is the id of a main name of that
    registry, copy_annotations changes nothing and reports no unknown
    name. *)
Theorem copy_annotations_same_labels (data_label_storage_file label_storage_file : string)
    (mir_annotations : MirAnnotations) (mir_context : MirContext) :
  load_or_create_userlabels data_label_storage_file
  = load_or_create_userlabels label_storage_file →
  let reg := load_or_create_userlabels data_label_storage_file in
  let known (class_id : Z) :=
    ∃ name, name ∈ all_main_names reg ∧
            (id_and_main_name_for_name reg name).1 = class_id in
  (∀ slot asset_id image annotation,
     image_annotations (get_task slot mir_annotations) !! asset_id = Some image →
     annotation ∈ boxes image → known (class_id annotation)) →
  (∀ slot class_id, class_id ∈ eval_class_ids (get_task slot mir_annotations) →
                    known class_id) →
  (∀ class_id,
     class_id ∈ dom (class_ids_cnt (pred_stats mir_context))
                ∪ dom (class_ids_cnt (gt_stats mir_context)) → known class_id) →
  copy_annotations load_or_create_userlabels data_label_storage_file label_storage_file
    (mir_annotations, mir_context)
  = ((mir_annotations, mir_context), Ok []).
Proof.
  intros Hsame reg known Hboxes Hevals Hstats. unfold copy_annotations.
  destruct (_ || _); [done|]. rewrite <- Hsame. fold reg.
  set (ids := (λ n, (id_and_main_name_for_name reg n).1) <$> all_main_names reg).
  assert (Htable : ∀ c, known c →
            (list_to_map (reverse ((λ n, ((id_and_main_name_for_name reg n).1,
                                          (id_and_main_name_for_name reg n).1))
                                     <$> all_main_names reg)) : gmap Z Z) !! c = Some c
            ∧ 0 ≤ c).
  { intros c (n & Hn & <-). split; [|by apply main_name_id].
    rewrite (list_fmap_compose (λ n, (id_and_main_name_for_name reg n).1)
               (λ i, (i, i))).
    rewrite same_ids_lookup, decide_True; [done|].
    apply list_elem_of_fmap. by exists n. }
  set (table := list_to_map _) in *.
  rewrite change_type_ids_same;
    [|intros k a b Hk Hb; apply Htable; by apply (Hboxes Prediction k a b)
     |intros i Hi; apply Htable; by apply (Hevals Prediction)].
  assert (with_prediction (prediction mir_annotations) mir_annotations = mir_annotations)
    as -> by (by destruct mir_annotations).
  rewrite change_type_ids_same;
    [|intros k a b Hk Hb; apply Htable; by apply (Hboxes GroundTruth k a b)
     |intros i Hi; apply Htable; by apply (Hevals GroundTruth)].
  assert (with_ground_truth (ground_truth mir_annotations) mir_annotations
          = mir_annotations) as -> by (by destruct mir_annotations).
  unfold _gen_unknown_names_and_count.
  destruct (mapM_lookup_known table
              (elements (dom (class_ids_cnt (pred_stats mir_context))
                         ∪ dom (class_ids_cnt (gt_stats mir_context)))))
    as (pairs & -> & Hpairs).
  { intros i Hi%elem_of_elements. destruct (Htable i (Hstats i Hi)) as [Hi' Hpos].
    exists i. split; [done | lia]. }
  by rewrite Hpairs.
Qed.

End SameLabels.

(** ** A copy between label files *)

(** [covers], as a property to decide. *)
Lemma covers_by_compute (src_to_dst_ids : gmap Z Z) (t : SingleTaskAnnotations) :
  bool_decide
    (map_Forall (λ _ a, Forall (λ b, is_Some (src_to_dst_ids !! class_id b)) (boxes a))
       (image_annotations t)
     ∧ Forall (λ i, is_Some (src_to_dst_ids !! i)) (eval_class_ids t)) = true →
  covers src_to_dst_ids t.
Proof.
  intros [Himages Hevals]%bool_decide_eq_true. split.
  - intros k a b Hk Hb. specialize (Himages k a Hk). simpl in Himages.
    rewrite Forall_forall in Himages. by apply Himages.
  - rewrite Forall_forall in Hevals. exact Hevals.
Qed.

(** Predictions for two images, of the classes 0 and 1, both to be
    evaluated. *)
Definition pets_prediction : SingleTaskAnnotations :=
  with_eval_class_ids [0; 1] (prediction pets).

Lemma change_type_ids_remaps_witness :
  _change_annotations_type_ids {[ 0 := 5; 1 := -1 ]} pets_prediction
  = (with_eval_class_ids
       (remapped_ids {[ 0 := 5; 1 := -1 ]} (eval_class_ids pets_prediction))
       (with_image_annotations
          ((λ image, with_boxes (remapped {[ 0 := 5; 1 := -1 ]} (boxes image)) image)
             <$> image_annotations pets_prediction)
          pets_prediction), Ok tt).
Proof.
  apply (change_type_ids_remaps {[ 0 := 5; 1 := -1 ]} pets_prediction).
  apply covers_by_compute. vm_compute. reflexivity.
Defined.

(** The class that goes to -1 loses its box and its place among the
    classes to evaluate; the image stays, without boxes. *)
Example change_type_ids_example :
  let changed := (_change_annotations_type_ids {[ 0 := 5; 1 := -1 ]} pets_prediction).1 in
  eval_class_ids changed = [5] ∧
  (class_id <$> boxes (default inhabitant (image_annotations changed !! "a"))) = [5] ∧
  boxes <$> image_annotations changed !! "b" = Some [].
Proof. repeat split; vm_compute; reflexivity. Qed.

Lemma change_type_ids_missing_witness :
  (_change_annotations_type_ids {[ 0 := 5 ]} pets_prediction).2 = Raise KeyError.
Proof.
  apply (change_type_ids_missing {[ 0 := 5 ]} pets_prediction).
  left. exists "b", (boxed 1), (with_class_id 1 inhabitant).
  split_and!; [vm_compute; reflexivity | by left | vm_compute; reflexivity].
Defined.

(** Label files at two paths with one vocabulary, and annotations of its
    class. *)
Definition dogs : MirAnnotations :=
  {| prediction := with_eval_class_ids [0]
                     (with_image_annotations {[ "a" := boxed 0 ]} inhabitant);
     ground_truth := inhabitant; image_cks := ∅ |}.

Definition dogs_context : MirContext :=
  {| pred_stats := {| class_ids_cnt := {[ 0 := 1 ]} |};
     gt_stats := {| class_ids_cnt := ∅ |} |}.

Lemma copy_annotations_same_labels_witness :
  copy_annotations label_files "in/labels.yaml" "out/labels.yaml" (dogs, dogs_context)
  = ((dogs, dogs_context), Ok []).
Proof.
  assert (∀ class_id : Z, class_id = 0 →
            ∃ name, name ∈ all_main_names (label_files "in/labels.yaml") ∧
                    (id_and_main_name_for_name (label_files "in/labels.yaml") name).1
                    = class_id) as Hknown.
  { intros class_id ->. exists "dog". split; [by left | reflexivity]. }
  apply (copy_annotations_same_labels label_files "in/labels.yaml" "out/labels.yaml"
           dogs dogs_context).
  - reflexivity.
  - intros slot asset_id image annotation Himage Hin. apply Hknown.
    destruct slot; [|exfalso; exact (lookup_empty_Some (M := gmap string) _ _ Himage)].
    change (({[ "a" := boxed 0 ]} : gmap string _) !! asset_id = Some image) in Himage.
    apply lookup_singleton_Some in Himage as [_ <-].
    by apply list_elem_of_singleton in Hin as ->.
  - intros slot class_id Hin. apply Hknown.
    destruct slot; [|by apply elem_of_nil in Hin].
    by apply list_elem_of_singleton in Hin.
  - intros class_id Hin. apply Hknown.
    apply elem_of_union in Hin as [Hin|Hin]; apply elem_of_dom in Hin as [n Hn].
    + change (({[ 0 := 1 ]} : gmap Z Z) !! class_id = Some n) in Hn.
      by apply lookup_singleton_Some in Hn as [<- _].
    + exfalso. exact (lookup_empty_Some (M := gmap Z) _ _ Hn).
Defined.

End RemapTheory.

(* ===================================================================== *)
(** * The merge, stage by stage *)
(* ===================================================================== *)

Module MergeStages.
Import Annotations MergeTheory ImportFootprint SubsetTheory.

(** ** The stages of a merge *)

Section MessageMapWrites.

Context {L V : Type} `{EqDecision L} `{Inhabited V}.
Variable getm : store → L → gmap string V.
Variable setm : store → L → gmap string V → store.
Hypothesis get_set_eq : ∀ h p m, getm (setm h p m) p = m.
Hypothesis get_set_ne : ∀ h p q m, p ≠ q → getm (setm h p m) q = getm h q.

(** A copy from the target itself, or of an entry the source holds,
    writes to the target only. *)
Lemma copy_from_writes_target {A} (obs : store → A) t s k h :
  (∀ h m, obs (setm h t m) = obs h) →
  s = t ∨ is_Some (getm h s !! k) →
  obs (copy_from getm setm t s k h) = obs h.
Proof.
  intros Ht Hs. unfold copy_from. rewrite Ht.
  assert (obs (touch getm setm t k h) = obs h) as Htouch.
  { unfold touch. destruct (getm h t !! k); [done | apply Ht]. }
  assert (touch getm setm s k (touch getm setm t k h) = touch getm setm t k h) as ->;
    [|done].
  unfold touch at 1.
  destruct (decide (s = t)) as [->|Hne].
  - rewrite (getm_touch_self getm setm get_set_eq), (touched_lookup k). done.
  - destruct Hs as [?|[v Hv]]; [done|].
    rewrite (getm_touch_other getm setm get_set_ne) by done. by rewrite Hv.
Qed.

Lemma foldl_keeps {A K} (obs : store → A) (step : store → K → store) ks h :
  (∀ h' k, k ∈ ks → obs h' = obs h → obs (step h' k) = obs h) →
  obs (foldl step h ks) = obs h.
Proof.
  intros Hstep.
  assert (∀ h', obs h' = obs h → obs (foldl step h' ks) = obs h) as Hgen; [|by apply Hgen].
  induction ks as [|k ks IH]; intros h' Hh'; [done|]. simpl.
  apply IH.
  - intros h'' k' Hk'. apply Hstep. by right.
  - apply Hstep; [left | done].
Qed.

(** The loops of a merge into the host write to the host only. *)
Lemma merge_loops_writes_host {A} (obs : store → A) host guest strategy h :
  (∀ h m, obs (setm h host m) = obs h) →
  obs (merge_loops getm setm host guest host strategy h) = obs h.
Proof.
  intros Hobs. unfold merge_loops, match_asset_ids.
  destruct (decide (guest = host)) as [->|Hne].
  - rewrite !foldl_keeps; [done|..]; intros h' k _ <-.
    + apply copy_from_writes_target; auto.
    + apply copy_from_writes_target; auto.
    + repeat case_bool_decide; try done.
      * destruct (contains _ _ _ _); [done|]. apply copy_from_writes_target; auto.
      * apply copy_from_writes_target; auto.
  - set (G0 := getm h guest).
    assert (Hobs' : ∀ h m, (obs (setm h host m), getm (setm h host m) guest)
                           = (obs h, getm h guest)).
    { intros h' m. rewrite Hobs, get_set_ne by done. done. }
    enough ((λ h, (obs h, getm h guest))
              (merge_loops getm setm host guest host strategy h) = (obs h, G0)) as Hpair
      by (by injection Hpair).
    unfold merge_loops, match_asset_ids. fold G0.
    set (obs' := λ h, (obs h, getm h guest)).
    set (h1 := foldl _ h (elements (dom (getm h host) ∖ _))).
    assert (E1 : obs' h1 = obs' h).
    { apply (foldl_keeps obs'). intros h' k _ Hh'. rewrite <- Hh'.
      apply (copy_from_writes_target obs'); [done | by left]. }
    set (h2 := foldl _ h1 (elements (dom G0 ∖ _))).
    assert (E2 : obs' h2 = obs' h).
    { rewrite <- E1. apply (foldl_keeps obs').
      intros h' k [Hk _]%elem_of_elements%elem_of_difference Hh'. rewrite <- Hh'.
      apply (copy_from_writes_target obs'); [done|].
      right. rewrite E1 in Hh'. injection Hh' as _ ->. by apply elem_of_dom. }
    change (obs' (foldl (λ h asset_id,
                    if bool_decide (lower strategy = "host")
                    then if contains getm host asset_id h then h
                         else copy_from getm setm host host asset_id h
                    else if bool_decide (lower strategy = "guest")
                         then copy_from getm setm host guest asset_id h
                         else h) h2 (elements (dom (getm h host) ∩ dom G0)))
            = obs' h).
    rewrite <- E2. apply (foldl_keeps obs').
    intros h' k [_ Hk]%elem_of_elements%elem_of_intersection Hh'. rewrite <- Hh'.
    repeat case_bool_decide; try done.
    + destruct (contains _ _ _ _); [done|].
      apply (copy_from_writes_target obs'); [done | by left].
    + apply (copy_from_writes_target obs'); [done|].
      right. rewrite E2 in Hh'. injection Hh' as _ ->. by apply elem_of_dom.
Qed.

(** A copy keeps the entries the target holds. *)
Lemma foldl_copy_keeps_present t s ks k0 : ∀ h,
  is_Some (getm h t !! k0) →
  is_Some (getm (foldl (λ h k, copy_from getm setm t s k h) h ks) t !! k0).
Proof.
  induction ks as [|k ks IH]; intros h Hk0; [done|]. simpl. apply IH.
  rewrite (getm_copy_target getm setm get_set_eq get_set_ne).
  destruct (decide (k = k0)) as [->|Hne].
  - rewrite lookup_insert_eq. eauto.
  - by rewrite lookup_insert_ne.
Qed.

(** A strategy other than guest merges as the strategy host does. *)
Lemma merge_loops_as_host host guest strategy h :
  lower strategy ≠ "guest" →
  merge_loops getm setm host guest host strategy h
  = merge_loops getm setm host guest host "host" h.
Proof.
  intros Hguest. unfold merge_loops, match_asset_ids.
  change (bool_decide (lower "host" = "host")) with true. cbv iota.
  set (h2 := foldl _ (foldl _ h _) _).
  assert (∀ k, k ∈ elements (dom (getm h host) ∩ dom (getm h guest)) →
               is_Some (getm h2 host !! k)) as Hpresent.
  { intros k [Hk _]%elem_of_elements%elem_of_intersection. unfold h2.
    do 2 apply foldl_copy_keeps_present. by apply elem_of_dom. }
  rewrite (foldl_keep_present getm setm host host _ h2 Hpresent).
  rewrite (bool_decide_eq_false_2 (lower strategy = "guest")) by done.
  destruct (bool_decide (lower strategy = "host")).
  - by apply foldl_keep_present.
  - by apply foldl_id.
Qed.

End MessageMapWrites.

(** The states a merge goes through: the type of the host's pair set, the
    pair merged, the evaluation class ids extended. *)
Definition typed (h : store) (host guest : task_ref) : store :=
  set_type h host (type_or (type (deref h host)) (type (deref h guest))).

Definition pair_merged (strategy : string) (h : store) (host guest : task_ref) : store :=
  merge_loops task_images set_task_images host guest host strategy (typed h host guest).

Definition cks_merged (strategy : string) (h : store) (host guest : ref) : store :=
  merge_loops cks_of set_cks host guest host strategy h.

Definition stops {V} (strategy : string) (H0 G0 : gmap string V) : bool :=
  bool_decide (strategy = "stop") && negb (bool_decide (joint_ids H0 G0 = ∅)).

Lemma deref_typed h p g q :
  deref (typed h p g) q
  = if decide (p = q)
    then with_type (type_or (type (deref h p)) (type (deref h g))) (deref h p)
    else deref h q.
Proof.
  unfold typed, set_type. case_decide as Hq.
  - subst. by rewrite deref_assign_eq.
  - by rewrite deref_assign_ne.
Qed.

Lemma deref_extend h p g q :
  deref (extend_eval_class_ids p g h) q
  = if decide (p = q)
    then with_eval_class_ids
           (eval_class_ids (deref h p) ++ eval_class_ids (deref h g)) (deref h p)
    else deref h q.
Proof.
  unfold extend_eval_class_ids. case_decide as Hq.
  - subst. by rewrite deref_assign_eq.
  - by rewrite deref_assign_ne.
Qed.

(** What the loops over the images leave alone in every task. *)
Lemma deref_loops {A} (obs : SingleTaskAnnotations → A) p g strategy h q :
  (∀ m t, obs (with_image_annotations m t) = obs t) →
  obs (deref (merge_loops task_images set_task_images p g p strategy h) q)
  = obs (deref h q).
Proof.
  intros Hobs.
  apply (merge_loops_frame task_images set_task_images (λ h, obs (deref h q)));
    intros h' m; unfold set_task_images.
  - destruct (decide (p = q)) as [->|Hne];
      [by rewrite deref_assign_eq | by rewrite deref_assign_ne].
  - destruct (decide (p = q)) as [->|Hne];
      [by rewrite deref_assign_eq | by rewrite deref_assign_ne].
  - destruct (decide (g = q)) as [->|Hne];
      [by rewrite deref_assign_eq | by rewrite deref_assign_ne].
Qed.

Lemma deref_cks_merged strategy h host guest q :
  deref (cks_merged strategy h host guest) q = deref h q.
Proof.
  apply (merge_loops_frame cks_of set_cks (λ h, deref h q)); intros;
    apply deref_set_cks.
Qed.

Lemma cks_of_typed h p g r : cks_of (typed h p g) r = cks_of h r.
Proof. apply cks_of_assign. Qed.

Lemma cks_of_pair_merged strategy h p g r :
  cks_of (pair_merged strategy h p g) r = cks_of h r.
Proof.
  unfold pair_merged.
  rewrite (merge_loops_frame task_images set_task_images (λ h, cks_of h r));
    [apply cks_of_typed|..]; intros; apply cks_of_assign.
Qed.

Lemma task_images_pair_merged strategy h p g :
  task_images (pair_merged strategy h p g) p
  = merged_map (task_images h p) (task_images h g) strategy.
Proof.
  unfold pair_merged.
  rewrite (merge_loops_host_map task_images set_task_images
             task_images_set_eq task_images_set_ne).
  unfold typed. by rewrite !task_images_set_type.
Qed.

Lemma cks_of_cks_merged strategy h host guest :
  cks_of (cks_merged strategy h host guest) host
  = merged_map (cks_of h host) (cks_of h guest) strategy.
Proof.
  unfold cks_merged.
  by rewrite (merge_loops_host_map cks_of set_cks cks_of_set_eq cks_of_set_ne).
Qed.

(** [merge_annotations], stage by stage. *)
Lemma merge_annotations_stages host guest strategy h :
  let hp := (host, Prediction) in
  let gp := (guest, Prediction) in
  let hg := (host, GroundTruth) in
  let gg := (guest, GroundTruth) in
  let h1 := typed h hp gp in
  let h2 := pair_merged strategy h hp gp in
  let h3 := extend_eval_class_ids hp gp h2 in
  let h4 := typed h3 hg gg in
  let h5 := pair_merged strategy h3 hg gg in
  let h6 := cks_merged strategy h5 host guest in
  merge_annotations host guest strategy h
  = if types_conflict (type (deref h hp)) (type (deref h gp))
    then (h, Raise type_mismatch)
    else if stops strategy (task_images h hp) (task_images h gp)
    then (h1, Raise conflict_annotations)
    else if types_conflict (type (deref h hg)) (type (deref h gg))
    then (h3, Raise type_mismatch)
    else if stops strategy (task_images h hg) (task_images h gg)
    then (h4, Raise conflict_annotations)
    else if stops strategy (cks_of h host) (cks_of h guest)
    then (h5, Raise conflict_image_cks)
    else (h6, Ok tt).
Proof.
  intros hp gp hg gg h1 h2 h3 h4 h5 h6.
  unfold merge_annotations, mbind, M_bind, modify.
  rewrite _merge_pair_annotations_unfold. fold hp gp.
  destruct (types_conflict (type (deref h hp)) (type (deref h gp))); [done|].
  cbv zeta.
  change (set_type h hp (type_or (type (deref h hp)) (type (deref h gp)))) with h1.
  assert (task_images h1 hp = task_images h hp) as -> by apply task_images_set_type.
  assert (task_images h1 gp = task_images h gp) as -> by apply task_images_set_type.
  fold (stops strategy (task_images h hp) (task_images h gp)).
  destruct (stops strategy (task_images h hp) (task_images h gp)); [done|].
  change (merge_loops task_images set_task_images hp gp hp strategy h1) with h2.
  change (extend_eval_class_ids hp gp h2) with h3.
  rewrite _merge_pair_annotations_unfold. fold hg gg.
  assert (Hh3 : ∀ q, q.2 = GroundTruth → deref h3 q = deref h q).
  { intros q Hq. unfold h3. rewrite deref_extend, decide_False by (by intros <-).
    unfold h2, pair_merged.
    rewrite (merge_loops_frame task_images set_task_images (λ h, deref h q)).
    - rewrite deref_typed, decide_False; [done | by intros <-].
    - intros h' m. apply deref_assign_ne. by intros <-.
    - intros h' m. apply deref_assign_ne. by intros <-.
    - intros h' m. apply deref_assign_ne. by intros <-. }
  rewrite !(Hh3 hg eq_refl), !(Hh3 gg eq_refl).
  destruct (types_conflict (type (deref h hg)) (type (deref h gg))); [done|].
  cbv zeta.
  assert (set_type h3 hg (type_or (type (deref h hg)) (type (deref h gg))) = h4) as ->.
  { unfold h4, typed. by rewrite !(Hh3 hg eq_refl), !(Hh3 gg eq_refl). }
  assert (task_images h4 hg = task_images h hg) as ->.
  { unfold h4, typed. rewrite task_images_set_type. unfold task_images.
    by rewrite Hh3. }
  assert (task_images h4 gg = task_images h gg) as ->.
  { unfold h4, typed. rewrite task_images_set_type. unfold task_images.
    by rewrite Hh3. }
  fold (stops strategy (task_images h hg) (task_images h gg)).
  destruct (stops strategy (task_images h hg) (task_images h gg)); [done|].
  change (merge_loops task_images set_task_images hg gg hg strategy h4) with h5.
  rewrite _merge_annotation_image_cks_unfold.
  assert (Hh5 : ∀ r, cks_of h5 r = cks_of h r).
  { intros r. unfold h5. rewrite cks_of_pair_merged. unfold h3.
    rewrite extend_eval_class_ids_cks. unfold h2. apply cks_of_pair_merged. }
  rewrite !Hh5. fold (stops strategy (cks_of h host) (cks_of h guest)).
  by destruct (stops strategy (cks_of h host) (cks_of h guest)).
Qed.

(** Annotation sets other than the host. *)
Lemma store_assign_other h (host : ref) slot t r :
  r ≠ host → assign h (host, slot) t r = h r.
Proof. intros Hr. unfold assign, store_set. simpl. by rewrite decide_False. Qed.

Lemma store_typed_other h (host : ref) slot g r :
  r ≠ host → typed h (host, slot) g r = h r.
Proof. apply store_assign_other. Qed.

Lemma store_pair_merged_other strategy h (host : ref) slot g r :
  r ≠ host → pair_merged strategy h (host, slot) g r = h r.
Proof.
  intros Hr. unfold pair_merged.
  rewrite (merge_loops_writes_host task_images set_task_images
             task_images_set_eq task_images_set_ne (λ h, h r)).
  - by apply store_typed_other.
  - intros h' m. by apply store_assign_other.
Qed.

Lemma store_extend_other h (host : ref) slot g r :
  r ≠ host → extend_eval_class_ids (host, slot) g h r = h r.
Proof. apply store_assign_other. Qed.

Lemma store_cks_merged_other strategy h (host guest : ref) r :
  r ≠ host → cks_merged strategy h host guest r = h r.
Proof.
  intros Hr. unfold cks_merged.
  rewrite (merge_loops_writes_host cks_of set_cks cks_of_set_eq cks_of_set_ne
             (λ h, h r)); [done|].
  intros h' m. unfold set_cks, store_set. by rewrite decide_False.
Qed.

(** X20.  merge_annotations writes to the host only: every other
    annotation set, the guest among them when it is not the host itself,
    is after the call what it was before, whatever the strategy and
    whether the merge succeeds or fails. *)
Theorem merge_writes_host_only (host guest : ref) (strategy : string) (h : store)
    (other : ref) :
  other ≠ host → (merge_annotations host guest strategy h).1 other = h other.
Proof.
  intros Hr. rewrite merge_annotations_stages. cbv zeta.
  assert (E3 : extend_eval_class_ids (host, Prediction) (guest, Prediction)
                 (pair_merged strategy h (host, Prediction) (guest, Prediction)) other
               = h other).
  { by rewrite store_extend_other, store_pair_merged_other. }
  repeat match goal with |- context [if ?c then _ else _] => destruct c end; simpl.
  - done.
  - by apply store_typed_other.
  - exact E3.
  - by rewrite store_typed_other.
  - by rewrite store_pair_merged_other.
  - by rewrite store_cks_merged_other, store_pair_merged_other.
Qed.

(** Two task annotations with the same images and the same other fields. *)
Definition but_images (t : SingleTaskAnnotations) :=
  (type t, task_class_ids t, map_id_color t, eval_class_ids t, executor_config t,
   model t).

Lemma task_eq t t' :
  but_images t = but_images t' → image_annotations t = image_annotations t' → t = t'.
Proof. destruct t, t'. unfold but_images. simpl. by intros [= -> -> -> -> -> ->] ->. Qed.

(** The host's task after its pair is merged. *)
Lemma deref_pair_merged strategy h p g :
  deref (pair_merged strategy h p g) p
  = with_image_annotations
      (merged_map (task_images h p) (task_images h g) strategy)
      (with_type (type_or (type (deref h p)) (type (deref h g))) (deref h p)).
Proof.
  apply task_eq.
  - unfold pair_merged. rewrite (deref_loops but_images) by done.
    by rewrite deref_typed, decide_True.
  - apply task_images_pair_merged.
Qed.

(** What the merge of a pair leaves alone in every task: all but the type
    and the images. *)
Lemma deref_pair_merged_fields {A} (obs : SingleTaskAnnotations → A) strategy h p g q :
  (∀ m t, obs (with_image_annotations m t) = obs t) →
  (∀ ty t, obs (with_type ty t) = obs t) →
  obs (deref (pair_merged strategy h p g) q) = obs (deref h q).
Proof.
  intros Himages Htype. unfold pair_merged. rewrite (deref_loops obs) by done.
  rewrite deref_typed. by case_decide; subst.
Qed.

(** The merge of one slot leaves the other slot alone. *)
Lemma deref_pair_merged_slot strategy h (host guest : ref) slot q :
  q.2 ≠ slot → deref (pair_merged strategy h (host, slot) (guest, slot)) q = deref h q.
Proof.
  intros Hq. unfold pair_merged.
  rewrite (merge_loops_frame task_images set_task_images (λ h, deref h q)).
  - rewrite deref_typed, decide_False; [done | by intros <-].
  - intros h' m. apply deref_assign_ne. by intros <-.
  - intros h' m. apply deref_assign_ne. by intros <-.
  - intros h' m. apply deref_assign_ne. by intros <-.
Qed.

(** The host's predictions once the evaluation class ids are extended, and
    its ground truths once their pair is merged. *)
Definition merged_prediction (strategy : string) (host guest : MirAnnotations) :
    SingleTaskAnnotations :=
  with_eval_class_ids
    (eval_class_ids (prediction host) ++ eval_class_ids (prediction guest))
    (with_image_annotations
       (merged_map (image_annotations (prediction host))
          (image_annotations (prediction guest)) strategy)
       (with_type (type_or (type (prediction host)) (type (prediction guest)))
          (prediction host))).

Definition merged_ground_truth (strategy : string) (host guest : MirAnnotations) :
    SingleTaskAnnotations :=
  with_image_annotations
    (merged_map (image_annotations (ground_truth host))
       (image_annotations (ground_truth guest)) strategy)
    (with_type (type_or (type (ground_truth host)) (type (ground_truth guest)))
       (ground_truth host)).

Lemma deref_extended strategy h (host guest : ref) :
  deref (extend_eval_class_ids (host, Prediction) (guest, Prediction)
           (pair_merged strategy h (host, Prediction) (guest, Prediction)))
    (host, Prediction)
  = merged_prediction strategy (h host) (h guest).
Proof.
  rewrite deref_extend, decide_True by done.
  rewrite (deref_pair_merged_fields eval_class_ids _ _ _ _ (guest, Prediction))
    by done.
  by rewrite deref_pair_merged.
Qed.

(** The store once the predictions are merged and their evaluation class
    ids extended. *)
Definition extended (strategy : string) (h : store) (host guest : ref) : store :=
  extend_eval_class_ids (host, Prediction) (guest, Prediction)
    (pair_merged strategy h (host, Prediction) (guest, Prediction)).

Lemma ground_truth_extended strategy h host guest (q : task_ref) :
  q.2 = GroundTruth → deref (extended strategy h host guest) q = deref h q.
Proof.
  intros Hq. unfold extended. rewrite deref_extend, decide_False.
  - apply deref_pair_merged_slot. by rewrite Hq.
  - intros <-. done.
Qed.

Lemma ground_truth_merged strategy h host guest :
  deref (pair_merged strategy (extended strategy h host guest) (host, GroundTruth)
           (guest, GroundTruth)) (host, GroundTruth)
  = merged_ground_truth strategy (h host) (h guest).
Proof.
  rewrite deref_pair_merged. unfold task_images.
  by rewrite !ground_truth_extended.
Qed.

Lemma cks_extended strategy h host guest r :
  cks_of (extended strategy h host guest) r = cks_of h r.
Proof. unfold extended. by rewrite extend_eval_class_ids_cks, cks_of_pair_merged. Qed.

(** The host after the last stage. *)
Lemma host_merged strategy h host guest :
  cks_merged strategy
    (pair_merged strategy (extended strategy h host guest) (host, GroundTruth)
       (guest, GroundTruth)) host guest host
  = {| prediction := merged_prediction strategy (h host) (h guest);
       ground_truth := merged_ground_truth strategy (h host) (h guest);
       image_cks := merged_map (image_cks (h host)) (image_cks (h guest)) strategy |}.
Proof.
  set (h6 := cks_merged _ _ _ _).
  assert (prediction (h6 host) = merged_prediction strategy (h host) (h guest)) as Hp.
  { change (prediction (h6 host)) with (deref h6 (host, Prediction)). unfold h6.
    rewrite deref_cks_merged, deref_pair_merged_slot by done.
    apply deref_extended. }
  assert (ground_truth (h6 host) = merged_ground_truth strategy (h host) (h guest))
    as Hg.
  { change (ground_truth (h6 host)) with (deref h6 (host, GroundTruth)). unfold h6.
    rewrite deref_cks_merged. apply ground_truth_merged. }
  assert (image_cks (h6 host)
          = merged_map (image_cks (h host)) (image_cks (h guest)) strategy) as Hc.
  { change (image_cks (h6 host)) with (cks_of h6 host). unfold h6.
    rewrite cks_of_cks_merged, !cks_of_pair_merged, !cks_extended. done. }
  destruct (h6 host). simpl in Hp, Hg, Hc. by subst.
Qed.

(** X21.  When merge_annotations succeeds, the host holds, for the
    predictions, for the ground truths and for the image custom keys, the
    union of the host's and the guest's entries, where an asset id of both
    has the guest's entry under the strategy guest and the host's
    otherwise; the type of each task is the host's if it is known and the
    guest's otherwise; the evaluation class ids of the predictions are the
    host's followed by the guest's; every other field is as the host had
    it. *)
Theorem merge_annotations_result (host guest : ref) (strategy : string)
    (h h' : store) :
  merge_annotations host guest strategy h = (h', Ok tt) →
  h' host
  = {| prediction :=
         with_eval_class_ids
           (eval_class_ids (prediction (h host))
            ++ eval_class_ids (prediction (h guest)))
           (with_image_annotations
              (merged_map (image_annotations (prediction (h host)))
                 (image_annotations (prediction (h guest))) strategy)
              (with_type
                 (type_or (type (prediction (h host))) (type (prediction (h guest))))
                 (prediction (h host))));
       ground_truth :=
         with_image_annotations
           (merged_map (image_annotations (ground_truth (h host)))
              (image_annotations (ground_truth (h guest))) strategy)
           (with_type
              (type_or (type (ground_truth (h host))) (type (ground_truth (h guest))))
              (ground_truth (h host)));
       image_cks := merged_map (image_cks (h host)) (image_cks (h guest)) strategy |}.
Proof.
  rewrite merge_annotations_stages. cbv zeta.
  repeat match goal with |- context [if ?c then _ else _] => destruct c end;
    try discriminate.
  intros [= <-]. apply host_merged.
Qed.

Lemma stops_true {V} strategy (H0 G0 : gmap string V) :
  stops strategy H0 G0 = true ↔ strategy = "stop" ∧ dom H0 ∩ dom G0 ≠ ∅.
Proof. apply stop_test. Qed.

Lemma stops_false {V} strategy (H0 G0 : gmap string V) :
  strategy ≠ "stop" ∨ dom H0 ∩ dom G0 = ∅ → stops strategy H0 G0 = false.
Proof.
  intros Hn. destruct (stops strategy H0 G0) eqn:E; [|done].
  apply stops_true in E as [Hs Hj]. by destruct Hn.
Qed.

(** X22.  Under the strategy stop, when the types agree, the predictions
    share no asset id and the ground truths share one, merge_annotations
    fails with the merge error only after the predictions are merged: the
    host then holds the predictions of both sets and the evaluation class
    ids of both, while the images of its ground truths and its image
    custom keys are unchanged. *)
Theorem merge_stops_after_predictions (host guest : ref) (h : store) :
  types_conflict (type (prediction (h host))) (type (prediction (h guest))) = false →
  types_conflict (type (ground_truth (h host))) (type (ground_truth (h guest))) = false →
  dom (image_annotations (prediction (h host)))
  ∩ dom (image_annotations (prediction (h guest))) = ∅ →
  dom (image_annotations (ground_truth (h host)))
  ∩ dom (image_annotations (ground_truth (h guest))) ≠ ∅ →
  let run := merge_annotations host guest "stop" h in
  run.2 = Raise (MirRuntimeError RC_CMD_MERGE_ERROR
                   (Msg "found conflict annotations in strategy stop")) ∧
  prediction (run.1 host)
  = with_eval_class_ids
      (eval_class_ids (prediction (h host)) ++ eval_class_ids (prediction (h guest)))
      (with_image_annotations
         (image_annotations (prediction (h host))
          ∪ image_annotations (prediction (h guest)))
         (with_type
            (type_or (type (prediction (h host))) (type (prediction (h guest))))
            (prediction (h host)))) ∧
  image_annotations (ground_truth (run.1 host))
  = image_annotations (ground_truth (h host)) ∧
  image_cks (run.1 host) = image_cks (h host).
Proof.
  intros Hcp Hcg Hjp Hjg run. unfold run. rewrite merge_annotations_stages. cbv zeta.
  change (deref h (host, Prediction)) with (prediction (h host)).
  change (deref h (guest, Prediction)) with (prediction (h guest)).
  change (deref h (host, GroundTruth)) with (ground_truth (h host)).
  change (deref h (guest, GroundTruth)) with (ground_truth (h guest)).
  rewrite Hcp, Hcg.
  rewrite (stops_false "stop" (task_images h (host, Prediction))) by (by right).
  rewrite (proj2 (stops_true "stop" (task_images h (host, GroundTruth))
                    (task_images h (guest, GroundTruth)))) by done.
  simpl. fold (extended "stop" h host guest).
  set (h4 := typed _ _ _). split_and!.
  - done.
  - change (prediction (h4 host)) with (deref h4 (host, Prediction)). unfold h4.
    rewrite deref_typed, decide_False by done. unfold extended.
    by rewrite deref_extended.
  - change (image_annotations (ground_truth (h4 host)))
      with (task_images h4 (host, GroundTruth)).
    unfold h4, typed. rewrite task_images_set_type. unfold task_images.
    by rewrite ground_truth_extended.
  - change (image_cks (h4 host)) with (cks_of h4 host). unfold h4.
    by rewrite cks_of_typed, cks_extended.
Qed.

(** X23.  Merging a guest without types, images, image custom keys and
    evaluation class ids succeeds under every strategy and leaves the host
    as it was. *)
Theorem merge_empty_guest (host guest : ref) (strategy : string) (h : store) :
  type (prediction (h guest)) = AT_UNKNOWN →
  type (ground_truth (h guest)) = AT_UNKNOWN →
  image_annotations (prediction (h guest)) = ∅ →
  image_annotations (ground_truth (h guest)) = ∅ →
  image_cks (h guest) = ∅ → eval_class_ids (prediction (h guest)) = [] →
  ∃ h', merge_annotations host guest strategy h = (h', Ok tt) ∧ h' host = h host.
Proof.
  intros Htp Htg Hip Hig Hc He. rewrite merge_annotations_stages. cbv zeta.
  change (deref h (host, Prediction)) with (prediction (h host)).
  change (deref h (guest, Prediction)) with (prediction (h guest)).
  change (deref h (host, GroundTruth)) with (ground_truth (h host)).
  change (deref h (guest, GroundTruth)) with (ground_truth (h guest)).
  assert (∀ a, types_conflict a AT_UNKNOWN = false) as Hconflict.
  { intros a. unfold types_conflict. simpl. by rewrite andb_false_r. }
  rewrite Htp, Htg, !Hconflict.
  assert (∀ {V} (H0 G0 : gmap string V), G0 = ∅ → stops strategy H0 G0 = false)
    as Hstops.
  { intros V H0 G0 ->. apply stops_false. right. rewrite dom_empty_L.
    apply (right_absorb_L ∅ (∩)). }
  rewrite !Hstops by done.
  eexists. split; [reflexivity|].
  fold (extended strategy h host guest). rewrite host_merged.
  unfold merged_prediction, merged_ground_truth, merged_map.
  rewrite Htp, Htg, Hip, Hig, Hc, He, app_nil_r.
  rewrite !(left_id_L ∅ (∪)), !(right_id_L ∅ (∪)).
  assert (∀ a, type_or a AT_UNKNOWN = a) as Hor.
  { intros a. unfold type_or. by case_decide. }
  rewrite !Hor.
  destruct (h host) as [[] [] ?]. simpl. by destruct (bool_decide _).
Qed.

(** X24.  A strategy that is not the text stop and whose lower-case form
    is not guest gives the merge of the strategy host: this holds for an
    unknown strategy and for stop written with capitals, which raises no
    conflict. *)
Theorem merge_other_strategy_as_host (host guest : ref) (strategy : string)
    (h : store) :
  strategy ≠ "stop" → lower strategy ≠ "guest" →
  merge_annotations host guest strategy h = merge_annotations host guest "host" h.
Proof.
  intros Hstop Hguest. rewrite !merge_annotations_stages. cbv zeta.
  rewrite !(stops_false strategy) by (by left).
  rewrite !(stops_false "host") by (by left).
  unfold pair_merged, cks_merged.
  rewrite !(merge_loops_as_host _ _ task_images_set_eq task_images_set_ne _ _ strategy)
    by done.
  rewrite !(merge_loops_as_host _ _ cks_of_set_eq cks_of_set_ne _ _ strategy) by done.
  reflexivity.
Qed.

(** ** The pair that stops a merge *)

(** All that an annotation set holds of a pair: the task annotations of
    the predictions or of the ground truths, or the image custom keys. *)
Inductive pair_state :=
| TaskState (t : SingleTaskAnnotations)
| CksState (m : gmap string SingleImageCks).

Definition pair_state_of (p : pair) (h : store) (r : ref) : pair_state :=
  match p with
  | PredictionPair => TaskState (deref h (prediction_of r))
  | GroundTruthPair => TaskState (deref h (ground_truth_of r))
  | ImageCksPair => CksState (cks_of h r)
  end.


(** C3, as the spec states it, in its two parts: under the strategy stop, a
    pair with a joint id makes the merge fail with MergeConflict; and that
    pair of the host is left without any mutation. *)
Definition stop_claim_error : Prop :=
  ∀ (p : pair) (h : store) (host guest : ref),
    pair_ids p h host ∩ pair_ids p h guest ≠ ∅ →
    raises RC_CMD_MERGE_ERROR (merge_annotations host guest "stop" h).2.

Definition stop_claim_untouched : Prop :=
  ∀ (p : pair) (h : store) (host guest : ref),
    pair_ids p h host ∩ pair_ids p h guest ≠ ∅ →
    pair_state_of p (merge_annotations host guest "stop" h).1 host
    = pair_state_of p h host.

Definition stop_claim : Prop := stop_claim_error ∧ stop_claim_untouched.




(** ** Merges of concrete stores *)

Lemma run_returns {S A} (run : S * result A) (v : A) :
  run.2 = Ok v → run = (run.1, Ok v).
Proof. destruct run as [s r]. simpl. by intros ->. Qed.

Lemma merge_writes_host_only_witness :
  (merge_annotations 0%nat 1%nat "guest" joint_store).1 1%nat = joint_store 1%nat.
Proof.
  apply (merge_writes_host_only 0%nat 1%nat "guest" joint_store 1%nat). discriminate.
Defined.

Lemma merge_annotations_result_witness :
  let h := joint_store in
  let host := 0%nat in
  let guest := 1%nat in
  (merge_annotations host guest "guest" h).1 host
  = {| prediction :=
         with_eval_class_ids
           (eval_class_ids (prediction (h host))
            ++ eval_class_ids (prediction (h guest)))
           (with_image_annotations
              (merged_map (image_annotations (prediction (h host)))
                 (image_annotations (prediction (h guest))) "guest")
              (with_type
                 (type_or (type (prediction (h host))) (type (prediction (h guest))))
                 (prediction (h host))));
       ground_truth :=
         with_image_annotations
           (merged_map (image_annotations (ground_truth (h host)))
              (image_annotations (ground_truth (h guest))) "guest")
           (with_type
              (type_or (type (ground_truth (h host))) (type (ground_truth (h guest))))
              (ground_truth (h host)));
       image_cks := merged_map (image_cks (h host)) (image_cks (h guest)) "guest" |}.
Proof.
  apply (merge_annotations_result 0%nat 1%nat "guest" joint_store
           (merge_annotations 0%nat 1%nat "guest" joint_store).1).
  apply run_returns. vm_compute. reflexivity.
Defined.

Lemma merge_stops_after_predictions_witness :
  let h := joint_store in
  let host := 0%nat in
  let guest := 1%nat in
  let run := merge_annotations host guest "stop" h in
  run.2 = Raise (MirRuntimeError RC_CMD_MERGE_ERROR
                   (Msg "found conflict annotations in strategy stop")) ∧
  prediction (run.1 host)
  = with_eval_class_ids
      (eval_class_ids (prediction (h host)) ++ eval_class_ids (prediction (h guest)))
      (with_image_annotations
         (image_annotations (prediction (h host))
          ∪ image_annotations (prediction (h guest)))
         (with_type
            (type_or (type (prediction (h host))) (type (prediction (h guest))))
            (prediction (h host)))) ∧
  image_annotations (ground_truth (run.1 host))
  = image_annotations (ground_truth (h host)) ∧
  image_cks (run.1 host) = image_cks (h host).
Proof.
  apply (merge_stops_after_predictions 0%nat 1%nat joint_store).
  - vm_compute. reflexivity.
  - vm_compute. reflexivity.
  - solve_by_compute.
  - solve_by_compute.
Defined.

(** Here the host has taken the guest's prediction for [c] before the
    merge fails at the ground truths. *)
Example merge_stops_after_predictions_example :
  let run := merge_annotations 0%nat 1%nat "stop" joint_store in
  is_Ok run.2 = false ∧
  dom (image_annotations (prediction (joint_store 0%nat))) = ∅ ∧
  dom (image_annotations (prediction (run.1 0%nat))) = {[ "c" ]}.
Proof. repeat split; vm_compute; reflexivity. Qed.

Lemma merge_empty_guest_witness :
  ∃ h', merge_annotations 0%nat 1%nat "stop" (store_of pets inhabitant) = (h', Ok tt) ∧
        h' 0%nat = store_of pets inhabitant 0%nat.
Proof.
  apply (merge_empty_guest 0%nat 1%nat "stop" (store_of pets inhabitant));
    reflexivity.
Defined.

Lemma merge_other_strategy_as_host_witness :
  merge_annotations 0%nat 1%nat "Stop" joint_store
  = merge_annotations 0%nat 1%nat "host" joint_store.
Proof.
  apply (merge_other_strategy_as_host 0%nat 1%nat "Stop" joint_store).
  - discriminate.
  - vm_compute. discriminate.
Defined.

(** Host and guest hold ground truths for the asset [a]; the host's have
    no type yet, the guest's are boxes. *)
Definition untyped_store : store :=
  store_of
    {| prediction := inhabitant;
       ground_truth := task_of AT_UNKNOWN {[ "a" := image_of 1 ]}; image_cks := ∅ |}
    {| prediction := inhabitant;
       ground_truth := task_of AT_DET_BOX {[ "a" := image_of 2 ]}; image_cks := ∅ |}.



(** The run of the witness: MergeConflict, with the type set. *)
Example merge_stop_conflict_example :
  let run := merge_annotations 0%nat 1%nat "stop" untyped_store in
  run.2 = Raise conflict_annotations ∧
  type (ground_truth (untyped_store 0%nat)) = AT_UNKNOWN ∧
  type (ground_truth (run.1 0%nat)) = AT_DET_BOX ∧
  image_annotations (ground_truth (run.1 0%nat)) = {[ "a" := image_of 1 ]}.
Proof. repeat split; vm_compute; reflexivity. Qed.

End MergeStages.

(* ===================================================================== *)
(** * The layout of the sandbox *)
(* ===================================================================== *)

Module SandboxLayout.
Import Sandbox SandboxTheory ImportFootprint MergeStages.

(** ** The users and the repositories of a sandbox *)

Section Users.

Variable ID_LEN_USER_ID ID_LEN_REPO_ID : nat.

Lemma user_ids_NoDup (root : fs) : NoDup (user_ids ID_LEN_USER_ID root).
Proof. apply NoDup_filter, NoDup_fst_map_to_list. Qed.

Lemma listdir_elem_of (n : option node) names name :
  listdir n = Ok names → name ∈ names ↔ is_Some (child n name).
Proof.
  destruct n as [[|entries]|]; simpl; try discriminate. intros [= <-].
  rewrite list_elem_of_fmap. split.
  - intros ([k v] & -> & Hin). apply elem_of_map_to_list in Hin. eauto.
  - intros [v Hv]. exists (name, v). split; [done|]. by apply elem_of_map_to_list.
Qed.

(** X25.  When _detect_users_and_repos succeeds, it lists every user once;
    the users are exactly the entries of the root that are directories and
    whose names start with the digits of a user id; the repositories of a
    user are exactly the entries of the user directory whose names start
    with the digits of a repository id and that hold a directory .git. *)
Theorem detect_users_and_repos_finds (root : fs)
    (user_to_repos : list (string * gset string)) :
  _detect_users_and_repos ID_LEN_USER_ID ID_LEN_REPO_ID root = Ok user_to_repos →
  NoDup user_to_repos.*1 ∧
  (∀ user_id, user_id ∈ user_to_repos.*1 ↔
              match_digits ID_LEN_USER_ID user_id = true ∧ isdir (root !! user_id) = true) ∧
  ∀ user_id repo_ids repo_id,
    (user_id, repo_ids) ∈ user_to_repos →
    (repo_id ∈ repo_ids ↔
     match_digits ID_LEN_REPO_ID repo_id = true ∧
     isdir (child (child (root !! user_id) repo_id) ".git") = true).
Proof.
  intros Hdetect. pose proof Hdetect as [Hids Hdirs]%detect_inv. split_and!.
  - rewrite Hids. apply user_ids_NoDup.
  - intros u. rewrite Hids, elem_of_user_ids. split.
    + intros [Hu Hsome]. split; [done|]. apply Hdirs. by apply elem_of_user_ids.
    + intros [Hu Hdir]. split; [done|]. by destruct (root !! u).
  - rewrite detect_unfold in Hdetect. apply mapM_result_inv in Hdetect.
    intros u repos r Hin.
    apply list_elem_of_lookup in Hin as [i Hi].
    destruct (Forall2_lookup_r _ _ _ _ _ Hdetect Hi) as (u' & _ & Hu').
    unfold detect_user in Hu'.
    destruct (listdir (root !! u')) as [repo_ids|] eqn:Hlist; [|discriminate].
    simpl in Hu'. injection Hu' as -> <-.
    rewrite elem_of_list_to_set, list_elem_of_filter, (listdir_elem_of _ _ _ Hlist).
    rewrite Is_true_true, andb_true_iff. split; [tauto|].
    intros [Hr Hgit]. split_and!; try done.
    by destruct (child (root !! u) r).
Qed.

Lemma mapM_first_error {A B} (f : A → result B) (l : list A) (x : A) (e : exn) :
  x ∈ l → f x = Raise e → (∀ y e', y ∈ l → f y = Raise e' → e' = e) →
  mapM f l = Raise e.
Proof.
  induction l as [|y l IH]; intros Hx Hfx Hall; [by apply elem_of_nil in Hx|].
  simpl. destruct (f y) as [b|e'] eqn:Hy; simpl.
  - apply elem_of_cons in Hx as [->|Hx]; [congruence|].
    rewrite IH; [done | done | done |]. intros z e'' Hz. apply Hall. by right.
  - f_equal. eapply Hall; [left | done].
Qed.

(** X26.  A file in the sandbox root whose name starts with the digits of
    a user id makes _detect_users_and_repos raise NotADirectoryError. *)
Theorem detect_users_and_repos_stray_file (root : fs) (name data : string) :
  match_digits ID_LEN_USER_ID name = true → root !! name = Some (File data) →
  _detect_users_and_repos ID_LEN_USER_ID ID_LEN_REPO_ID root = Raise NotADirectoryError.
Proof.
  intros Hname Hfile. rewrite detect_unfold.
  apply (mapM_first_error _ _ name).
  - apply elem_of_user_ids. split; [done|]. by rewrite Hfile.
  - unfold detect_user. by rewrite Hfile.
  - intros u e [_ [n Hn]]%elem_of_user_ids. unfold detect_user. rewrite Hn.
    destruct n; simpl; [by intros [= <-] | discriminate].
Qed.

End Users.

(** ** The version of a sandbox *)

Section Versions.

Variable ID_LEN_USER_ID ID_LEN_REPO_ID : nat.
Variable DEFAULT_YMIR_SRC_VERSION : string.
Variable yaml_safe_load : string → yaml_value.

(** The version of a user: that of its label file, when the file holds a
    dictionary. *)
Definition user_version (root : fs) (user_id : string) : option string :=
  match child (root !! user_id) "labels.yaml" with
  | Some (File text) =>
      match yaml_safe_load text with
      | YamlDict ymir_version => Some (default DEFAULT_YMIR_SRC_VERSION ymir_version)
      | _ => None
      end
  | _ => None
  end.

Lemma detect_user_ver_Ok root user_id ver_to_users d :
  detect_user_ver DEFAULT_YMIR_SRC_VERSION yaml_safe_load root user_id ver_to_users
  = (d, Ok tt) →
  ∃ ver, user_version root user_id = Some ver ∧ d = append_user ver user_id ver_to_users.
Proof.
  unfold detect_user_ver, user_version.
  destruct (child (root !! user_id) "labels.yaml") as [[text|]|]; try discriminate.
  destruct (yaml_safe_load text) as [|ver|]; try discriminate.
  intros [= <-]. eauto.
Qed.

Lemma detect_user_ver_version root user_id ver ver_to_users :
  user_version root user_id = Some ver →
  detect_user_ver DEFAULT_YMIR_SRC_VERSION yaml_safe_load root user_id ver_to_users
  = (append_user ver user_id ver_to_users, Ok tt).
Proof.
  unfold detect_user_ver, user_version.
  destruct (child (root !! user_id) "labels.yaml") as [[text|]|]; try discriminate.
  destruct (yaml_safe_load text) as [|v|]; try discriminate.
  by intros [= <-].
Qed.

Lemma dict_keys_set_here {V} (d : pydict string V) k v : k ∈ dict_keys (dict_set d k v).
Proof.
  unfold dict_keys. induction d as [|[k0 v0] d IH]; simpl; [left|].
  case_decide; simpl; [left | by right].
Qed.

Lemma dict_keys_set_old {V} (d : pydict string V) k v k' :
  k' ∈ dict_keys d → k' ∈ dict_keys (dict_set d k v).
Proof.
  unfold dict_keys. induction d as [|[k0 v0] d IH]; simpl; [by intros ?%elem_of_nil|].
  intros [->|Hin]%elem_of_cons; case_decide; subst; simpl.
  - left.
  - left.
  - by right.
  - right. by apply IH.
Qed.

(** The versions seen by the loop over the users are keys of
    [ver_to_users]. *)
Lemma detect_versions_seen root users : ∀ ver_to_users d,
  for_each users (detect_user_ver DEFAULT_YMIR_SRC_VERSION yaml_safe_load root)
    ver_to_users = (d, Ok tt) →
  (∀ ver, ver ∈ dict_keys ver_to_users → ver ∈ dict_keys d) ∧
  (∀ u, u ∈ users → ∃ ver, user_version root u = Some ver ∧ ver ∈ dict_keys d) ∧
  (users = [] → d = ver_to_users).
Proof.
  induction users as [|u users IH]; intros acc d Hrun; simpl in Hrun.
  - injection Hrun as <-. split_and!; [done | | done].
    intros u Hu. by apply elem_of_nil in Hu.
  - unfold mbind, M_bind in Hrun.
    destruct (detect_user_ver _ _ root u acc) as [d1 [[]|e]] eqn:Hu; [|discriminate].
    apply detect_user_ver_Ok in Hu as (ver & Hver & ->).
    destruct (IH _ _ Hrun) as (Hkeys & Hseen & _). split_and!; [| |done].
    + intros k Hk. apply Hkeys. by apply dict_keys_set_old.
    + intros u' [->|Hu']%elem_of_cons; [|by apply Hseen].
      exists ver. split; [done|]. apply Hkeys, dict_keys_set_here.
Qed.

(** The loop over users that all have the version [ver]. *)
Lemma detect_one_version root ver users : ∀ us,
  (∀ u, u ∈ users → user_version root u = Some ver) →
  for_each users (detect_user_ver DEFAULT_YMIR_SRC_VERSION yaml_safe_load root)
    [(ver, us)] = ([(ver, us ++ users)], Ok tt).
Proof.
  induction users as [|u users IH]; intros us Hall; simpl.
  - by rewrite app_nil_r.
  - unfold mbind, M_bind.
    rewrite (detect_user_ver_version root u ver) by (apply Hall; left).
    unfold append_user. simpl. rewrite !decide_True by done. simpl.
    rewrite IH by (intros; apply Hall; by right).
    by rewrite <- app_assoc.
Qed.

(** X27.  detect_sandbox_src_ver returns a version exactly when the
    sandbox has at least one entry named like a user id, every such entry
    is a directory, and the label file of every one of them is a readable
    YAML dictionary with that version, the default version standing for a
    missing ymir_version. *)
Theorem detect_sandbox_src_ver_one_version (root : fs) (ver : string) :
  detect_sandbox_src_ver ID_LEN_USER_ID ID_LEN_REPO_ID DEFAULT_YMIR_SRC_VERSION
    yaml_safe_load root = Ok ver ↔
  (∃ user_id, match_digits ID_LEN_USER_ID user_id = true ∧ is_Some (root !! user_id)) ∧
  ∀ user_id, match_digits ID_LEN_USER_ID user_id = true → is_Some (root !! user_id) →
             isdir (root !! user_id) = true ∧ user_version root user_id = Some ver.
Proof.
  unfold detect_sandbox_src_ver. split.
  - destruct (_detect_users_and_repos _ _ root) as [users|] eqn:Hdetect;
      [|discriminate]. simpl.
    apply detect_inv in Hdetect as [Hids Hdirs].
    destruct (for_each users.*1
                (detect_user_ver DEFAULT_YMIR_SRC_VERSION yaml_safe_load root) [])
      as [d [[]|e]] eqn:Hloop; [|discriminate].
    destruct d as [|[v us] [|]]; try discriminate. intros [= ->].
    apply detect_versions_seen in Hloop as (_ & Hseen & Hnil). split.
    + destruct (users.*1) as [|u l] eqn:E; [by specialize (Hnil eq_refl)|].
      exists u. apply elem_of_user_ids. rewrite <- Hids. left.
    + intros u Hu Hsome.
      assert (u ∈ user_ids ID_LEN_USER_ID root) as Hin by (by apply elem_of_user_ids).
      split; [by apply Hdirs|].
      rewrite <- Hids in Hin. destruct (Hseen u Hin) as (v & Hv & Hkey).
      apply list_elem_of_singleton in Hkey. by subst.
  - intros [(u0 & Hu0 & Hsome0) Hall].
    destruct (detect_Ok ID_LEN_USER_ID ID_LEN_REPO_ID root) as [users Hdetect].
    { intros u [Hu Hsome]%elem_of_user_ids. by apply Hall. }
    rewrite Hdetect. simpl. apply detect_inv in Hdetect as [Hids _].
    assert (Hvers : ∀ u, u ∈ users.*1 → user_version root u = Some ver).
    { intros u Hu. rewrite Hids in Hu. apply elem_of_user_ids in Hu as [Hu Hsome].
      by apply Hall. }
    destruct (users.*1) as [|u l] eqn:E.
    { assert (u0 ∈ user_ids ID_LEN_USER_ID root) as Hin by (by apply elem_of_user_ids).
      rewrite <- Hids in Hin. by apply elem_of_nil in Hin. }
    simpl. unfold mbind, M_bind.
    rewrite (detect_user_ver_version root u ver) by (apply Hvers; left).
    unfold append_user. simpl.
    rewrite detect_one_version by (intros; apply Hvers; by right). done.
Qed.

End Versions.

(** ** The backup directory *)

Section Backup.

Variable ID_LEN_USER_ID ID_LEN_REPO_ID : nat.
Hypothesis user_id_not_empty : (0 < ID_LEN_USER_ID)%nat.

Abbreviation is_user_id name := (match_digits ID_LEN_USER_ID name = true).

(** X28.  When the backup directory exists and is not empty, _backup and
    update fail with BACKUP_DIR_NOT_EMPTY and the sandbox is unchanged: no
    upgrade function is called. *)
Theorem update_needs_empty_backup (order : repo_order)
    (update_funcs : list update_func) (root : fs) (kept : gmap string node) :
  root !! "backup" = Some (Dir kept) → kept ≠ ∅ →
  ∃ message,
    _backup ID_LEN_USER_ID ID_LEN_REPO_ID root
    = (root, Raise (SandboxError BACKUP_DIR_NOT_EMPTY message)) ∧
    update ID_LEN_USER_ID ID_LEN_REPO_ID order update_funcs root
    = (root, Raise (SandboxError BACKUP_DIR_NOT_EMPTY message)).
Proof.
  intros Hbackup Hkept. unfold update, _backup. rewrite Hbackup. simpl.
  destruct (map_to_list kept) as [|[k v] l] eqn:E.
  { by apply map_to_list_empty_iff in E. }
  simpl. by eexists.
Qed.

(** The loop of [_backup] succeeds on user directories that have no
    backup yet. *)
Lemma backup_users_ok us : ∀ root1 B0,
  root1 !! "backup" = Some (Dir B0) → NoDup us →
  (∀ u, u ∈ us → u ≠ "backup" ∧ isdir (root1 !! u) = true ∧ B0 !! u = None) →
  ∃ root_b, for_each us backup_user root1 = (root_b, Ok tt).
Proof.
  induction us as [|u us IH]; intros root1 B0 Hb Hnodup Hus; simpl; [by eexists|].
  apply NoDup_cons in Hnodup as [Hu Hnodup].
  destruct (Hus u) as (Hne & Hdir & Hnone); [left|].
  unfold mbind, M_bind, backup_user at 1. rewrite Hb.
  destruct (root1 !! u) as [[|es]|] eqn:Eu; try discriminate. simpl. rewrite Hnone.
  apply (IH _ (<[u := Dir es]> B0)); [by rewrite lookup_insert_eq | done |].
  intros v Hv. destruct (Hus v) as (Hvne & Hvdir & Hvnone); [by right|].
  split_and!; [done | by rewrite lookup_insert_ne |].
  rewrite lookup_insert_ne; [done|]. by intros ->.
Qed.

(** [_backup] succeeds when there is no backup, or an empty one, and every
    entry with the name of a user is a directory. *)
Lemma backup_ok (root : fs) :
  root !! "backup" = None ∨ root !! "backup" = Some (Dir ∅) →
  (∀ u, is_user_id u → is_Some (root !! u) → isdir (root !! u) = true) →
  ∃ root_b, _backup ID_LEN_USER_ID ID_LEN_REPO_ID root = (root_b, Ok tt).
Proof.
  intros Hbackup Hdirs.
  assert (∀ root1, root1 !! "backup" = Some (Dir ∅) →
            (∀ u, u ≠ "backup" → root1 !! u = root !! u) →
            ∃ root_b,
              match _detect_users_and_repos ID_LEN_USER_ID ID_LEN_REPO_ID root1 with
              | Raise e => (root1, Raise e)
              | Ok user_to_repos => for_each user_to_repos.*1 backup_user root1
              end = (root_b, Ok tt)) as Hrest; last first.
  { unfold _backup. destruct Hbackup as [E | E]; rewrite E; cbv zeta.
    - rewrite lookup_insert_eq. simpl. rewrite map_to_list_empty. simpl.
      apply Hrest; [apply lookup_insert_eq|]. intros u Hu. by apply lookup_insert_ne.
    - rewrite ?E. simpl. rewrite ?E. simpl. rewrite map_to_list_empty. simpl.
      by apply Hrest. }
  intros root1 Hb1 Hsame.
  assert (Hdirs1 : ∀ u, u ∈ user_ids ID_LEN_USER_ID root1 → isdir (root1 !! u) = true).
  { intros u [Hu Hsome]%elem_of_user_ids.
    pose proof (user_id_not_backup _ user_id_not_empty u Hu) as Hne.
    rewrite Hsame in * by done. by apply Hdirs. }
  destruct (detect_Ok ID_LEN_USER_ID ID_LEN_REPO_ID root1 Hdirs1) as [users Hdetect].
  rewrite Hdetect. apply detect_inv in Hdetect as [Hids _].
  apply (backup_users_ok _ _ ∅ Hb1).
  - rewrite Hids. apply user_ids_NoDup.
  - intros u Hu. rewrite Hids in Hu. specialize (Hdirs1 u Hu).
    apply elem_of_user_ids in Hu as [Hu _].
    split_and!; [by apply (user_id_not_backup _ user_id_not_empty) | done | done].
Qed.

Lemma for_each_noop {S A} (xs : list A) (body : A → M S unit) s :
  (∀ x s, body x s = (s, Ok tt)) → for_each xs body s = (s, Ok tt).
Proof.
  intros Hbody. induction xs as [|x xs IH]; simpl; [done|].
  unfold mbind, M_bind. by rewrite Hbody.
Qed.

(** The sandbox right after [_backup], rolled back. *)
Lemma roll_back_after_backup (root root_b : fs) :
  _backup ID_LEN_USER_ID ID_LEN_REPO_ID root = (root_b, Ok tt) →
  _roll_back ID_LEN_USER_ID ID_LEN_REPO_ID root_b = (delete "backup" root, Ok tt) ∧
  delete "backup" root_b = delete "backup" root ∧
  ∃ users, _detect_users_and_repos ID_LEN_USER_ID ID_LEN_REPO_ID root_b = Ok users.
Proof.
  intros Hbackup.
  destruct (backup_spec _ _ user_id_not_empty root root_b Hbackup) as (B & -> & HB & Hdirs).
  set (root_b := <["backup" := Dir B]> root).
  assert (Hb : root_b !! "backup" = Some (Dir B)) by apply lookup_insert_eq.
  assert (Hsame : ∀ u, is_user_id u → root_b !! u = root !! u).
  { intros u Hu%(user_id_not_backup _ user_id_not_empty). by apply lookup_insert_ne. }
  destruct (detect_Ok ID_LEN_USER_ID ID_LEN_REPO_ID root_b) as [users Hdetect].
  { intros u [Hu Hsome]%elem_of_user_ids. rewrite Hsame in * by done. by apply Hdirs. }
  split_and!; [|apply delete_insert_eq | by eexists].
  unfold _roll_back. rewrite Hdetect. apply detect_inv in Hdetect as [Hids Hudirs].
  destruct (restore_users_spec B users.*1 root_b Hb) as (root_j & Hj & Hbj & Hin & Hout).
  { intros u Hu. rewrite Hids in Hu. pose proof (Hudirs u Hu) as Hdir.
    apply elem_of_user_ids in Hu as [Hu Hsome].
    split_and!; [by apply (user_id_not_backup _ user_id_not_empty) | done |].
    rewrite HB by done. by rewrite <- Hsame. }
  unfold mbind, M_bind. rewrite Hj. unfold _remove_backup, rmtree. rewrite Hbj.
  f_equal. apply map_eq. intros k.
  destruct (decide (k = "backup")) as [->|Hk]; [by rewrite !lookup_delete_eq|].
  rewrite !lookup_delete_ne by done.
  destruct (decide (k ∈ users.*1)) as [Hus|Hus].
  - rewrite (Hin k Hus). apply HB. rewrite Hids in Hus.
    by apply elem_of_user_ids in Hus as [? _].
  - rewrite (Hout k Hus). unfold root_b. by rewrite lookup_insert_ne.
Qed.

(** X29.  For a user-id pattern of at least one digit, a roll back right
    after a successful backup succeeds and gives the sandbox as it was
    before the backup, without backup directory. *)
Theorem backup_then_roll_back (root root_b : fs) :
  _backup ID_LEN_USER_ID ID_LEN_REPO_ID root = (root_b, Ok tt) →
  _roll_back ID_LEN_USER_ID ID_LEN_REPO_ID root_b = (delete "backup" root, Ok tt).
Proof. intros Hbackup. by apply roll_back_after_backup. Qed.

(** X30.  For a user-id pattern of at least one digit: with no upgrade
    function, with no backup directory or an empty one, and with every
    entry named like a user id being a directory, update succeeds and
    leaves the sandbox as it was, without backup directory. *)
Theorem update_without_upgrades (order : repo_order) (root : fs) :
  root !! "backup" = None ∨ root !! "backup" = Some (Dir ∅) →
  (∀ user_id, is_user_id user_id → is_Some (root !! user_id) →
              isdir (root !! user_id) = true) →
  update ID_LEN_USER_ID ID_LEN_REPO_ID order [] root = (delete "backup" root, Ok tt).
Proof.
  intros Hbackup Hdirs.
  destruct (backup_ok root Hbackup Hdirs) as [root_b Hrun].
  destruct (roll_back_after_backup root root_b Hrun) as (_ & Hdelete & users & Hdetect).
  unfold update. rewrite Hrun, Hdetect.
  assert (run_update_funcs order users [] root_b = (root_b, Ok tt)) as ->.
  { unfold run_update_funcs. apply for_each_noop. intros [u repos] s.
    by apply for_each_noop. }
  unfold _remove_backup, rmtree.
  destruct (backup_spec _ _ user_id_not_empty root root_b Hrun) as (B & -> & _).
  rewrite lookup_insert_eq. by rewrite Hdelete.
Qed.

End Backup.

(** ** Concrete sandboxes *)

Lemma detect_users_and_repos_finds_witness :
  let user_to_repos := [("0001", ({[ "000001"; "000002"; "000003" ]} : gset string))] in
  NoDup user_to_repos.*1 ∧
  (∀ user_id, user_id ∈ user_to_repos.*1 ↔
              match_digits 4 user_id = true ∧ isdir (sandbox !! user_id) = true) ∧
  ∀ user_id repo_ids repo_id,
    (user_id, repo_ids) ∈ user_to_repos →
    (repo_id ∈ repo_ids ↔
     match_digits 6 repo_id = true ∧
     isdir (child (child (sandbox !! user_id) repo_id) ".git") = true).
Proof.
  apply (detect_users_and_repos_finds 4 6 sandbox
           [("0001", {[ "000001"; "000002"; "000003" ]})]).
  vm_compute. reflexivity.
Defined.

Lemma detect_users_and_repos_stray_file_witness :
  _detect_users_and_repos 4 6 (<["0002" := File "notes"]> sandbox)
  = Raise NotADirectoryError.
Proof.
  apply (detect_users_and_repos_stray_file 4 6 (<["0002" := File "notes"]> sandbox)
           "0002" "notes"); reflexivity.
Defined.

Lemma update_needs_empty_backup_witness :
  let root := <["backup" := Dir {[ "0009" := Dir ∅ ]}]> sandbox in
  ∃ message,
    _backup 4 6 root = (root, Raise (SandboxError BACKUP_DIR_NOT_EMPTY message)) ∧
    update 4 6 forwards [upgrade_data] root
    = (root, Raise (SandboxError BACKUP_DIR_NOT_EMPTY message)).
Proof.
  apply (update_needs_empty_backup 4 6 forwards [upgrade_data]
           (<["backup" := Dir {[ "0009" := Dir ∅ ]}]> sandbox) {[ "0009" := Dir ∅ ]}).
  - reflexivity.
  - apply (insert_non_empty (M := gmap string)).
Defined.

Lemma backup_then_roll_back_witness :
  _roll_back 4 6 (_backup 4 6 sandbox).1 = (delete "backup" sandbox, Ok tt).
Proof.
  apply (backup_then_roll_back 4 6 (Nat.lt_0_succ 3) sandbox (_backup 4 6 sandbox).1).
  apply run_returns. vm_compute. reflexivity.
Defined.

Lemma update_without_upgrades_witness :
  update 4 6 backwards [] sandbox = (delete "backup" sandbox, Ok tt).
Proof.
  apply (update_without_upgrades 4 6 (Nat.lt_0_succ 3) backwards sandbox).
  - left. reflexivity.
  - intros user_id Hid [n Hn]. unfold sandbox in *.
    destruct (decide (user_id = "0001")) as [->|Hne]; [reflexivity|].
    rewrite lookup_insert_ne in Hn by done.
    apply lookup_singleton_Some in Hn as [<- _]. discriminate.
Defined.

End SandboxLayout.
